(* ===== verification/_CoqProject ===== *)
-Q . S2P
Prelude.v
Regex.v
Effects.v
Language.v
History.v
RateLimit.v
Typing.v
Engine.v
AIReplyEngine.v
Session.v
Lifecycle.v
Interleaving.v
Server.v
Registry.v
RegistryAsync.v
Contract.v
MultiServer.v
Database.v
Deployment.v
