(* ===== verification/Prelude.v ===== *)
(** * A verification library for the WhatsApp auto-reply gateway

    The repository is a Node.js gateway that keeps browser-driven WhatsApp
    sessions alive and answers incoming messages with text produced by a
    remote completion service.  It comes in two deployments that share no
    state:

    - [server.js] + [src/unnamed/part_000] (class [SessionManager], lines
      1-376) + [src/unnamed/part_001] (class [GeminiAI]): one session, one
      reply engine;
    - [src/unnamed/part_002] (class [WhatsAppBotServer]) +
      [whatsapp-handler.js] (class [WhatsAppHandler]) +
      [src/unnamed/part_000] (class [AIReply], lines 377-868): a registry of
      sessions, one reply engine shared by all of them.

    ** Files, in dependency order

    - [Prelude] (this file): JavaScript strings as lists of UTF-16 code
      units ([text]), the string methods the sources call ([trim],
      [includes], [startsWith], [substring], digit filtering), the
      [parseInt(env) || default] idiom ([parseIntOr]), the array idioms
      [slice(-n)] ([lastN]) and [shift], the loop that deletes from the
      map it iterates over ([delete_where]), [toLowerCase], the decimal
      form of a number in a template literal ([decimal]), the hint
      database [bot] and the tactics shared by all files.
    - [Regex]: the regular expressions of the sources as an inductive
      type with its language ([matches]), a matcher by Brzozowski
      derivatives proved equal to it ([accepts_spec], [lookingAt_spec],
      [test_spec]), greedy and lazy match lengths ([longest],
      [shortest]) with their specifications, [replaceAll] and
      [matchAll], and language equivalence as a setoid.
    - [Effects]: the handler monad.  A handler of the sources is an
      [async] method that mutates [this], calls the adapter or the socket,
      and may throw; it becomes a function [S -> outcome A * S * list act]:
      mutations are never rolled back by a [throw], emitted actions are
      kept in order, [try]/[catch] is [catch].  External calls take their
      result (value or exception) as an argument, so every handler is a
      total executable function of the inputs the outside world supplies.
      Four judgments are carried by every constructor of the monad:
      [keeps] (an invariant), [total] (nothing is thrown), [balanced] (a
      counter follows the calls) and [guards] (an invariant and a
      predicate on every call); [zoom] runs a handler of a component
      inside a handler of the object that owns it.
    - [History]: the two conversation stores,
      [AIReply.updateConversationHistory] / [cleanupOldConversations] and
      [GeminiAI.updateChatHistory] / [clearChatHistory] / [cleanup], as
      [gmap text (list _)], with the cap of ten entries as invariant.
    - [RateLimit]: [AIReply.checkRateLimit] (with JavaScript's operator
      precedence in its guard written out), its specification as a
      fixed-window counter, [GeminiAI.canReply] and the 30 s limiter of
      [part_002].
    - [Typing]: the typing delay of [SessionManager.sendReplyWithTyping]
      and of [WhatsAppHandler.sendMessage], over [Q] (a delay is a double;
      [Math.random] is an argument).
    - [Language]: [GeminiAI.detectLanguage] with its regular expressions
      as scans of the code units, and the fallback replies of [AIReply].
    - [Engine]: the class [ReplyEngine], which states what the message
      pipeline relies on ([generateReply] returns and keeps the engine's
      invariant), and its instance for [GeminiAI]: the state
      ([chatHistory], [lastReplyTime]), [createPrompt], [generateReply] on
      its three paths, [getFallbackReply], [getStats].
    - [AIReplyEngine]: the class [AIReply] of [part_000] (Module
      [AIReply]) and its instance of [ReplyEngine]: the constructor,
      [detectLanguage] over the patterns of the constructor,
      [buildPrompt], [getContextualInstructions], [callGeminiAPI],
      [cleanAIResponse], [generateReply], the special commands,
      [analyzeSentiment], [processAdvancedLanguage], the statistics,
      [healthCheck] and [shutdown]; its history, its rate limiter and its
      fallback replies are in [History], [RateLimit] and [Language].
    - [Session]: [SessionManager] over any [ReplyEngine]: the fields of
      the object, the adapter handles that are live and the methods that
      are suspended at an [await]; one handler per adapter event
      ([setupEventHandlers]), [initializeClient], [restartClient] and
      [stopClient] cut at their [await]s, the message pipeline
      [handleIncomingMessage] with its filters in the order of the
      source, [sendReplyWithTyping], [sendMessage], [getStatus].
    - [Lifecycle]: the state machine of section 4.1 of the
      specification (Module [SessionLifecycle]: [phase], [trigger],
      [transition], modelled from the specification) and
      [SessionManager] as a machine of requests ([request], [handle],
      [exec]): the events of a live adapter handle, the methods that go
      on after an [await], the timers, the stop and the start requests
      of the server.  [observe] reads a request as a trigger of the
      specification, as a step it does not see, or as a step where the
      code leaves it; [matches] relates a phase to the fields
      [isReady], [qrRetries] and [client], the live handles and the
      waiting methods (the object has no field for the phase).
    - [Interleaving]: the message pipeline of [SessionManager] and
      [GeminiAI.generateReply] cut at their [await]s.  The class
      [AwaitingEngine] extends [ReplyEngine] by the two halves of
      [generateReply] (Module [GeminiAwait] for [GeminiAI], lines 21-39
      and 39-56 of [part_001]); Module [AsyncSession] has the eight awaits
      of [handleIncomingMessage] and [sendReplyWithTyping] as [point]s,
      the code up to the first one and from one to the next, and the
      event loop as a machine ([step], [exec]) over the session and the
      runs in flight.
    - [Server]: [WhatsAppBotServer] of [server.js] over [Session] with
      [GeminiAI]: the routes, the socket handlers, the shutdown handler,
      the hourly timer and the error handler of the HTTP server; [step]
      runs one handler or one part of a method, [runs] are the runs of
      the server, [exec] evaluates a sequence of inputs.
    - [Registry]: [WhatsAppHandler]: the map of clients with their
      handles, [createClient], [destroySession], [cleanupAllSessions],
      [restartSession], the event closures that capture a session id,
      [sendMessage], [sendMedia], [getQRCode], [getContactInfo],
      [ensureSessionDirectory], [formatPhoneNumber] and the status
      queries.
    - [RegistryAsync]: [destroySession], [restartSession] and
      [cleanupAllSessions] of [WhatsAppHandler] cut at their awaits
      (Module [AsyncRegistry]): the registry with the methods that wait
      ([pool]), the code up to the first await and from one await to
      the next, and the event loop as a machine ([step], [exec]) that
      runs requests, events of the clients and the rests of the methods
      in any order.
    - [Contract]: the public contract of the registry as the
      specification states it, on the set of live session ids (Module
      [SessionRegistry], modelled from the specification), and the
      proof that [WhatsAppHandler] implements it.
    - [MultiServer]: [WhatsAppBotServer] of [part_002] (Module
      [SessionServer]) over the registry and any [ReplyEngine]: the
      session objects on a heap (the closures of a client keep an object
      alive after it has left [activeSessions]), [init] with the
      database that may be absent, the routes, the socket handlers,
      [createWhatsAppSession] and the closures it registers,
      [handleIncomingMessage], the persistence methods, the two cron
      jobs and the shutdown; [step], [exec], [execs] and [runs] as for
      [Server].
    - [Database]: the MySQL schema of [createTables] and the six
      statements of [part_002] (Module [Database]): the three tables as
      a store, one function per statement with the keys, the foreign
      key and the column types of the schema, and the server run
      against the store ([world], [exec]): an answer that a handler of
      [MultiServer] is given as a success is the answer of the
      database.
    - [Deployment]: [SessionServer] with the engine it is built with,
      [AIReply] (Module [Bot]): the constructor, which throws without an
      API key, and what the composition does.

    ** What the theorems show

    - invariants: the history cap (ten) and the pairing of user and bot
      entries in [GeminiAI]'s store, the counters of the session, the
      registry's capacity bound, each kept by every handler ([keeps]) and
      hence in every reachable state of the server and of the registry;
      [messageCount] is the number of ['message_reply'] events of a run
      ([balanced]);
    - safety: no handler of the server lets an exception escape
      ([total]); what [handleIncomingMessage] sends to a chat is the
      engine's answer or the apology, to the message it handles, at most
      once when the reply succeeds;
    - functional behaviour on every branch, errors included: which
      messages are ignored, when the apology is sent, when nothing is
      sent, what a failed completion leaves, what [createClient] and
      [destroySession] return;
    - refinement: the rate limiter with the guard the comment intends
      implements the fixed-window specification, which allows at most the
      quota per window; the guard as written denies every request; the
      registry implements its contract: the ids of [clients] after any
      sequence of requests and client events are the ids the contract
      gives ([registry_refines]), and [createClient] answers as the
      contract's [create] ([createClient_refines]);
    - the lifecycle ([Lifecycle]): [SessionManager] implements the
      state machine of the specification, by a forward simulation of
      every request ([handle_matches]) and hence of every run
      ([lifecycle_refines]); in such a run at most one adapter handle is
      live and messages are handled in [Ready] only
      ([conforming_session]); the calls of a restart are those of the
      restart policy, with its delays of 5 s and 3 s
      ([restart_policy]); in the other direction every transition of
      the specification but the one of the credential failure is taken
      by some run ([lifecycle_complete]).  The steps where the code
      leaves the specification are theorems of their own:
      ['auth_failure'] changes nothing ([auth_failure_ignored]), a
      [destroy] that fails ends the restart ([restart_gives_up]), a
      start request during a stop loses its client
      ([start_during_stop]) and a start request after a stop keeps the
      retry counter ([start_keeps_counter]);
    - interleaving ([Interleaving]): a run of [handleIncomingMessage]
      that is alone on the event loop is the handler in one piece
      ([alone_is_atomic]); every schedule keeps the invariant of the
      session and the count of replies, and replies only to messages that
      passed the filters; the runs in flight finish within eight pieces
      each ([schedule_drains]); a run that is suspended never looks at
      the session again, so a stop request does not cancel it
      ([stop_does_not_cancel]); [canReply] is tested before
      [await generateContent] and recorded after it, so two calls for one
      contact that overlap are both answered
      ([overlapping_calls_both_answered]) and one message, which arrives
      as ['message_create'] and as ['message'], is answered twice
      ([message_answered_twice]); calls for different contacts do not
      see each other ([contacts_do_not_race]);
    - the registry at its awaits ([RegistryAsync]): alone, the pieces of
      [destroySession] and of [restartSession] are the methods in one
      piece ([destroySession_pieces], [restartSession_pieces]); every
      schedule keeps the capacity bound ([schedule_capacity]); every
      method that waits finishes within three resumptions
      ([schedule_settles]); [cleanupAllSessions] empties the registry in
      whatever order its [destroy()] calls return
      ([cleanupAllSessions_settled]); [destroySession] deletes the entry
      of a session id after its await without looking at the client, so
      two [restartSession] that overlap leave two live clients for one
      session ([overlapping_restarts]), a [createClient] during a
      [destroySession] is given the client that is being destroyed
      ([create_during_destroy]) and two [destroySession] that overlap
      call [destroy()] twice ([overlapping_destroys]);
    - bounds: the typing delay is the configured maximum for long
      replies; the statistics of the engine are bounded by the cap;
    - reachability, by evaluation of [exec]: two live clients after two
      start requests, a restart after a manual stop, one restart after
      four QR codes, clients that the registry no longer knows;
    - for [AIReply]: [generateReply] returns [null] for every message
      (its limiter refuses every attempt), so the object never leaves
      its first state; with a limiter that admits the sender it returns
      the cleaned completion, of at most 500 characters, and records the
      exchange; which messages the patterns take for hinglish;
    - for the server of [part_002]: the well-formedness of every
      reachable state (a typing invariant of the heap of session
      objects, [reachable_wf]); no handler leaves a rejection; no
      statement is sent to a database that is absent; the calls and the
      state of [handleIncomingMessage] path by path; the specification
      of the cleanup job and what it forgets (the registry keeps the
      clients, so capacity leaks); termination of the waiting handlers
      (each resumed handler leaves [pending], [execs_resumes]) and the
      liveness of the shutdown (from every running state the process can
      exit with code 0, [shutdown_exits]);
    - for the database ([Database]): every run keeps the store
      consistent (rows of messages refer to rows of sessions, the
      counter [messages_sent] is an [INT] that is not above the number
      of message rows, [database_consistent]); what [saveMessage]
      stores when the database accepts ([saveMessage_stored]); the
      error paths that the handlers only log: a session whose
      [saveSession] failed has no message stored
      ([unsaved_session_not_stored]), a table that [createTables] did
      not create is never created ([missing_table_stays_missing]); the
      end of a session is never written, so a row says ['connected']
      for ever ([teardown_not_recorded]);
    - for the composition ([Deployment]): the deployed server answers no
      message in any run.

    ** Modelling choices and bounds

    - Time is [Z], in milliseconds, as [Date.now()] returns it; a
      timestamp written with [toISOString] and read back with
      [new Date(s).getTime()] is the same number (both have millisecond
      resolution), so stores keep the number.
    - Numbers that the sources compute in doubles are [Z] where only
      integers occur (counters, lengths, products of a length and a
      constant, all far below 2^53) and [Q] where a division or
      [Math.random()] occurs.  Rounding is monotone, so a comparison
      against a bound that is itself a double integer is unchanged.
    - Strings are lists of code units ([list N]); [length] is JavaScript's
      [length].  A literal is written [js "..."] and decoded from the
      UTF-8 bytes of the source file.
    - An [async] method is run in one piece up to an [await] of a slow
      call ([destroy], [initialize], [sleep], a timer); its rest is a
      pending task that the environment resumes with the result of the
      call, and any handler may run in between.  [Session] runs
      [handleIncomingMessage] in one piece; [Interleaving] cuts it at the
      awaits of calls that leave the process ([getContact], the
      completion, [getChat], [sendStateTyping], [sleep], [clearState],
      [reply]) and lets the event loop run anything between two pieces.
      The await of [geminiAI.generateReply] is a point of its own also
      when the engine returns without waiting, which allows more
      schedules than the event loop has; the await of
      [sendReplyWithTyping] itself, which only yields to promise
      callbacks, is no point.  The bound of eight pieces per run is the
      number of awaits on the longest path.  [Registry] runs the methods
      of the registry in one piece; [RegistryAsync] cuts the three that
      change [clients] after an await ([destroy()], [cleanupSession],
      the timer of 2 s; at most three per method); an await of a method
      that returns without waiting is no point.  The handler of
      [part_002] is run in one piece.
    - A client that [destroy] was called on emits no event from then on.
    - An event of a client of [part_002] runs the handler that the
      registry registered before the closures that
      [createWhatsAppSession] registered, the order of registration.
    - The database is a MySQL server in strict mode (the default) with
      [utf8mb4]: a value that does not fit its column is refused, not
      truncated; [VARCHAR(n)] counts characters (a surrogate pair is
      one), [TEXT] holds at most 65535 bytes of UTF-8, [INT] is 32
      bits.  A statement is atomic.  A statement that a handler saw
      fail left the tables as they were: it was refused, or lost
      before it reached the server.  The driver gives the sum of
      [getSystemStats] as a number.
    - A regular expression is matched by derivatives; under the [i] flag
      an ASCII pattern matches the two cases of its letters and nothing
      else; [toLowerCase] is written out for the code units whose lower
      case can reach the strings it is compared with.
    - No fuel is needed: every function is structurally recursive (the
      matcher on the input, [replaceAll] with a counter of the units to
      skip), and the loops of the sources are folds over the entries of
      a map or over a list.  The witnesses and the scenarios evaluate
      the definitions on concrete inputs.
    - The phases of the specification are read off the object: the
      specification's [DISCONNECTED] is split by whether a restart is
      scheduled ([Disconnected true], with the timer, the [destroy] or
      the sleep of [restartClient] waiting) and the retry counter is
      part of [PendingCredential].  A run of the lifecycle is a finite
      list of requests, each of which must be possible (an event comes
      from a live handle, a method goes on when it waits); the
      simulation quantifies over all of them.

    ** Not modelled

    The middleware of express (helmet, cors, compression, the request
    limiter, the error middleware) and the transport of socket.io, the
    columns of the tables that no statement names, their time stamps
    and [AUTO_INCREMENT] keys, the connection pool beyond its presence,
    QR image rendering, [getPuppeteerOptions] and [logClientInfo] of the
    registry, the files of a session on disk, the body of the HTTP
    request of [callGeminiAPI] beyond the prompt, the response of
    [POST /api/restart], the fields [personality] and [fallbackReply] of
    [AIReply], which no method reads, and logging: they are I/O or
    configuration whose only effect on the modelled state is the result
    value that the handlers take as an argument.  Overlapping runs of
    [handleIncomingMessage] of [part_002] and of the methods of the
    registry that only read [clients] when they start ([sendMessage],
    [sendMedia], [getQRCode], [getContactInfo]) are not interleaved:
    these handlers are run in one piece.
    The contract of the registry speaks of session ids only; which
    client stands behind an id is a property of [Registry].  The state
    machine of the specification is related to [SessionManager] only:
    the sessions of [part_002] have no automatic restart and no retry
    counter, their lifecycle is the well-formedness of [MultiServer]. *)

From Stdlib Require Export ZArith Lia.
From Stdlib Require Ascii String DecimalString.
From stdpp Require Export strings numbers base tactics option gmap sets list.

Set Default Proof Using "Type".

(** ** Hint databases and tactics *)

Create HintDb bot discriminated.
Create Rewrite HintDb bot_rw.

(** [case_bool b] splits on a boolean test of the goal and keeps the
    equation, the way a proof follows an [if] of the source. *)
Ltac case_bool b := let E := fresh "E" in destruct b eqn:E.

(** [case_if] splits on the first [if] of the goal. *)
Ltac case_if :=
  match goal with
  | |- context [if ?b then _ else _] => case_bool b
  end.

(** [bool_to_Z] turns the comparisons of hypotheses and goal into
    propositions for [lia]. *)
Ltac bool_to_Z :=
  repeat match goal with
  | H : (_ <? _)%Z = true |- _ => apply Z.ltb_lt in H
  | H : (_ <? _)%Z = false |- _ => apply Z.ltb_ge in H
  | H : (_ <=? _)%Z = true |- _ => apply Z.leb_le in H
  | H : (_ <=? _)%Z = false |- _ => apply Z.leb_gt in H
  | H : (_ =? _)%Z = true |- _ => apply Z.eqb_eq in H
  | H : (_ =? _)%Z = false |- _ => apply Z.eqb_neq in H
  | H : (_ <? _)%nat = true |- _ => apply Nat.ltb_lt in H
  | H : (_ <? _)%nat = false |- _ => apply Nat.ltb_ge in H
  | H : (_ <=? _)%nat = true |- _ => apply Nat.leb_le in H
  | H : (_ <=? _)%nat = false |- _ => apply Nat.leb_gt in H
  | H : (_ =? _)%nat = true |- _ => apply Nat.eqb_eq in H
  | H : (_ =? _)%nat = false |- _ => apply Nat.eqb_neq in H
  | H : (_ <? _)%N = true |- _ => apply N.ltb_lt in H
  | H : (_ <? _)%N = false |- _ => apply N.ltb_ge in H
  | H : (_ <=? _)%N = true |- _ => apply N.leb_le in H
  | H : (_ <=? _)%N = false |- _ => apply N.leb_gt in H
  | H : (_ =? _)%N = true |- _ => apply N.eqb_eq in H
  | H : (_ =? _)%N = false |- _ => apply N.eqb_neq in H
  | H : negb _ = true |- _ => apply negb_true_iff in H
  | H : negb _ = false |- _ => apply negb_false_iff in H
  | H : (_ && _) = true |- _ => apply andb_true_iff in H; destruct H
  | H : (_ || _) = false |- _ => apply orb_false_iff in H; destruct H
  end.

(** ** JavaScript numbers read from the environment *)

(** [parseInt(process.env.X)] is an integer or [NaN]; [None] is [NaN]
    (the variable is unset or does not start with a number). *)
Abbreviation env_int := (option Z).

(** [parseInt(process.env.X) || d]: [NaN] and [0] are falsy. *)
Definition parseIntOr (e : env_int) (d : Z) : Z :=
  match e with
  | Some n => if (n =? 0)%Z then d else n
  | None => d
  end.

(** ** Arrays *)

Section arrays.
Context {A : Type}.
Implicit Types l k : list A.

(** [l.slice(-n)]: the last [n] elements, all of [l] when it is shorter. *)
Definition lastN (n : nat) l : list A := drop (length l - n) l.

(** [l.shift()] as a statement: the array without its first element. *)
Definition shift l : list A := tail l.

(** [l[l.length - 1]], [undefined] on the empty array. *)
Definition lastElem l : option A := l !! (length l - 1).

Lemma length_lastN n l : length (lastN n l) = n `min` length l.
Proof. unfold lastN. rewrite length_drop. lia. Qed.

Lemma lastN_ge n l : length l ≤ n → lastN n l = l.
Proof. intros H. unfold lastN. by replace (length l - n) with 0 by lia. Qed.

Lemma lastN_app_suffix n l k : length k = n → lastN n (l ++ k) = k.
Proof.
  intros <-. unfold lastN. rewrite length_app.
  replace (length l + length k - length k) with (length l) by lia.
  apply drop_app_length.
Qed.

Lemma lastN_suffix n l : lastN n l `suffix_of` l.
Proof. apply suffix_drop. Qed.

Lemma lastN_app_le n l k :
  n ≤ length k → lastN n (l ++ k) = lastN n k.
Proof.
  intros H. unfold lastN. rewrite length_app, drop_app.
  rewrite drop_ge by lia. simpl. f_equal. lia.
Qed.

Lemma lastN_app_ge n l k :
  length k ≤ n → lastN n (l ++ k) = lastN (n - length k) l ++ k.
Proof.
  intros H. unfold lastN. rewrite length_app, drop_app.
  replace (length l + length k - n - length l) with 0 by lia.
  simpl. f_equal. f_equal. lia.
Qed.

(** Induction two elements at a time. *)
Lemma list_pair_ind (P : list A → Prop) :
  P [] → (∀ x, P [x]) → (∀ x y l, P l → P (x :: y :: l)) → ∀ l, P l.
Proof.
  intros H0 H1 H2 l. cut (P l ∧ ∀ x, P (x :: l)); [tauto|].
  induction l as [|y l [IH1 IH2]]; [by split | split; [apply IH2 | auto]].
Qed.

Lemma length_shift l : length (shift l) = length l - 1.
Proof. destruct l; simpl; lia. Qed.

Lemma shift_lastN l : l ≠ [] → shift l = lastN (length l - 1) l.
Proof.
  destruct l as [|x l]; [done|]. intros _. unfold lastN, shift. simpl.
  by replace (S (length l) - (length l - 0)) with 1 by lia.
Qed.

Lemma lastElem_snoc l x : lastElem (l ++ [x]) = Some x.
Proof.
  unfold lastElem. rewrite length_app. simpl.
  replace (length l + 1 - 1) with (length l) by lia.
  by rewrite lookup_app_r, Nat.sub_diag.
Qed.

Lemma lastElem_nil : lastElem (@nil A) = None.
Proof. done. Qed.

Lemma lastElem_None l : lastElem l = None ↔ l = [].
Proof.
  unfold lastElem. destruct l as [|x l]; [done|]. split; [|done].
  intros H%lookup_ge_None. simpl in H. lia.
Qed.

Lemma lastElem_suffix l k x :
  k ≠ [] → k `suffix_of` l → lastElem l = Some x → lastElem k = Some x.
Proof.
  intros Hk [p ->] H. destruct (exists_last Hk) as (k' & y & ->).
  rewrite lastElem_snoc. rewrite app_assoc, lastElem_snoc in H. done.
Qed.

End arrays.

#[export] Hint Rewrite @length_lastN @length_shift @lastElem_snoc : bot_rw.
#[export] Hint Resolve lastN_suffix : bot.

(** ** Strings *)

(** A JavaScript string: its UTF-16 code units. *)
Abbreviation text := (list N).

(** *** Literals *)

(** Code points of a UTF-8 byte sequence (well-formed input: the literals
    of this development). *)
Fixpoint decode_utf8 (bs : list N) : list N :=
  match bs with
  | [] => []
  | b0 :: r0 =>
    if (b0 <? 0x80)%N then b0 :: decode_utf8 r0 else
    match r0 with
    | [] => []
    | b1 :: r1 =>
      if (b0 <? 0xE0)%N
      then ((b0 - 0xC0) * 0x40 + (b1 - 0x80))%N :: decode_utf8 r1 else
      match r1 with
      | [] => []
      | b2 :: r2 =>
        if (b0 <? 0xF0)%N
        then ((b0 - 0xE0) * 0x1000 + (b1 - 0x80) * 0x40 + (b2 - 0x80))%N
             :: decode_utf8 r2 else
        match r2 with
        | [] => []
        | b3 :: r3 =>
          ((b0 - 0xF0) * 0x40000 + (b1 - 0x80) * 0x1000
           + (b2 - 0x80) * 0x40 + (b3 - 0x80))%N :: decode_utf8 r3
        end
      end
    end
  end.

(** The code units of a code point: itself, or a surrogate pair. *)
Definition code_units (cp : N) : text :=
  if (cp <? 0x10000)%N then [cp]
  else [(0xD800 + (cp - 0x10000) / 0x400)%N; (0xDC00 + (cp - 0x10000) mod 0x400)%N].

(** The string a literal of the source denotes. *)
Definition js (s : String.string) : text :=
  flat_map code_units
    (decode_utf8 (map Ascii.N_of_ascii (String.list_ascii_of_string s))).
Arguments js s%_string.

(** *** Character classes *)

Definition in_range (lo hi c : N) : bool := (lo <=? c)%N && (c <=? hi)%N.

(** [\d] without the [u] flag: ASCII digits. *)
Definition isDigit (c : N) : bool := in_range 48 57 c.

(** [[a-zA-Z]]. *)
Definition isLatin (c : N) : bool := in_range 65 90 c || in_range 97 122 c.

(** Line terminators: what [.] does not match. *)
Definition isLineTerminator (c : N) : bool :=
  (c =? 0x0A)%N || (c =? 0x0D)%N || (c =? 0x2028)%N || (c =? 0x2029)%N.

(** [\s], and what [trim] removes: white space and line terminators. *)
Definition isWhiteSpace (c : N) : bool :=
  in_range 0x09 0x0D c || (c =? 0x20)%N || (c =? 0xA0)%N || (c =? 0x1680)%N
  || in_range 0x2000 0x200A c || (c =? 0x2028)%N || (c =? 0x2029)%N
  || (c =? 0x202F)%N || (c =? 0x205F)%N || (c =? 0x3000)%N || (c =? 0xFEFF)%N.

(** *** Methods *)

(** [s.trimStart()]. *)
Fixpoint trimStart (s : text) : text :=
  match s with
  | [] => []
  | c :: r => if isWhiteSpace c then trimStart r else s
  end.

(** [s.trimEnd()]. *)
Definition trimEnd (s : text) : text := rev (trimStart (rev s)).

(** [s.trim()]. *)
Definition trim (s : text) : text := trimEnd (trimStart s).

(** [s.startsWith(p)]. *)
Fixpoint startsWith (p s : text) : bool :=
  match p, s with
  | [], _ => true
  | _ :: _, [] => false
  | a :: p', b :: s' => (a =? b)%N && startsWith p' s'
  end.

(** [s.includes(p)]. *)
Fixpoint includes (p s : text) : bool :=
  startsWith p s ||
  match s with
  | [] => false
  | _ :: s' => includes p s'
  end.

(** [s.substring(0, n)] for [0 <= n]. *)
Definition substring0 (n : nat) (s : text) : text := take n s.

(** [s.replace(/\D/g, '')]. *)
Definition digitsOf (s : text) : text := filter (λ c, isDigit c = true) s.

(** A string is truthy when it is not empty. *)
Definition nonEmpty (s : text) : bool :=
  match s with [] => false | _ => true end.

(** [a === b] on strings. *)
Definition strictEq (a b : text) : bool := bool_decide (a = b).

(** An optional string is truthy when it is a string and not empty. *)
Definition truthyOpt (o : option text) : bool := nonEmpty (default [] o).

(** The line feed that ['\n'] denotes. *)
Definition nl : text := [10%N].

(** The decimal digits of an integer, as a template literal prints it. *)
Definition decimal (n : Z) : text :=
  js (DecimalString.NilZero.string_of_int (Z.to_int n)).

(** The lower case of a code unit, for the code units whose lower case
    is made of code units that the tests of the sources look for: the
    ASCII capitals, the Kelvin sign and the capital I with a dot.  Every
    other cased letter is left as it is: its lower case lies outside
    ASCII and outside the scripts without case, and the sources use a
    lowered string only in [includes] and [===] against words of ASCII,
    Devanagari and Bengali, which cannot tell. *)
Definition lowerUnit (c : N) : text :=
  if in_range 65 90 c then [(c + 32)%N]
  else if (c =? 0x212A)%N then [107%N]
  else if (c =? 0x0130)%N then [105%N; 0x0307%N]
  else [c].

(** [s.toLowerCase()], up to the letters that [lowerUnit] leaves. *)
Definition toLowerCase (s : text) : text := flat_map lowerUnit s.

(** [process.env.X || d] for a string: unset and empty are falsy. *)
Definition envOr (e : option text) (d : text) : text :=
  match e with
  | Some v => if nonEmpty v then v else d
  | None => d
  end.

(** *** Facts *)

Lemma in_range_true lo hi c : in_range lo hi c = true ↔ (lo ≤ c ≤ hi)%N.
Proof. unfold in_range. rewrite andb_true_iff, !N.leb_le. done. Qed.

Lemma in_range_false lo hi c : in_range lo hi c = false ↔ (c < lo ∨ hi < c)%N.
Proof. unfold in_range. rewrite andb_false_iff, !N.leb_gt. done. Qed.

Lemma isLatin_true c :
  isLatin c = true ↔ (65 ≤ c ≤ 90 ∨ 97 ≤ c ≤ 122)%N.
Proof. unfold isLatin. by rewrite orb_true_iff, !in_range_true. Qed.

Lemma isDigit_true c : isDigit c = true ↔ (48 ≤ c ≤ 57)%N.
Proof. apply in_range_true. Qed.

Lemma startsWith_spec p s : startsWith p s = true ↔ p `prefix_of` s.
Proof.
  revert s. induction p as [|a p IH]; intros s; simpl.
  - split; [intros _; apply prefix_nil | done].
  - destruct s as [|b s]; simpl.
    + split; [done | intros H%prefix_nil_inv; done].
    + rewrite andb_true_iff, N.eqb_eq, IH. split.
      * intros [-> H]. by apply prefix_cons.
      * intros H. split; [by eapply prefix_cons_inv_1 | by eapply prefix_cons_inv_2].
Qed.

Lemma startsWith_app p s : startsWith p (p ++ s) = true.
Proof. apply startsWith_spec, prefix_app_r. done. Qed.

Lemma includes_spec p s : includes p s = true ↔ ∃ a b, s = a ++ p ++ b.
Proof.
  induction s as [|c s IH]; simpl.
  - rewrite orb_false_r, startsWith_spec. split.
    + intros [b ->]. by exists [], b.
    + intros (a & b & H). symmetry in H. apply app_eq_nil in H as [-> H].
      apply app_eq_nil in H as [-> _]. done.
  - rewrite orb_true_iff, startsWith_spec, IH. split.
    + intros [[b ->] | (a & b & ->)]; [by exists [], b | by exists (c :: a), b].
    + intros ([|c' a] & b & H); simpl in H.
      * left. exists b. done.
      * right. injection H as -> ->. by exists a, b.
Qed.

Lemma includes_app_r p a : includes p (a ++ p) = true.
Proof. apply includes_spec. exists a, []. by rewrite app_nil_r. Qed.

Lemma includes_elem p s c : c ∈ p → includes p s = true → c ∈ s.
Proof.
  intros Hc (a & b & ->)%includes_spec. rewrite !elem_of_app. auto.
Qed.

Lemma trimStart_suffix s : trimStart s `suffix_of` s.
Proof.
  induction s as [|c s IH]; simpl; [done|].
  destruct (isWhiteSpace c); [by apply suffix_cons_r | done].
Qed.

Lemma length_trimStart s : length (trimStart s) ≤ length s.
Proof. apply suffix_length, trimStart_suffix. Qed.

Lemma trimStart_head s c r : trimStart s = c :: r → isWhiteSpace c = false.
Proof.
  induction s as [|d s IH]; simpl; [done|].
  destruct (isWhiteSpace d) eqn:E; [done|]. by intros [= <- _].
Qed.

Lemma trimStart_idemp s : trimStart (trimStart s) = trimStart s.
Proof.
  destruct (trimStart s) as [|c r] eqn:E; [done|].
  simpl. by rewrite (trimStart_head _ _ _ E).
Qed.

Lemma trimStart_nil_iff s :
  trimStart s = [] ↔ Forall (λ c, isWhiteSpace c = true) s.
Proof.
  induction s as [|c s IH]; simpl; [by split; [constructor|]|].
  destruct (isWhiteSpace c) eqn:E.
  - rewrite IH. split; [by constructor | by inversion 1].
  - split; [done | inversion 1; congruence].
Qed.

Lemma length_trimEnd s : length (trimEnd s) ≤ length s.
Proof.
  unfold trimEnd. rewrite length_rev, <-(length_rev s). apply length_trimStart.
Qed.

Lemma length_trim s : length (trim s) ≤ length s.
Proof.
  unfold trim. etrans; [apply length_trimEnd | apply length_trimStart].
Qed.

Lemma trim_nil : trim [] = [].
Proof. done. Qed.

(** [trim] only removes code units. *)
Lemma trimStart_Forall (P : N → Prop) s : Forall P s → Forall P (trimStart s).
Proof.
  intros H. destruct (trimStart_suffix s) as [k Hk]. rewrite Hk in H.
  by apply Forall_app in H as [_ ?].
Qed.

Lemma trim_Forall (P : N → Prop) s : Forall P s → Forall P (trim s).
Proof.
  intros H. unfold trim, trimEnd.
  by apply List.Forall_rev, trimStart_Forall, List.Forall_rev, trimStart_Forall.
Qed.

Lemma trim_white s : Forall (λ c, isWhiteSpace c = true) s → trim s = [].
Proof. intros H. unfold trim. by rewrite (proj2 (trimStart_nil_iff s) H). Qed.

Lemma digitsOf_digits s : Forall (λ c, isDigit c = true) (digitsOf s).
Proof. apply Forall_forall. intros c [H _]%list_elem_of_filter. done. Qed.

Lemma digitsOf_app a b : digitsOf (a ++ b) = digitsOf a ++ digitsOf b.
Proof. apply filter_app. Qed.

Lemma digitsOf_id s : Forall (λ c, isDigit c = true) s → digitsOf s = s.
Proof.
  induction 1 as [|c s Hc _ IH]; [done|].
  unfold digitsOf in *. rewrite filter_cons_True by done. by f_equal.
Qed.

Lemma digitsOf_idemp s : digitsOf (digitsOf s) = digitsOf s.
Proof. apply digitsOf_id, digitsOf_digits. Qed.

Lemma digitsOf_none s : Forall (λ c, isDigit c = false) s → digitsOf s = [].
Proof.
  induction 1 as [|c s Hc _ IH]; [done|].
  unfold digitsOf in *. rewrite filter_cons_False; [done | congruence].
Qed.

Lemma parseIntOr_default d : parseIntOr None d = d.
Proof. done. Qed.

Lemma parseIntOr_nonzero e d : d ≠ 0%Z → parseIntOr e d ≠ 0%Z.
Proof.
  intros Hd. unfold parseIntOr. destruct e as [n|]; [|done].
  destruct (n =? 0)%Z eqn:E; [done | by apply Z.eqb_neq].
Qed.

#[export] Hint Resolve digitsOf_digits trimStart_suffix : bot.
#[export] Hint Rewrite digitsOf_idemp digitsOf_app trimStart_idemp : bot_rw.

(** ** Maps *)

(** [for (const [k, v] of m.entries()) if (p(k, v)) m.delete(k)]: a
    JavaScript [Map] may be deleted from while it is iterated, and every
    entry is visited once. *)
Section delete_where.
Context {K A : Type} `{Countable K}.
Implicit Types (m : gmap K A) (p : K → A → bool).

Definition delete_step p (acc : gmap K A) (kv : K * A) : gmap K A :=
  if p kv.1 kv.2 then delete kv.1 acc else acc.

Definition delete_where p m : gmap K A :=
  foldl (delete_step p) m (map_to_list m).

Lemma lookup_foldl_delete_step p (l : list (K * A)) m k :
  foldl (delete_step p) m l !! k =
  if existsb (λ kv, bool_decide (kv.1 = k) && p kv.1 kv.2) l then None else m !! k.
Proof.
  revert m. induction l as [|[k' v'] l IH]; intros m; simpl; [done|].
  rewrite IH. unfold delete_step. simpl.
  destruct (existsb _ l); [by rewrite orb_true_r|]. rewrite orb_false_r.
  case_bool_decide as Hk; simpl.
  - subst k'. destruct (p k v'); [by rewrite lookup_delete_eq | done].
  - destruct (p k' v'); [by rewrite lookup_delete_ne | done].
Qed.

(** What the loop computes: the entries that do not satisfy [p]. *)
Lemma lookup_delete_where p m k :
  delete_where p m !! k =
  match m !! k with
  | Some v => if p k v then None else Some v
  | None => None
  end.
Proof.
  unfold delete_where. rewrite lookup_foldl_delete_step.
  destruct (existsb _ _) eqn:Ex.
  - apply existsb_exists in Ex as ([k' v'] & Hin & Hp). simpl in Hp.
    apply andb_true_iff in Hp as [->%bool_decide_eq_true Hp].
    apply list_elem_of_In, elem_of_map_to_list in Hin. by rewrite Hin, Hp.
  - destruct (m !! k) as [v|] eqn:Hm; [|done].
    destruct (p k v) eqn:Hp; [|done].
    assert (existsb (λ kv, bool_decide (kv.1 = k) && p kv.1 kv.2)
              (map_to_list m) = true) as Hex; [|congruence].
    apply existsb_exists. exists (k, v). split.
    + by apply list_elem_of_In, elem_of_map_to_list.
    + simpl. by rewrite bool_decide_eq_true_2.
Qed.

Lemma delete_where_filter p m :
  delete_where p m = filter (λ kv, p kv.1 kv.2 = false) m.
Proof.
  apply map_eq. intros k. rewrite lookup_delete_where, map_lookup_filter.
  destruct (m !! k) as [v|]; simpl; [|done].
  by destruct (p k v).
Qed.

Lemma delete_where_subseteq p m : delete_where p m ⊆ m.
Proof. rewrite delete_where_filter. apply map_filter_subseteq. Qed.

Lemma delete_where_empty p : delete_where p ∅ = ∅.
Proof. rewrite delete_where_filter. apply map_filter_empty. Qed.

Lemma delete_where_Forall (P : K → A → Prop) p m :
  map_Forall P m → map_Forall P (delete_where p m).
Proof.
  intros HP k v Hk. apply HP.
  by eapply lookup_weaken; [|apply delete_where_subseteq].
Qed.

End delete_where.

#[export] Hint Resolve delete_where_subseteq delete_where_Forall : bot.
