(* ===== verification/Regex.v ===== *)
(** * Regular expressions of the sources

    The fragment of JavaScript's regular expressions that [AIReply] uses
    ([src/unnamed/part_000], lines 394-403, 465, 623-628, 796-797), without
    the [u] flag: a pattern matches code units.  An expression is a value
    of [regex]; [matches] says which strings it denotes, and the methods
    of [RegExp] and [String] that take one are computed with derivatives:

    - [accepts r s] is [/^r$/.test(s)];
    - [lookingAt r s] is a match of [r] at the start of [s], which is also
      what a lookahead [(?=r)] asks of the rest of the input;
    - [test r s] is [/r/.test(s)];
    - [longest r s] and [shortest r s] are the length of the match that a
      backtracking matcher finds at the start of [s] when the quantifiers
      of [r] are greedy, respectively when its one quantifier is lazy and
      what follows it is a literal;
    - [replaceAll find f s] is [s.replace(/r/g, f)] and [matchAll find s]
      is [s.match(/r/g) || []], for [find] one of the two. *)

From S2P Require Import Prelude.

(** ** Expressions *)

Inductive regex : Type :=
| Void                      (* no string *)
| Eps                       (* the empty string *)
| Class (p : N → bool)      (* one code unit of a class *)
| Seq (r1 r2 : regex)       (* r1 r2 *)
| Alt (r1 r2 : regex)       (* r1|r2 *)
| Star (r : regex).         (* r* and r*? *)

(** The strings an expression denotes. *)
Inductive matches : regex → text → Prop :=
| matches_Eps : matches Eps []
| matches_Class p c : p c = true → matches (Class p) [c]
| matches_Seq r1 r2 s1 s2 :
    matches r1 s1 → matches r2 s2 → matches (Seq r1 r2) (s1 ++ s2)
| matches_Alt_l r1 r2 s : matches r1 s → matches (Alt r1 r2) s
| matches_Alt_r r1 r2 s : matches r2 s → matches (Alt r1 r2) s
| matches_Star_nil r : matches (Star r) []
| matches_Star_cons r s1 s2 :
    matches r s1 → matches (Star r) s2 → matches (Star r) (s1 ++ s2).

(** Two expressions are equivalent when they denote the same strings. *)
#[export] Instance regex_equiv : Equiv regex := λ r1 r2,
  ∀ s, matches r1 s ↔ matches r2 s.

(** *** The notations of JavaScript *)

(** [.]: any code unit but a line terminator. *)
Definition dot : regex := Class (λ c, negb (isLineTerminator c)).

(** [\s], [[^\s]] and [\d]. *)
Definition space : regex := Class isWhiteSpace.
Definition nonSpace : regex := Class (λ c, negb (isWhiteSpace c)).
Definition digit : regex := Class isDigit.

(** A code unit, and a range [[lo-hi]]. *)
Definition chr (c : N) : regex := Class (N.eqb c).
Definition range (lo hi : N) : regex := Class (in_range lo hi).

(** A code unit under the [i] flag, for an ASCII letter of the pattern:
    [Canonicalize] maps no code unit above 127 to an ASCII one. *)
Definition canonicalize (c : N) : N :=
  if in_range 97 122 c then (c - 32)%N else c.
Definition chrCI (c : N) : regex :=
  Class (λ d, (canonicalize c =? canonicalize d)%N).

(** The characters of a literal in sequence. *)
Definition lit (s : text) : regex := foldr (λ c r, Seq (chr c) r) Eps s.
Definition litCI (s : text) : regex := foldr (λ c r, Seq (chrCI c) r) Eps s.

(** [r+], [r?] and [(?:r1|r2|...)]. *)
Definition plus (r : regex) : regex := Seq r (Star r).
Definition opt (r : regex) : regex := Alt r Eps.
Definition oneOf (rs : list regex) : regex := foldr Alt Void rs.

(** ** Matching with derivatives *)

(** [r] denotes the empty string. *)
Fixpoint nullable (r : regex) : bool :=
  match r with
  | Void => false
  | Eps => true
  | Class _ => false
  | Seq r1 r2 => nullable r1 && nullable r2
  | Alt r1 r2 => nullable r1 || nullable r2
  | Star _ => true
  end.

(** [Seq] and [Alt] that drop the parts which denote nothing, so that a
    derivative stays as small as the expression. *)
Definition seq (r1 r2 : regex) : regex :=
  match r1, r2 with
  | Void, _ => Void
  | _, Void => Void
  | Eps, _ => r2
  | _, _ => Seq r1 r2
  end.

Definition alt (r1 r2 : regex) : regex :=
  match r1, r2 with
  | Void, _ => r2
  | _, Void => r1
  | _, _ => Alt r1 r2
  end.

(** The strings [s] such that [r] denotes [c :: s]. *)
Fixpoint der (c : N) (r : regex) : regex :=
  match r with
  | Void => Void
  | Eps => Void
  | Class p => if p c then Eps else Void
  | Seq r1 r2 =>
    if nullable r1 then alt (seq (der c r1) r2) (der c r2)
    else seq (der c r1) r2
  | Alt r1 r2 => alt (der c r1) (der c r2)
  | Star r1 => seq (der c r1) (Star r1)
  end.

(** [/^r$/.test(s)]. *)
Fixpoint accepts (r : regex) (s : text) : bool :=
  match s with
  | [] => nullable r
  | c :: s' => accepts (der c r) s'
  end.

(** [r] matches at the start of [s]: [/^r/.test(s)], and [(?=r)] before
    the rest [s] of the input. *)
Fixpoint lookingAt (r : regex) (s : text) : bool :=
  nullable r ||
  match s with
  | [] => false
  | c :: s' => lookingAt (der c r) s'
  end.

(** The rests of a string, one per position, the empty one included. *)
Fixpoint tails (s : text) : list text :=
  s :: match s with
       | [] => []
       | _ :: s' => tails s'
       end.

(** [/r/.test(s)], for a pattern given as a test at a position. *)
Definition testAt (at_ : text → bool) (s : text) : bool := existsb at_ (tails s).

(** [/r/.test(s)]. *)
Definition test (r : regex) (s : text) : bool := testAt (lookingAt r) s.

(** The length of the longest prefix of [s] that [r] denotes. *)
Fixpoint longest (r : regex) (s : text) : option nat :=
  match s with
  | [] => if nullable r then Some 0 else None
  | c :: s' =>
    match longest (der c r) s' with
    | Some n => Some (S n)
    | None => if nullable r then Some 0 else None
    end
  end.

(** The length of the shortest prefix of [s] that [r] denotes. *)
Fixpoint shortest (r : regex) (s : text) : option nat :=
  if nullable r then Some 0 else
  match s with
  | [] => None
  | c :: s' => S <$> shortest (der c r) s'
  end.

(** ** Global search *)

Section global.
Context (find : text → option nat).

(** [s.replace(/r/g, f)], where [find] gives the length of the match at
    the start of a string and [f] the replacement of the matched text:
    [skip] code units of a match are still to be passed over.  An empty
    match inserts its replacement and passes over one code unit. *)
Fixpoint replaceFrom (f : text → text) (skip : nat) (s : text) : text :=
  match skip, s with
  | S k, _ :: s' => replaceFrom f k s'
  | S _, [] => []
  | 0, [] => match find [] with Some _ => f [] | None => [] end
  | 0, c :: s' =>
    match find s with
    | Some (S n) => f (take (S n) s) ++ replaceFrom f n s'
    | Some 0 => f [] ++ c :: replaceFrom f 0 s'
    | None => c :: replaceFrom f 0 s'
    end
  end.

Definition replaceAll (f : text → text) (s : text) : text := replaceFrom f 0 s.

(** [s.match(/r/g) || []] for a pattern that matches no empty string:
    the matched texts from left to right. *)
Fixpoint matchFrom (skip : nat) (s : text) : list text :=
  match skip, s with
  | S k, _ :: s' => matchFrom k s'
  | _, [] => []
  | 0, _ :: s' =>
    match find s with
    | Some (S n) => take (S n) s :: matchFrom n s'
    | _ => matchFrom 0 s'
    end
  end.

Definition matchAll (s : text) : list text := matchFrom 0 s.

End global.

(** [$1] for a pattern [d(...)d] with delimiters of [n] code units. *)
Definition group1 (n : nat) (m : text) : text := take (length m - 2 * n) (drop n m).

(** ** The denotation, clause by clause *)

Section denotation.
Implicit Types (r : regex) (s : text) (c : N).

#[export] Instance regex_equivalence : Equivalence (≡@{regex}).
Proof.
  split; [by intros r s | by intros r1 r2 H s | ].
  intros r1 r2 r3 H1 H2 s. by rewrite (H1 s).
Qed.

#[export] Instance matches_proper : Proper ((≡) ==> (=) ==> iff) matches.
Proof. intros r1 r2 H s ? <-. apply H. Qed.

Lemma matches_Void s : matches Void s ↔ False.
Proof. split; [inversion 1 | done]. Qed.

Lemma matches_Eps_iff s : matches Eps s ↔ s = [].
Proof. split; [by inversion 1 | intros ->; constructor]. Qed.

Lemma matches_Class_iff p s : matches (Class p) s ↔ ∃ c, s = [c] ∧ p c = true.
Proof.
  split; [inversion 1; eauto | intros (c & -> & H); by constructor].
Qed.

Lemma matches_Seq_iff r1 r2 s :
  matches (Seq r1 r2) s ↔ ∃ s1 s2, s = s1 ++ s2 ∧ matches r1 s1 ∧ matches r2 s2.
Proof.
  split; [inversion 1; eauto | intros (s1 & s2 & -> & H1 & H2); by constructor].
Qed.

Lemma matches_Alt_iff r1 r2 s : matches (Alt r1 r2) s ↔ matches r1 s ∨ matches r2 s.
Proof.
  split; [inversion 1; auto | intros [H|H]; by constructor].
Qed.

Lemma matches_Star_iff r s :
  matches (Star r) s ↔
  s = [] ∨ ∃ s1 s2, s = s1 ++ s2 ∧ matches r s1 ∧ matches (Star r) s2.
Proof.
  split; [inversion 1; eauto 6 | ].
  intros [->|(s1 & s2 & -> & H1 & H2)]; by constructor.
Qed.

(** A non-empty string of [r*] starts with a non-empty string of [r]. *)
Lemma matches_Star_cons_inv r c s :
  matches (Star r) (c :: s) →
  ∃ s1 s2, s = s1 ++ s2 ∧ matches r (c :: s1) ∧ matches (Star r) s2.
Proof.
  intros H. remember (Star r) as r' eqn:Hr. remember (c :: s) as t eqn:Ht.
  revert s Ht. induction H as [| | | | | |r0 s1 s2 H1 _ H2 IH]; intros s' Ht;
    simplify_eq.
  destruct s1 as [|c' s1]; simpl in *; [by apply IH | simplify_eq; eauto].
Qed.

#[export] Instance Seq_proper : Proper ((≡) ==> (≡) ==> (≡)) Seq.
Proof.
  intros a a' Ha b b' Hb s. rewrite !matches_Seq_iff.
  by setoid_rewrite Ha; setoid_rewrite Hb.
Qed.

#[export] Instance Alt_proper : Proper ((≡) ==> (≡) ==> (≡)) Alt.
Proof. intros a a' Ha b b' Hb s. by rewrite !matches_Alt_iff, Ha, Hb. Qed.

Lemma matches_Star_mono r r' s :
  (∀ t, matches r t → matches r' t) → matches (Star r) s → matches (Star r') s.
Proof.
  intros Hr H. remember (Star r) as q eqn:Hq.
  induction H; simplify_eq; constructor; auto.
Qed.

#[export] Instance Star_proper : Proper ((≡) ==> (≡)) Star.
Proof. intros a a' Ha s. split; apply matches_Star_mono; intros t; apply Ha. Qed.

Lemma Seq_Void_l r : Seq Void r ≡ Void.
Proof.
  intros s. rewrite matches_Seq_iff, matches_Void.
  split; [intros (?&?&?&[]%matches_Void&?) | done].
Qed.

Lemma Seq_Void_r r : Seq r Void ≡ Void.
Proof.
  intros s. rewrite matches_Seq_iff, matches_Void.
  split; [intros (?&?&?&?&[]%matches_Void) | done].
Qed.

Lemma Seq_Eps_l r : Seq Eps r ≡ r.
Proof.
  intros s. rewrite matches_Seq_iff. split.
  - by intros (? & ? & -> & ->%matches_Eps_iff & ?).
  - intros H. exists [], s. split_and!; [done | constructor | done].
Qed.

Lemma Alt_Void_l r : Alt Void r ≡ r.
Proof. intros s. rewrite matches_Alt_iff, matches_Void. tauto. Qed.

Lemma Alt_Void_r r : Alt r Void ≡ r.
Proof. intros s. rewrite matches_Alt_iff, matches_Void. tauto. Qed.

Lemma seq_equiv r1 r2 : seq r1 r2 ≡ Seq r1 r2.
Proof.
  destruct r1, r2; simpl; by rewrite ?Seq_Void_l, ?Seq_Void_r, ?Seq_Eps_l.
Qed.

Lemma alt_equiv r1 r2 : alt r1 r2 ≡ Alt r1 r2.
Proof. destruct r1, r2; simpl; by rewrite ?Alt_Void_l, ?Alt_Void_r. Qed.

(** ** The derivative matcher is the denotation *)

Lemma nullable_spec r : nullable r = true ↔ matches r [].
Proof.
  induction r as [| |p|r1 IH1 r2 IH2|r1 IH1 r2 IH2|r IH]; simpl.
  - by rewrite matches_Void.
  - by rewrite matches_Eps_iff.
  - rewrite matches_Class_iff. split; [done | by intros (? & ? & ?)].
  - rewrite andb_true_iff, IH1, IH2, matches_Seq_iff. split.
    + intros [H1 H2]. by exists [], [].
    + intros (s1 & s2 & Hs & H1 & H2). symmetry in Hs.
      apply app_eq_nil in Hs as [-> ->]. done.
  - by rewrite orb_true_iff, IH1, IH2, matches_Alt_iff.
  - split; [constructor | done].
Qed.

Lemma matches_Seq_cons r1 r2 c s :
  matches (Seq r1 r2) (c :: s) ↔
  (∃ s1 s2, s = s1 ++ s2 ∧ matches r1 (c :: s1) ∧ matches r2 s2) ∨
  (matches r1 [] ∧ matches r2 (c :: s)).
Proof.
  rewrite matches_Seq_iff. split.
  - intros ([|c' s1] & s2 & Hs & H1 & H2); simpl in *; simplify_eq; eauto 6.
  - intros [(s1 & s2 & -> & H1 & H2)|[H1 H2]].
    + by exists (c :: s1), s2.
    + by exists [], (c :: s).
Qed.

Lemma der_spec r c s : matches (der c r) s ↔ matches r (c :: s).
Proof.
  revert s. induction r as [| |p|r1 IH1 r2 IH2|r1 IH1 r2 IH2|r IH]; intros s; simpl.
  - by rewrite !matches_Void.
  - rewrite matches_Void, matches_Eps_iff. done.
  - rewrite matches_Class_iff. destruct (p c) eqn:Hp.
    + rewrite matches_Eps_iff. split; [intros ->; eauto | by intros (? & ? & ?); simplify_eq].
    + rewrite matches_Void. split; [done | intros (? & ? & ?); simplify_eq; congruence].
  - rewrite matches_Seq_cons, <-nullable_spec.
    destruct (nullable r1).
    + rewrite alt_equiv, matches_Alt_iff, seq_equiv, matches_Seq_iff, IH2.
      setoid_rewrite IH1. tauto.
    + rewrite seq_equiv, matches_Seq_iff. setoid_rewrite IH1.
      split; [auto | by intros [?|[? ?]]].
  - by rewrite alt_equiv, !matches_Alt_iff, IH1, IH2.
  - rewrite seq_equiv, matches_Seq_iff. setoid_rewrite IH. split.
    + intros (s1 & s2 & -> & H1 & H2). by apply (matches_Star_cons r (c :: s1)).
    + apply matches_Star_cons_inv.
Qed.

Lemma accepts_spec r s : accepts r s = true ↔ matches r s.
Proof.
  revert r. induction s as [|c s IH]; intros r; simpl;
    [apply nullable_spec | by rewrite IH, der_spec].
Qed.

(** [lookingAt]: some prefix of the string is denoted. *)
Lemma lookingAt_spec r s :
  lookingAt r s = true ↔ ∃ p q, s = p ++ q ∧ matches r p.
Proof.
  revert r. induction s as [|c s IH]; intros r; simpl.
  - rewrite orb_false_r, nullable_spec. split.
    + intros H. by exists [], [].
    + intros (p & q & Hs & H). symmetry in Hs.
      by apply app_eq_nil in Hs as [-> ->].
  - rewrite orb_true_iff, nullable_spec, IH. split.
    + intros [H|(p & q & -> & H)]; [by exists [], (c :: s) |].
      exists (c :: p), q. by rewrite <-der_spec.
    + intros ([|c' p] & q & Hs & H); simpl in *; simplify_eq; [by left|].
      right. exists p, q. by rewrite der_spec.
Qed.

End denotation.

(** ** Search *)

Section search.
Implicit Types (r : regex) (s t : text) (c : N).

Lemma elem_of_tails t s : t ∈ tails s ↔ t `suffix_of` s.
Proof.
  induction s as [|c s IH]; simpl.
  - rewrite list_elem_of_singleton. split; [by intros -> | apply suffix_nil_inv].
  - rewrite elem_of_cons, IH. split.
    + intros [->|H]; [done | by apply suffix_cons_r].
    + intros [[|c' a] Ha]; simplify_eq/=; [by left | right; by exists a].
Qed.

Lemma testAt_spec (at_ : text → bool) s :
  testAt at_ s = true ↔ ∃ t, t `suffix_of` s ∧ at_ t = true.
Proof.
  unfold testAt. rewrite existsb_exists. setoid_rewrite <-elem_of_tails.
  by setoid_rewrite list_elem_of_In.
Qed.

(** [/r/.test(s)] holds when [r] denotes a substring of [s]. *)
Lemma test_spec r s :
  test r s = true ↔ ∃ a p q, s = a ++ p ++ q ∧ matches r p.
Proof.
  unfold test. rewrite testAt_spec. setoid_rewrite lookingAt_spec. split.
  - intros (t & [a ->] & p & q & -> & H). eauto.
  - intros (a & p & q & -> & H). exists (p ++ q). split; [by exists a | eauto].
Qed.

(** One code unit of a class: some code unit of the string is in it. *)
Lemma test_Class p s : test (Class p) s = existsb p s.
Proof.
  apply eq_true_iff_eq. rewrite test_spec, existsb_exists. split.
  - intros (a & ? & q & -> & (c & -> & Hc)%matches_Class_iff).
    exists c. split; [|done]. apply list_elem_of_In. set_solver.
  - intros (c & Hin%list_elem_of_In & Hc).
    apply list_elem_of_split in Hin as (a & q & ->).
    exists a, [c], q. split; [done | by constructor].
Qed.

(** [/^[class]*$/]: every code unit of the string is in the class. *)
Lemma matches_Star_Class p s : matches (Star (Class p)) s ↔ Forall (λ c, p c = true) s.
Proof.
  split.
  - intros H. remember (Star (Class p)) as r eqn:Hr.
    induction H; simplify_eq; [done|].
    apply Forall_app. split; [|auto].
    match goal with H : matches (Class _) _ |- _ =>
      apply matches_Class_iff in H as (c & -> & Hc) end.
    by apply Forall_singleton.
  - induction 1 as [|c s Hc _ IH]; [constructor|].
    apply (matches_Star_cons _ [c]); [by constructor | done].
Qed.

Lemma accepts_Star_Class p s : accepts (Star (Class p)) s = forallb p s.
Proof.
  apply eq_true_iff_eq.
  rewrite accepts_spec, matches_Star_Class, forallb_forall, Forall_forall.
  by setoid_rewrite list_elem_of_In.
Qed.

(** *** The match at a position *)

(** [n] is the length of the longest, respectively shortest, prefix of
    [s] that [r] denotes. *)
Definition Longest r s (n : nat) : Prop :=
  n ≤ length s ∧ matches r (take n s) ∧
  ∀ m, n < m ≤ length s → ¬ matches r (take m s).

Definition Shortest r s (n : nat) : Prop :=
  n ≤ length s ∧ matches r (take n s) ∧ ∀ m, m < n → ¬ matches r (take m s).

Lemma Longest_inj r s n n' : Longest r s n → Longest r s n' → n = n'.
Proof.
  intros (Hn & Hm & Hmax) (Hn' & Hm' & Hmax').
  destruct (Nat.lt_total n n') as [?|[?|?]]; [|done|].
  - destruct (Hmax n'); [lia | done].
  - destruct (Hmax' n); [lia | done].
Qed.

Lemma Shortest_inj r s n n' : Shortest r s n → Shortest r s n' → n = n'.
Proof.
  intros (Hn & Hm & Hmin) (Hn' & Hm' & Hmin').
  destruct (Nat.lt_total n n') as [?|[?|?]]; [|done|].
  - destruct (Hmin' n); [lia | done].
  - destruct (Hmin n'); [lia | done].
Qed.

Lemma matches_take_cons r c s m :
  matches r (take (S m) (c :: s)) ↔ matches (der c r) (take m s).
Proof. simpl. by rewrite der_spec. Qed.

Lemma longest_None r s m : longest r s = None → ¬ matches r (take m s).
Proof.
  revert r m. induction s as [|c s IH]; intros r m; simpl.
  - destruct (nullable r) eqn:Hn; [done|]. intros _. rewrite take_nil.
    rewrite <-nullable_spec. congruence.
  - destruct (longest (der c r) s) eqn:Hl; [done|].
    destruct (nullable r) eqn:Hn; [done|]. intros _. destruct m as [|m].
    + rewrite <-nullable_spec. simpl. congruence.
    + rewrite matches_take_cons. by apply IH.
Qed.

Lemma longest_Longest r s n : longest r s = Some n → Longest r s n.
Proof.
  revert r n. induction s as [|c s IH]; intros r n; simpl.
  - destruct (nullable r) eqn:Hn; [|done]. intros [= <-].
    split_and!; [done | by apply nullable_spec | simpl; lia].
  - destruct (longest (der c r) s) as [k|] eqn:Hl.
    + intros [= <-]. apply IH in Hl as (Hk & Hm & Hmax).
      split_and!; [simpl; lia | by apply matches_take_cons |].
      intros [|m] ?; [lia|]. rewrite matches_take_cons. apply Hmax. simpl in *. lia.
    + destruct (nullable r) eqn:Hn; [|done]. intros [= <-].
      split_and!; [simpl; lia | by apply nullable_spec |].
      intros [|m] ?; [lia|]. rewrite matches_take_cons. by apply longest_None.
Qed.

(** [longest] is the longest prefix that [r] denotes. *)
Lemma longest_Some r s n : longest r s = Some n ↔ Longest r s n.
Proof.
  split; [apply longest_Longest|]. intros Hn.
  destruct (longest r s) as [n'|] eqn:Hl.
  - f_equal. eapply Longest_inj; [by apply longest_Longest | done].
  - destruct Hn as (_ & Hm & _). by destruct (longest_None r s n Hl).
Qed.

Lemma shortest_None r s m : shortest r s = None → ¬ matches r (take m s).
Proof.
  revert r m. induction s as [|c s IH]; intros r m; simpl;
    destruct (nullable r) eqn:Hn; try done.
  - intros _. rewrite take_nil, <-nullable_spec. congruence.
  - destruct (shortest (der c r) s) eqn:Hs; [done|]. intros _.
    destruct m as [|m].
    + rewrite <-nullable_spec. simpl. congruence.
    + rewrite matches_take_cons. by apply IH.
Qed.

Lemma shortest_Shortest r s n : shortest r s = Some n → Shortest r s n.
Proof.
  revert r n. induction s as [|c s IH]; intros r n; simpl;
    destruct (nullable r) eqn:Hn.
  - intros [= <-]. split_and!; [done | by apply nullable_spec | lia].
  - done.
  - intros [= <-]. split_and!; [simpl; lia | by apply nullable_spec | lia].
  - destruct (shortest (der c r) s) as [k|] eqn:Hs; [|done]. intros [= <-].
    apply IH in Hs as (Hk & Hm & Hmin).
    split_and!; [simpl; lia | by apply matches_take_cons |].
    intros [|m] ?.
    + rewrite <-nullable_spec. simpl. congruence.
    + rewrite matches_take_cons. apply Hmin. lia.
Qed.

(** [shortest] is the shortest prefix that [r] denotes. *)
Lemma shortest_Some r s n : shortest r s = Some n ↔ Shortest r s n.
Proof.
  split; [apply shortest_Shortest|]. intros Hn.
  destruct (shortest r s) as [n'|] eqn:Hs.
  - f_equal. eapply Shortest_inj; [by apply shortest_Shortest | done].
  - destruct Hn as (_ & Hm & _). by destruct (shortest_None r s n Hs).
Qed.

(** A match has at most the length of the string. *)
Lemma longest_le r s n : longest r s = Some n → n ≤ length s.
Proof. by intros (? & _)%longest_Some. Qed.

Lemma shortest_le r s n : shortest r s = Some n → n ≤ length s.
Proof. by intros (? & _)%shortest_Some. Qed.

End search.

(** ** Global search, one match at a time *)

Section global_facts.
Context (find : text → option nat) (f : text → text).
Implicit Types (s t : text) (c : N).

Lemma replaceFrom_skip k s :
  k ≤ length s → replaceFrom find f k s = replaceAll find f (drop k s).
Proof.
  revert s. induction k as [|k IH]; intros [|c s] ?; simpl in *;
    [done | done | lia | apply IH; lia].
Qed.

(** A match at the start is replaced and the search resumes after it. *)
Lemma replaceAll_match c s n :
  find (c :: s) = Some (S n) → n ≤ length s →
  replaceAll find f (c :: s) = f (take (S n) (c :: s)) ++ replaceAll find f (drop n s).
Proof.
  intros Hf Hn. unfold replaceAll at 1. simpl. rewrite Hf.
  by rewrite replaceFrom_skip.
Qed.

(** Without a match at the start the first code unit is kept. *)
Lemma replaceAll_keep c s :
  find (c :: s) = None → replaceAll find f (c :: s) = c :: replaceAll find f s.
Proof. intros Hf. unfold replaceAll. simpl. by rewrite Hf. Qed.

Lemma replaceAll_nil : find [] = None → replaceAll find f [] = [].
Proof. intros Hf. unfold replaceAll. simpl. by rewrite Hf. Qed.

(** A string without a match is left as it is. *)
Lemma replaceAll_id s :
  (∀ t, t `suffix_of` s → find t = None) → replaceAll find f s = s.
Proof.
  induction s as [|c s IH]; intros Hno.
  - by apply replaceAll_nil, Hno.
  - rewrite replaceAll_keep by by apply Hno.
    f_equal. apply IH. intros t Ht. by apply Hno, suffix_cons_r.
Qed.

Lemma matchFrom_skip k s :
  k ≤ length s → matchFrom find k s = matchAll find (drop k s).
Proof.
  revert s. induction k as [|k IH]; intros [|c s] ?; simpl in *;
    [done | done | lia | apply IH; lia].
Qed.

Lemma matchAll_match c s n :
  find (c :: s) = Some (S n) → n ≤ length s →
  matchAll find (c :: s) = take (S n) (c :: s) :: matchAll find (drop n s).
Proof.
  intros Hf Hn. unfold matchAll at 1. simpl. rewrite Hf.
  by rewrite matchFrom_skip.
Qed.

Lemma matchAll_keep c s :
  find (c :: s) = None → matchAll find (c :: s) = matchAll find s.
Proof. intros Hf. unfold matchAll. simpl. by rewrite Hf. Qed.

End global_facts.

(** ** Runs of one class *)

Lemma filter_Forall_not {A} (P : A → Prop) `{∀ x, Decision (P x)} (l : list A) :
  Forall (λ x, ¬ P x) l → filter P l = [].
Proof. induction 1; [done|]. by rewrite filter_cons_False. Qed.

Section runs.
Context (p : N → bool).
Implicit Types (s t : text) (c : N).

Lemma matches_plus_Class s :
  matches (plus (Class p)) s ↔ s ≠ [] ∧ Forall (λ c, p c = true) s.
Proof.
  unfold plus. rewrite matches_Seq_iff. split.
  - intros (s1 & s2 & -> & (c & -> & Hc)%matches_Class_iff & H2%matches_Star_Class).
    split; [done | by constructor].
  - intros [Hne H]. destruct H as [|c s Hc H]; [done|].
    exists [c], s. split_and!; [done | by constructor | by apply matches_Star_Class].
Qed.

(** No run starts at a code unit outside the class. *)
Lemma longest_plus_Class_None c s :
  p c = false → longest (plus (Class p)) (c :: s) = None.
Proof.
  intros Hc. destruct (longest _ _) as [n|] eqn:Hl; [|done].
  apply longest_Some in Hl as (_ & [Hne H]%matches_plus_Class & _).
  destruct n as [|n]; [done|]. simpl in H. apply Forall_cons in H as [? _].
  congruence.
Qed.

(** A run at a code unit of the class is not empty, lies in the class,
    and is followed by a code unit outside it or by the end. *)
Lemma longest_plus_Class_Some c s :
  p c = true →
  ∃ n, longest (plus (Class p)) (c :: s) = Some (S n) ∧ n ≤ length s ∧
       Forall (λ c, p c = true) (take n s) ∧
       (∀ d, drop n s !! 0 = Some d → p d = false).
Proof.
  intros Hc. destruct (longest _ _) as [n|] eqn:Hl.
  - apply longest_Some in Hl as (Hn & [Hne H]%matches_plus_Class & Hmax).
    destruct n as [|n]; [done|]. simpl in *. apply Forall_cons in H as [_ H].
    exists n. split_and!; [done | lia | done |].
    intros d Hd. rewrite lookup_drop, Nat.add_0_r in Hd.
    destruct (p d) eqn:Hpd; [|done]. destruct (Hmax (S (S n))).
    + apply lookup_lt_Some in Hd. lia.
    + apply matches_plus_Class. split; [done|]. simpl. constructor; [done|].
      rewrite (take_S_r _ _ d) by done. apply Forall_app. split; [done|].
      by apply Forall_singleton.
  - destruct (longest_None _ _ 1 Hl). simpl. rewrite take_0.
    apply matches_plus_Class. split; [done | by apply Forall_singleton].
Qed.

(** [s.replace(/[class]+/g, '')] removes the code units of the class. *)
Lemma replaceAll_plus_Class s :
  replaceAll (longest (plus (Class p))) (λ _, []) s = filter (λ c, p c = false) s.
Proof.
  induction s as [s IH] using (induction_ltof1 _ length). unfold ltof in IH.
  destruct s as [|c s]; [done|]. destruct (p c) eqn:Hc.
  - destruct (longest_plus_Class_Some c s Hc) as (n & Hl & Hn & Hall & _).
    rewrite (replaceAll_match _ _ _ _ n), IH by (done || rewrite length_drop; simpl; lia).
    rewrite filter_cons_False by congruence. simpl.
    rewrite <-(take_drop n s) at 2. rewrite filter_app.
    rewrite (filter_Forall_not _ (take n s)); [done|].
    eapply Forall_impl; [done|]. simpl. congruence.
  - rewrite replaceAll_keep by by apply longest_plus_Class_None.
    rewrite filter_cons_True by done. f_equal. apply IH. simpl. lia.
Qed.

End runs.

(** ** Literals and lookaheads *)

Section literals.
Implicit Types (r : regex) (s t w : text) (c : N).

(** A literal under the [i] flag denotes the strings that are equal to it
    up to the case of ASCII letters. *)
Lemma matches_litCI w s :
  matches (litCI w) s ↔ Forall2 (λ a b, canonicalize a = canonicalize b) w s.
Proof.
  revert s. induction w as [|a w IH]; intros s; simpl.
  - rewrite matches_Eps_iff. split; [intros ->; constructor | by inversion 1].
  - rewrite matches_Seq_iff. setoid_rewrite matches_Class_iff.
    setoid_rewrite IH. split.
    + intros (? & s2 & -> & (b & -> & Hb%N.eqb_eq) & H). by constructor.
    + inversion 1 as [|? b ? s2 Hb H2]; subst. exists [b], s2.
      split_and!; [done | exists b; by rewrite N.eqb_eq | done].
Qed.

Lemma matches_lit w s : matches (lit w) s ↔ s = w.
Proof.
  revert s. induction w as [|a w IH]; intros s; simpl.
  - by rewrite matches_Eps_iff.
  - rewrite matches_Seq_iff. setoid_rewrite matches_Class_iff.
    setoid_rewrite IH. split.
    + by intros (? & s2 & -> & (b & -> & ->%N.eqb_eq) & ->).
    + intros ->. exists [a], w. split_and!; [done | exists a; by rewrite N.eqb_refl | done].
Qed.

Lemma matches_oneOf rs s : matches (oneOf rs) s ↔ ∃ r, r ∈ rs ∧ matches r s.
Proof.
  induction rs as [|r rs IH]; simpl.
  - rewrite matches_Void. split; [done | by intros (? & ?%elem_of_nil & _)].
  - rewrite matches_Alt_iff, IH. set_solver.
Qed.

(** Only an ASCII letter has the canonical form of an ASCII letter. *)
Lemma canonicalize_latin a b :
  isLatin a = true → canonicalize a = canonicalize b → isLatin b = true.
Proof.
  unfold isLatin, canonicalize. intros Ha.
  destruct (in_range 97 122 a) eqn:Ha1, (in_range 97 122 b) eqn:Hb1;
    rewrite ?orb_true_r; try done; intros Hab;
    rewrite ?orb_false_r, ?in_range_true, ?in_range_false in *; lia.
Qed.

(** A match of [r] somewhere in [s] is a match of [.*r] at a position
    that starts it. *)
Lemma lookingAt_here r s : lookingAt r s = true → lookingAt (Seq (Star dot) r) s = true.
Proof.
  rewrite !lookingAt_spec. intros (p & q & -> & H). exists p, q. split; [done|].
  apply (matches_Seq _ _ []); [constructor | done].
Qed.

(** What [.*r] finds ends with what [r] denotes. *)
Lemma lookingAt_dots r s :
  lookingAt (Seq (Star dot) r) s = true → ∃ a p q, s = a ++ p ++ q ∧ matches r p.
Proof.
  rewrite lookingAt_spec. intros (x & q & -> & (a & p & -> & _ & H)%matches_Seq_iff).
  exists a, p, q. by rewrite <-app_assoc.
Qed.

End literals.
