(* ===== verification/Effects.v ===== *)
(** * The handler monad

    A method of the sources mutates the fields of [this], calls the
    adapter and the socket, and may throw.  [handler S Act E A] is such a
    method over the state [S]: it returns a value or an exception, the
    state it leaves, and the calls it made, in order.  A [throw] keeps the
    mutations and the calls made before it, as in JavaScript; [catch] is
    [try { .. } catch (e) { .. }].

    An external call ([await client.destroy()]) is [call a r]: the call
    [a] is recorded and its result [r], a value or an exception, is an
    argument that the environment supplies. *)

From S2P Require Import Prelude.

(** A JavaScript [Error]: handlers read nothing of it but its message. *)
Record error : Type := Error { error_message : text }.

Inductive outcome (E A : Type) : Type :=
| Ok (a : A)
| Throw (e : E).
Arguments Ok {E A} a.
Arguments Throw {E A} e.

Definition handler (S Act E A : Type) : Type :=
  S → outcome E A * S * list Act.

Declare Scope handler_scope.
Delimit Scope handler_scope with handler.

Section handler.
Context {S Act E : Type}.
Local Abbreviation M := (handler S Act E).

Definition run {A} (m : M A) (s : S) : outcome E A * S * list Act := m s.

(** The result, the final state and the trace of a run. *)
Definition result {A} (m : M A) (s : S) : outcome E A := (run m s).1.1.
Definition final {A} (m : M A) (s : S) : S := (run m s).1.2.
Definition trace {A} (m : M A) (s : S) : list Act := (run m s).2.

Definition ret {A} (a : A) : M A := λ s, (Ok a, s, []).

Definition bind {A B} (m : M A) (f : A → M B) : M B := λ s,
  match m s with
  | (Ok a, s1, t1) => let '(r, s2, t2) := f a s1 in (r, s2, t1 ++ t2)
  | (Throw e, s1, t1) => (Throw e, s1, t1)
  end.

Definition throw {A} (e : E) : M A := λ s, (Throw e, s, []).

Definition catch {A} (m : M A) (h : E → M A) : M A := λ s,
  match m s with
  | (Ok a, s1, t1) => (Ok a, s1, t1)
  | (Throw e, s1, t1) => let '(r, s2, t2) := h e s1 in (r, s2, t1 ++ t2)
  end.

Definition get : M S := λ s, (Ok s, s, []).
Definition gets {A} (f : S → A) : M A := λ s, (Ok (f s), s, []).
Definition put (s : S) : M unit := λ _, (Ok tt, s, []).
Definition modify (f : S → S) : M unit := λ s, (Ok tt, f s, []).

(** A call of the outside world that cannot fail ([io.emit], [console.log]). *)
Definition emit (a : Act) : M unit := λ s, (Ok tt, s, [a]).

(** A call of the outside world with the result the world gives. *)
Definition call {A} (a : Act) (r : outcome E A) : M A := λ s, (r, s, [a]).

(** The result of something awaited or evaluated that leaves no call to
    record (a rejected promise, a property read that throws). *)
Definition await {A} (r : outcome E A) : M A := λ s, (r, s, []).

(** [if (c) { m }]. *)
Definition when (c : bool) (m : M unit) : M unit := if c then m else ret tt.

(** Two handlers are equivalent when they agree on every state. *)
Definition handler_equiv {A} (m1 m2 : M A) : Prop := ∀ s, run m1 s = run m2 s.

End handler.

(** The sequencing notations [x ← m; k] and [m ;; k] are stdpp's, through
    these instances. *)
#[export] Instance handler_ret {S Act E} : MRet (handler S Act E) := @ret S Act E.
#[export] Instance handler_bind {S Act E} : MBind (handler S Act E) :=
  λ A B f m, bind m f.
#[global] Typeclasses Opaque handler.

Infix "≈" := handler_equiv (at level 70) : handler_scope.

(** A handler of a component run on a larger state: [this.geminiAI.f()]
    inside a method of the session manager. *)
Definition zoom {S T Act Act' E A} (proj : S → T) (inj : T → S → S)
    (emb : Act' → Act) (m : handler T Act' E A) : handler S Act E A := λ s,
  let '(r, t, tr) := m (proj s) in (r, inj t s, emb <$> tr).

(** [zoom] by the three parts of the component's run. *)
Lemma zoom_run {S T Act Act' E A} (proj : S → T) (inj : T → S → S)
    (emb : Act' → Act) (m : handler T Act' E A) s :
  zoom proj inj emb m s =
  (result m (proj s), inj (final m (proj s)) s, emb <$> trace m (proj s)).
Proof.
  unfold zoom, result, final, trace, run. by destruct (m (proj s)) as [[r t] tr].
Qed.

Section laws.
Context {S Act E : Type}.
Local Abbreviation M := (handler S Act E).
Local Open Scope handler_scope.

#[export] Instance handler_equiv_equivalence {A} :
  Equivalence (@handler_equiv S Act E A).
Proof.
  split; [done | by intros m1 m2 H s | ].
  intros m1 m2 m3 H1 H2 s. by rewrite H1.
Qed.

#[export] Instance bind_proper {A B} :
  Proper (handler_equiv ==> pointwise_relation A handler_equiv ==> handler_equiv)
    (@bind S Act E A B).
Proof.
  intros m1 m2 Hm f1 f2 Hf s. unfold handler_equiv, pointwise_relation, run, bind in *.
  rewrite (Hm s).
  destruct (m2 s) as [[[a|e] s1] t1]; [|done]. by rewrite (Hf a s1).
Qed.

#[export] Instance catch_proper {A} :
  Proper (handler_equiv ==> pointwise_relation E handler_equiv ==> handler_equiv)
    (@catch S Act E A).
Proof.
  intros m1 m2 Hm f1 f2 Hf s. unfold handler_equiv, pointwise_relation, run, catch in *.
  rewrite (Hm s).
  destruct (m2 s) as [[[a|e] s1] t1]; [done|]. by rewrite (Hf e s1).
Qed.

Lemma bind_ret_l {A B} (a : A) (f : A → M B) : (x ← ret a; f x) ≈ f a.
Proof. intros s. unfold mbind, handler_bind, run, bind, ret. by destruct (f a s) as [[r s2] t2]. Qed.

Lemma bind_ret_r {A} (m : M A) : (x ← m; ret x) ≈ m.
Proof.
  intros s. unfold mbind, handler_bind, run, bind, ret.
  destruct (m s) as [[[a|e] s1] t1]; [|done]. by rewrite app_nil_r.
Qed.

Lemma bind_assoc {A B C} (m : M A) (f : A → M B) (g : B → M C) :
  (y ← (x ← m; f x); g y) ≈ (x ← m; y ← f x; g y).
Proof.
  intros s. unfold mbind, handler_bind, run, bind.
  destruct (m s) as [[[a|e] s1] t1]; [|done].
  destruct (f a s1) as [[[b|e] s2] t2]; [|done].
  destruct (g b s2) as [[r s3] t3]. by rewrite app_assoc.
Qed.

Lemma bind_throw {A B} (e : E) (f : A → M B) : (x ← throw e; f x) ≈ throw e.
Proof. done. Qed.

Lemma catch_ret {A} (a : A) (h : E → M A) : catch (ret a) h ≈ ret a.
Proof. done. Qed.

Lemma catch_throw {A} (e : E) (h : E → M A) : catch (throw e) h ≈ h e.
Proof. intros s. unfold run, catch, throw. by destruct (h e s) as [[r s2] t2]. Qed.

(** A [try] whose handler cannot throw never throws. *)
Lemma catch_total {A} (m : M A) (h : E → M A) s :
  (∀ e s', ∃ a, result (h e) s' = Ok a) → ∃ a, result (catch m h) s = Ok a.
Proof.
  intros Hh. unfold result, run, catch.
  destruct (m s) as [[[a|e] s1] t1]; [by exists a|].
  destruct (Hh e s1) as [a Ha]. unfold result, run in Ha.
  destruct (h e s1) as [[r s2] t2]. by exists a.
Qed.

(** The trace of a sequence is the concatenation of the traces. *)
Lemma trace_bind_ok {A B} (m : M A) (f : A → M B) s a :
  result m s = Ok a →
  trace (bind m f) s = trace m s ++ trace (f a) (final m s).
Proof.
  unfold result, trace, final, run, bind.
  destruct (m s) as [[[a'|e] s1] t1]; simpl; [|done]. intros [= ->].
  by destruct (f a s1) as [[r s2] t2].
Qed.

(** The state after a sequence whose first part returns. *)
Lemma final_bind {A B} (m : M A) (f : A → M B) s a :
  result m s = Ok a → final (m ≫= f) s = final (f a) (final m s).
Proof.
  unfold result, final, run, mbind, handler_bind, bind.
  destruct (m s) as [[[a'|e] s1] t1]; simpl; [|done]. intros [= ->].
  by destruct (f a s1) as [[r s2] t2].
Qed.

End laws.

(** [handler_simpl] runs a handler applied to a state as far as the
    constructors of the monad go. *)
Ltac handler_simpl :=
  cbv beta iota delta
    [mbind mret handler_bind handler_ret run result final trace ret bind
     throw catch get gets put modify emit call await when zoom fst snd] in *.

(** ** Judgments on handlers

    Four properties that every constructor of the monad carries from
    the parts of a handler to the whole:
    - [keeps I m]: [m] leaves a state that satisfies [I] when it starts
      in one, whether it returns or throws;
    - [total m]: [m] never throws;
    - [balanced g f m]: the measure [g] of the state grows by the sum of
      the weights [f] of the calls [m] makes;
    - [guards I P m]: started in a state that satisfies [I], [m] keeps
      [I] and makes only calls that satisfy [P]. *)

Section judgments.
Context {S Act E : Type}.
Local Abbreviation M := (handler S Act E).
Implicit Types (I : S → Prop) (g : S → Z) (f : Act → Z).

Definition keeps I {A} (m : M A) : Prop := ∀ s, I s → I (final m s).

Definition total {A} (m : M A) : Prop := ∀ s, ∃ a, result m s = Ok a.

Definition weight f (t : list Act) : Z := foldr (λ a n, (f a + n)%Z) 0%Z t.

Definition balanced g f {A} (m : M A) : Prop :=
  ∀ s, g (final m s) = (g s + weight f (trace m s))%Z.

Definition guards I (P : Act → Prop) {A} (m : M A) : Prop :=
  ∀ s, I s → I (final m s) ∧ Forall P (trace m s).

Lemma weight_app f t1 t2 : weight f (t1 ++ t2) = (weight f t1 + weight f t2)%Z.
Proof. induction t1 as [|a t1 IH]; simpl; lia. Qed.

(** *** [keeps] *)

Lemma keeps_ret I {A} (a : A) : keeps I (ret a).
Proof. by intros s. Qed.

Lemma keeps_throw I {A} (e : E) : keeps I (@throw S Act E A e).
Proof. by intros s. Qed.

Lemma keeps_get I : keeps I get.
Proof. by intros s. Qed.

Lemma keeps_emit I (a : Act) : keeps I (emit a).
Proof. by intros s. Qed.

Lemma keeps_call I {A} (a : Act) (r : outcome E A) : keeps I (call a r).
Proof. by intros s. Qed.

Lemma keeps_await I {A} (r : outcome E A) : keeps I (await r).
Proof. by intros s. Qed.

Lemma keeps_modify I (h : S → S) : (∀ s, I s → I (h s)) → keeps I (modify h).
Proof. intros Hh s. apply Hh. Qed.

Lemma keeps_bind I {A B} (m : M A) (k : A → M B) :
  keeps I m → (∀ a, keeps I (k a)) → keeps I (m ≫= k).
Proof.
  intros Hm Hk s Hs. specialize (Hm s Hs).
  unfold keeps, final, run, mbind, handler_bind, bind in *.
  destruct (m s) as [[[a|e] s1] t1]; simpl in *; [|done].
  specialize (Hk a s1 Hm). by destruct (k a s1) as [[r s2] t2].
Qed.

(** A handler that starts by reading the state may use what it read. *)
Lemma keeps_get_bind I {B} (k : S → M B) :
  (∀ s, I s → I (final (k s) s)) → keeps I (get ≫= k).
Proof.
  intros Hk s Hs. specialize (Hk s Hs).
  unfold final, run, mbind, handler_bind, bind, get in *.
  by destruct (k s s) as [[r s2] t2].
Qed.

Lemma keeps_catch I {A} (m : M A) (h : E → M A) :
  keeps I m → (∀ e, keeps I (h e)) → keeps I (catch m h).
Proof.
  intros Hm Hh s Hs. specialize (Hm s Hs).
  unfold keeps, final, run, catch in *.
  destruct (m s) as [[[a|e] s1] t1]; simpl in *; [done|].
  specialize (Hh e s1 Hm). by destruct (h e s1) as [[r s2] t2].
Qed.

Lemma keeps_when I (c : bool) (m : M unit) : keeps I m → keeps I (when c m).
Proof. destruct c; [done | intros _; apply keeps_ret]. Qed.

(** *** [total] *)

Lemma total_ret {A} (a : A) : total (@ret S Act E A a).
Proof. intros s. by exists a. Qed.

Lemma total_get : total (@get S Act E).
Proof. intros s. by exists s. Qed.

Lemma total_emit (a : Act) : total (@emit S Act E a).
Proof. intros s. by exists tt. Qed.

Lemma total_modify (h : S → S) : total (@modify S Act E h).
Proof. intros s. by exists tt. Qed.

Lemma total_put (s' : S) : total (@put S Act E s').
Proof. intros s. by exists tt. Qed.

Lemma total_bind {A B} (m : M A) (k : A → M B) :
  total m → (∀ a, total (k a)) → total (m ≫= k).
Proof.
  intros Hm Hk s. destruct (Hm s) as [a Ha].
  unfold total, result, run, mbind, handler_bind, bind in *.
  destruct (m s) as [[[a'|e] s1] t1]; simpl in *; [|done].
  destruct (Hk a' s1) as [b Hb]. destruct (k a' s1) as [[r s2] t2]. eauto.
Qed.

Lemma total_catch {A} (m : M A) (h : E → M A) :
  (∀ e, total (h e)) → total (catch m h).
Proof. intros Hh s. apply catch_total. intros e s'. apply Hh. Qed.

Lemma total_when (c : bool) (m : M unit) : total m → total (when c m).
Proof. destruct c; [done | intros _; apply total_ret]. Qed.

(** After a statement that does not throw, the next one runs. *)
Lemma final_seq {B} (m : M unit) (k : M B) s :
  total m → final (m ;; k) s = final k (final m s).
Proof. intros Hm. destruct (Hm s) as [[] Ha]. by rewrite (final_bind _ _ _ tt). Qed.

Lemma trace_seq {B} (m : M unit) (k : M B) s :
  total m → trace (m ;; k) s = trace m s ++ trace k (final m s).
Proof.
  intros Hm. destruct (Hm s) as [[] Ha]. by rewrite <-(trace_bind_ok m (λ _, k) s tt).
Qed.

(** *** [balanced] *)

Lemma balanced_ret g f {A} (a : A) : balanced g f (ret a).
Proof. intros s. handler_simpl. simpl. lia. Qed.

Lemma balanced_throw g f {A} (e : E) : balanced g f (@throw S Act E A e).
Proof. intros s. handler_simpl. simpl. lia. Qed.

Lemma balanced_get g f : balanced g f get.
Proof. intros s. handler_simpl. simpl. lia. Qed.

Lemma balanced_await g f {A} (r : outcome E A) : balanced g f (await r).
Proof. intros s. handler_simpl. simpl. lia. Qed.

Lemma balanced_emit g f (a : Act) : f a = 0%Z → balanced g f (emit a).
Proof. intros Ha s. handler_simpl. simpl. lia. Qed.

Lemma balanced_call g f {A} (a : Act) (r : outcome E A) :
  f a = 0%Z → balanced g f (call a r).
Proof. intros Ha s. handler_simpl. simpl. lia. Qed.

Lemma balanced_modify g f (h : S → S) :
  (∀ s, g (h s) = g s) → balanced g f (modify h).
Proof. intros Hh s. handler_simpl. simpl. rewrite Hh. lia. Qed.

(** A change of the measure and the call that accounts for it. *)
Lemma balanced_modify_emit g f (h : S → S) (a : Act) :
  (∀ s, g (h s) = (g s + f a)%Z) → balanced g f (modify h ;; emit a).
Proof. intros Hh s. handler_simpl. simpl. rewrite Hh. lia. Qed.

Lemma balanced_bind g f {A B} (m : M A) (k : A → M B) :
  balanced g f m → (∀ a, balanced g f (k a)) → balanced g f (m ≫= k).
Proof.
  intros Hm Hk s. specialize (Hm s).
  unfold balanced, final, trace, run, mbind, handler_bind, bind in *.
  destruct (m s) as [[[a|e] s1] t1]; simpl in *; [|done].
  specialize (Hk a s1). destruct (k a s1) as [[r s2] t2]. simpl in *.
  rewrite weight_app. lia.
Qed.

Lemma balanced_catch g f {A} (m : M A) (h : E → M A) :
  balanced g f m → (∀ e, balanced g f (h e)) → balanced g f (catch m h).
Proof.
  intros Hm Hh s. specialize (Hm s).
  unfold balanced, final, trace, run, catch in *.
  destruct (m s) as [[[a|e] s1] t1]; simpl in *; [done|].
  specialize (Hh e s1). destruct (h e s1) as [[r s2] t2]. simpl in *.
  rewrite weight_app. lia.
Qed.

Lemma balanced_when g f (c : bool) (m : M unit) :
  balanced g f m → balanced g f (when c m).
Proof. destruct c; [done | intros _; apply balanced_ret]. Qed.

(** *** [guards] *)

Lemma guards_keeps I P {A} (m : M A) : guards I P m → keeps I m.
Proof. intros Hm s Hs. by apply Hm. Qed.

Lemma guards_ret I P {A} (a : A) : guards I P (ret a).
Proof. by intros s. Qed.

Lemma guards_throw I P {A} (e : E) : guards I P (@throw S Act E A e).
Proof. by intros s. Qed.

Lemma guards_get I P : guards I P get.
Proof. by intros s. Qed.

Lemma guards_await I P {A} (r : outcome E A) : guards I P (await r).
Proof. by intros s. Qed.

Lemma guards_emit I P (a : Act) : P a → guards I P (emit a).
Proof. intros Ha s Hs. split; [done | by apply Forall_singleton]. Qed.

Lemma guards_call I P {A} (a : Act) (r : outcome E A) : P a → guards I P (call a r).
Proof. intros Ha s Hs. split; [done | by apply Forall_singleton]. Qed.

Lemma guards_modify I P (h : S → S) : (∀ s, I s → I (h s)) → guards I P (modify h).
Proof. intros Hh s Hs. split; [by apply Hh | done]. Qed.

Lemma guards_bind I P {A B} (m : M A) (k : A → M B) :
  guards I P m → (∀ a, guards I P (k a)) → guards I P (m ≫= k).
Proof.
  intros Hm Hk s Hs. destruct (Hm s Hs) as [Hs1 Ht1].
  unfold guards, final, trace, run, mbind, handler_bind, bind in *.
  destruct (m s) as [[[a|e] s1] t1]; simpl in *; [|done].
  destruct (Hk a s1 Hs1) as [Hs2 Ht2]. destruct (k a s1) as [[r s2] t2].
  split; [done | by apply Forall_app].
Qed.

(** A handler that starts by reading the state may use what it read. *)
Lemma guards_get_bind I P {B} (k : S → M B) :
  (∀ s, I s → I (final (k s) s) ∧ Forall P (trace (k s) s)) →
  guards I P (get ≫= k).
Proof.
  intros Hk s Hs. specialize (Hk s Hs).
  unfold final, trace, run, mbind, handler_bind, bind, get in *.
  by destruct (k s s) as [[r s2] t2].
Qed.

(** What was read satisfies the invariant. *)
Lemma guards_get_with I P {B} (k : S → M B) :
  (∀ s, I s → guards I P (k s)) → guards I P (get ≫= k).
Proof. intros Hk. apply guards_get_bind. intros s Hs. by apply Hk. Qed.

Lemma guards_catch I P {A} (m : M A) (h : E → M A) :
  guards I P m → (∀ e, guards I P (h e)) → guards I P (catch m h).
Proof.
  intros Hm Hh s Hs. destruct (Hm s Hs) as [Hs1 Ht1].
  unfold guards, final, trace, run, catch in *.
  destruct (m s) as [[[a|e] s1] t1]; simpl in *; [done|].
  destruct (Hh e s1 Hs1) as [Hs2 Ht2]. destruct (h e s1) as [[r s2] t2].
  split; [done | by apply Forall_app].
Qed.

Lemma guards_when I P (c : bool) (m : M unit) : guards I P m → guards I P (when c m).
Proof. destruct c; [done | intros _; apply guards_ret]. Qed.

(** A weaker invariant needs a proof of its own; weaker calls do not. *)
Lemma guards_weaken I P Q {A} (m : M A) :
  (∀ a, P a → Q a) → guards I P m → guards I Q m.
Proof.
  intros HPQ Hm s Hs. destruct (Hm s Hs) as [? Ht].
  split; [done | by eapply Forall_impl].
Qed.

End judgments.

(** A component's handler inside a larger state. *)
Section zoom.
Context {S T Act Act' E A : Type}.
Context (proj : S → T) (inj : T → S → S) (emb : Act' → Act).
Implicit Types (m : handler T Act' E A).

Lemma keeps_zoom (I : S → Prop) (J : T → Prop) m :
  (∀ s, I s → J (proj s)) → (∀ s t, I s → J t → I (inj t s)) →
  keeps J m → keeps I (zoom proj inj emb m).
Proof.
  intros HIJ HJI Hm s Hs. unfold final, run. rewrite zoom_run. simpl.
  apply HJI; [done|]. apply Hm, HIJ, Hs.
Qed.

Lemma total_zoom m : total m → total (zoom proj inj emb m).
Proof.
  intros Hm s. unfold result, run. rewrite zoom_run. simpl. apply Hm.
Qed.

Lemma balanced_zoom (g : S → Z) (f : Act → Z) m :
  (∀ s t, g (inj t s) = g s) → (∀ a, f (emb a) = 0%Z) →
  balanced g f (zoom proj inj emb m).
Proof.
  intros Hg Hf s. unfold final, trace, run. rewrite zoom_run. simpl.
  rewrite Hg. assert (∀ t, weight f (emb <$> t) = 0%Z) as ->; [|lia].
  induction t as [|a t IH]; [done|].
  change (weight f (emb <$> a :: t)) with (f (emb a) + weight f (emb <$> t))%Z.
  by rewrite Hf, IH.
Qed.

(** The measure of the larger state is the component's. *)
Lemma balanced_zoom_in (g : S → Z) (f : Act → Z) (g' : T → Z) (f' : Act' → Z) m :
  (∀ s, g s = g' (proj s)) → (∀ t s, g (inj t s) = g' t) →
  (∀ a, f (emb a) = f' a) →
  balanced g' f' m → balanced g f (zoom proj inj emb m).
Proof.
  intros Hp Hi Hf Hm s. unfold final, trace, run. rewrite zoom_run. simpl.
  rewrite Hi, Hp, (Hm (proj s)). f_equal.
  induction (Effects.trace m (proj s)) as [|a t IH]; [done|].
  change (weight f' (a :: t)) with (f' a + weight f' t)%Z.
  change (weight f (emb <$> a :: t)) with (f (emb a) + weight f (emb <$> t))%Z.
  by rewrite Hf, IH.
Qed.

Lemma guards_zoom (I : S → Prop) (J : T → Prop) (P : Act → Prop)
    (Q : Act' → Prop) m :
  (∀ s, I s → J (proj s)) → (∀ s t, I s → J t → I (inj t s)) →
  (∀ a, Q a → P (emb a)) →
  guards J Q m → guards I P (zoom proj inj emb m).
Proof.
  intros HIJ HJI HQP Hm s Hs. destruct (Hm (proj s) (HIJ s Hs)) as [Ht Htr].
  unfold final, trace, run. rewrite zoom_run. simpl.
  split; [by apply HJI|]. apply Forall_fmap. by eapply Forall_impl.
Qed.

End zoom.

#[export] Hint Resolve keeps_ret keeps_throw keeps_get keeps_emit keeps_call
  keeps_await keeps_bind keeps_catch keeps_when keeps_modify
  total_ret total_get total_emit total_modify total_put total_bind total_catch
  total_when total_zoom
  balanced_ret balanced_throw balanced_get balanced_await balanced_bind
  balanced_catch balanced_when : bot.


(** [handler_rules] takes a judgment on a handler apart along the
    handler's structure and leaves the judgments on its state updates, on
    the calls that may fail outside a [try], and on the handlers of other
    components. *)
Ltac handler_rules_with leaf :=
  repeat first
    [ lazymatch goal with |- ∀ _, _ => intro end
    | leaf
    | apply keeps_ret | apply keeps_throw | apply keeps_get | apply keeps_emit
    | apply keeps_call | apply keeps_await | apply keeps_when
    | apply keeps_catch | apply keeps_bind
    | apply total_ret | apply total_get | apply total_emit | apply total_modify
    | apply total_put | apply total_when | apply total_catch | apply total_bind
    | apply balanced_ret | apply balanced_throw | apply balanced_get
    | apply balanced_await | apply balanced_when | apply balanced_modify_emit
    | apply balanced_catch | apply balanced_bind
    | apply guards_ret | apply guards_throw | apply guards_get
    | apply guards_await | apply guards_when | apply guards_catch
    | apply guards_bind
    | lazymatch goal with
      | |- keeps _ (match _ with _ => _ end) => case_match
      | |- total (match _ with _ => _ end) => case_match
      | |- balanced _ _ (match _ with _ => _ end) => case_match
      | |- guards _ _ (match _ with _ => _ end) => case_match
      end ].

Ltac handler_rules := handler_rules_with fail.
