(* ===== verification/Language.v ===== *)
(** * Language detection and fallback replies

    The tags that [detectLanguage] returns, [GeminiAI.detectLanguage]
    ([src/unnamed/part_001], lines 86-106) with its regular expressions as
    executable scans over code units, and [AIReply.getFallbackReply]
    ([src/unnamed/part_000], lines 684-696). *)

From S2P Require Import Prelude.

(** The strings ['hinglish'], ['hindi'], ... that the detectors return and
    that index the prompt and fallback tables. *)
Inductive language : Type :=
| hinglish | hindi | english | urdu | bengali | tamil | gujarati.

#[export] Instance language_eq_dec : EqDecision language.
Proof. solve_decision. Defined.

Definition languageName (l : language) : text :=
  match l with
  | hinglish => js "hinglish"
  | hindi => js "hindi"
  | english => js "english"
  | urdu => js "urdu"
  | bengali => js "bengali"
  | tamil => js "tamil"
  | gujarati => js "gujarati"
  end.

(** ** Regular expressions as scans *)

(** [/[ऀ-ॿ]/]. *)
Definition isDevanagari (c : N) : bool := in_range 0x0900 0x097F c.

(** [\w]: what [\b] separates from everything else. *)
Definition isWordChar (c : N) : bool :=
  isLatin c || isDigit c || (c =? 95)%N.

(** Case folding of the [i] flag without the [u] flag: only ASCII letters
    fold onto ASCII letters. *)
Definition foldCase (c : N) : N :=
  if in_range 97 122 c then (c - 32)%N else c.

(** [w] case-insensitively at the start of [s]; the rest of [s] if so. *)
Fixpoint stripPrefixCI (w s : text) : option text :=
  match w, s with
  | [], _ => Some s
  | _ :: _, [] => None
  | a :: w', b :: s' =>
    if (foldCase a =? foldCase b)%N then stripPrefixCI w' s' else None
  end.

(** [\b] before the rest [s] when a word character precedes it. *)
Definition boundaryAfterWord (s : text) : bool :=
  match s with
  | [] => true
  | c :: _ => negb (isWordChar c)
  end.

(** One of the words [ws] at the start of [s], followed by [\b]. *)
Definition wordHere (ws : list text) (s : text) : bool :=
  existsb (λ w, match stripPrefixCI w s with
                | Some r => boundaryAfterWord r
                | None => false
                end) ws.

(** [/\b(w1|w2|...)\b/i.test(s)], for non-empty words made of word
    characters; [prevWord] says whether a word character precedes [s]. *)
Fixpoint testWords (ws : list text) (prevWord : bool) (s : text) : bool :=
  (negb prevWord && wordHere ws s) ||
  match s with
  | [] => false
  | c :: r => testWords ws (isWordChar c) r
  end.

Module GeminiLanguage.

(** The three [hinglishPatterns]. *)
Definition hinglishPatterns : list (list text) :=
  [ map js ["kya"; "hai"; "hain"; "mein"; "tum"; "aap"; "bhi"; "kar";
            "kaise"; "kaha"; "kab"]%string;
    map js ["yaar"; "bhai"; "dude"; "bro"; "buddy"]%string;
    map js ["ok"; "okay"; "thanks"; "sorry"; "please"]%string ].

Definition detectLanguage (t : text) : language :=
  let hindiWords := existsb isDevanagari t in
  let englishWords := existsb isLatin t in
  if hindiWords && englishWords then hinglish
  else if hindiWords then hindi
  else if englishWords then english
  else if existsb (λ ws, testWords ws false t) hinglishPatterns then hinglish
  else hinglish.

End GeminiLanguage.

Module AIReplyLanguage.

Definition getFallbackReply (l : language) : text :=
  match l with
  | hinglish => js "Sorry yaar, thoda issue ho gaya. Tum bolo kya chahiye? 😅"
  | hindi => js "माफ करें, कुछ समस्या हो गई। आप बताएं क्या चाहिए? 😅"
  | english => js "Sorry, I encountered an issue. What can I help you with? 😅"
  | urdu => js "معاف کریں، کچھ مسئلہ ہو گیا۔ آپ بتائیں کیا چاہیے؟ 😅"
  | bengali => js "দুঃখিত, কিছু সমস্যা হয়েছে। আপনি বলুন কী লাগবে? 😅"
  | tamil => js "மன்னிக்கவும், சில பிரச்சனை ஏற்பட்டது. நீங்கள் என்ன வேண்டும் என்று சொல்லுங்கள்? 😅"
  | gujarati => js "માફ કરશો, થોડી સમસ્યા થઈ. તમે કહો શું જોઈએ? 😅"
  end.

End AIReplyLanguage.

(** ** Facts about the scans *)

Lemma foldCase_latin a b :
  foldCase a = foldCase b → isLatin a = true → isLatin b = true.
Proof.
  unfold foldCase. rewrite !isLatin_true.
  destruct (in_range 97 122 a) eqn:Ea, (in_range 97 122 b) eqn:Eb;
    rewrite ?in_range_true, ?in_range_false in *; lia.
Qed.

Lemma stripPrefixCI_latin w s r c :
  stripPrefixCI w s = Some r → c ∈ w → isLatin c = true →
  existsb isLatin s = true.
Proof.
  revert s. induction w as [|a w IH]; intros s H Hc Hl; [by inversion Hc|].
  destruct s as [|b s]; simpl in H; [done|].
  destruct (foldCase a =? foldCase b)%N eqn:E; [|done].
  apply elem_of_cons in Hc as [<-|Hc]; simpl.
  - apply orb_true_iff. left. apply N.eqb_eq in E. by eapply foldCase_latin.
  - apply orb_true_iff. right. eauto.
Qed.

(** A word list whose words each contain a letter matches only texts that
    contain a letter. *)
Lemma testWords_latin ws p s :
  Forall (λ w, ∃ c, c ∈ w ∧ isLatin c = true) ws →
  testWords ws p s = true → existsb isLatin s = true.
Proof.
  intros Hws. revert p. induction s as [|c s IH]; intros p; simpl.
  - rewrite orb_false_r. intros [_ H]%andb_true_iff.
    apply existsb_exists in H as (w & Hw%list_elem_of_In & H).
    destruct (stripPrefixCI w []) as [r|] eqn:E; [|done].
    rewrite Forall_forall in Hws. destruct (Hws w Hw) as (c & Hc & Hl).
    by apply (stripPrefixCI_latin _ _ _ _ E Hc).
  - intros [[_ H]%andb_true_iff | H]%orb_true_iff.
    + apply existsb_exists in H as (w & Hw%list_elem_of_In & H).
      destruct (stripPrefixCI w (c :: s)) as [r|] eqn:E; [|done].
      rewrite Forall_forall in Hws. destruct (Hws w Hw) as (c' & Hc & Hl).
      by apply (stripPrefixCI_latin _ _ _ _ E Hc).
    + apply orb_true_iff. right. eauto.
Qed.

Lemma hinglishPatterns_latin :
  Forall (Forall (λ w, ∃ c, c ∈ w ∧ isLatin c = true))
    GeminiLanguage.hinglishPatterns.
Proof.
  repeat constructor;
    match goal with
    | |- ∃ c, c ∈ ?w ∧ _ =>
      let w' := eval vm_compute in w in
      change w with w'; eexists; split; [apply list_elem_of_here | done]
    end.
Qed.



(** Romanised Hindi, which the patterns were written for, is English to
    [detectLanguage]. *)
Lemma detectLanguage_romanised :
  GeminiLanguage.detectLanguage (js "kya haal hai bhai") = english.
Proof. reflexivity. Qed.

Lemma getFallbackReply_nonEmpty l :
  nonEmpty (AIReplyLanguage.getFallbackReply l) = true.
Proof. by destruct l. Qed.
