(* ===== verification/History.v ===== *)
(** * Conversation stores

    [AIReplyHistory]: [conversationHistory] of class [AIReply]
    ([src/unnamed/part_000], lines 641-661 and 698-722): one array of
    turns per contact, capped at ten by [shift].

    [GeminiHistory]: [chatHistory] of class [GeminiAI]
    ([src/unnamed/part_001], lines 108-137, 163-167 and 184-198): one array
    of messages per contact, a user message and a bot reply per exchange,
    capped at ten by [slice(-10)].

    Both stores are JavaScript [Map]s from the contact number to an array:
    [gmap text (list _)]. *)

From S2P Require Import Prelude Language.

Module AIReplyHistory.

(** An element of a contact's array. *)
Record entry : Type := Entry {
  userMessage : text;
  aiReply : text;
  lang : language;
  timestamp : Z;
}.

Abbreviation store := (gmap text (list entry)).

(** The cap of [updateConversationHistory]. *)
Definition cap : nat := 10.

(** [this.conversationHistory.get(fromNumber) || []]. *)
Definition getConversationHistory (fromNumber : text) (h : store) : list entry :=
  default [] (h !! fromNumber).

(** [now] is the clock read by [new Date()]. *)
Definition updateConversationHistory
    (fromNumber userMessage aiReply : text) (l : language) (now : Z)
    (h : store) : store :=
  let history :=
    getConversationHistory fromNumber h ++ [Entry userMessage aiReply l now] in
  let history := if cap <? length history then shift history else history in
  <[fromNumber := history]> h.

(** [24 * 60 * 60 * 1000]. *)
Definition maxAge : Z := 24 * 60 * 60 * 1000.

(** The test of the loop of [cleanupOldConversations]: the array is empty,
    or its last turn is older than [maxAge]. *)
Definition expired (now : Z) (history : list entry) : bool :=
  match lastElem history with
  | None => true
  | Some lastMessage => (maxAge <? now - timestamp lastMessage)%Z
  end.

(** The first loop of [cleanupOldConversations]. *)
Definition cleanupOldConversations (now : Z) (h : store) : store :=
  delete_where (λ _ history, expired now history) h.

(** The store's invariant: no array is longer than the cap. *)
Definition bounded (h : store) : Prop :=
  map_Forall (λ _ history, length history ≤ cap) h.

End AIReplyHistory.

Module GeminiHistory.

(** The [type] field: ['User'] or ['Bot']. *)
Inductive role : Type := User | Bot.

#[export] Instance role_eq_dec : EqDecision role.
Proof. solve_decision. Defined.

Record entry : Type := Entry {
  type : role;
  message : text;
  timestamp : Z;
}.

Abbreviation store := (gmap text (list entry)).

Definition cap : nat := 10.

(** [this.chatHistory.get(contactNumber) || []]. *)
Definition getChatHistory (contactNumber : text) (h : store) : list entry :=
  default [] (h !! contactNumber).

(** [tUser] and [tBot] are the two clock reads of [new Date()]. *)
Definition updateChatHistory
    (contactNumber userMessage botReply : text) (tUser tBot : Z)
    (h : store) : store :=
  let history := getChatHistory contactNumber h in
  let history := history ++ [Entry User userMessage tUser] in
  let history := history ++ [Entry Bot botReply tBot] in
  let history := if cap <? length history then lastN 10 history else history in
  <[contactNumber := history]> h.

Definition clearChatHistory (contactNumber : text) (h : store) : store :=
  delete contactNumber h.

(** [24 * 60 * 60 * 1000]. *)
Definition oneDay : Z := 24 * 60 * 60 * 1000.

(** The test of the loop of [cleanup]: empty arrays are skipped. *)
Definition stale (now : Z) (history : list entry) : bool :=
  match lastElem history with
  | None => false
  | Some lastMessage => (oneDay <? now - timestamp lastMessage)%Z
  end.

Definition cleanup (now : Z) (h : store) : store :=
  delete_where (λ _ history, stale now history) h.

(** An array of exchanges: a user message, then the reply to it. *)
Fixpoint paired (l : list entry) : bool :=
  match l with
  | [] => true
  | u :: b :: r =>
    bool_decide (type u = User) && bool_decide (type b = Bot) && paired r
  | [_] => false
  end.

(** The store's invariant: arrays of at most ten messages, made of
    exchanges. *)
Definition wf (h : store) : Prop :=
  map_Forall (λ _ history, length history ≤ cap ∧ paired history = true) h.

End GeminiHistory.

(** ** The store of [AIReply] *)

Section ai_reply_history.
Import AIReplyHistory.
Implicit Types (h : store) (c : text).

Lemma getConversationHistory_empty c : getConversationHistory c ∅ = [].
Proof. done. Qed.

Lemma bounded_empty : bounded ∅.
Proof. apply map_Forall_empty. Qed.

Lemma bounded_get h c : bounded h → length (getConversationHistory c h) ≤ cap.
Proof.
  intros Hb. unfold getConversationHistory.
  destruct (h !! c) as [l|] eqn:E; simpl; [by apply (Hb c) | unfold cap; lia].
Qed.

(** The array stored for the contact after an update. *)
Lemma get_update h c u r l now :
  getConversationHistory c (updateConversationHistory c u r l now h) =
  let history := getConversationHistory c h ++ [Entry u r l now] in
  if cap <? length history then shift history else history.
Proof.
  unfold updateConversationHistory at 1, getConversationHistory at 1.
  by rewrite lookup_insert_eq.
Qed.

Lemma get_update_ne h c c' u r l now :
  c ≠ c' →
  getConversationHistory c' (updateConversationHistory c u r l now h) =
  getConversationHistory c' h.
Proof.
  intros Hne. unfold updateConversationHistory, getConversationHistory at 1.
  by rewrite lookup_insert_ne.
Qed.

Lemma updateConversationHistory_bounded h c u r l now :
  bounded h → bounded (updateConversationHistory c u r l now h).
Proof.
  intros Hb. apply map_Forall_insert_2; [|done].
  pose proof (bounded_get h c Hb) as Hlen. unfold cap in *.
  case_if; bool_to_Z; [rewrite length_shift|];
    rewrite length_app in *; simpl in *; lia.
Qed.

(** [AIReply.updateConversationHistory] on a contact that has ten
    turns evicts the oldest turn and keeps the other nine in order, with
    the new turn last. *)
Theorem updateConversationHistory_evicts h c u r l now first rest :
  getConversationHistory c h = first :: rest →
  length rest = 9 →
  getConversationHistory c (updateConversationHistory c u r l now h) =
  rest ++ [Entry u r l now].
Proof.
  intros Hget Hlen. rewrite get_update, Hget. cbv zeta.
  rewrite length_app. simpl. rewrite Hlen. done.
Qed.

(** Below the cap a turn is appended and nothing is evicted. *)
Lemma updateConversationHistory_appends h c u r l now :
  length (getConversationHistory c h) < cap →
  getConversationHistory c (updateConversationHistory c u r l now h) =
  getConversationHistory c h ++ [Entry u r l now].
Proof.
  intros Hlen. rewrite get_update. cbv zeta. rewrite length_app. simpl.
  case_if; bool_to_Z; [lia | done].
Qed.

(** The last turn of a contact is the one just recorded. *)
Lemma lastElem_update h c u r l now :
  bounded h →
  lastElem (getConversationHistory c (updateConversationHistory c u r l now h))
  = Some (Entry u r l now).
Proof.
  intros Hb. rewrite get_update. cbv zeta. case_if; [|apply lastElem_snoc].
  pose proof (bounded_get h c Hb) as Hlen.
  destruct (getConversationHistory c h) as [|e0 l0]; simpl in *; [done|].
  apply lastElem_snoc.
Qed.

(** What the cleanup loop leaves: the contacts whose last turn is at most
    [maxAge] old, with their arrays untouched. *)
Lemma cleanupOldConversations_lookup now h c :
  cleanupOldConversations now h !! c =
  match h !! c with
  | Some history => if expired now history then None else Some history
  | None => None
  end.
Proof. unfold cleanupOldConversations. by rewrite lookup_delete_where. Qed.

Lemma cleanupOldConversations_bounded now h :
  bounded h → bounded (cleanupOldConversations now h).
Proof. apply delete_where_Forall. Qed.

(** After [AIReply.cleanupOldConversations] every stored array has
    a last turn and that turn is at most 24 hours old. *)
Theorem cleanupOldConversations_fresh now h c history :
  cleanupOldConversations now h !! c = Some history →
  ∃ e, lastElem history = Some e ∧ (now - timestamp e ≤ maxAge)%Z.
Proof.
  rewrite cleanupOldConversations_lookup.
  destruct (h !! c) as [l0|]; [|done]. unfold expired.
  destruct (lastElem l0) as [e|] eqn:E; [|done].
  case_if; [done|]. intros [= <-]. bool_to_Z. eauto.
Qed.

(** A contact with ten turns, at the times 0 to 9. *)
Definition tenTurns : list entry :=
  (λ t, Entry (js "hi") (js "hello") english t) <$> [0; 1; 2; 3; 4; 5; 6; 7; 8; 9]%Z.

Lemma updateConversationHistory_evicts_witness :
  getConversationHistory (js "c")
    (updateConversationHistory (js "c") (js "bye") (js "ok") english 10
       {[js "c" := tenTurns]}) =
  tail tenTurns ++ [Entry (js "bye") (js "ok") english 10].
Proof.
  by apply (updateConversationHistory_evicts {[js "c" := tenTurns]} (js "c")
              (js "bye") (js "ok") english 10 (Entry (js "hi") (js "hello") english 0)).
Defined.

Lemma cleanupOldConversations_fresh_witness :
  ∃ e, lastElem tenTurns = Some e ∧ (86400000 - timestamp e ≤ maxAge)%Z.
Proof.
  by apply (cleanupOldConversations_fresh 86400000 {[js "c" := tenTurns]} (js "c")).
Defined.

End ai_reply_history.

(** ** The store of [GeminiAI] *)

Section gemini_history.
Import GeminiHistory.
Implicit Types (h : store) (c : text) (l : list entry).

Lemma paired_app l k : paired l = true → paired (l ++ k) = paired k.
Proof.
  induction l as [|x|u b r IH] using list_pair_ind; [done | done |].
  simpl. intros H. bool_to_Z.
  repeat match goal with H : _ = true |- _ => rewrite H; clear H end. by apply IH.
Qed.

Lemma paired_even l : paired l = true → Nat.Even (length l).
Proof.
  induction l as [|x|u b r IH] using list_pair_ind; [by exists 0 | done |].
  simpl. intros H. bool_to_Z. destruct IH as [n Hn]; [done|]. exists (S n). lia.
Qed.

Lemma paired_drop2 u b l : paired (u :: b :: l) = true → paired l = true.
Proof. simpl. intros H. by bool_to_Z. Qed.

(** Dropping whole exchanges from the front keeps the pairing. *)
Lemma paired_drop_even n l :
  paired l = true → paired (drop (2 * n) l) = true.
Proof.
  revert l. induction n as [|n IH]; intros l H; [done|].
  replace (2 * S n) with (S (S (2 * n))) by lia.
  destruct l as [|u [|b r]]; [done | done |].
  simpl. apply IH. by eapply paired_drop2.
Qed.

Lemma wf_empty : wf ∅.
Proof. apply map_Forall_empty. Qed.

Lemma wf_get h c :
  wf h → length (getChatHistory c h) ≤ cap ∧ paired (getChatHistory c h) = true.
Proof.
  intros Hw. unfold getChatHistory.
  destruct (h !! c) as [l|] eqn:E; simpl; [by apply (Hw c) | unfold cap; split; [lia|done]].
Qed.

Lemma get_updateChat h c u r t1 t2 :
  getChatHistory c (updateChatHistory c u r t1 t2 h) =
  let history := (getChatHistory c h ++ [Entry User u t1]) ++ [Entry Bot r t2] in
  if cap <? length history then lastN 10 history else history.
Proof.
  unfold updateChatHistory at 1, getChatHistory at 1.
  by rewrite lookup_insert_eq.
Qed.

Lemma get_updateChat_ne h c c' u r t1 t2 :
  c ≠ c' →
  getChatHistory c' (updateChatHistory c u r t1 t2 h) = getChatHistory c' h.
Proof.
  intros Hne. unfold updateChatHistory, getChatHistory at 1.
  by rewrite lookup_insert_ne.
Qed.

Lemma paired_exchange l u r t1 t2 :
  paired l = true → paired ((l ++ [Entry User u t1]) ++ [Entry Bot r t2]) = true.
Proof. intros H. rewrite <-app_assoc. by rewrite paired_app. Qed.

(** The store of [GeminiAI] keeps at most ten messages per contact and
    keeps them in whole exchanges, a user message followed by its
    reply. *)
Lemma updateChatHistory_wf h c u r t1 t2 :
  wf h → wf (updateChatHistory c u r t1 t2 h).
Proof.
  intros Hw. apply map_Forall_insert_2; [|done].
  destruct (wf_get h c Hw) as [Hlen Hp].
  pose proof (paired_exchange _ u r t1 t2 Hp) as Hp'.
  pose proof (paired_even _ Hp) as [n Hn].
  set (l := (getChatHistory c h ++ _) ++ _) in *.
  assert (length l = 2 * n + 2) as Hl
    by (unfold l; rewrite !length_app; simpl; lia).
  case_if; bool_to_Z; [|split; [lia | done]].
  split; [rewrite length_lastN; unfold cap; lia|].
  unfold lastN. replace (length l - 10) with (2 * (n - 4)) by (unfold cap in *; lia).
  by apply paired_drop_even.
Qed.

(** C3: [GeminiAI.updateChatHistory] on a contact that has ten messages
    evicts the oldest exchange, both of its messages, and keeps the other
    eight in order, with the new exchange last: the history is a FIFO of
    at most ten messages. *)
Theorem updateChatHistory_evicts h c u r t1 t2 u0 b0 rest :
  getChatHistory c h = u0 :: b0 :: rest →
  length rest = 8 →
  getChatHistory c (updateChatHistory c u r t1 t2 h) =
  rest ++ [Entry User u t1; Entry Bot r t2].
Proof.
  intros Hget Hlen. rewrite get_updateChat, Hget. cbv zeta.
  rewrite <-!app_assoc. simpl app. set (k := rest ++ _).
  assert (length k = 10) as Hk by (unfold k; rewrite length_app; simpl; lia).
  change (u0 :: b0 :: k) with ([u0; b0] ++ k).
  rewrite (lastN_app_suffix 10) by done. by rewrite length_app, Hk.
Qed.

Lemma updateChatHistory_appends h c u r t1 t2 :
  length (getChatHistory c h) + 2 ≤ cap →
  getChatHistory c (updateChatHistory c u r t1 t2 h) =
  getChatHistory c h ++ [Entry User u t1; Entry Bot r t2].
Proof.
  intros Hlen. rewrite get_updateChat. cbv zeta. rewrite !length_app. simpl.
  case_if; bool_to_Z; [lia | by rewrite <-app_assoc].
Qed.

Lemma clearChatHistory_get h c : getChatHistory c (clearChatHistory c h) = [].
Proof. unfold getChatHistory, clearChatHistory. by rewrite lookup_delete_eq. Qed.

Lemma clearChatHistory_wf h c : wf h → wf (clearChatHistory c h).
Proof. apply map_Forall_delete. Qed.

(** The loop of [GeminiAI.cleanup], which deletes from the map it
    iterates over, leaves exactly the contacts whose array is empty or
    whose last message is at most a day old, with their arrays
    untouched. *)
Theorem cleanup_lookup now h c :
  cleanup now h !! c =
  match h !! c with
  | Some history => if stale now history then None else Some history
  | None => None
  end.
Proof. unfold cleanup. by rewrite lookup_delete_where. Qed.

Lemma cleanup_wf now h : wf h → wf (cleanup now h).
Proof. apply delete_where_Forall. Qed.

(** A contact with five exchanges. *)
Definition fiveExchanges : list entry :=
  flat_map (λ t, [Entry User (js "hi") t; Entry Bot (js "hello") t])
           [0; 1; 2; 3; 4]%Z.

Lemma updateChatHistory_evicts_witness :
  getChatHistory (js "c")
    (updateChatHistory (js "c") (js "bye") (js "ok") 10 11
       {[js "c" := fiveExchanges]}) =
  drop 2 fiveExchanges ++ [Entry User (js "bye") 10; Entry Bot (js "ok") 11].
Proof.
  by apply (updateChatHistory_evicts {[js "c" := fiveExchanges]} (js "c")
              (js "bye") (js "ok") 10 11 (Entry User (js "hi") 0)
              (Entry Bot (js "hello") 0)).
Defined.

End gemini_history.

#[export] Hint Resolve bounded_empty updateConversationHistory_bounded
  cleanupOldConversations_bounded wf_empty clearChatHistory_wf cleanup_wf : bot.
