(* ===== verification/RateLimit.v ===== *)
(** * Rate limiters

    - [AIReplyLimit]: [AIReply.checkRateLimit] and the second loop of
      [cleanupOldConversations] ([src/unnamed/part_000], lines 663-682 and
      724-729).  The guard of line 674 is
      [userLimits.count >= parseInt(process.env.MESSAGE_RATE_LIMIT) || 2]:
      [>=] binds tighter than [||], so the guard is the boolean
      [count >= limit] or else the number [2]; [guardValue] is that
      value and [truthy] what [if] makes of it.
    - [FixedWindow]: what section 4.4 of the specification asks of the
      limiter, as a function on one contact's window, and the safety
      property it is meant to give.
    - [GeminiLimit]: [GeminiAI.canReply] ([src/unnamed/part_001], lines
      140-148): a minimum distance between two replies.
    - [ServerLimit]: the limiter at the head of
      [WhatsAppBotServer.handleIncomingMessage] ([src/unnamed/part_002],
      lines 380-391). *)

From Stdlib Require Import QArith.
From S2P Require Import Prelude.
Local Close Scope Q_scope.

Module AIReplyLimit.

(** The object stored per contact. *)
Record limits : Type := Limits { count : Z; resetTime : Z }.

Abbreviation store := (gmap text limits).

(** The values the guard expression can take. *)
Inductive jsval : Type :=
| JBool (b : bool)
| JNum (n : Z).

(** [ToBoolean]. *)
Definition truthy (v : jsval) : bool :=
  match v with
  | JBool b => b
  | JNum n => negb (n =? 0)%Z
  end.

(** [a || b]. *)
Definition jsOr (a b : jsval) : jsval := if truthy a then a else b.

(** [count >= parseInt(env)]: a comparison with [NaN] is [false]. *)
Definition geEnv (count : Z) (e : env_int) : bool :=
  match e with
  | Some limit => (limit <=? count)%Z
  | None => false
  end.

(** The expression of line 674, parsed as JavaScript parses it. *)
Definition guardValue (count : Z) (e : env_int) : jsval :=
  jsOr (JBool (geEnv count e)) (JNum 2).

(** [checkRateLimit] over a guard: [userLimits] is the stored object when
    there is one, so the reset of an elapsed window is seen in the store
    whatever the guard answers; a fresh object reaches the store only
    through [set]. *)
Definition checkRateLimitWith (guard : Z → bool)
    (now : Z) (fromNumber : text) (rl : store) : bool * store :=
  let stored := rl !! fromNumber in
  let userLimits := default (Limits 0 now) stored in
  let userLimits :=
    if (resetTime userLimits <? now)%Z then Limits 0 (now + 60000)
    else userLimits in
  let rl :=
    match stored with
    | Some _ => <[fromNumber := userLimits]> rl
    | None => rl
    end in
  if guard (count userLimits) then (false, rl)
  else (true, <[fromNumber := Limits (count userLimits + 1) (resetTime userLimits)]> rl).

(** [checkRateLimit(fromNumber)]; [e] is
    [parseInt(process.env.MESSAGE_RATE_LIMIT)] and [now] is [Date.now()]. *)
Definition checkRateLimit (e : env_int) : Z → text → store → bool * store :=
  checkRateLimitWith (λ count, truthy (guardValue count e)).

(** The loop over [this.rateLimits] of [cleanupOldConversations]. *)
Definition cleanupRateLimits (now : Z) (rl : store) : store :=
  delete_where (λ _ l, (resetTime l + 300000 <? now)%Z) rl.

End AIReplyLimit.

Module FixedWindow.

(** Section 4.4: "a fixed window per contact (default 60 s) with a maximum
    reply count (default 2).  On each attempt: if the window has elapsed,
    reset count to 0 and start a new window; if count is at or above the
    maximum, deny; otherwise increment and allow." *)

(** The guard the comment of line 673 describes:
    [count >= (parseInt(env) || 2)]. *)
Definition quotaReached (e : env_int) (count : Z) : bool :=
  (parseIntOr e 2 <=? count)%Z.

(** The window an attempt at [now] is counted in: a new one when the old
    one has elapsed or there is none. *)
Definition renew (now : Z) (w : option AIReplyLimit.limits) : AIReplyLimit.limits :=
  let w := default (AIReplyLimit.Limits 0 now) w in
  if (AIReplyLimit.resetTime w <? now)%Z
  then AIReplyLimit.Limits 0 (now + 60000) else w.

(** One attempt on a contact's window. *)
Definition attempt (quota : Z) (now : Z) (w : option AIReplyLimit.limits) :
    bool * AIReplyLimit.limits :=
  let w := renew now w in
  if (quota <=? AIReplyLimit.count w)%Z then (false, w)
  else (true, AIReplyLimit.Limits (AIReplyLimit.count w + 1) (AIReplyLimit.resetTime w)).

(** The attempts of one contact at the times [ts], from the window [w]:
    the answers, and the window each answer was counted in. *)
Fixpoint attempts (quota : Z) (ts : list Z) (w : option AIReplyLimit.limits) :
    list (bool * Z) :=
  match ts with
  | [] => []
  | t :: ts' =>
    let '(ok, w') := attempt quota t w in
    (ok, AIReplyLimit.resetTime w') :: attempts quota ts' (Some w')
  end.

(** The replies allowed in the window that ends at [r]. *)
Definition allowedIn (r : Z) (log : list (bool * Z)) : nat :=
  length (filter (λ a, a.1 = true ∧ a.2 = r) log).

End FixedWindow.

Module GeminiLimit.

(** [this.lastReplyTime]. *)
Abbreviation store := (gmap text Z).

(** [oneMinute / maxMessagesPerMinute], a double. *)
Definition minGap (e : env_int) : Q :=
  (inject_Z (60 * 1000) / inject_Z (parseIntOr e 2))%Q.

(** [canReply(contactNumber)]; [e] is
    [parseInt(process.env.MAX_MESSAGES_PER_MINUTE)].  [!lastReply] holds
    for [undefined] and for [0]. *)
Definition canReply (e : env_int) (now : Z) (contactNumber : text)
    (lastReplyTime : store) : bool :=
  match lastReplyTime !! contactNumber with
  | None => true
  | Some lastReply =>
    if (lastReply =? 0)%Z then true
    else negb (Qle_bool (inject_Z (now - lastReply)) (minGap e))
  end.

End GeminiLimit.

Module ServerLimit.

(** [this.rateLimits], which does not exist before the first message. *)
Abbreviation store := (option (gmap text Z)).

(** The key [`rate_${fromNumber}`]. *)
Definition rateLimitKey (fromNumber : text) : text := js "rate_" ++ fromNumber.

(** Lines 380-391: [None] when the handler returns at line 387, the
    store after line 391 otherwise. *)
Definition rateLimitGate (now : Z) (fromNumber : text) (rl : store) : option store :=
  let rateLimit := rl ≫= (λ m, m !! rateLimitKey fromNumber) in
  match rateLimit with
  | Some lastMessage =>
    if (now - lastMessage <? 30000)%Z then None
    else Some (Some (<[rateLimitKey fromNumber := now]> (default ∅ rl)))
  | None => Some (Some (<[rateLimitKey fromNumber := now]> (default ∅ rl)))
  end.

End ServerLimit.

(** ** [AIReply.checkRateLimit] *)

Section ai_reply_limit.
Import AIReplyLimit.
Implicit Types (rl : store) (c : text) (e : env_int).

(** The guard of line 674 is truthy whatever the count and the
    environment. *)
Lemma guardValue_truthy count e : truthy (guardValue count e) = true.
Proof. unfold guardValue, jsOr. simpl. by destruct (geEnv count e). Qed.

Lemma checkRateLimit_unfold e now c rl :
  checkRateLimit e now c rl = checkRateLimitWith (λ _, true) now c rl.
Proof.
  unfold checkRateLimit, checkRateLimitWith. by rewrite guardValue_truthy.
Qed.

(** C1: [AIReply.checkRateLimit] returns [false] for every contact, at
    every time, with every store and every value of
    [MESSAGE_RATE_LIMIT]: in [count >= parseInt(..) || 2] the comparison
    binds tighter than [||], so the test of line 674 is [true] or [2],
    and the method never reaches [return true]. *)
Theorem checkRateLimit_denies e now c rl : (checkRateLimit e now c rl).1 = false.
Proof. by rewrite checkRateLimit_unfold. Qed.

(** A denied attempt never adds a contact to the store. *)
Lemma checkRateLimit_dom e now c rl :
  dom (checkRateLimit e now c rl).2 = dom rl.
Proof.
  rewrite checkRateLimit_unfold. unfold checkRateLimitWith. simpl.
  destruct (rl !! c) as [l|] eqn:E; [|done].
  rewrite dom_insert_L. pose proof (elem_of_dom_2 _ _ _ E). set_solver.
Qed.

Lemma cleanupRateLimits_lookup now rl c :
  cleanupRateLimits now rl !! c =
  match rl !! c with
  | Some l => if (resetTime l + 300000 <? now)%Z then None else Some l
  | None => None
  end.
Proof. unfold cleanupRateLimits. by rewrite lookup_delete_where. Qed.

End ai_reply_limit.

(** ** The fixed-window specification *)

Section fixed_window.
Import AIReplyLimit FixedWindow.
Implicit Types (rl : store) (c : text) (w : option limits) (quota now : Z).

(** With the guard that the comment of line 674 describes
    ([count >= (parseInt(..) || 2)]), the code of [checkRateLimit] is the
    fixed-window counter [FixedWindow.attempt] on the contact's window:
    the same answer, the same window stored for the contact (a denied
    first attempt stores nothing), and no other contact touched. *)
Theorem checkRateLimitWith_attempt e now c rl :
  let r := checkRateLimitWith (quotaReached e) now c rl in
  let a := attempt (parseIntOr e 2) now (rl !! c) in
  r.1 = a.1 ∧ r.2 !! c = (if a.1 then Some a.2 else (λ _, a.2) <$> rl !! c) ∧
  ∀ c', c ≠ c' → r.2 !! c' = rl !! c'.
Proof.
  unfold checkRateLimitWith, attempt, renew, quotaReached. cbv zeta.
  destruct (rl !! c) as [l|] eqn:E; simpl;
    repeat case_if; simpl; rewrite ?lookup_insert_eq, ?E;
    (split; [done|]); (split; [done|]); intros c' Hc;
    by rewrite ?lookup_insert_ne by done.
Qed.

(** The window's invariant: the count stays within the quota. *)
Definition within (quota : Z) (w : option limits) : Prop :=
  match w with
  | Some l => (0 ≤ count l ≤ quota)%Z
  | None => True
  end.

(** What a window contributes to the replies counted in the window that
    ends at [r]. *)
Definition counted (r : Z) (w : option limits) : Z :=
  match w with
  | Some l => if decide (resetTime l = r) then count l else 0
  | None => 0
  end.

Lemma renew_within quota now w :
  (0 ≤ quota)%Z → within quota w → within quota (Some (renew now w)).
Proof.
  intros Hq Hw. unfold renew. destruct w as [[n r]|]; simpl in *;
    case_if; simpl; lia.
Qed.

(** Renewal keeps the window, or leaves it for a later one. *)
Lemma renew_counted quota now w r :
  within quota w →
  counted r w = counted r (Some (renew now w)) ∨
  ((r < resetTime (renew now w))%Z ∧ (0 ≤ counted r w ≤ quota)%Z ∧
   counted r (Some (renew now w)) = 0%Z).
Proof.
  intros Hw. unfold renew, counted. destruct w as [[n r0]|]; simpl in *.
  - destruct (r0 <? now)%Z eqn:E; bool_to_Z; simpl; [|by left].
    repeat case_decide; subst; simpl in *; (by left) || (right; lia).
  - destruct (now <? now)%Z eqn:E; bool_to_Z; simpl;
      repeat case_decide; subst; (by left) || (right; lia).
Qed.

Lemma attempt_within quota now w :
  (0 ≤ quota)%Z → within quota w → within quota (Some (attempt quota now w).2).
Proof.
  intros Hq Hw. pose proof (renew_within quota now w Hq Hw) as Hr.
  unfold attempt. simpl in *. case_if; simpl; bool_to_Z; lia.
Qed.

(** An attempt answers yes exactly when the window, once renewed, has
    room. *)
Lemma attempt_allowed quota now w :
  (attempt quota now w).1 = true ↔ (count (renew now w) < quota)%Z.
Proof. unfold attempt. case_if; simpl; bool_to_Z; split; (done || lia). Qed.

Lemma attempt_resetTime quota now w :
  resetTime (attempt quota now w).2 = resetTime (renew now w).
Proof. unfold attempt. by case_if. Qed.

Lemma attempt_count quota now w :
  count (attempt quota now w).2 =
  (count (renew now w) + if (attempt quota now w).1 then 1 else 0)%Z.
Proof. unfold attempt. case_if; simpl; lia. Qed.

(** Windows never move back in time. *)
Lemma renew_mono now l : (resetTime l ≤ resetTime (renew now (Some l)))%Z.
Proof. unfold renew. simpl. case_if; bool_to_Z; simpl; lia. Qed.

Lemma allowedIn_cons r ok r' log :
  allowedIn r ((ok, r') :: log) =
  (if ok && bool_decide (r' = r) then 1 else 0) + allowedIn r log.
Proof.
  unfold allowedIn. destruct ok; simpl; [case_bool_decide|].
  - by rewrite filter_cons_True by done.
  - by rewrite filter_cons_False by (simpl; naive_solver).
  - by rewrite filter_cons_False by (simpl; naive_solver).
Qed.

(** A window that has been left is never counted in again. *)
Lemma attempts_closed quota ts l r :
  (r < resetTime l)%Z → allowedIn r (attempts quota ts (Some l)) = 0.
Proof.
  revert l. induction ts as [|t ts IH]; intros l Hr; [done|]. simpl.
  pose proof (renew_mono t l) as Hmono.
  pose proof (attempt_resetTime quota t (Some l)) as Hrt.
  destruct (attempt quota t (Some l)) as [ok w'] eqn:Ea. simpl in Hrt.
  rewrite allowedIn_cons, IH by lia.
  rewrite bool_decide_eq_false_2 by lia. by rewrite andb_false_r.
Qed.

(** The fixed-window counter allows at most [quota] attempts in
    any one window, whatever the times of the attempts: the attempts
    allowed in the window that ends at [r], together with the count the
    window started from, never exceed the quota. *)
Theorem attempts_allowedIn quota ts w r :
  (0 ≤ quota)%Z → within quota w →
  (Z.of_nat (allowedIn r (attempts quota ts w)) + counted r w ≤ quota)%Z.
Proof.
  intros Hq. revert w. induction ts as [|t ts IH]; intros w Hw.
  { unfold allowedIn, counted. simpl. destruct w as [l|]; [|lia].
    simpl in Hw. case_decide; lia. }
  simpl.
  pose proof (attempt_within quota t w Hq Hw) as Hw'.
  pose proof (attempt_resetTime quota t w) as Hrt.
  pose proof (attempt_count quota t w) as Hct.
  destruct (attempt quota t w) as [ok w'] eqn:Ea. simpl in *.
  specialize (IH (Some w') Hw'). rewrite allowedIn_cons.
  destruct (renew_counted quota t w r Hw) as [Heq | (Hold & Hc & _)].
  - rewrite Heq. unfold counted in *. rewrite <-Hrt.
    destruct (decide (resetTime w' = r)) as [Hr|Hr];
      [rewrite bool_decide_eq_true_2 by done
      |rewrite bool_decide_eq_false_2 by done];
      destruct ok; simpl; lia.
  - rewrite attempts_closed by lia. rewrite bool_decide_eq_false_2 by lia.
    rewrite andb_false_r. lia.
Qed.

(** Five attempts within one second with a quota of two: two are
    allowed. *)
Lemma attempts_allowedIn_witness :
  (Z.of_nat (allowedIn 60000 (attempts 2 [100; 200; 300; 400; 500] None))
   + counted 60000 None ≤ 2)%Z.
Proof. apply (attempts_allowedIn 2 [100; 200; 300; 400; 500] None 60000)%Z; done. Defined.

End fixed_window.

(** ** [GeminiAI.canReply] *)

Section gemini_limit.
Import GeminiLimit.
Implicit Types (lrt : store) (c : text) (e : env_int).

Lemma minGap_default : (minGap None == 30000)%Q.
Proof. reflexivity. Qed.

(** A contact that was never answered may be answered. *)
Lemma canReply_fresh e now c lrt : lrt !! c = None → canReply e now c lrt = true.
Proof. intros H. unfold canReply. by rewrite H. Qed.

(** [GeminiAI.canReply] with a positive limit [m] allows a reply to
    a contact that was answered before exactly when more than
    [60000 / m] milliseconds have passed since that answer (30 s with
    the default of two per minute). *)
Theorem canReply_gap e now c lrt lastReply :
  lrt !! c = Some lastReply → lastReply ≠ 0%Z → (0 < parseIntOr e 2)%Z →
  canReply e now c lrt = true ↔
  (60000 < (now - lastReply) * parseIntOr e 2)%Z.
Proof.
  intros H H0 Hm. unfold canReply. rewrite H.
  destruct (Z.eqb_spec lastReply 0) as [?|_]; [done|].
  rewrite negb_true_iff, <-not_true_iff_false, Qle_bool_iff.
  unfold minGap, Qle, Qdiv, Qinv, Qmult, inject_Z. simpl.
  destruct (parseIntOr e 2) as [|m|m] eqn:Em; [lia | simpl | lia].
  rewrite !Z.mul_1_r. split; intros Hlt; lia.
Qed.

(** With the default limit, 30 001 ms after the last reply. *)
Lemma canReply_gap_witness :
  canReply None 31001 (js "911234567890") {[js "911234567890" := 1000%Z]} = true ↔
  (60000 < (31001 - 1000) * parseIntOr None 2)%Z.
Proof.
  apply (canReply_gap None 31001 (js "911234567890")
           {[js "911234567890" := 1000%Z]} 1000); done.
Defined.

End gemini_limit.

(** ** The limiter of [part_002] *)

Section server_limit.
Import ServerLimit.
Implicit Types (rl : store) (c : text).

Lemma rateLimitGate_first now c : rateLimitGate now c None = Some (Some {[rateLimitKey c := now]}).
Proof. done. Qed.

Lemma rateLimitGate_records now c rl rl' :
  rateLimitGate now c rl = Some rl' →
  rl' ≫= (λ m, m !! rateLimitKey c) = Some now.
Proof.
  unfold rateLimitGate. destruct (rl ≫= _) as [t|]; [case_if; [done|]|];
    intros [= <-]; simpl; by rewrite lookup_insert_eq.
Qed.

(** The gate of [WhatsAppBotServer.handleIncomingMessage]
    ([part_002], lines 380-391) drops a message exactly when the
    contact's last admitted message is less than 30 s old. *)
Theorem rateLimitGate_None now c rl :
  rateLimitGate now c rl = None ↔
  ∃ t, rl ≫= (λ m, m !! rateLimitKey c) = Some t ∧ (now - t < 30000)%Z.
Proof.
  unfold rateLimitGate. destruct (rl ≫= _) as [t|].
  - case_if; bool_to_Z; split; [eauto | done | done | intros (? & [= <-] & ?); lia].
  - split; [done | by intros (? & ? & ?)].
Qed.

End server_limit.
