(* ===== verification/Typing.v ===== *)
(** * Typing delays

    The delay a reply is held back to look typed:
    - [SessionTyping.totalDelay]: [SessionManager.sendReplyWithTyping]
      ([src/unnamed/part_000], lines 244-248);
    - [HandlerTyping.typingDelay]: [WhatsAppHandler.sendMessage]
      ([src/whatsapp-handler.js], line 160);
    - [ServerTyping.delay]: [WhatsAppBotServer.handleIncomingMessage]
      ([src/unnamed/part_002], line 401).

    A delay is a number of milliseconds in [Q]; [rand] is the value of
    [Math.random()], which lies in [0, 1). *)

From Stdlib Require Import QArith Qminmax Lqa.
From S2P Require Import Prelude.
Local Close Scope Q_scope.

Module SessionTyping.

(** [parseInt(process.env.TYPING_DELAY_MIN)] and [.._MAX]. *)
Record config : Type := Config {
  TYPING_DELAY_MIN : env_int;
  TYPING_DELAY_MAX : env_int;
}.

Definition typingDelayMin (cfg : config) : Q :=
  inject_Z (parseIntOr (TYPING_DELAY_MIN cfg) 1000).

Definition typingDelayMax (cfg : config) : Q :=
  inject_Z (parseIntOr (TYPING_DELAY_MAX cfg) 3000).

(** [typingDelayMin + Math.random() * (typingDelayMax - typingDelayMin)]. *)
Definition baseDelay (cfg : config) (rand : Q) : Q :=
  (typingDelayMin cfg + rand * (typingDelayMax cfg - typingDelayMin cfg))%Q.

(** [reply.length * 30]. *)
Definition charDelay (reply : text) : Q :=
  inject_Z (Z.of_nat (length reply) * 30).

(** [Math.min(baseDelay + charDelay, typingDelayMax)]. *)
Definition totalDelay (cfg : config) (rand : Q) (reply : text) : Q :=
  Qmin (baseDelay cfg rand + charDelay reply) (typingDelayMax cfg).

(** The environment with neither variable set. *)
Definition defaults : config := Config None None.

End SessionTyping.

Module HandlerTyping.

(** [Math.min(message.length * 50, 3000)]. *)
Definition typingDelay (message : text) : Z :=
  Z.min (Z.of_nat (length message) * 50) 3000.

End HandlerTyping.

Module ServerTyping.

(** [Math.random() * (3000 - 1000) + 1000]. *)
Definition delay (rand : Q) : Q := (rand * (3000 - 1000) + 1000)%Q.

End ServerTyping.

(** The values [Math.random()] can take. *)
Definition is_random (rand : Q) : Prop := (0 <= rand)%Q ∧ (rand < 1)%Q.

Section session_typing.
Import SessionTyping.
Implicit Types (cfg : config) (rand : Q) (reply : text).

Lemma charDelay_nonneg reply : (0 <= charDelay reply)%Q.
Proof.
  unfold charDelay. change 0%Q with (inject_Z 0). rewrite <-Zle_Qle. lia.
Qed.

Lemma totalDelay_le_max cfg rand reply :
  (totalDelay cfg rand reply <= typingDelayMax cfg)%Q.
Proof. apply Q.le_min_r. Qed.

(** The base delay lies between the two bounds when they are in order. *)
Lemma baseDelay_bounds cfg rand :
  is_random rand → (typingDelayMin cfg <= typingDelayMax cfg)%Q →
  (typingDelayMin cfg <= baseDelay cfg rand)%Q ∧
  (baseDelay cfg rand <= typingDelayMax cfg)%Q.
Proof.
  intros [H0 H1] Hmm. unfold baseDelay.
  set (a := typingDelayMin cfg) in *. set (b := typingDelayMax cfg) in *.
  assert (0 <= rand * (b - a))%Q by (apply Qmult_le_0_compat; lra).
  assert (0 <= (1 - rand) * (b - a))%Q by (apply Qmult_le_0_compat; lra).
  split; lra.
Qed.

Lemma totalDelay_ge_min cfg rand reply :
  is_random rand → (typingDelayMin cfg <= typingDelayMax cfg)%Q →
  (typingDelayMin cfg <= totalDelay cfg rand reply)%Q.
Proof.
  intros Hr Hmm. destruct (baseDelay_bounds cfg rand Hr Hmm) as [Hb _].
  pose proof (charDelay_nonneg reply). apply Q.min_glb; lra.
Qed.

(** C6: the typing delay of [sendReplyWithTyping] is exactly
    [typingDelayMax], whatever [Math.random()] gives, once the reply is
    long enough for [reply.length * 30] to cover the distance between the
    two bounds (67 characters with the defaults): [Math.min] cuts the sum
    of the base delay and the per-character delay at the maximum. *)
Theorem totalDelay_saturates cfg rand reply :
  is_random rand → (typingDelayMin cfg <= typingDelayMax cfg)%Q →
  (typingDelayMax cfg - typingDelayMin cfg <= charDelay reply)%Q →
  (totalDelay cfg rand reply == typingDelayMax cfg)%Q.
Proof.
  intros Hr Hmm Hc. destruct (baseDelay_bounds cfg rand Hr Hmm) as [Hb _].
  apply Q.min_r. lra.
Qed.

Lemma defaults_bounds :
  (typingDelayMin defaults == 1000)%Q ∧ (typingDelayMax defaults == 3000)%Q.
Proof. done. Qed.

(** A reply of a hundred characters with the defaults and
    [Math.random() = 1/4]. *)
Lemma totalDelay_saturates_witness :
  (totalDelay defaults (1 # 4) (replicate 100 97%N) == typingDelayMax defaults)%Q.
Proof.
  apply (totalDelay_saturates defaults (1 # 4) (replicate 100 97%N));
    [split | | ]; by vm_compute.
Defined.

End session_typing.

Section handler_typing.
Import HandlerTyping.

Lemma typingDelay_bounds message : (0 ≤ typingDelay message ≤ 3000)%Z.
Proof. unfold typingDelay. lia. Qed.

Lemma typingDelay_saturates message :
  typingDelay message = 3000%Z ↔ 60 ≤ length message.
Proof. unfold typingDelay. lia. Qed.

End handler_typing.

Section server_typing.
Import ServerTyping.

Lemma delay_bounds rand :
  is_random rand → (1000 <= delay rand)%Q ∧ (delay rand < 3000)%Q.
Proof. intros [H0 H1]. unfold delay. split; lra. Qed.

End server_typing.
