(* ===== verification/Engine.v ===== *)
(** * Reply engines

    [ReplyEngine] is what a message pipeline relies on when it calls
    [generateReply]: the call returns a string or [null] and never throws,
    and it keeps the engine's invariant.  [GeminiEngine] is class
    [GeminiAI] of [src/unnamed/part_001]: its state ([chatHistory] and
    [lastReplyTime]), [createPrompt] (lines 59-83), [getFallbackReply]
    (lines 151-161) and [generateReply] (lines 21-56), with the instance
    that discharges the interface.

    One call of [generateReply] reads the clock several times and awaits
    the completion service once; the record [world] holds what the outside
    supplies to one call. *)

From Stdlib Require Import QArith Qround.
From S2P Require Import Prelude Effects Language History RateLimit.
Local Close Scope Q_scope.

(** ** The interface *)

Class ReplyEngine (E : Type) : Type := {
  (** what the outside world supplies to one call *)
  engine_world : Type;
  (** the calls the engine makes of the outside world *)
  engine_act : Type;
  (** [generateReply(messageText, contactNumber, contactName)]: a string,
      or [None] for [null] and [undefined] *)
  engine_generateReply :
    engine_world → text → text → text → handler E engine_act error (option text);
  engine_inv : E → Prop;
  engine_total w m c n s :
    ∃ r, result (engine_generateReply w m c n) s = Ok r;
  engine_inv_keeps w m c n s :
    engine_inv s → engine_inv (final (engine_generateReply w m c n) s);
}.

Module GeminiEngine.

(** The fields of [GeminiAI] that change. *)
Record state : Type := State {
  chatHistory : GeminiHistory.store;
  lastReplyTime : GeminiLimit.store;
}.

Definition init : state := State ∅ ∅.

(** [parseInt(process.env.MAX_MESSAGES_PER_MINUTE)]. *)
Record config : Type := Config { MAX_MESSAGES_PER_MINUTE : env_int }.

(** What one call of [generateReply] gets from outside: the clock at
    [canReply], the raw text of the completion or the exception of
    [generateContent] or [response.text()], the clock at the two
    [new Date()] of [updateChatHistory] and at [lastReplyTime.set], and
    the value of [Math.random()]. *)
Record world : Type := World {
  tCheck : Z;
  completion : outcome error text;
  tUser : Z;
  tBot : Z;
  tSet : Z;
  rand : Q;
}.

(** [this.model.generateContent(prompt)]. *)
Inductive act : Type := GenerateContent (prompt : text).

Definition quote : text := [34%N].

Definition roleName (r : GeminiHistory.role) : text :=
  match r with
  | GeminiHistory.User => js "User"
  | GeminiHistory.Bot => js "Bot"
  end.

(** [lines.join('\n')]. *)
Fixpoint joinLines (lines : list text) : text :=
  match lines with
  | [] => []
  | [l] => l
  | l :: ls => l ++ nl ++ joinLines ls
  end.

Definition createPrompt (message contactName : text) (l : language)
    (history : list GeminiHistory.entry) : text :=
  let historyContext :=
    if 0 <? length history
    then js "Previous conversation:" ++ nl ++
         joinLines (map (λ h, roleName (GeminiHistory.type h) ++ js ": " ++
                              GeminiHistory.message h) (lastN 4 history)) ++
         nl ++ nl
    else [] in
  nl ++
  js "You are a friendly, helpful WhatsApp chat assistant. Reply naturally like a close friend." ++ nl ++
  nl ++
  js "IMPORTANT RULES:" ++ nl ++
  js "- Keep replies SHORT (max 50 words)" ++ nl ++
  js "- Match the language style: " ++ languageName l ++ nl ++
  js "- Be casual, warm, and friendly" ++ nl ++
  js "- Use emojis naturally (2-3 max)" ++ nl ++
  js "- Don't be overly formal or robotic" ++ nl ++
  js "- If asked about previous conversations, refer to context" ++ nl ++
  js "- For greetings, respond warmly" ++ nl ++
  js "- For questions, give helpful short answers" ++ nl ++
  js "- For casual chat, be engaging and fun" ++ nl ++
  nl ++
  historyContext ++ js "Current message from " ++ contactName ++ js ": " ++
  quote ++ message ++ quote ++ nl ++
  nl ++
  js "Reply in " ++ languageName l ++ js " style:".

Definition fallbackReplies : list text :=
  [ js "Sorry yaar, thoda technical issue ho gaya 😅 Kya keh rahe the?";
    js "Arre yaar, samjha nahi. Thoda aur detail mein batao na 🤔";
    js "Oops! Kuch problem hai mere system mein. Dobara try karo 😊";
    js "Sorry bro, connection issue hai. Thoda wait karo 🙏";
    js "Arre, maine suna nahi properly. Phir se bolo na 👂" ].

(** [fallbackReplies[Math.floor(Math.random() * fallbackReplies.length)]];
    an index outside the array gives [undefined]. *)
Definition getFallbackReply (rand : Q) : option text :=
  let i := Qfloor (rand * inject_Z (Z.of_nat (length fallbackReplies))) in
  if (i <? 0)%Z then None else fallbackReplies !! Z.to_nat i.

Definition setHistory (f : GeminiHistory.store → GeminiHistory.store)
    (s : state) : state :=
  State (f (chatHistory s)) (lastReplyTime s).

Definition setLastReplyTime (f : GeminiLimit.store → GeminiLimit.store)
    (s : state) : state :=
  State (chatHistory s) (f (lastReplyTime s)).

Definition generateReply (cfg : config) (w : world)
    (messageText contactNumber contactName : text) :
    handler state act error (option text) :=
  catch
    (s ← get;
     if negb (GeminiLimit.canReply (MAX_MESSAGES_PER_MINUTE cfg) (tCheck w)
                contactNumber (lastReplyTime s))
     then ret None
     else
       let detectedLanguage := GeminiLanguage.detectLanguage messageText in
       let history := GeminiHistory.getChatHistory contactNumber (chatHistory s) in
       let prompt := createPrompt messageText contactName detectedLanguage history in
       raw ← call (GenerateContent prompt) (completion w);
       let reply := trim raw in
       modify (setHistory (GeminiHistory.updateChatHistory
                 contactNumber messageText reply (tUser w) (tBot w)));;
       modify (setLastReplyTime <[contactNumber := tSet w]>);;
       ret (Some reply))
    (λ _, ret (getFallbackReply (rand w))).

(** [clearChatHistory(contactNumber)], called by the route
    [/api/clear-history/:contact]. *)
Definition clearChatHistory (contactNumber : text) (s : state) : state :=
  setHistory (GeminiHistory.clearChatHistory contactNumber) s.

(** [cleanup()], called by the hourly timer of [server.js]. *)
Definition cleanup (now : Z) (s : state) : state :=
  setHistory (GeminiHistory.cleanup now) s.

(** The object that [getStats()] returns. *)
Record stats : Type := Stats {
  totalChats : nat;
  totalMessages : nat;
  activeChats : nat;
}.

Definition oneHour : Z := 60 * 60 * 1000.

(** The test of the [filter] of [getStats]; an empty array has no last
    message. *)
Definition recent (now : Z) (history : list GeminiHistory.entry) : bool :=
  match lastElem history with
  | Some lastMessage =>
    bool_decide (now - GeminiHistory.timestamp lastMessage < oneHour)%Z
  | None => false
  end.

(** [getStats()], lines 170-182; [now] is the value of [Date.now()]. *)
Definition getStats (now : Z) (s : state) : stats :=
  let values := snd <$> map_to_list (chatHistory s) in
  Stats (size (chatHistory s))
        (foldl (λ total history, total + length history) 0 values)
        (length (filter (λ history, recent now history = true) values)).

(** The invariant of the engine is the invariant of its history. *)
Definition inv (s : state) : Prop := GeminiHistory.wf (chatHistory s).

End GeminiEngine.

(** ** [GeminiAI.generateReply] on each of its paths *)

Section gemini_engine.
Import GeminiEngine.
Implicit Types (cfg : config) (w : world) (s : state) (m c n : text).

(** The three ways through [generateReply]. *)
Inductive path : Type := RateLimited | Replied (raw : text) | Failed (e : error).

Definition path_of cfg w c s : path :=
  if GeminiLimit.canReply (MAX_MESSAGES_PER_MINUTE cfg) (tCheck w) c (lastReplyTime s)
  then match completion w with Ok raw => Replied raw | Throw e => Failed e end
  else RateLimited.

(** What a call returns, leaves and does, by its path. *)
Lemma generateReply_run cfg w m c n s :
  run (generateReply cfg w m c n) s =
  match path_of cfg w c s with
  | RateLimited => (Ok None, s, [])
  | Replied raw =>
    (Ok (Some (trim raw)),
     State (GeminiHistory.updateChatHistory c m (trim raw) (tUser w) (tBot w)
              (chatHistory s))
           (<[c := tSet w]> (lastReplyTime s)),
     [GenerateContent (createPrompt m n (GeminiLanguage.detectLanguage m)
                         (GeminiHistory.getChatHistory c (chatHistory s)))])
  | Failed e =>
    (Ok (getFallbackReply (rand w)), s,
     [GenerateContent (createPrompt m n (GeminiLanguage.detectLanguage m)
                         (GeminiHistory.getChatHistory c (chatHistory s)))])
  end.
Proof.
  unfold path_of, generateReply. handler_simpl.
  destruct (GeminiLimit.canReply _ _ _ _); simpl; [|done].
  by destruct (completion w).
Qed.

Lemma generateReply_total cfg w m c n s :
  ∃ r, result (generateReply cfg w m c n) s = Ok r.
Proof.
  unfold result. rewrite generateReply_run.
  destruct (path_of cfg w c s); simpl; eauto.
Qed.

Lemma generateReply_inv cfg w m c n s :
  inv s → inv (final (generateReply cfg w m c n) s).
Proof.
  intros Hs. unfold final. rewrite generateReply_run.
  destruct (path_of cfg w c s); simpl; [done | | done].
  by apply updateChatHistory_wf.
Qed.

Lemma clearChatHistory_inv c s : inv s → inv (clearChatHistory c s).
Proof. apply clearChatHistory_wf. Qed.

Lemma cleanup_inv now s : inv s → inv (cleanup now s).
Proof. apply cleanup_wf. Qed.

Lemma init_inv : inv init.
Proof. apply wf_empty. Qed.

(** The sum that [reduce] computes, from any start. *)
Lemma foldl_length_le (values : list (list GeminiHistory.entry)) k i :
  Forall (λ history, length history ≤ k) values →
  foldl (λ total history, total + length history) i values
  ≤ i + k * length values.
Proof.
  intros Hv. revert i. induction Hv as [|h values Hh _ IH]; intros i; simpl.
  - lia.
  - specialize (IH (i + length h)). lia.
Qed.

(** The statistics of [GeminiAI.getStats] of an engine whose
    history is well formed: [totalMessages] is at most ten times
    [totalChats], and [activeChats] is at most [totalChats]. *)
Theorem getStats_bounds now s :
  inv s →
  totalMessages (getStats now s) ≤ GeminiHistory.cap * totalChats (getStats now s) ∧
  activeChats (getStats now s) ≤ totalChats (getStats now s).
Proof.
  intros Hs. unfold getStats. simpl.
  rewrite <-(length_map_to_list (chatHistory s)),
    <-(length_fmap snd (map_to_list (chatHistory s))).
  split; [|apply length_filter].
  apply (foldl_length_le _ GeminiHistory.cap 0), Forall_fmap, Forall_forall.
  intros [c history] Hin%elem_of_map_to_list. simpl. by destruct (Hs c history Hin).
Qed.

Lemma fallbackReplies_nonEmpty r : r ∈ fallbackReplies → nonEmpty r = true.
Proof.
  unfold fallbackReplies. rewrite !elem_of_cons, elem_of_nil.
  intros [->|[->|[->|[->|[->|[]]]]]]; done.
Qed.

(** With [Math.random()] in [0, 1) the fallback is one of the five
    replies. *)
Lemma getFallbackReply_some rand :
  (0 <= rand)%Q → (rand < 1)%Q →
  ∃ r, getFallbackReply rand = Some r ∧ r ∈ fallbackReplies.
Proof.
  intros H0 H1. unfold getFallbackReply.
  set (k := inject_Z (Z.of_nat (length fallbackReplies))).
  assert (0 <= rand * k)%Q as Hlo by (apply Qmult_le_0_compat; [done | done]).
  assert (rand * k < 5)%Q as Hhi.
  { change 5%Q with (1 * k)%Q. apply Qmult_lt_compat_r; done. }
  assert (0 ≤ Qfloor (rand * k))%Z as Hf0.
  { change 0%Z with (Qfloor 0). by apply Qfloor_resp_le. }
  assert (Qfloor (rand * k) < 5)%Z as Hf5.
  { rewrite Zlt_Qlt. eapply Qle_lt_trans; [apply Qfloor_le | done]. }
  destruct (Z.ltb_spec (Qfloor (rand * k)) 0) as [?|_]; [lia|].
  destruct (lookup_lt_is_Some_2 fallbackReplies (Z.to_nat (Qfloor (rand * k))))
    as [r Hr]; [change (length fallbackReplies) with 5; lia|].
  exists r. split; [done | by eapply list_elem_of_lookup_2].
Qed.

(** C7: when the completion service fails for a contact that may be
    answered, [GeminiAI.generateReply] returns one of the five fallback
    replies and records nothing: the history and the time of the last
    reply are as before the call, so the fallback is no part of the
    conversation and does not count against the rate limit. *)
Theorem generateReply_failure cfg w m c n s e :
  GeminiLimit.canReply (MAX_MESSAGES_PER_MINUTE cfg) (tCheck w) c
    (lastReplyTime s) = true →
  completion w = Throw e → (0 <= rand w)%Q → (rand w < 1)%Q →
  final (generateReply cfg w m c n) s = s ∧
  ∃ r, result (generateReply cfg w m c n) s = Ok (Some r) ∧ r ∈ fallbackReplies.
Proof.
  intros Hc He H0 H1. unfold final, result. rewrite generateReply_run.
  unfold path_of. rewrite Hc, He. simpl. split; [done|].
  destruct (getFallbackReply_some (rand w) H0 H1) as (r & -> & Hr). eauto.
Qed.

(** The first message of a contact, and the service answers 503. *)
Definition failingWorld : world :=
  World 1000 (Throw (Error (js "503 Service Unavailable"))) 1001 1002 1003 (1 # 2).

Lemma generateReply_failure_witness :
  final (generateReply (Config None) failingWorld (js "hello") (js "911234567890")
           (js "Asha")) init = init ∧
  ∃ r, result (generateReply (Config None) failingWorld (js "hello")
                 (js "911234567890") (js "Asha")) init = Ok (Some r) ∧
       r ∈ fallbackReplies.
Proof.
  by apply (generateReply_failure (Config None) failingWorld (js "hello")
              (js "911234567890") (js "Asha") init
              (Error (js "503 Service Unavailable"))).
Defined.

(** The engine after the first exchange with a contact. *)
Definition answeringWorld : world :=
  World 1000 (Ok (js " Hi Asha! ")) 1001 1002 1003 (1 # 2).

Definition afterFirst : state :=
  final (generateReply (Config None) answeringWorld (js "hello")
           (js "911234567890") (js "Asha")) init.

Lemma getStats_bounds_witness :
  totalMessages (getStats 2000 afterFirst)
  ≤ GeminiHistory.cap * totalChats (getStats 2000 afterFirst) ∧
  activeChats (getStats 2000 afterFirst) ≤ totalChats (getStats 2000 afterFirst).
Proof. apply (getStats_bounds 2000 afterFirst), generateReply_inv, init_inv. Defined.

End gemini_engine.

(** [GeminiAI] is a reply engine. *)
Definition gemini_engine (cfg : GeminiEngine.config) :
    ReplyEngine GeminiEngine.state := {|
  engine_world := GeminiEngine.world;
  engine_act := GeminiEngine.act;
  engine_generateReply := GeminiEngine.generateReply cfg;
  engine_inv := GeminiEngine.inv;
  engine_total := generateReply_total cfg;
  engine_inv_keeps := generateReply_inv cfg;
|}.
