(* ===== verification/AIReplyEngine.v ===== *)
(** * AIReply: the reply engine of the multi-session server

    Class [AIReply] of [src/unnamed/part_000], lines 379-866.

    - [state] holds the two maps of the object, [conversationHistory]
      ([History.AIReplyHistory]) and [rateLimits]
      ([RateLimit.AIReplyLimit]); [config] holds the variables of the
      environment that the constructor reads.
    - The regular expressions of [languagePatterns], of [detectLanguage]
      and of [cleanAIResponse] are values of [Regex.regex], written as
      the source writes them; a lookahead [(?=.*r)] is [ahead r].
    - [generateReply], [callGeminiAPI], [handleSpecialCommands] and
      [generateContextAwareReply] are handlers over [state]; the call of
      the completion service is the action [Post], and its result, the
      text of the first candidate, is a field of [world].
    - [generateReplyWith] is [generateReply] over a limiter, so that what
      the method does once a message is let through is stated for every
      limiter; [generateReply] is its instance at [checkRateLimit].

    The fields [personality] and [fallbackReply] and the pattern
    [marathi] are set by the constructor and never read; the first two
    are left out. *)

From Stdlib Require Import QArith.
From S2P Require Import Prelude Regex Effects Language History RateLimit Engine.
Local Close Scope Q_scope.

Module AIReply.

Import AIReplyHistory.

(** ** The object *)

(** The variables that the constructor and [checkRateLimit] read. *)
Record config : Type := Config {
  GEMINI_API_KEY : option text;
  GEMINI_MODEL : option text;
  BOT_NAME : option text;
  MESSAGE_RATE_LIMIT : env_int;
}.

Definition model (cfg : config) : text :=
  envOr (GEMINI_MODEL cfg) (js "gemini-2.0-flash").

Definition apiUrl (cfg : config) : text :=
  js "https://generativelanguage.googleapis.com/v1beta/models/" ++ model cfg ++
  js ":generateContent".

Definition botName (cfg : config) : text :=
  envOr (BOT_NAME cfg) (js "WhatsApp Assistant").

Record state : Type := State {
  conversationHistory : AIReplyHistory.store;
  rateLimits : AIReplyLimit.store;
}.

Definition init : state := State ∅ ∅.

(** [new AIReply()]: the constructor and [initializeSystem], which throws
    without an API key. *)
Definition create (cfg : config) : outcome error state :=
  if nonEmpty (default [] (GEMINI_API_KEY cfg)) then Ok init
  else Throw (Error (js "Gemini API key is required")).

(** ** Language detection *)

(** The class of the pattern [english]: ASCII letters, white space, the
    marks [. , ! ?], the apostrophe and the double quote. *)
Definition isEnglishChar (c : N) : bool :=
  isLatin c || isWhiteSpace c || (c =? 46)%N || (c =? 44)%N || (c =? 33)%N
  || (c =? 63)%N || (c =? 39)%N || (c =? 34)%N.

(** The words of the second alternative of [hinglish]. *)
Definition hinglishWords : list text :=
  map js ["hai"; "hain"; "kya"; "kaise"; "kaha"; "kab"; "kyun"; "jo"; "ki";
          "ka"; "ke"; "ko"; "me"; "se"; "pe"; "par"]%string.

(** [(?=.*r)] before the rest of the input. *)
Definition ahead (r : regex) (rest : text) : bool :=
  lookingAt (Seq (Star dot) r) rest.

(** The pattern [hinglish] at one position; under the [i] flag the class
    [[a-zA-Z]] is still the ASCII letters, and the Devanagari block has
    no case. *)
Definition hinglishAt (rest : text) : bool :=
  (ahead (Class isLatin) rest && ahead (range 0x0900 0x097F) rest)
  || (ahead (Class isLatin) rest && ahead (oneOf (map litCI hinglishWords)) rest).

(** [this.languagePatterns[l].test(s)]. *)
Definition languagePatterns (l : language) (s : text) : bool :=
  match l with
  | hindi => test (range 0x0900 0x097F) s
  | english => accepts (Star (Class isEnglishChar)) s
  | hinglish => testAt hinglishAt s
  | urdu => test (range 0x0600 0x06FF) s
  | bengali => test (range 0x0980 0x09FF) s
  | tamil => test (range 0x0B80 0x0BFF) s
  | gujarati => test (range 0x0A80 0x0AFF) s
  end.

(** The eighth pattern, which no method reads. *)
Definition marathi (s : text) : bool := test (range 0x0900 0x097F) s.

(** [/https?:\/\/[^\s]+/]. *)
Definition url : regex :=
  Seq (lit (js "http")) (Seq (opt (chr 115)) (Seq (lit (js "://")) (plus nonSpace))).

(** The [cleanText] of [detectLanguage]. *)
Definition cleanText (t : text) : text :=
  trim (replaceAll (longest (plus digit)) (λ _, [])
          (replaceAll (longest url) (λ _, []) t)).

Definition detectLanguage (t : text) : language :=
  let cleanText := cleanText t in
  if languagePatterns hinglish cleanText then hinglish
  else if languagePatterns hindi cleanText then hindi
  else if languagePatterns urdu cleanText then urdu
  else if languagePatterns bengali cleanText then bengali
  else if languagePatterns tamil cleanText then tamil
  else if languagePatterns gujarati cleanText then gujarati
  else if languagePatterns english cleanText then english
  else hinglish.

(** ** The prompt *)

Definition getContextualInstructions (message : text) (l : language) : text :=
  let lowerMessage := toLowerCase message in
  let has (w : text) := includes w lowerMessage in
  (if has (js "help") || has (js "madad") || has (js "সাহায্য")
   then nl ++ js "User is asking for help. Be supportive and offer specific assistance." else []) ++
  (if has (js "price") || has (js "cost") || has (js "paisa") || has (js "টাকা")
   then nl ++ js "User is asking about pricing. Be helpful but mention you need more context." else []) ++
  (if has (js "time") || has (js "samay") || has (js "সময়")
   then nl ++ js "User is asking about time-related information. Be helpful with scheduling." else []) ++
  (if has (js "thank") || has (js "dhanyawad") || has (js "ধন্যবাদ")
   then nl ++ js "User is thanking you. Respond warmly and ask if they need anything else." else []) ++
  (if has (js "sad") || has (js "upset") || has (js "problem")
      || has (js "pareshan") || has (js "दुखी")
   then nl ++ js "User seems upset or has problems. Be empathetic and supportive." else []).

Definition systemPrompts (cfg : config) (l : language) : text :=
  match l with
  | hinglish => js "You are a friendly WhatsApp assistant named " ++ botName cfg ++ js ". Reply in natural Hinglish (Hindi + English mix) like a real Indian friend would. Be conversational, helpful, and use common Hindi words mixed with English. Keep replies short and casual, max 2-3 sentences. Use emojis naturally but don't overdo it."
  | hindi => js "आप " ++ botName cfg ++ js " नाम के WhatsApp असिस्टेंट हैं। हिंदी में प्राकृतिक और मैत्रीपूर्ण तरीके से जवाब दें। संक्षिप्त और सहायक रहें।"
  | english => js "You are " ++ botName cfg ++ js ", a WhatsApp assistant. Reply in clear, friendly English. Be conversational and helpful. Keep responses brief and natural."
  | urdu => js "آپ " ++ botName cfg ++ js " نامی WhatsApp اسسٹنٹ ہیں۔ اردو میں دوستانہ انداز میں جواب دیں۔ مختصر اور مددگار رہیں۔"
  | bengali => js "আপনি " ++ botName cfg ++ js " নামের WhatsApp সহায়ক। বাংলায় বন্ধুত্বপূর্ণ ভাবে উত্তর দিন। সংক্ষিপ্ত এবং সহায়ক থাকুন।"
  | tamil => js "நீங்கள் " ++ botName cfg ++ js " என்ற WhatsApp உதவியாளர். தமிழில் நட்பான முறையில் பதிலளிக்கவும். சுருக்கமாகவும் உதவிகரமாகவும் இருங்கள்।"
  | gujarati => js "તમે " ++ botName cfg ++ js " નામના WhatsApp સહાયક છો। ગુજરાતીમાં મિત્રતાપૂર્ણ રીતે જવાબ આપો। ટૂંકા અને મદદરૂપ રહો।"
  end.

(** The body of the [forEach] of [buildPrompt]. *)
Definition historyLine (entry : AIReplyHistory.entry) : text :=
  nl ++ js "User: " ++ userMessage entry ++ nl ++ js "You: " ++ aiReply entry.

(** [buildPrompt(message, language, history, context)]; [context] is not
    read. *)
Definition buildPrompt (cfg : config) (message : text) (l : language)
    (history : list AIReplyHistory.entry) : text :=
  let systemPrompt := systemPrompts cfg l in
  let contextualPrompt := systemPrompt in
  let contextualPrompt :=
    if 0 <? length history
    then contextualPrompt ++ nl ++ nl ++
         js "Conversation history (last few messages):" ++
         flat_map historyLine (lastN 3 history)
    else contextualPrompt in
  let contextualPrompt := contextualPrompt ++ getContextualInstructions message l in
  let contextualPrompt :=
    contextualPrompt ++ nl ++ nl ++ js "User's current message: " ++ message in
  contextualPrompt ++ nl ++ nl ++ js "Respond naturally in " ++ languageName l ++
  js " as a helpful friend:".

(** ** Cleaning a completion *)

(** [/d(.*?)d/] for a delimiter [d]. *)
Definition wrapped (d : text) : regex := Seq (lit d) (Seq (Star dot) (lit d)).

(** [s.replace(/d(.*?)d/g, '$1')]. *)
Definition unwrap (d : text) (s : text) : text :=
  replaceAll (shortest (wrapped d)) (group1 (length d)) s.

(** [/\n\s*\n\s*\n/]. *)
Definition blankLines : regex :=
  Seq (chr 10) (Seq (Star space) (Seq (chr 10) (Seq (Star space) (chr 10)))).

Definition cleanAIResponse (response : text) : text :=
  let cleaned := unwrap (js "**") response in
  let cleaned := unwrap (js "*") cleaned in
  let cleaned := unwrap (js "`") cleaned in
  let cleaned := replaceAll (longest blankLines) (λ _, nl ++ nl) cleaned in
  let cleaned := trim cleaned in
  if 500 <? length cleaned then substring0 497 cleaned ++ js "..." else cleaned.

(** ** Sentiment and code switching *)

Inductive sentiment : Type := positive | negative | neutral.

Definition positiveWords : list text :=
  [ js "good";
    js "great";
    js "awesome";
    js "nice";
    js "love";
    js "happy";
    js "अच्छा";
    js "बढ़िया";
    js "खुश";
    js "প্রিয়";
    js "ভাল" ].

Definition negativeWords : list text :=
  [ js "bad";
    js "sad";
    js "angry";
    js "hate";
    js "problem";
    js "issue";
    js "बुरा";
    js "दुखी";
    js "समस्या";
    js "খারাপ";
    js "দুঃখ" ].

Definition analyzeSentiment (message : text) : sentiment :=
  let lowerMessage := toLowerCase message in
  let positiveCount :=
    length (filter (λ word, includes word lowerMessage = true) positiveWords) in
  let negativeCount :=
    length (filter (λ word, includes word lowerMessage = true) negativeWords) in
  if negativeCount <? positiveCount then positive
  else if positiveCount <? negativeCount then negative
  else neutral.

(** The object that [processAdvancedLanguage] returns; [hindiRatio] is
    [None] for [NaN]. *)
Record analysis : Type := Analysis {
  dominantLanguage : language;
  mixedContent : bool;
  hindiRatio : option Q;
}.

Definition processAdvancedLanguage (message : text) (l : language) : analysis :=
  if decide (l = hinglish) then
    let hindiWords :=
      length (matchAll (longest (plus (range 0x0900 0x097F))) message) in
    let englishWords :=
      length (matchAll (longest (plus (Class isLatin))) message) in
    Analysis (if englishWords <? hindiWords then hindi else english) true
      (if hindiWords + englishWords =? 0 then None
       else Some (Qmake (Z.of_nat hindiWords) (Pos.of_nat (hindiWords + englishWords))))
  else Analysis l false (Some 0%Q).

(** ** Help *)

Definition getHelpMessage (cfg : config) (l : language) : text :=
  match l with
  | hindi => js "🤖 " ++ botName cfg ++ js " सहायता:" ++ nl ++ nl ++ js "📱 मुख्य विशेषताएं:" ++ nl ++ js "• कई भाषाओं में प्राकृतिक बातचीत" ++ nl ++ js "• संदर्भ के साथ स्मार्ट उत्तर" ++ nl ++ js "• चैट इतिहास याद रखता है" ++ nl ++ nl ++ js "🔧 कमांड:" ++ nl ++ js "/help - यह सहायता दिखाएं" ++ nl ++ js "/clear - चैट इतिहास साफ़ करें" ++ nl ++ js "/status - बॉट स्थिति" ++ nl ++ nl ++ js "💬 बस सामान्य रूप से चैट करें, मैं समझ जाऊंगा! 😊"
  | english => js "🤖 " ++ botName cfg ++ js " Help:" ++ nl ++ nl ++ js "📱 Main features:" ++ nl ++ js "• Natural conversation in multiple languages" ++ nl ++ js "• Smart contextual replies" ++ nl ++ js "• Remembers chat history" ++ nl ++ nl ++ js "🔧 Commands:" ++ nl ++ js "/help - Show this help" ++ nl ++ js "/clear - Clear chat history" ++ nl ++ js "/status - Bot status" ++ nl ++ nl ++ js "💬 Just chat normally, I understand multiple languages! 😊"
  | _ => js "🤖 " ++ botName cfg ++ js " Help:" ++ nl ++ nl ++ js "📱 Main features:" ++ nl ++ js "• Natural conversation in multiple languages" ++ nl ++ js "• Smart replies with context" ++ nl ++ js "• Remembers our chat history" ++ nl ++ nl ++ js "🔧 Commands:" ++ nl ++ js "/help - Show this help" ++ nl ++ js "/clear - Clear chat history" ++ nl ++ js "/status - Bot status" ++ nl ++ nl ++ js "💬 Just chat normally, I'll understand! 😊"
  end.

(** ** Statistics *)

(** The object that [getStats] returns. *)
Record stats : Type := Stats {
  activeConversations : nat;
  totalMessages : nat;
  rateLimitedUsers : nat;
  languages : gmap text nat;
}.

(** The body of the inner loop of [getLanguageStats]. *)
Definition countLanguage (languageCounts : gmap text nat)
    (entry : AIReplyHistory.entry) : gmap text nat :=
  let key := languageName (lang entry) in
  <[key := default 0 (languageCounts !! key) + 1]> languageCounts.

(** [getLanguageStats()]; the counts do not depend on the order in which
    the map is traversed. *)
Definition getLanguageStats (s : state) : gmap text nat :=
  map_fold (λ _ history languageCounts, foldl countLanguage languageCounts history)
    ∅ (conversationHistory s).

Definition getStats (s : state) : stats :=
  Stats (size (conversationHistory s))
        (map_fold (λ _ history sum, sum + length history) 0 (conversationHistory s))
        (size (rateLimits s))
        (getLanguageStats s).

(** ** The methods that change the object *)

(** [axios.post(this.apiUrl, requestBody, ..)], with the prompt of the
    request body. *)
Inductive act : Type := Post (url prompt : text).

(** What the outside world supplies to one call of [generateReply]:
    [now] is [Date.now()] in [checkRateLimit], [tHistory] is [new Date()]
    in [updateConversationHistory], and [response] is the text of
    [response.data.candidates[0]]: [Ok None] without a candidate, [Throw]
    when [post] rejects or the text cannot be read. *)
Record world : Type := World {
  now : Z;
  response : outcome error (option text);
  tHistory : Z;
}.

Abbreviation M := (handler state act error).

Definition setHistory (f : AIReplyHistory.store → AIReplyHistory.store)
    (s : state) : state :=
  State (f (conversationHistory s)) (rateLimits s).

Definition setRateLimits (f : AIReplyLimit.store → AIReplyLimit.store)
    (s : state) : state :=
  State (conversationHistory s) (f (rateLimits s)).

(** [callGeminiAPI(prompt)]: every failure is logged and gives [null]. *)
Definition callGeminiAPI (cfg : config) (w : world) (prompt : text) :
    M (option text) :=
  catch
    (candidate ← call (Post (apiUrl cfg) prompt) (response w);
     match candidate with
     | Some text => let aiReply := trim text in ret (Some (cleanAIResponse aiReply))
     | None => ret None
     end)
    (λ _, ret None).

(** A rate limiter: the answer and the store after the attempt. *)
Definition limiter : Type := Z → text → AIReplyLimit.store → bool * AIReplyLimit.store.

(** [generateReply(message, fromNumber, context)] over the limiter
    [check]; [context] is only passed on to [buildPrompt]. *)
Definition generateReplyWith (check : limiter) (cfg : config) (w : world)
    (message fromNumber : text) : M (option text) :=
  catch
    (s ← get;
     let (allowed, rl) := check (now w) fromNumber (rateLimits s) in
     modify (setRateLimits (λ _, rl));;
     if negb allowed then ret None else
     let language := detectLanguage message in
     s ← get;
     let history := getConversationHistory fromNumber (conversationHistory s) in
     let prompt := buildPrompt cfg message language history in
     aiResponse ← callGeminiAPI cfg w prompt;
     if truthyOpt aiResponse then
       modify (setHistory (updateConversationHistory fromNumber message
                 (default [] aiResponse) language (tHistory w)));;
       ret aiResponse
     else ret (Some (AIReplyLanguage.getFallbackReply language)))
    (λ _, ret (Some (AIReplyLanguage.getFallbackReply hinglish))).

(** [generateReply], with the limiter of the class. *)
Definition generateReply (cfg : config) : world → text → text → M (option text) :=
  generateReplyWith (AIReplyLimit.checkRateLimit (MESSAGE_RATE_LIMIT cfg)) cfg.

(** [handleSpecialCommands(message, fromNumber)]. *)
Definition handleSpecialCommands (cfg : config) (message fromNumber : text) :
    M (option text) :=
  let lowerMessage := trim (toLowerCase message) in
  if strictEq lowerMessage (js "/help") || strictEq lowerMessage (js "help")
     || strictEq lowerMessage (js "मदद")
  then ret (Some (getHelpMessage cfg (detectLanguage message)))
  else if strictEq lowerMessage (js "/clear")
          || strictEq lowerMessage (js "clear history")
  then modify (setHistory (delete fromNumber));;
       ret (Some (js "Conversation history cleared! 🧹"))
  else if strictEq lowerMessage (js "/status")
  then s ← get;
       let stats := getStats s in
       ret (Some (js "Bot Status:" ++ nl ++ js "✅ Active" ++ nl ++ js "💬 " ++ decimal (Z.of_nat (activeConversations stats)) ++ js " conversations" ++ nl ++ js "📊 " ++ decimal (Z.of_nat (totalMessages stats)) ++ js " total messages"))
  else ret None.

(** [generateContextAwareReply(message, fromNumber, context)]: the
    sentiment and the language analysis are stored in [context], which
    nothing reads. *)
Definition generateContextAwareReply (cfg : config) (w : world)
    (message fromNumber : text) : M (option text) :=
  specialCommand ← handleSpecialCommands cfg message fromNumber;
  if truthyOpt specialCommand then ret specialCommand else
  let sentiment := analyzeSentiment message in
  let language := detectLanguage message in
  let advancedLang := processAdvancedLanguage message language in
  generateReply cfg w message fromNumber.

(** [cleanupOldConversations()], run every hour by the timer of
    [initializeSystem]. *)
Definition cleanupOldConversations (now : Z) (s : state) : state :=
  State (AIReplyHistory.cleanupOldConversations now (conversationHistory s))
        (AIReplyLimit.cleanupRateLimits now (rateLimits s)).

(** The object that [healthCheck] returns; [lastCleanup] is never
    assigned. *)
Record health : Type := Health {
  status : text;
  apiKey : bool;
  healthModel : text;
  healthConversations : nat;
  healthRateLimited : nat;
  lastCleanup : option Z;
}.

Definition healthCheck (cfg : config) (s : state) : health :=
  Health (js "healthy") (nonEmpty (default [] (GEMINI_API_KEY cfg))) (model cfg)
         (size (conversationHistory s)) (size (rateLimits s)) None.

(** [shutdown()]. *)
Definition shutdown (s : state) : state := State ∅ ∅.

(** ** The object as a machine *)

(** A call of a method from outside, or a tick of the hourly timer. *)
Inductive input : Type :=
| GenerateReply (w : world) (message fromNumber : text)
| GenerateContextAwareReply (w : world) (message fromNumber : text)
| HandleSpecialCommands (message fromNumber : text)
| CleanupTimer (now : Z)
| Shutdown.

Definition step (cfg : config) (i : input) : M (option text) :=
  match i with
  | GenerateReply w message fromNumber => generateReply cfg w message fromNumber
  | GenerateContextAwareReply w message fromNumber =>
    generateContextAwareReply cfg w message fromNumber
  | HandleSpecialCommands message fromNumber =>
    handleSpecialCommands cfg message fromNumber
  | CleanupTimer now => modify (cleanupOldConversations now);; ret None
  | Shutdown => modify shutdown;; ret None
  end.

(** The state after a sequence of inputs. *)
Definition exec (cfg : config) (ins : list input) (s : state) : state :=
  foldl (λ s i, final (step cfg i) s) s ins.

(** The invariant of the object: no conversation is longer than the cap. *)
Definition inv (s : state) : Prop := AIReplyHistory.bounded (conversationHistory s).

End AIReply.

(** ** Language detection *)

Section detection.
Import AIReply.
Implicit Types (s t : text) (c : N).

(** Each word of [hinglish] starts with an ASCII letter. *)
Lemma hinglishWords_latin p :
  matches (oneOf (map litCI hinglishWords)) p → ∃ c p', p = c :: p' ∧ isLatin c = true.
Proof.
  intros (r & Hr & H)%matches_oneOf.
  apply list_elem_of_fmap in Hr as (w & -> & Hw). apply matches_litCI in H.
  assert (∃ a w', w = a :: w' ∧ isLatin a = true) as (a & w' & -> & Ha).
  { unfold hinglishWords in Hw. set_unfold. naive_solver. }
  inversion H as [|? c ? p' Hc _]; subst. exists c, p'.
  split; [done | by eapply canonicalize_latin].
Qed.

(** The second alternative of [hinglish] asks for a word only: the
    lookahead for a letter holds where the word starts. *)
Lemma hinglish_words s :
  test (oneOf (map litCI hinglishWords)) s = true → languagePatterns hinglish s = true.
Proof.
  intros (a & p & q & -> & H)%test_spec. simpl. apply testAt_spec.
  exists (p ++ q). split; [by exists a|]. unfold hinglishAt.
  destruct (hinglishWords_latin p H) as (c & p' & -> & Hc).
  rewrite orb_true_iff, !andb_true_iff. right. split.
  - apply lookingAt_here, lookingAt_spec. exists [c], (p' ++ q).
    split; [done | by constructor].
  - apply lookingAt_here, lookingAt_spec. by exists (c :: p'), q.
Qed.

(** [hinglish] needs an ASCII letter. *)
Lemma hinglish_latin s : languagePatterns hinglish s = true → existsb isLatin s = true.
Proof.
  intros (t & [a ->] & Ht)%testAt_spec.
  assert (ahead (Class isLatin) t = true) as Hl.
  { unfold hinglishAt in Ht. apply orb_true_iff in Ht.
    destruct Ht as [[? _]%andb_true_iff|[? _]%andb_true_iff]; done. }
  apply lookingAt_dots in Hl as (b & ? & q & -> & (c & -> & Hc)%matches_Class_iff).
  apply existsb_exists. exists c. split; [|done].
  apply list_elem_of_In. set_solver.
Qed.

(** C36: a message whose cleaned text contains one of the sixteen words
    of the pattern [hinglish] as a substring, in any case, is detected as
    hinglish whatever else it holds: the words are not delimited, so
    [me] in [welcome] or [se] in [please] is enough. *)
Theorem detectLanguage_words t :
  test (oneOf (map litCI hinglishWords)) (cleanText t) = true →
  detectLanguage t = hinglish.
Proof. intros H. unfold detectLanguage. by rewrite (hinglish_words _ H). Qed.

Lemma detectLanguage_words_witness :
  detectLanguage (js "Please send me the price") = hinglish.
Proof. apply (detectLanguage_words (js "Please send me the price")). by vm_compute. Defined.

(** A message in Devanagari without an ASCII letter is hindi. *)
Lemma detectLanguage_hindi t :
  existsb isLatin (cleanText t) = false →
  existsb (in_range 0x0900 0x097F) (cleanText t) = true →
  detectLanguage t = hindi.
Proof.
  intros Hl Hd. unfold detectLanguage.
  destruct (languagePatterns hinglish _) eqn:Hh.
  - apply hinglish_latin in Hh. congruence.
  - simpl. unfold range. by rewrite test_Class, Hd.
Qed.

(** A message of digits, links and white space is english: the pattern
    [english] accepts the empty string. *)
Lemma detectLanguage_empty t : cleanText t = [] → detectLanguage t = english.
Proof. intros H. unfold detectLanguage. by rewrite H. Qed.

(** The cleaned text holds no digit. *)
Lemma cleanText_digits t : Forall (λ c, isDigit c = false) (cleanText t).
Proof.
  unfold cleanText, digit. rewrite replaceAll_plus_Class.
  apply trim_Forall, Forall_forall. by intros c [? _]%list_elem_of_filter.
Qed.

End detection.

(** ** Cleaning a completion *)

Section cleaning.
Import AIReply.
Implicit Types (s t d : text) (c : N).

(** Whatever the completion service returns, the reply that
    [cleanAIResponse] hands on has at most 500 code units: a longer text
    is cut to 497 and three dots. *)
Theorem cleanAIResponse_length response : length (cleanAIResponse response) ≤ 500.
Proof.
  unfold cleanAIResponse. cbv zeta. case_if; bool_to_Z; [|lia].
  rewrite length_app. unfold substring0. rewrite length_take.
  change (length (js "...")) with 3. lia.
Qed.

(** What [/d(.*?)d/] finds starts with the delimiter. *)
Lemma shortest_wrapped d t n :
  shortest (wrapped d) t = Some n → ∃ r, t = d ++ r.
Proof.
  intros (_ & H & _)%shortest_Some. unfold wrapped in H.
  apply matches_Seq_iff in H as (s1 & s2 & Ht & ->%matches_lit & _).
  exists (s2 ++ drop n t). rewrite <-(take_drop n t) at 1.
  by rewrite Ht, <-app_assoc.
Qed.

(** A text without the first code unit of the delimiter is left as it is. *)
Lemma unwrap_id c d s : c ∉ s → unwrap (c :: d) s = s.
Proof.
  intros Hc. apply replaceAll_id. intros t [a ->].
  destruct (shortest _ _) as [n|] eqn:Hs; [|done].
  apply shortest_wrapped in Hs as [r ->]. set_solver.
Qed.

(** What [/\n\s*\n\s*\n/] finds starts with a line feed. *)
Lemma longest_blankLines t n : longest blankLines t = Some n → ∃ r, t = 10%N :: r.
Proof.
  intros (_ & H & _)%longest_Some. unfold blankLines, chr in H.
  apply matches_Seq_iff in H as (s1 & s2 & Ht & (c & -> & ->%N.eqb_eq)%matches_Class_iff & _).
  exists (s2 ++ drop n t). rewrite <-(take_drop n t) at 1. by rewrite Ht.
Qed.

(** A reply without markup, on one line, without white space around it
    and of at most 500 code units is handed on as it is. *)
Lemma cleanAIResponse_plain s :
  42%N ∉ s → 96%N ∉ s → 10%N ∉ s → trim s = s → length s ≤ 500 →
  cleanAIResponse s = s.
Proof.
  intros Hstar Htick Hnl Htrim Hlen. unfold cleanAIResponse. cbv zeta.
  change (js "**") with [42%N; 42%N]. change (js "*") with [42%N].
  change (js "`") with [96%N].
  rewrite (unwrap_id 42 [42%N] s Hstar), (unwrap_id 42 [] s Hstar),
    (unwrap_id 96 [] s Htick).
  rewrite replaceAll_id.
  - rewrite Htrim. case_if; bool_to_Z; [lia | done].
  - intros t [a ->]. destruct (longest _ _) as [n|] eqn:Hl; [|done].
    apply longest_blankLines in Hl as [r ->]. set_solver.
Qed.

Lemma cleanAIResponse_plain_witness :
  cleanAIResponse (js "Sure, see you at 5!") = js "Sure, see you at 5!".
Proof.
  apply cleanAIResponse_plain; try (by vm_compute); [| | |simpl; lia];
    intros H; by vm_compute in H; set_solver.
Defined.

End cleaning.

(** ** The methods that change the object *)

Create HintDb aireply discriminated.
#[export] Hint Unfold AIReply.step AIReply.generateReply
  AIReply.generateContextAwareReply AIReply.handleSpecialCommands
  AIReply.generateReplyWith AIReply.callGeminiAPI : aireply.

Section engine.
Import AIReply AIReplyHistory.
Context (cfg : config).
Implicit Types (s : state) (w : world) (check : limiter) (m c : text).

(** What [callGeminiAPI] returns: the cleaned text of the first
    candidate, [None] for [null]. *)
Definition completion w : option text :=
  match response w with
  | Ok (Some text) => Some (cleanAIResponse (trim text))
  | _ => None
  end.

Lemma callGeminiAPI_run w prompt s :
  run (callGeminiAPI cfg w prompt) s = (Ok (completion w), s, [Post (apiUrl cfg) prompt]).
Proof.
  unfold callGeminiAPI, completion. handler_simpl.
  by destruct (response w) as [[?|]|?].
Qed.

(** The prompt of a message, given the history of its sender. *)
Definition promptOf m c s : text :=
  buildPrompt cfg m (detectLanguage m)
    (getConversationHistory c (conversationHistory s)).

(** The state after an answered message. *)
Definition remembered w m c (reply : text) s : state :=
  setHistory (updateConversationHistory c m reply (detectLanguage m) (tHistory w)) s.

(** [generateReply] over a limiter, path by path: refused; answered and
    remembered; a fallback when the service gives nothing or an empty
    text. *)
Lemma generateReplyWith_run check w m c s :
  run (generateReplyWith check cfg w m c) s =
  let s1 := setRateLimits (λ _, (check (now w) c (rateLimits s)).2) s in
  if negb (check (now w) c (rateLimits s)).1 then (Ok None, s1, [])
  else if truthyOpt (completion w)
  then (Ok (completion w), remembered w m c (default [] (completion w)) s1,
        [Post (apiUrl cfg) (promptOf m c s)])
  else (Ok (Some (AIReplyLanguage.getFallbackReply (detectLanguage m))), s1,
        [Post (apiUrl cfg) (promptOf m c s)]).
Proof.
  unfold generateReplyWith. handler_simpl.
  destruct (check (now w) c (rateLimits s)) as [[] rl]; simpl; [|done].
  unfold setRateLimits at 1 2. simpl. fold (promptOf m c s).
  change (callGeminiAPI cfg w (promptOf m c s) ?x) with
    (run (callGeminiAPI cfg w (promptOf m c s)) x).
  rewrite callGeminiAPI_run. by destruct (truthyOpt (completion w)).
Qed.

(** The limiter of the class lets nothing through. *)
Lemma checkRateLimit_false e now c rl : (AIReplyLimit.checkRateLimit e now c rl).1 = false.
Proof. by rewrite checkRateLimit_unfold. Qed.

Lemma checkRateLimit_empty e now c : (AIReplyLimit.checkRateLimit e now c ∅).2 = ∅.
Proof. apply dom_empty_iff_L. by rewrite checkRateLimit_dom, dom_empty_L. Qed.

(** C33: [AIReply.generateReply] answers no message: for every
    configuration, state, message and sender it returns [null] without
    calling the completion service, and the conversation histories are
    as before.  The limiter that [generateReply] asks first refuses every
    attempt. *)
Theorem generateReply_null w m c s :
  result (generateReply cfg w m c) s = Ok None ∧
  trace (generateReply cfg w m c) s = [] ∧
  conversationHistory (final (generateReply cfg w m c) s) = conversationHistory s.
Proof.
  unfold result, trace, final, generateReply. rewrite generateReplyWith_run.
  cbv zeta. by rewrite checkRateLimit_false.
Qed.

(** Under a limiter that lets the message through, a completion
    whose cleaned text is not empty is returned, has at most 500 code
    units, and is the last turn of the sender's history together with
    the message. *)
Theorem generateReplyWith_replied check w m c s raw :
  inv s →
  (check (now w) c (rateLimits s)).1 = true →
  response w = Ok (Some raw) →
  nonEmpty (cleanAIResponse (trim raw)) = true →
  let reply := cleanAIResponse (trim raw) in
  result (generateReplyWith check cfg w m c) s = Ok (Some reply) ∧
  length reply ≤ 500 ∧
  lastElem (getConversationHistory c
              (conversationHistory (final (generateReplyWith check cfg w m c) s)))
  = Some (Entry m reply (detectLanguage m) (tHistory w)).
Proof.
  intros Hs Hc Hr Hne reply. subst reply. unfold result, final.
  rewrite generateReplyWith_run. cbv zeta. rewrite Hc. unfold completion.
  rewrite Hr. unfold truthyOpt. simpl. rewrite Hne. simpl.
  split_and!; [done | apply cleanAIResponse_length | by apply lastElem_update].
Qed.

(** A service that fails or gives an empty text costs the sender a
    fallback in the language of the message, and nothing is remembered. *)
Lemma generateReplyWith_fallback check w m c s :
  (check (now w) c (rateLimits s)).1 = true →
  truthyOpt (completion w) = false →
  result (generateReplyWith check cfg w m c) s
  = Ok (Some (AIReplyLanguage.getFallbackReply (detectLanguage m))) ∧
  conversationHistory (final (generateReplyWith check cfg w m c) s)
  = conversationHistory s.
Proof.
  intros Hc Ht. unfold result, final. rewrite generateReplyWith_run.
  cbv zeta. by rewrite Hc, Ht.
Qed.

End engine.

(** ** The object keeps its invariant and never leaves its first state *)

Section machine.
Import AIReply AIReplyHistory.
Context (cfg : config).
Implicit Types (s : state) (w : world) (check : limiter) (m c : text) (i : input).

Lemma aireply_init_inv : inv init.
Proof. apply bounded_empty. Qed.

Lemma keeps_generateReplyWith check w m c : keeps inv (generateReplyWith check cfg w m c).
Proof.
  intros s Hs. unfold final. rewrite generateReplyWith_run. cbv zeta.
  destruct (negb _); [done|]. destruct (truthyOpt _); [|done].
  by apply updateConversationHistory_bounded.
Qed.

Lemma total_generateReplyWith check w m c : total (generateReplyWith check cfg w m c).
Proof.
  intros s. unfold result. rewrite generateReplyWith_run. cbv zeta.
  destruct (negb _); [by eexists|]. destruct (truthyOpt _); by eexists.
Qed.

Lemma aireply_inv_delete c s : inv s → inv (setHistory (delete c) s).
Proof. intros Hs. by apply map_Forall_delete. Qed.

Lemma inv_cleanup now s : inv s → inv (AIReply.cleanupOldConversations now s).
Proof. apply cleanupOldConversations_bounded. Qed.

Lemma keeps_aireply_step i : keeps inv (step cfg i).
Proof.
  destruct i; autounfold with aireply;
    handler_rules_with ltac:(first
      [ apply keeps_generateReplyWith
      | apply keeps_modify; intros;
        first [by apply aireply_inv_delete | by apply inv_cleanup]
      | apply keeps_modify; intros; apply aireply_init_inv ]).
Qed.

Lemma total_aireply_step i : total (step cfg i).
Proof.
  destruct i; autounfold with aireply;
    handler_rules_with ltac:(apply total_generateReplyWith).
Qed.

Lemma aireply_exec_inv ins s : inv s → inv (exec cfg ins s).
Proof.
  unfold exec. revert s. induction ins as [|i ins IH]; intros s Hs; [done|].
  simpl. by apply IH, keeps_aireply_step.
Qed.

(** [AIReply] is a reply engine; the third argument of the interface is
    the [context] of [generateReply], which it does not read. *)
Definition aireply_engine : ReplyEngine state := {|
  engine_world := world;
  engine_act := act;
  engine_generateReply w m c _ := generateReply cfg w m c;
  engine_inv := inv;
  engine_total w m c _ := total_generateReplyWith _ w m c;
  engine_inv_keeps w m c _ := keeps_generateReplyWith _ w m c;
|}.

(** *** The first state is the only state *)

Lemma generateReply_run_init w m c :
  run (generateReply cfg w m c) init = (Ok None, init, []).
Proof.
  unfold generateReply. rewrite generateReplyWith_run. cbv zeta.
  rewrite checkRateLimit_false. simpl. unfold setRateLimits, init. simpl.
  by rewrite checkRateLimit_empty.
Qed.

Lemma generateReply_init w m c : final (generateReply cfg w m c) init = init.
Proof. unfold final. by rewrite generateReply_run_init. Qed.

Lemma handleSpecialCommands_init m c :
  ∃ r, run (handleSpecialCommands cfg m c) init = (Ok r, init, []).
Proof.
  unfold handleSpecialCommands. handler_simpl.
  destruct (_ || _ || _); [eauto|].
  destruct (_ || _); [|destruct (strictEq _ _); eauto].
  unfold setHistory, init. simpl. rewrite delete_empty. eauto.
Qed.

Lemma step_init i : final (step cfg i) init = init.
Proof.
  destruct i; simpl.
  - apply generateReply_init.
  - destruct (handleSpecialCommands_init message fromNumber) as [r Hr].
    unfold generateContextAwareReply.
    rewrite (final_bind _ _ _ r) by (unfold result; by rewrite Hr).
    unfold final at 2. rewrite Hr. simpl.
    case_match; [done | apply generateReply_init].
  - destruct (handleSpecialCommands_init message fromNumber) as [r Hr].
    unfold final. by rewrite Hr.
  - unfold final, AIReply.cleanupOldConversations,
      AIReplyHistory.cleanupOldConversations, AIReplyLimit.cleanupRateLimits.
    handler_simpl. simpl. by rewrite !delete_where_empty.
  - done.
Qed.

(** An [AIReply] object never leaves the state its constructor
    leaves it in: after any sequence of calls of its methods and ticks of
    its timer both maps are empty, because the only method that adds to
    them is [generateReply], behind a limiter that refuses every
    attempt. *)
Theorem exec_init ins : exec cfg ins init = init.
Proof.
  unfold exec. induction ins as [|i ins IH]; [done|].
  simpl. by rewrite step_init.
Qed.

End machine.

(** ** The patterns as scans *)

Section scans.
Import AIReply.
Implicit Types (s t : text) (c : N) (p : N → bool).

(** A code unit of the class [p] before the end of the line. *)
Fixpoint onLine p s : bool :=
  match s with
  | [] => false
  | c :: r => p c || (negb (isLineTerminator c) && onLine p r)
  end.

Lemma lookingAt_Void s : lookingAt Void s = false.
Proof. by induction s. Qed.

Lemma lookingAt_nullable r s : nullable r = true → lookingAt r s = true.
Proof. intros H. destruct s; simpl; by rewrite H. Qed.

(** The lookahead [(?=.*[class])] of the pattern [hinglish], read
    with derivatives, is a scan to the end of the line: it holds where a
    code unit of the class follows before a line terminator. *)
Theorem ahead_Class p s : ahead (Class p) s = onLine p s.
Proof.
  unfold ahead. induction s as [|c s IH]; [done|].
  cbn [lookingAt nullable andb orb der dot onLine]. rewrite <-IH.
  destruct (negb (isLineTerminator c)), (p c); simpl;
    first [done | by apply lookingAt_nullable | apply lookingAt_Void].
Qed.

(** The pattern [english] holds of the strings made of its class. *)
Lemma languagePatterns_english s :
  languagePatterns english s = forallb isEnglishChar s.
Proof. apply accepts_Star_Class. Qed.

(** The patterns of one script hold of the strings with a code unit of
    its block. *)
Lemma languagePatterns_hindi s :
  languagePatterns hindi s = existsb (in_range 0x0900 0x097F) s.
Proof. apply test_Class. Qed.

End scans.

(** ** Examples *)

Section examples.
Import AIReply AIReplyHistory.

(** The limiter that the comment of line 673 describes. *)
Definition intended : limiter :=
  AIReplyLimit.checkRateLimitWith (FixedWindow.quotaReached None).

Definition cfg0 : config := Config (Some (js "key")) None None None.

(** The service answers with markup and white space around the text. *)
Definition answering : world := World 1000 (Ok (Some (js " **Hi** there! "))) 1001.

Lemma generateReplyWith_replied_witness :
  let reply := cleanAIResponse (trim (js " **Hi** there! ")) in
  result (generateReplyWith intended cfg0 answering (js "hello") (js "15550100")) init
  = Ok (Some reply) ∧
  length reply ≤ 500 ∧
  lastElem (getConversationHistory (js "15550100")
              (conversationHistory
                 (final (generateReplyWith intended cfg0 answering (js "hello")
                           (js "15550100")) init)))
  = Some (Entry (js "hello") reply (detectLanguage (js "hello")) (tHistory answering)).
Proof.
  apply (generateReplyWith_replied cfg0 intended answering (js "hello")
           (js "15550100") init (js " **Hi** there! "));
    [apply aireply_init_inv | by vm_compute..].
Defined.

(** The markup is removed from what the service returned. *)
Lemma cleanAIResponse_markup :
  cleanAIResponse (trim (js " **Hi** there! ")) = js "Hi there!".
Proof. by vm_compute. Qed.

(** A message without an ASCII letter and outside the scripts of the
    patterns is hinglish by default, and its ratio of Hindi words is
    [NaN]. *)
Lemma processAdvancedLanguage_NaN :
  detectLanguage (js "¿?") = hinglish ∧
  hindiRatio (processAdvancedLanguage (js "¿?") hinglish) = None.
Proof. by vm_compute. Qed.

(** [/help] is answered in hinglish and [help] in english: the language
    is that of the command itself, and a slash is outside the class of
    the pattern [english]. *)
Lemma handleSpecialCommands_help :
  result (handleSpecialCommands cfg0 (js " /HELP ") (js "15550100")) init
  = Ok (Some (getHelpMessage cfg0 hinglish)) ∧
  result (handleSpecialCommands cfg0 (js "Help") (js "15550100")) init
  = Ok (Some (getHelpMessage cfg0 english)).
Proof. by vm_compute. Qed.

End examples.
