(* ===== verification/Session.v ===== *)
(** * The session manager

    Class [SessionManager] of [src/unnamed/part_000], lines 6-374: the
    connection lifecycle of one WhatsApp session and the message pipeline.

    - [state] holds the fields of the object that change: [client],
      [isReady], [qrRetries], [messageCount], [activeChats] and the reply
      engine [geminiAI].
    - [system] adds what the object does not hold but the program's
      behaviour depends on: the [async] methods that are suspended at an
      [await] and the timers that are armed ([pending]), the adapter
      handles that were created and not destroyed ([live]), and the next
      fresh handle.
    - A method that awaits a slow call of the adapter is cut at the
      [await]: [restartClient] is [restartClient] (up to
      [await this.client.destroy()]), [restartAfterDestroy] (up to
      [await this.sleep(3000)]), [restartAfterSleep] (up to
      [await this.client.initialize()]) and [restartAfterInitialize].
      Between two parts any other handler may run; [resume] runs the
      rest of a method with the result it awaited.
    - [handleIncomingMessage] is run in one piece: its [await]s are
      calls whose results are in [inbound].  [Interleaving] cuts it at
      its [await]s and shows that a run that is alone is this handler.

    The development is over any reply engine ([ReplyEngine]); the
    invariants are proved against the interface. *)

From Stdlib Require Import QArith.
From S2P Require Import Prelude Effects Typing Engine.
Local Close Scope Q_scope.

Module SessionManager.

(** What the handlers read of a [Message] of the adapter. *)
Record message : Type := Message {
  from : text;
  fromMe : bool;
  (** seconds since the epoch *)
  timestamp : Z;
  body : text;
}.

#[export] Instance message_eq_dec : EqDecision message.
Proof. solve_decision. Defined.

(** What the handlers read of a [Contact]; [None] is [undefined]. *)
Record contact : Type := Contact {
  name : option text;
  pushname : option text;
  number : text;
}.

(** The events of [this.io.emit]. *)
Inductive io_event : Type :=
| IoQr (qrCodeDataURL : text)
| IoAuthenticated
| IoReady
| IoDisconnected (reason : text)
| IoError (msg : text)
| IoMessageReply (contactName originalMessage reply : text) (timestamp : Z)
| IoMessageCount (n : Z)
| IoActiveChats (n : nat).

(** Who awaits a method of the session manager in [server.js]: the
    handler of a socket, or the shutdown handler of a signal. *)
Inductive caller : Type :=
| Socket (id : text)
| Signal (name : text).

#[export] Instance caller_eq_dec : EqDecision caller.
Proof. solve_decision. Defined.

(** A method suspended at an [await], or an armed timer.  A method that
    its caller awaits carries the caller. *)
Inductive task : Type :=
| RestartDestroying
| RestartSleeping
| RestartInitializing
| StartInitializing (c : caller)
| StopDestroying (c : caller)
| ReconnectTimer
| StatsInterval.

#[export] Instance task_eq_dec : EqDecision task.
Proof. solve_decision. Defined.

(** [this.maxQrRetries]. *)
Definition maxQrRetries : Z := 3.

(** The truthiness of a string that may be [undefined]. *)
Definition truthyText (o : option text) : bool :=
  match o with
  | Some (_ :: _) => true
  | _ => false
  end.

(** [contact.name || contact.pushname || contact.number]. *)
Definition contactNameOf (c : contact) : text :=
  if truthyText (name c) then default [] (name c)
  else if truthyText (pushname c) then default [] (pushname c)
  else number c.

(** The apology of line 228. *)
Definition fallbackText : text :=
  js "Sorry, kuch technical problem hai. Thoda baad try karo 😅".

Section engine.
Context {E : Type} `{ReplyEngine E}.

(** The calls of the outside world. *)
Inductive act : Type :=
| IoEmit (e : io_event)
| NewClient (h : nat)
| Initialize (h : nat)
| Destroy (h : nat)
| ToDataURL (qr : text)
| GetContact (m : message)
| GetChat (m : message)
| SendStateTyping (m : message)
| ClearState (m : message)
| Reply (m : message) (reply : text)
| ClientSendMessage (h : nat) (chatId msg : text)
| Sleep (ms : Q)
| SetTimeout (ms : Z)
| SetInterval (ms : Z)
| EngineCall (a : engine_act).

Record state : Type := State {
  client : option nat;
  isReady : bool;
  qrRetries : Z;
  messageCount : Z;
  activeChats : gset text;
  geminiAI : E;
}.

Record system : Type := System {
  this : state;
  pending : list task;
  live : gset nat;
  nextClient : nat;
}.

(** The object after its constructor, and nothing pending. *)
Definition init (e : E) : system :=
  System (State None false 0 0 ∅ e) [] ∅ 0.

(** What one inbound message gets from outside: the clock of the
    staleness check, the result of [message.getContact()], the world of
    the engine's call, the results of [getChat], [sendStateTyping],
    [clearState] and [reply], [Math.random()], the clock of the
    [message_reply] event, the result of the apology. *)
Record inbound : Type := Inbound {
  now : Z;
  contactResult : outcome error contact;
  engineWorld : engine_world;
  chatResult : outcome error unit;
  typingResult : outcome error unit;
  rand : Q;
  clearResult : outcome error unit;
  replyResult : outcome error unit;
  tReply : Z;
  fallbackResult : outcome error unit;
}.

Abbreviation M := (handler system act error).

(** *** Field updates *)

Definition onThis (f : state → state) (y : system) : system :=
  System (f (this y)) (pending y) (live y) (nextClient y).

Definition setClient (c : option nat) (s : state) : state :=
  State c (isReady s) (qrRetries s) (messageCount s) (activeChats s) (geminiAI s).
Definition setReady (b : bool) (s : state) : state :=
  State (client s) b (qrRetries s) (messageCount s) (activeChats s) (geminiAI s).
Definition setQrRetries (n : Z) (s : state) : state :=
  State (client s) (isReady s) n (messageCount s) (activeChats s) (geminiAI s).
Definition setMessageCount (n : Z) (s : state) : state :=
  State (client s) (isReady s) (qrRetries s) n (activeChats s) (geminiAI s).
Definition setActiveChats (a : gset text) (s : state) : state :=
  State (client s) (isReady s) (qrRetries s) (messageCount s) a (geminiAI s).
Definition setEngine (e : E) (s : state) : state :=
  State (client s) (isReady s) (qrRetries s) (messageCount s) (activeChats s) e.

(** An [await] or a timer: the method's rest is pending. *)
Definition suspend (t : task) : M unit :=
  modify (λ y, System (this y) (t :: pending y) (live y) (nextClient y)).

(** [new Client(..)] with a fresh handle, stored in [this.client]. *)
Definition newClient : M nat :=
  y ← get;
  let h := nextClient y in
  modify (λ y, System (setClient (Some (nextClient y)) (this y)) (pending y)
                      ({[nextClient y]} ∪ live y) (S (nextClient y)));;
  emit (NewClient h);;
  ret h.

(** [client.destroy()] is called: the handle emits no event from now on. *)
Definition destroy (h : nat) : M unit :=
  modify (λ y, System (this y) (pending y) (live y ∖ {[h]}) (nextClient y));;
  emit (Destroy h).

(** *** [initializeClient], lines 32-69 *)

(** Up to [await this.client.initialize()]; [ctor] is the result of
    [new Client(..)]. *)
Definition initializeClient (ctor : outcome error unit) : M unit :=
  catch
    (await ctor;;
     h ← newClient;
     emit (Initialize h))
    (λ e, emit (IoEmit (IoError (js "Failed to initialize WhatsApp client")));;
          throw e).

(** After [await this.client.initialize()]. *)
Definition initializeAfter (r : outcome error unit) : M unit :=
  catch (await r)
    (λ e, emit (IoEmit (IoError (js "Failed to initialize WhatsApp client")));;
          throw e).

(** *** [restartClient], lines 314-334 *)

Definition restartFailed : M unit :=
  emit (IoEmit (IoError (js "Failed to restart client"))).

(** After [await this.client.destroy()], up to [await this.sleep(3000)]. *)
Definition restartAfterDestroy (r : outcome error unit) : M unit :=
  match r with
  | Ok _ =>
    modify (onThis (setReady false));;
    modify (onThis (setQrRetries 0));;
    emit (Sleep 3000);;
    suspend RestartSleeping
  | Throw _ => restartFailed
  end.

(** Up to the first [await]. *)
Definition restartClient : M unit :=
  y ← get;
  match client (this y) with
  | Some h => destroy h;; suspend RestartDestroying
  | None => restartAfterDestroy (Ok tt)
  end.

(** After [await this.sleep(3000)], up to the [await] inside
    [initializeClient]. *)
Definition restartAfterSleep (ctor : outcome error unit) : M unit :=
  catch (initializeClient ctor;; suspend RestartInitializing)
        (λ _, restartFailed).

(** After [await this.initializeClient()]. *)
Definition restartAfterInitialize (r : outcome error unit) : M unit :=
  catch (initializeAfter r) (λ _, restartFailed).

(** *** [stopClient], lines 337-353 *)

Definition stopped : M unit :=
  emit (IoEmit (IoDisconnected (js "Client stopped manually"))).

(** Up to [await this.client.destroy()]. *)
Definition stopClient (c : caller) : M unit :=
  y ← get;
  match client (this y) with
  | Some h =>
    modify (onThis (setReady false));;
    destroy h;;
    suspend (StopDestroying c)
  | None => stopped
  end.

(** After [await this.client.destroy()]. *)
Definition stopAfterDestroy (r : outcome error unit) : M unit :=
  match r with
  | Ok _ => modify (onThis (setClient None));; stopped
  | Throw _ => ret tt
  end.

(** *** The event handlers of [setupEventHandlers], lines 72-163 *)

(** ['qr']; [dataURL] is the result of [QRCode.toDataURL]. *)
Definition onQr (qr : text) (dataURL : outcome error text) : M unit :=
  catch
    (qrCodeDataURL ← call (ToDataURL qr) dataURL;
     emit (IoEmit (IoQr qrCodeDataURL));;
     modify (onThis (λ s, setQrRetries (qrRetries s + 1) s));;
     y ← get;
     when (maxQrRetries <? qrRetries (this y))%Z restartClient)
    (λ _, emit (IoEmit (IoError (js "QR generation failed")))).

(** ['authenticated']. *)
Definition onAuthenticated : M unit :=
  emit (IoEmit IoAuthenticated);;
  modify (onThis (setQrRetries 0)).

(** [startStatsUpdater]: one more interval, never cleared. *)
Definition startStatsUpdater : M unit :=
  emit (SetInterval 30000);;
  suspend StatsInterval.

(** ['ready']; [info] is the result of reading [this.client.info] and its
    fields. *)
Definition onReady (info : outcome error unit) : M unit :=
  modify (onThis (setReady true));;
  emit (IoEmit IoReady);;
  catch (await info;; startStatsUpdater) (λ _, ret tt).

(** ['disconnected']. *)
Definition onDisconnected (reason : text) : M unit :=
  modify (onThis (setReady false));;
  emit (IoEmit (IoDisconnected reason));;
  emit (SetTimeout 5000);;
  suspend ReconnectTimer.

(** ['auth_failure']. *)
Definition onAuthFailure : M unit :=
  emit (IoEmit (IoError (js "Authentication failed - please scan QR again"))).

(** ['error']. *)
Definition onError (e : error) : M unit :=
  emit (IoEmit (IoError (error_message e))).

(** One tick of the interval of [startStatsUpdater], lines 299-310. *)
Definition statsTick : M unit :=
  y ← get;
  when (isReady (this y))
    (emit (IoEmit (IoMessageCount (messageCount (this y))));;
     emit (IoEmit (IoActiveChats (size (activeChats (this y)))));;
     when (50 <? size (activeChats (this y)))
       (modify (onThis (setActiveChats ∅)))).

(** *** The message pipeline, lines 166-265 *)

Section pipeline.
Context (cfg : SessionTyping.config).

(** [sendReplyWithTyping(message, reply, contactName)]. *)
Definition sendReplyWithTyping (w : inbound) (m : message) (reply : text) :
    M unit :=
  catch
    (call (GetChat m) (chatResult w);;
     call (SendStateTyping m) (typingResult w);;
     emit (Sleep (SessionTyping.totalDelay cfg (rand w) reply));;
     call (ClearState m) (clearResult w);;
     call (Reply m reply) (replyResult w))
    (λ e, throw e).

(** [this.geminiAI.generateReply(..)]. *)
Definition generateReply (w : inbound) (messageText number contactName : text) :
    M (option text) :=
  zoom (λ y, geminiAI (this y)) (λ e, onThis (setEngine e)) EngineCall
    (engine_generateReply (engineWorld w) messageText number contactName).

(** [handleIncomingMessage(message)]. *)
Definition handleIncomingMessage (w : inbound) (m : message) : M unit :=
  catch
    (y ← get;
     if negb (isReady (this y)) || fromMe m then ret tt else
     if includes (js "@g.us") (from m) then ret tt else
     let messageTime := (timestamp m * 1000)%Z in
     let fiveMinutesAgo := (now w - 5 * 60 * 1000)%Z in
     if (messageTime <? fiveMinutesAgo)%Z then ret tt else
     contact ← call (GetContact m) (contactResult w);
     let contactName := contactNameOf contact in
     let messageText := trim (body m) in
     if negb (nonEmpty messageText) || (length messageText <? 1) then ret tt else
     modify (onThis (λ s, setActiveChats ({[number contact]} ∪ activeChats s) s));;
     aiReply ← generateReply w messageText (number contact) contactName;
     if truthyText aiReply then
       let reply := default [] aiReply in
       sendReplyWithTyping w m reply;;
       modify (onThis (λ s, setMessageCount (messageCount s + 1) s));;
       emit (IoEmit (IoMessageReply contactName messageText reply (tReply w)))
     else ret tt)
    (λ _, catch (call (Reply m fallbackText) (fallbackResult w)) (λ _, ret tt)).

End pipeline.

(** *** [sendMessage] and [getStatus], lines 268-295 *)

(** [{ success: true }] or [{ success: false, error }]. *)
Inductive send_result : Type :=
| Sent
| NotSent (error : text).

(** [sendMessage(to, message)]; [r] is the result of
    [this.client.sendMessage].  Calling a method of [null] throws a
    [TypeError]. *)
Definition sendMessage (to msg : text) (r : outcome error unit) : M send_result :=
  catch
    (y ← get;
     if negb (isReady (this y))
     then throw (Error (js "WhatsApp client is not ready")) else
     let chatId := if includes (js "@c.us") to then to else to ++ js "@c.us" in
     match client (this y) with
     | Some h => call (ClientSendMessage h chatId msg) r;; ret Sent
     | None =>
       throw (Error (js "Cannot read properties of null (reading 'sendMessage')"))
     end)
    (λ e, ret (NotSent (error_message e))).

(** [getStatus()] without [uptime], which is the process's. *)
Record status : Type := Status {
  status_isReady : bool;
  status_messageCount : Z;
  status_activeChats : nat;
  status_qrRetries : Z;
}.

Definition getStatus (y : system) : status :=
  Status (isReady (this y)) (messageCount (this y))
         (size (activeChats (this y))) (qrRetries (this y)).

(** *** Events and continuations *)

(** The events of the adapter that [setupEventHandlers] subscribes to,
    with what the handler gets from outside. *)
Inductive event : Type :=
| EvQr (qr : text) (dataURL : outcome error text)
| EvAuthenticated
| EvReady (info : outcome error unit)
| EvMessageCreate (w : inbound) (m : message)
| EvMessage (w : inbound) (m : message)
| EvDisconnected (reason : text)
| EvAuthFailure
| EvError (e : error).

(** The handler that [setupEventHandlers] registers for an event; both
    message events run [handleIncomingMessage]. *)
Definition setupEventHandlers (cfg : SessionTyping.config) (ev : event) : M unit :=
  match ev with
  | EvQr qr dataURL => onQr qr dataURL
  | EvAuthenticated => onAuthenticated
  | EvReady info => onReady info
  | EvMessageCreate w m => handleIncomingMessage cfg w m
  | EvMessage w m => handleIncomingMessage cfg w m
  | EvDisconnected reason => onDisconnected reason
  | EvAuthFailure => onAuthFailure
  | EvError e => onError e
  end.

(** The first occurrence of a task is no longer pending. *)
Fixpoint remove1 (t : task) (l : list task) : list task :=
  match l with
  | [] => []
  | t' :: l' => if decide (t = t') then l' else t' :: remove1 t l'
  end.

Definition resumed (t : task) : M unit :=
  modify (λ y, System (this y) (remove1 t (pending y)) (live y) (nextClient y)).

(** The rest of a suspended method, with the result it awaited.  An
    interval stays armed.  The rest of an [initializeClient] that was
    called from outside throws to its caller. *)
Definition resume (t : task) (r : outcome error unit) : M unit :=
  match t with
  | RestartDestroying => resumed t;; restartAfterDestroy r
  | RestartSleeping => resumed t;; restartAfterSleep r
  | RestartInitializing => resumed t;; restartAfterInitialize r
  | StartInitializing _ => resumed t;; initializeAfter r
  | StopDestroying _ => resumed t;; stopAfterDestroy r
  | ReconnectTimer => resumed t;; restartClient
  | StatsInterval => statsTick
  end.

(** [initializeClient] called from outside, up to its [await]. *)
Definition startClient (c : caller) (ctor : outcome error unit) : M unit :=
  initializeClient ctor;; suspend (StartInitializing c).

(** *** What the theorems are about *)

(** The invariant of the session: the engine's own invariant, the
    handles that exist are below the next fresh one, and the counters are
    not negative. *)
Record inv (y : system) : Prop := Inv {
  inv_engine : engine_inv (geminiAI (this y));
  inv_live : ∀ h, h ∈ live y → h < nextClient y;
  inv_client : ∀ h, client (this y) = Some h → h < nextClient y;
  inv_messageCount : (0 ≤ messageCount (this y))%Z;
  inv_qrRetries : (0 ≤ qrRetries (this y))%Z;
}.

(** The ['message_reply'] events among the calls. *)
Definition isMessageReply (a : act) : Z :=
  match a with
  | IoEmit (IoMessageReply _ _ _ _) => 1
  | _ => 0
  end.

(** The texts sent to WhatsApp as replies to [m]. *)
Definition repliesTo (m : message) (t : list act) : list text :=
  omap (λ a, match a with
             | Reply m' r => if decide (m' = m) then Some r else None
             | _ => None
             end) t.

(** The run of the engine for message [m] of contact [c]. *)
Definition engineRun (w : inbound) (m : message) (c : contact) (y : system) :
    outcome error (option text) * E * list engine_act :=
  run (engine_generateReply (engineWorld w) (trim (body m)) (number c)
         (contactNameOf c)) (geminiAI (this y)).

(** The messages that get past the filters of [handleIncomingMessage]. *)
Definition accepted (w : inbound) (m : message) (y : system) : bool :=
  isReady (this y) && negb (fromMe m) && negb (includes (js "@g.us") (from m)) &&
  negb (timestamp m * 1000 <? now w - 5 * 60 * 1000)%Z.

End engine.

End SessionManager.

(** ** The handlers keep the invariant, do not throw, and count replies *)

Create HintDb session discriminated.
#[export] Hint Unfold SessionManager.setupEventHandlers SessionManager.resume
  SessionManager.startClient SessionManager.onQr SessionManager.onAuthenticated
  SessionManager.onReady SessionManager.onDisconnected SessionManager.onAuthFailure
  SessionManager.onError SessionManager.statsTick SessionManager.startStatsUpdater
  SessionManager.restartClient SessionManager.restartAfterDestroy
  SessionManager.restartAfterSleep SessionManager.restartAfterInitialize
  SessionManager.restartFailed SessionManager.stopClient
  SessionManager.stopAfterDestroy SessionManager.stopped
  SessionManager.initializeClient SessionManager.initializeAfter
  SessionManager.handleIncomingMessage SessionManager.sendReplyWithTyping
  SessionManager.sendMessage : session.

Section session_facts.
Import SessionManager.
Context {E : Type} `{ReplyEngine E}.
Implicit Types (y : system (E:=E)) (w : inbound) (m : message).
Implicit Types (cfg : SessionTyping.config) (t : task) (ev : event).

(** The message counter as a measure. *)
Definition replies y : Z := messageCount (this y).

Lemma inv_init e : engine_inv e → inv (init e).
Proof. intros He. split; simpl; [done | set_solver | done | done | done]. Qed.

(** An update of the fields that touches no handle keeps the invariant. *)
Ltac inv_update :=
  apply keeps_modify; intros ? [? ? ? ? ?]; split; simpl; auto;
  first [done | lia].

Lemma keeps_suspend t : keeps inv (suspend t).
Proof. unfold suspend. inv_update. Qed.

Lemma keeps_resumed t : keeps inv (resumed t).
Proof. unfold resumed. inv_update. Qed.

Lemma keeps_destroy h : keeps inv (destroy h).
Proof.
  unfold destroy. handler_rules. apply keeps_modify.
  intros y [? Hl ? ? ?]; split; simpl; auto.
  intros h' [? _]%elem_of_difference. auto.
Qed.

Lemma keeps_newClient : keeps inv newClient.
Proof.
  unfold newClient. handler_rules. apply keeps_modify.
  intros y [? Hl Hc ? ?]; split; simpl; auto.
  - intros h' [->%elem_of_singleton | ?%Hl]%elem_of_union; lia.
  - intros h' [= <-]. lia.
Qed.

Lemma keeps_generateReply w a b c : keeps inv (generateReply w a b c).
Proof.
  apply (keeps_zoom _ _ _ inv engine_inv).
  - by intros y [].
  - by intros y e [] ?.
  - intros e. apply engine_inv_keeps.
Qed.

Lemma total_generateReply w a b c : total (generateReply w a b c).
Proof. apply total_zoom. intros e. apply engine_total. Qed.

Lemma balanced_generateReply w a b c :
  balanced replies isMessageReply (generateReply w a b c).
Proof. by apply balanced_zoom. Qed.

Local Hint Resolve keeps_suspend keeps_resumed keeps_destroy keeps_newClient
  keeps_generateReply total_generateReply balanced_generateReply : bot.

(** The rest of a judgment after [handler_rules]: the components' own
    lemmas, or an update of the fields. *)
Ltac session_leaf :=
  first [ inv_update
        | apply balanced_emit; reflexivity
        | apply balanced_call; reflexivity
        | apply balanced_modify; reflexivity
        | unfold replies; simpl; lia ].

Ltac session_rules :=
  autounfold with session;
  handler_rules_with ltac:(solve [auto 1 with bot]);
  unfold suspend, resumed, destroy, newClient; handler_rules; session_leaf.

Lemma keeps_setupEventHandlers cfg ev : keeps inv (setupEventHandlers cfg ev).
Proof. destruct ev; session_rules. Qed.

Lemma keeps_resume t r : keeps inv (resume t r).
Proof. destruct t; session_rules. Qed.

Lemma keeps_startClient c ctor : keeps inv (startClient c ctor).
Proof. session_rules. Qed.

Lemma keeps_restartClient : keeps inv restartClient.
Proof. session_rules. Qed.

Lemma keeps_stopClient c : keeps inv (stopClient c).
Proof. session_rules. Qed.

Lemma keeps_sendMessage to msg r : keeps inv (sendMessage to msg r).
Proof. session_rules. Qed.

Lemma total_setupEventHandlers cfg ev : total (setupEventHandlers cfg ev).
Proof. destruct ev; session_rules. Qed.

Lemma total_resume t r : (∀ c, t ≠ StartInitializing c) → total (resume t r).
Proof.
  destruct t as [| | |c| | |]; intros Ht; [..|by destruct (Ht c)| | |];
    session_rules.
Qed.

Lemma total_restartClient : total restartClient.
Proof. session_rules. Qed.

Lemma total_stopClient c : total (stopClient c).
Proof. session_rules. Qed.

Lemma total_sendMessage to msg r : total (sendMessage to msg r).
Proof. session_rules. Qed.

Lemma balanced_setupEventHandlers cfg ev :
  balanced replies isMessageReply (setupEventHandlers cfg ev).
Proof. destruct ev; session_rules. Qed.

Lemma balanced_resume t r : balanced replies isMessageReply (resume t r).
Proof. destruct t; session_rules. Qed.

Lemma balanced_startClient c ctor :
  balanced replies isMessageReply (startClient c ctor).
Proof. session_rules. Qed.

Lemma balanced_restartClient : balanced replies isMessageReply restartClient.
Proof. session_rules. Qed.

Lemma balanced_stopClient c :
  balanced replies isMessageReply (stopClient c).
Proof. session_rules. Qed.

Lemma balanced_sendMessage to msg r :
  balanced replies isMessageReply (sendMessage to msg r).
Proof. session_rules. Qed.

(** ** What [handleIncomingMessage] does with a message *)

(** [pipeline] runs [handleIncomingMessage] along its branches, in the
    order of the source: the filters, [getContact], the empty body, the
    engine's answer, the four calls of [sendReplyWithTyping], the
    apology. *)
Ltac same_result :=
  repeat match goal with
  | H1 : ?x = _, H2 : context [?x] |- _ => rewrite H1 in H2; simplify_eq/=
  end.

Ltac pipeline_step :=
  lazymatch goal with
  | |- context [isReady (this ?y)] => destruct (isReady (this y)) eqn:?
  | |- context [fromMe ?m] => destruct (fromMe m) eqn:?
  | |- context [includes ?s (from ?m)] => destruct (includes s (from m)) eqn:?
  | |- context [(?a <? ?b)%Z] => destruct (a <? b)%Z eqn:?
  | |- context [contactResult ?w] => destruct (contactResult w) as [?c|?e] eqn:?
  | |- context [nonEmpty (trim (body ?m))] =>
    destruct (nonEmpty (trim (body m))) eqn:?
  | |- context [length ?l <? 1] => destruct (length l <? 1) eqn:?
  | |- context [engine_generateReply ?a ?b ?c ?d ?e] =>
    destruct (engine_generateReply a b c d e) as [[[[[|]|]|] ?e'] ?te] eqn:?
  | |- context [chatResult ?w] => destruct (chatResult w) eqn:?
  | |- context [typingResult ?w] => destruct (typingResult w) eqn:?
  | |- context [clearResult ?w] => destruct (clearResult w) eqn:?
  | |- context [replyResult ?w] => destruct (replyResult w) eqn:?
  | |- context [fallbackResult ?w] => destruct (fallbackResult w) eqn:?
  end;
  same_result; repeat match goal with u : () |- _ => destruct u end;
  simpl in *; try done.

Ltac pipeline :=
  unfold trace, result, final, accepted, handleIncomingMessage, generateReply,
    sendReplyWithTyping, engineRun, run in *;
  handler_simpl; repeat pipeline_step.

(** A message that the filters stop changes nothing and calls nothing. *)
Lemma handleIncomingMessage_filtered cfg w m y :
  accepted w m y = false →
  run (handleIncomingMessage cfg w m) y = (Ok tt, y, []).
Proof.
  unfold accepted, handleIncomingMessage. handler_simpl.
  by destruct (isReady (this y)), (fromMe m), (includes _ (from m)), (_ <? _)%Z.
Qed.

(** The state after the pipeline got as far as the engine. *)
Definition afterEngine w m (c : contact) y : system :=
  onThis (setEngine (engineRun w m c y).1.2)
    (onThis (λ s, setActiveChats ({[number c]} ∪ activeChats s) s) y).

(** The calls up to and including the engine's. *)
Definition engineCalls w m (c : contact) y : list act :=
  GetContact m :: (EngineCall <$> (engineRun w m c y).2).

(** A message that passes the filters, whose contact is found,
    whose trimmed text is not empty and for which the engine returns a
    non-empty reply is answered when the four calls of
    [sendReplyWithTyping] succeed: the calls are, in this order,
    [getContact], the engine's, [getChat], [sendStateTyping], the sleep
    of the typing delay, [clearState], [reply] with the engine's text and
    the ['message_reply'] event; the contact is an active chat, the
    engine's state is the one the call left and [messageCount] is one
    more. *)
Theorem handleIncomingMessage_delivered cfg w m y c reply :
  accepted w m y = true → contactResult w = Ok c →
  nonEmpty (trim (body m)) = true →
  (engineRun w m c y).1.1 = Ok (Some reply) → nonEmpty reply = true →
  chatResult w = Ok tt → typingResult w = Ok tt →
  clearResult w = Ok tt → replyResult w = Ok tt →
  run (handleIncomingMessage cfg w m) y =
  (Ok tt,
   onThis (λ s, setMessageCount (messageCount s + 1) s) (afterEngine w m c y),
   engineCalls w m c y ++
   [GetChat m; SendStateTyping m;
    Sleep (SessionTyping.totalDelay cfg (rand w) reply);
    ClearState m; Reply m reply;
    IoEmit (IoMessageReply (contactNameOf c) (trim (body m)) reply (tReply w))]).
Proof.
  intros Ha Hc Hb He Hr H1 H2 H3 H4. unfold afterEngine, engineCalls.
  pipeline. by destruct (trim (body m)).
Qed.

(** When [message.getContact()] fails for a message that passes
    the filters, the apology of line 228 is sent and nothing else
    happens, whatever the body of the message: the test for an empty body
    comes after [getContact], so an empty or media-only message is
    answered with the apology too. *)
Theorem handleIncomingMessage_apology cfg w m y e :
  accepted w m y = true → contactResult w = Throw e →
  run (handleIncomingMessage cfg w m) y =
  (Ok tt, y, [GetContact m; Reply m fallbackText]).
Proof. intros Ha Hc. pipeline. Qed.

(** When the engine returns [null] or the empty string (a contact
    that is rate limited, a completion that is blank after trimming)
    nothing is sent to the chat, not even the apology, and
    [messageCount] stays; the contact is an active chat and the engine
    keeps what the call recorded. *)
Theorem handleIncomingMessage_silent cfg w m y c reply :
  accepted w m y = true → contactResult w = Ok c →
  nonEmpty (trim (body m)) = true →
  (engineRun w m c y).1.1 = Ok reply → truthyText reply = false →
  run (handleIncomingMessage cfg w m) y =
  (Ok tt, afterEngine w m c y, engineCalls w m c y).
Proof.
  intros Ha Hc Hb He Hr. unfold afterEngine, engineCalls.
  pipeline; by rewrite ?app_nil_r; try destruct (trim (body m)).
Qed.

(** C2: whatever the state, the message and the results of the calls,
    every [message.reply] that [handleIncomingMessage] makes replies to
    the message it handles, and its text is the apology of line 228 or
    the text that the engine returned for this message and its
    contact. *)
Theorem handleIncomingMessage_Reply cfg w m y m' r :
  Reply m' r ∈ trace (handleIncomingMessage cfg w m) y →
  m' = m ∧
  (r = fallbackText ∨
   ∃ c, contactResult w = Ok c ∧ (engineRun w m c y).1.1 = Ok (Some r)).
Proof.
  destruct (accepted w m y) eqn:Ha.
  - pipeline; set_unfold; intros Hin;
      repeat (destruct Hin as [Hin|Hin]); try done;
      try (by destruct Hin as (?&?&?)); simplify_eq;
      (split; [done|]); first [by left | right; eexists; split; [done|]];
      by match goal with
         | He : engine_generateReply _ _ _ _ _ = _ |- _ => rewrite He
         end.
  - unfold trace. rewrite handleIncomingMessage_filtered by done. set_solver.
Qed.

Lemma repliesTo_EngineCall m (te : list engine_act) :
  omap (λ a, match a with
             | Reply m' r => if decide (m' = m) then Some r else None
             | _ => None
             end) (EngineCall <$> te) = [].
Proof. by induction te. Qed.

(** When [message.reply] succeeds, a message gets at most one
    reply: the apology is never sent after a reply that went out. *)
Theorem handleIncomingMessage_once cfg w m y :
  replyResult w = Ok tt →
  length (repliesTo m (trace (handleIncomingMessage cfg w m) y)) ≤ 1.
Proof.
  destruct (accepted w m y) eqn:Ha.
  - intros Hr. pipeline; unfold repliesTo; simpl;
      rewrite ?omap_app, ?repliesTo_EngineCall; simpl;
      repeat case_decide; simpl; lia.
  - unfold trace. rewrite handleIncomingMessage_filtered by done. simpl. lia.
Qed.

(** [handleIncomingMessage] ignores a message, with no call and no
    change of state, when the session is not ready, when the message is
    the session's own, when it comes from a group, or when it is more
    than five minutes old. *)
Theorem handleIncomingMessage_ignores cfg w m y :
  isReady (this y) = false ∨ fromMe m = true ∨
  includes (js "@g.us") (from m) = true ∨
  (timestamp m * 1000 < now w - 5 * 60 * 1000)%Z →
  run (handleIncomingMessage cfg w m) y = (Ok tt, y, []).
Proof.
  intros Hf. apply handleIncomingMessage_filtered. unfold accepted.
  destruct Hf as [-> | [-> | [-> | Hold%Z.ltb_lt]]]; rewrite ?Hold;
    by rewrite ?andb_false_r.
Qed.

End session_facts.

(** ** The pipeline on a message, by evaluation

    A ready session with [GeminiAI] as its engine and the defaults of the
    environment; a message of a contact who writes for the first time. *)

Section session_examples.
Import SessionManager.

#[local] Instance engine0 : ReplyEngine GeminiEngine.state :=
  gemini_engine (GeminiEngine.Config None).

Definition ready0 : system :=
  System (State (Some 0) true 0 0 ∅ GeminiEngine.init) [] {[0]} 1.

Definition message0 : message :=
  Message (js "911234567890@c.us") false 1000 (js " hello ").

Definition contact0 : contact :=
  Contact (Some (js "Asha")) None (js "911234567890").

(** Every call succeeds and the service answers. *)
Definition inbound0 : inbound :=
  Inbound 1000500 (Ok contact0) answeringWorld (Ok tt) (Ok tt) (1 # 4) (Ok tt)
          (Ok tt) 1000600 (Ok tt).

(** [getContact] fails. *)
Definition inboundNoContact : inbound :=
  Inbound 1000500 (Throw (Error (js "Evaluation failed"))) answeringWorld
          (Ok tt) (Ok tt) (1 # 4) (Ok tt) (Ok tt) 1000600 (Ok tt).

(** The completion is blank. *)
Definition inboundBlank : inbound :=
  Inbound 1000500 (Ok contact0)
          (GeminiEngine.World 1000 (Ok (js "  ")) 1001 1002 1003 (1 # 2))
          (Ok tt) (Ok tt) (1 # 4) (Ok tt) (Ok tt) 1000600 (Ok tt).

Definition cfg0 : SessionTyping.config := SessionTyping.defaults.

Lemma handleIncomingMessage_delivered_witness :
  run (handleIncomingMessage cfg0 inbound0 message0) ready0 =
  (Ok tt,
   onThis (λ s, setMessageCount (messageCount s + 1) s)
     (afterEngine inbound0 message0 contact0 ready0),
   engineCalls inbound0 message0 contact0 ready0 ++
   [GetChat message0; SendStateTyping message0;
    Sleep (SessionTyping.totalDelay cfg0 (rand inbound0) (js "Hi Asha!"));
    ClearState message0; Reply message0 (js "Hi Asha!");
    IoEmit (IoMessageReply (contactNameOf contact0) (trim (body message0))
              (js "Hi Asha!") (tReply inbound0))]).
Proof.
  apply (handleIncomingMessage_delivered cfg0 inbound0 message0 ready0
           contact0 (js "Hi Asha!")); vm_compute; reflexivity.
Defined.

Lemma handleIncomingMessage_apology_witness :
  run (handleIncomingMessage cfg0 inboundNoContact message0) ready0 =
  (Ok tt, ready0, [GetContact message0; Reply message0 fallbackText]).
Proof.
  apply (handleIncomingMessage_apology cfg0 inboundNoContact message0 ready0
           (Error (js "Evaluation failed"))); vm_compute; reflexivity.
Defined.

Lemma handleIncomingMessage_silent_witness :
  run (handleIncomingMessage cfg0 inboundBlank message0) ready0 =
  (Ok tt, afterEngine inboundBlank message0 contact0 ready0,
   engineCalls inboundBlank message0 contact0 ready0).
Proof.
  apply (handleIncomingMessage_silent cfg0 inboundBlank message0 ready0
           contact0 (Some [])); vm_compute; reflexivity.
Defined.

Lemma handleIncomingMessage_Reply_witness :
  message0 = message0 ∧
  (js "Hi Asha!" = fallbackText ∨
   ∃ c, contactResult inbound0 = Ok c ∧
        (engineRun inbound0 message0 c ready0).1.1 = Ok (Some (js "Hi Asha!"))).
Proof.
  apply (handleIncomingMessage_Reply cfg0 inbound0 message0 ready0 message0
           (js "Hi Asha!")).
  apply (list_elem_of_lookup_2 _ 6). reflexivity.
Defined.

Lemma handleIncomingMessage_once_witness :
  length (repliesTo message0
            (trace (handleIncomingMessage cfg0 inbound0 message0) ready0)) ≤ 1.
Proof.
  apply (handleIncomingMessage_once cfg0 inbound0 message0 ready0). reflexivity.
Defined.

(** The same message six minutes later. *)
Definition inboundLate : inbound :=
  Inbound 1360001 (Ok contact0) answeringWorld (Ok tt) (Ok tt) (1 # 4)
          (Ok tt) (Ok tt) 1360002 (Ok tt).

Lemma handleIncomingMessage_ignores_witness :
  run (handleIncomingMessage cfg0 inboundLate message0) ready0 =
  (Ok tt, ready0, []).
Proof.
  apply (handleIncomingMessage_ignores cfg0 inboundLate message0 ready0).
  right. right. right. reflexivity.
Defined.

End session_examples.
