(* ===== verification/Lifecycle.v ===== *)
(** * The lifecycle of a session

    The state machine of section 4.1 of the specification (Module
    [SessionLifecycle], [phase], [trigger], [transition]: modelled
    from the specification) and the proof that [SessionManager] of
    [src/unnamed/part_000] implements it.

    - [request] is what reaches the session manager: an event of the
      adapter, the rest of a method that waited or a timer that fires,
      a stop and a start request of the server; [handle] is the handler
      that [Session] gives for it and [exec] runs a sequence of them.
    - [observe] is what a request is in the terms of the specification:
      a [trigger], a step that the specification does not see
      ([Silent]), or a step that [SessionManager] does not take as the
      specification says ([Diverges]).  The last are: ['auth_failure'],
      which the handler only reports; a failing [destroy] inside
      [restartClient], which gives the restart up; a start request
      while a stop or a restart is under way or with a retry counter
      that is not zero.
    - [matches] relates a phase to the fields of the object, the
      adapter handles that are live and the methods that wait: the
      object has no field for the phase.

    The facts:
    - [handle_matches] is the forward simulation: a request that the
      specification has a transition for, or does not see, takes a
      session that matches a phase to one that matches the next phase;
      [lifecycle_refines] is the same of a run ([exec]);
    - in such a run at most one adapter handle is live, and the session
      handles messages in [Ready] only ([conforming_session]);
    - the restart that ['disconnected'] schedules comes 5 s later and
      the restart waits 3 s before it creates the client
      ([restart_policy], on the calls of the run, [calls]);
    - the steps that diverge: [auth_failure_ignored],
      [restart_gives_up], [start_during_stop], [start_keeps_counter];
    - the other direction, [lifecycle_complete]: every transition of
      the specification but the one of the credential failure is taken
      by some run of the session manager ([reaches]).

    The simulation has no fuel and no bound: a run is a finite list of
    requests, and every handler of [Session] is a total function. *)

From Stdlib Require Import QArith.
From S2P Require Import Prelude Effects Typing Engine Session.
Local Close Scope Q_scope.
Local Open Scope Z_scope.

Module SessionLifecycle.
Import SessionManager.

(** ** The state machine of the specification *)

(** The states; [PendingCredential] with the retry counter of the
    credential challenges, [Disconnected] with whether a restart is
    scheduled. *)
Inductive phase : Type :=
| PendingCredential (retries : Z)
| Authenticated
| Ready
| Disconnected (restart : bool)
| Failed.

#[export] Instance phase_eq_dec : EqDecision phase.
Proof. solve_decision. Defined.

(** The triggers of the transitions. *)
Inductive trigger : Type :=
| CredentialChallenge
| CredentialExchanged
| Operational
| ConnectionLost
| CredentialFailure
| StopCommand
| Restart
| RestartRejected.

#[export] Instance trigger_eq_dec : EqDecision trigger.
Proof. solve_decision. Defined.

(** The configured maximum of the retry counter. *)
Definition maxRetries : Z := 3.

(** The delay of the automatic restart and the settle delay of the
    restart policy, in milliseconds. *)
Definition restartDelay : Z := 5000.
Definition settleDelay : Z := 3000.

(** The transitions. *)
Definition transition (p : phase) (t : trigger) : option phase :=
  match t, p with
  | CredentialFailure, _ => Some Failed
  | CredentialChallenge, PendingCredential n =>
    Some (if maxRetries <? n + 1 then Disconnected true
          else PendingCredential (n + 1))
  | CredentialExchanged, PendingCredential _ => Some Authenticated
  | Operational, Authenticated => Some Ready
  | ConnectionLost, Ready => Some (Disconnected true)
  | StopCommand, (PendingCredential _ | Authenticated | Ready) =>
    Some (Disconnected false)
  | Restart, Disconnected _ => Some (PendingCredential 0)
  | RestartRejected, Disconnected _ => Some Failed
  | _, _ => None
  end.

(** What a step of the implementation is for the specification. *)
Inductive label : Type :=
| Silent
| Does (t : trigger)
| Diverges.

Definition after (p : phase) (l : label) : option phase :=
  match l with
  | Silent => Some p
  | Does t => transition p t
  | Diverges => None
  end.

Fixpoint afterAll (p : phase) (ls : list label) : option phase :=
  match ls with
  | [] => Some p
  | l :: ls' => after p l ≫= λ p', afterAll p' ls'
  end.

(** ** The session manager as a machine *)

Section engine.
Context {E : Type} `{ReplyEngine E}.
Context (cfg : SessionTyping.config).
Local Abbreviation M := (handler (system (E:=E)) act error).
Implicit Types (y : system (E:=E)).

(** What reaches the session manager. *)
Inductive request : Type :=
| Adapter (h : nat) (ev : event)
| Wake (t : task) (r : outcome error unit)
| StopRequest (c : caller)
| StartRequest (c : caller) (ctor : outcome error unit).

Definition handle (q : request) : M unit :=
  match q with
  | Adapter _ ev => setupEventHandlers cfg ev
  | Wake t r => resume t r
  | StopRequest c => stopClient c
  | StartRequest c ctor => startClient c ctor
  end.

(** An event comes from a handle that is live, a method goes on when
    it waits. *)
Definition possible (q : request) y : bool :=
  match q with
  | Adapter h _ => bool_decide (h ∈ live y)
  | Wake t _ => bool_decide (t ∈ pending y)
  | _ => true
  end.

(** The waiting parts of [restartClient] and the timer of
    ['disconnected']. *)
Definition isRestart (t : task) : bool :=
  match t with
  | ReconnectTimer | RestartDestroying | RestartSleeping => true
  | _ => false
  end.

(** The waiting part of [stopClient]. *)
Definition isStop (t : task) : bool :=
  match t with
  | StopDestroying _ => true
  | _ => false
  end.

Definition restarting y : list task :=
  List.filter isRestart (pending y).

Definition stopping y : list task :=
  List.filter isStop (pending y).

(** No stop and no restart is under way. *)
Definition idle y : bool :=
  bool_decide (restarting y = []) && bool_decide (stopping y = []).

Definition isOk {A} (r : outcome error A) : bool :=
  match r with
  | Ok _ => true
  | Throw _ => false
  end.

(** A request in the terms of the specification. *)
Definition observe y (q : request) : label :=
  match q with
  | Adapter _ (EvQr _ dataURL) => if isOk dataURL then Does CredentialChallenge else Silent
  | Adapter _ EvAuthenticated => Does CredentialExchanged
  | Adapter _ (EvReady _) => Does Operational
  | Adapter _ (EvDisconnected _) => Does ConnectionLost
  | Adapter _ EvAuthFailure => Diverges
  | Adapter _ (EvMessageCreate _ _) | Adapter _ (EvMessage _ _)
  | Adapter _ (EvError _) => Silent
  | Wake RestartDestroying r => if isOk r then Silent else Diverges
  | Wake RestartSleeping r => if isOk r then Does Restart else Does RestartRejected
  | Wake _ _ => Silent
  | StopRequest _ => Does StopCommand
  | StartRequest _ ctor =>
    if idle y && (qrRetries (this y) =? 0)
    then (if isOk ctor then Does Restart else Does RestartRejected)
    else Diverges
  end.

(** A sequence of requests: the session after them and what they were,
    or [None] when one of them cannot occur. *)
Fixpoint exec (qs : list request) y : option (system * list label) :=
  match qs with
  | [] => Some (y, [])
  | q :: qs' =>
    if possible q y then
      '(y', ls) ← exec qs' (final (handle q) y);
      Some (y', observe y q :: ls)
    else None
  end.

(** The calls that a sequence of requests makes. *)
Fixpoint calls (qs : list request) y : list act :=
  match qs with
  | [] => []
  | q :: qs' => trace (handle q) y ++ calls qs' (final (handle q) y)
  end.

(** The client of the object is the one handle that is live, and
    nothing is under way. *)
Definition connected y : Prop :=
  ∃ h, client (this y) = Some h ∧ live y = {[h]} ∧ idle y = true.

(** A restart is scheduled or under way: the timer runs and the client
    is the only handle that may be live, or the client is destroyed,
    or the restart sleeps with the counter reset. *)
Definition scheduled y : Prop :=
  stopping y = [] ∧
  match restarting y with
  | [ReconnectTimer] => ∃ h, client (this y) = Some h ∧ live y ⊆ {[h]}
  | [RestartDestroying] => live y = ∅
  | [RestartSleeping] => live y = ∅ ∧ qrRetries (this y) = 0
  | _ => False
  end.

(** The session is in a phase. *)
Definition matches (p : phase) y : Prop :=
  match p with
  | PendingCredential n =>
    isReady (this y) = false ∧ qrRetries (this y) = n ∧ 0 ≤ n ≤ maxRetries ∧
    connected y
  | Authenticated =>
    isReady (this y) = false ∧ qrRetries (this y) = 0 ∧ connected y
  | Ready => isReady (this y) = true ∧ connected y
  | Disconnected true => isReady (this y) = false ∧ scheduled y
  | Disconnected false | Failed =>
    isReady (this y) = false ∧ live y = ∅ ∧ restarting y = []
  end.

End engine.

End SessionLifecycle.

(** ** What a phase reads of the session *)

Section posture.
Import SessionManager SessionLifecycle.
Context {E : Type} `{ReplyEngine E}.
Implicit Types (y : system (E:=E)) (t : task) (p : phase) (pd : list task).

(** The fields that [matches] reads. *)
Definition posture y : option nat * bool * Z * gset nat * list task * list task :=
  (client (this y), isReady (this y), qrRetries (this y), live y,
   restarting y, stopping y).

Lemma matches_posture p y y' : posture y' = posture y → matches p y → matches p y'.
Proof.
  unfold posture. intros [= Hc Hr Hq Hl Hrs Hst].
  destruct p as [n| | |[]|]; unfold matches, connected, scheduled, idle;
    by rewrite ?Hc, ?Hr, ?Hq, ?Hl, ?Hrs, ?Hst.
Qed.

(** A method that goes on is no longer waiting. *)
Lemma filter_remove1 (f : task → bool) t pd :
  List.filter f (remove1 t pd) =
  if f t then remove1 t (List.filter f pd) else List.filter f pd.
Proof.
  induction pd as [|t' pd IH]; simpl; [by destruct (f t)|].
  case_decide as Ht.
  - subst t'. destruct (f t) eqn:Hf; simpl; [by rewrite decide_True|done].
  - simpl. rewrite IH. destruct (f t') eqn:Hf'; destruct (f t) eqn:Hf; simpl;
      try done. by rewrite decide_False.
Qed.

Lemma elem_of_filter_true (f : task → bool) t pd :
  t ∈ pd → f t = true → t ∈ List.filter f pd.
Proof.
  intros Ht Hf. apply list_elem_of_In, filter_In. split; [|done].
  by apply list_elem_of_In.
Qed.

(** The method that waits is the restart that is under way. *)
Lemma restarting_singleton t t' pd :
  t ∈ pd → isRestart t = true → List.filter isRestart pd = [t'] → t' = t.
Proof.
  intros Ht Hf Hpd. pose proof (elem_of_filter_true isRestart t pd Ht Hf) as Hin.
  rewrite Hpd in Hin. by apply list_elem_of_singleton in Hin.
Qed.

Lemma restarting_nil t pd :
  t ∈ pd → List.filter isRestart pd = [] → isRestart t = false.
Proof.
  intros Ht Hpd. destruct (isRestart t) eqn:Hf; [|done].
  pose proof (elem_of_filter_true isRestart t pd Ht Hf) as Hin.
  rewrite Hpd in Hin. by apply elem_of_nil in Hin.
Qed.

Lemma stopping_nil t pd :
  t ∈ pd → List.filter isStop pd = [] → isStop t = false.
Proof.
  intros Ht Hpd. destruct (isStop t) eqn:Hf; [|done].
  pose proof (elem_of_filter_true isStop t pd Ht Hf) as Hin.
  rewrite Hpd in Hin. by apply elem_of_nil in Hin.
Qed.

Lemma idle_true y : idle y = true ↔ restarting y = [] ∧ stopping y = [].
Proof.
  unfold idle. rewrite andb_true_iff, !bool_decide_eq_true. done.
Qed.

Lemma connected_idle y : connected y → restarting y = [] ∧ stopping y = [].
Proof. by intros (h & _ & _ & ?%idle_true). Qed.

End posture.

(** ** The steps that the specification does not see *)

(** [lifecycle_crunch] runs a handler of the session on a state. *)
Ltac lifecycle_crunch :=
  unfold final, run; autounfold with session;
  unfold SessionManager.suspend, SessionManager.resumed, SessionManager.destroy,
    SessionManager.newClient;
  handler_simpl; simpl.

Section silent.
Import SessionManager SessionLifecycle.
Context {E : Type} `{ReplyEngine E}.
Context (cfg : SessionTyping.config).
Implicit Types (y : system (E:=E)) (t : task) (p : phase) (q : request).

(** The pipeline leaves what the lifecycle reads. *)
Lemma keeps_posture_handleIncomingMessage w m k :
  keeps (λ y, posture y = k) (handleIncomingMessage cfg w m).
Proof.
  unfold handleIncomingMessage, sendReplyWithTyping.
  handler_rules_with
    ltac:(first
      [ apply keeps_modify; by intros [[]]
      | apply (keeps_zoom _ _ _ (λ y, posture y = k) (λ _, True));
        [done | by intros [[]] ? | done] ]).
Qed.

Lemma handleIncomingMessage_matches w m p y :
  matches p y → matches p (final (handleIncomingMessage cfg w m) y).
Proof.
  apply matches_posture. by apply (keeps_posture_handleIncomingMessage w m).
Qed.

(** A method that was waiting and is neither a stop nor a restart
    leaves the posture when it is removed. *)
Lemma posture_resumed t y :
  isRestart t = false → isStop t = false →
  posture (System (this y) (remove1 t (pending y)) (live y) (nextClient y)) =
  posture y.
Proof.
  intros Hr Hs. unfold posture, restarting, stopping. simpl.
  by rewrite !filter_remove1, Hr, Hs.
Qed.

End silent.

(** ** The simulation *)

Section simulation.
Import SessionManager SessionLifecycle.
Context {E : Type} `{ReplyEngine E}.
Context (cfg : SessionTyping.config).
Implicit Types (y : system (E:=E)) (t : task) (p : phase) (q : request).

(** The events of the adapter. *)
Lemma adapter_matches h ev p y p' :
  matches p y → after p (observe y (Adapter h ev)) = Some p' →
  matches p' (final (setupEventHandlers cfg ev) y).
Proof.
  intros Hp Hq.
  destruct ev as [qr [u|e]| |info|w m|w m|reason| |e]; simpl in Hq;
    try (injection Hq as <-);
    try (by apply handleIncomingMessage_matches);
    try (destruct y as [[] ? ? ?]; exact Hp); try done.
  all: destruct p as [n| | |[]|]; try done; injection Hq as <-.
  all: destruct y as [[c b k mc ac e] pd lv nx]; simpl in Hp.
  - destruct Hp as (-> & -> & Hn & h' & Hc & Hl & [Hr Hs]%idle_true).
    unfold restarting, stopping in *. simpl in *. subst. lifecycle_crunch.
    change maxQrRetries with maxRetries.
    destruct (maxRetries <? n + 1) eqn:Hlt; simpl.
    + unfold scheduled, restarting, stopping. simpl. rewrite Hr, Hs.
      repeat split. set_solver.
    + unfold connected, idle, restarting, stopping. simpl. rewrite Hr, Hs.
      repeat split; [lia.. | by exists h'].
  - destruct Hp as (-> & -> & Hn & h' & Hc & Hl & [Hr Hs]%idle_true).
    unfold restarting, stopping in *. simpl in *. subst. lifecycle_crunch.
    unfold connected, idle, restarting, stopping. simpl. rewrite Hr, Hs.
    repeat split. by exists h'.
  - destruct Hp as (-> & -> & h' & Hc & Hl & [Hr Hs]%idle_true).
    unfold restarting, stopping in *. simpl in *. subst. lifecycle_crunch.
    destruct info as [[]|?]; simpl;
      unfold connected, idle, restarting, stopping; simpl; rewrite Hr, Hs;
      repeat split; by exists h'.
  - destruct Hp as (-> & h' & Hc & Hl & [Hr Hs]%idle_true).
    unfold restarting, stopping in *. simpl in *. subst. lifecycle_crunch.
    unfold scheduled, restarting, stopping. simpl. rewrite Hr, Hs.
    repeat split. by exists h'.
Qed.

(** A part of a restart waits in [Disconnected true] only, and it is
    the only one. *)
Lemma waiting_restart t p y :
  matches p y → t ∈ pending y → isRestart t = true →
  p = Disconnected true ∧ restarting y = [t].
Proof.
  intros Hp Ht Hf.
  assert (restarting y ≠ []) as Hne
    by (intros Hnil; by rewrite (restarting_nil t _ Ht Hnil) in Hf).
  destruct p as [n| | |[]|]; simpl in Hp.
  - by destruct Hp as (_ & _ & _ & [? _]%connected_idle).
  - by destruct Hp as (_ & _ & [? _]%connected_idle).
  - by destruct Hp as (_ & [? _]%connected_idle).
  - split; [done|]. destruct Hp as (_ & _ & Hp).
    destruct (restarting y) as [|t' [|]] eqn:Hr; [done| |by destruct t'].
    by rewrite (restarting_singleton t t' _ Ht Hf Hr).
  - by destruct Hp as (_ & _ & Hp).
  - by destruct Hp as (_ & _ & Hp).
Qed.

(** The rest of [initializeClient] and the interval of the statistics
    leave what the lifecycle reads. *)
Lemma wake_calm t r y :
  isRestart t = false → isStop t = false →
  posture (final (resume t r) y) = posture y.
Proof.
  intros Hr Hs. destruct t as [| | |c|c| |]; try done.
  - rewrite <-(posture_resumed RestartInitializing y) by done.
    by destruct y as [[] ? ? ?], r as [[]|?].
  - rewrite <-(posture_resumed (StartInitializing c) y) by done.
    by destruct y as [[] ? ? ?], r as [[]|?].
  - destruct y as [[c b k mc ac e] pd lv nx]. lifecycle_crunch.
    destruct b; [|done]. simpl. by destruct (50 <? size ac)%nat.
Qed.

(** The parts of a restart. *)
Lemma wake_restart t r p y p' :
  isRestart t = true →
  matches p y → t ∈ pending y → after p (observe y (Wake t r)) = Some p' →
  matches p' (final (resume t r) y).
Proof.
  intros Hf Hp Ht Hq.
  destruct (waiting_restart t p y Hp Ht Hf) as [-> Hr].
  destruct Hp as (Hb & Hs & Hp). rewrite Hr in Hp.
  destruct y as [[c b k mc ac e] pd lv nx]. unfold restarting, stopping in *.
  simpl in *. subst b.
  destruct t as [| | |?|?| |]; try done; simpl in Hq.
  - destruct r as [[]|?]; [|done]. injection Hq as <-. lifecycle_crunch.
    unfold scheduled, restarting, stopping. simpl.
    by rewrite !filter_remove1, Hr, Hs.
  - destruct Hp as [-> ->]. destruct r as [[]|?]; injection Hq as <-; lifecycle_crunch.
    + unfold connected, idle, restarting, stopping. simpl.
      rewrite !filter_remove1, Hr, Hs. simpl.
      repeat split; [done..|]. exists nx. repeat split. set_solver.
    + unfold restarting. simpl. by rewrite filter_remove1, Hr.
  - destruct Hp as (h & -> & Hl). injection Hq as <-. lifecycle_crunch.
    unfold scheduled, restarting, stopping. simpl.
    rewrite !filter_remove1, Hr, Hs. simpl.
    repeat split. set_solver.
Qed.

(** The rest of [stopClient]. *)
Lemma wake_stop c r p y :
  matches p y → StopDestroying c ∈ pending y →
  matches p (final (resume (StopDestroying c) r) y).
Proof.
  intros Hp Ht.
  assert (stopping y ≠ []) as Hne
    by (intros Hnil; by pose proof (stopping_nil _ _ Ht Hnil)).
  destruct p as [n| | |[]|]; simpl in Hp.
  - by destruct Hp as (_ & _ & _ & [_ ?]%connected_idle).
  - by destruct Hp as (_ & _ & [_ ?]%connected_idle).
  - by destruct Hp as (_ & [_ ?]%connected_idle).
  - by destruct Hp as (_ & ? & _).
  - destruct y as [[? b k mc ac e] pd lv nx], Hp as (Hb & Hl & Hr).
    unfold restarting in *. simpl in *. subst.
    destruct r as [[]|?]; lifecycle_crunch; unfold restarting; simpl;
      by rewrite filter_remove1, Hr.
  - destruct y as [[? b k mc ac e] pd lv nx], Hp as (Hb & Hl & Hr).
    unfold restarting in *. simpl in *. subst.
    destruct r as [[]|?]; lifecycle_crunch; unfold restarting; simpl;
      by rewrite filter_remove1, Hr.
Qed.

(** The methods that go on and the timers. *)
Lemma wake_matches t r p y p' :
  matches p y → t ∈ pending y → after p (observe y (Wake t r)) = Some p' →
  matches p' (final (resume t r) y).
Proof.
  intros Hp Ht Hq.
  destruct (isRestart t) eqn:Hr; [by eapply wake_restart|].
  destruct (isStop t) eqn:Hs.
  - destruct t; try done. injection Hq as <-. by apply wake_stop.
  - assert (p' = p) as -> by (destruct t; try done; by injection Hq).
    apply (matches_posture _ y); [by apply wake_calm | done].
Qed.

(** The stop request. *)
Lemma stop_matches c p y p' :
  matches p y → transition p StopCommand = Some p' →
  matches p' (final (stopClient c) y).
Proof.
  intros Hp Hq.
  assert (connected y ∧ p' = Disconnected false) as [(h & Hc & Hl & [Hr Hs]%idle_true) ->].
  { destruct p as [n| | |[]|]; try done; injection Hq as <-; split; try done.
    - by destruct Hp as (_ & _ & _ & ?).
    - by destruct Hp as (_ & _ & ?).
    - by destruct Hp as (_ & ?). }
  destruct y as [[? b k mc ac e] pd lv nx]. unfold restarting in *.
  simpl in *. subst. lifecycle_crunch. unfold restarting. simpl.
  repeat split; [set_solver | done].
Qed.

(** The start request. *)
Lemma start_matches c ctor p y p' :
  matches p y → after p (observe y (StartRequest c ctor)) = Some p' →
  matches p' (final (startClient c ctor) y).
Proof.
  intros Hp Hq. simpl in Hq.
  destruct (idle y) eqn:Hi; [|done]. apply idle_true in Hi as [Hr Hs].
  destruct (qrRetries (this y) =? 0) eqn:Hk; [|done]. apply Z.eqb_eq in Hk.
  assert (isReady (this y) = false ∧ live y = ∅) as [Hb Hl].
  { destruct p as [n| | |[]|], ctor; try done.
    all: try by destruct Hp as (? & ? & _).
    all: destruct Hp as (_ & _ & Hp); by rewrite Hr in Hp. }
  destruct y as [[? b k mc ac e] pd lv nx]. unfold restarting, stopping in *.
  simpl in *. subst.
  destruct ctor as [[]|?]; simpl in Hq; lifecycle_crunch.
  - assert (p' = PendingCredential 0) as -> by (destruct p; by simplify_eq).
    simpl. unfold connected, idle, restarting, stopping. simpl. rewrite Hr, Hs.
    repeat split; [done..|]. exists nx. repeat split. set_solver.
  - assert (p' = Failed) as -> by (destruct p; by simplify_eq).
    done.
Qed.

(** The simulation: a request that can occur in a session that matches
    a phase, and for which the specification has a transition, leaves
    a session that matches the next phase. *)
Lemma handle_matches q p y p' :
  matches p y → possible q y = true → after p (observe y q) = Some p' →
  matches p' (final (handle cfg q) y).
Proof.
  intros Hp Hy Hq. destruct q as [h ev|t r|c|c ctor]; simpl in Hy |- *.
  - by eapply adapter_matches.
  - apply bool_decide_eq_true in Hy. by eapply wake_matches.
  - by eapply stop_matches.
  - by eapply start_matches.
Qed.

End simulation.

(** ** The session manager implements the state machine *)

Section refinement.
Import SessionManager SessionLifecycle.
Context {E : Type} `{ReplyEngine E}.
Context (cfg : SessionTyping.config).
Local Abbreviation exec := (exec cfg).
Implicit Types (y : system (E:=E)) (t : task) (p : phase) (q : request)
  (qs : list request) (ls : list label).

(** The object after its constructor is disconnected and nothing is
    scheduled. *)
Lemma init_matches (e : E) : matches (Disconnected false) (init e).
Proof. done. Qed.

Lemma exec_cons q qs y y' ls :
  exec (q :: qs) y = Some (y', ls) →
  ∃ ls', possible q y = true ∧ exec qs (final (handle cfg q) y) = Some (y', ls') ∧
         ls = observe y q :: ls'.
Proof.
  simpl. destruct (possible q y); [|done].
  destruct (exec qs _) as [[y1 ls']|] eqn:Hx; [|done]. intros [= <- <-].
  by exists ls'.
Qed.

Lemma exec_matches qs p y y' ls p' :
  matches p y → exec qs y = Some (y', ls) → afterAll p ls = Some p' →
  matches p' y'.
Proof.
  revert p y ls. induction qs as [|q qs IH]; intros p y ls Hp.
  - intros [= <- <-] [= <-]. done.
  - intros (ls' & Hy & Hx & ->)%exec_cons. simpl.
    destruct (after p (observe y q)) as [p1|] eqn:Hq; [|done]. simpl.
    intros Hls. apply (IH p1 (final (handle cfg q) y) ls'); [|done..].
    by apply (handle_matches cfg q p).
Qed.

(** At most one handle is live in a session that matches a phase. *)
Lemma matches_live p y : matches p y → (size (live y) ≤ 1)%nat.
Proof.
  assert (∀ y, connected y → (size (live y) ≤ 1)%nat) as Hc
    by (intros ? (h & _ & -> & _); by rewrite size_singleton).
  destruct p as [n| | |[]|]; simpl.
  - intros (_ & _ & _ & ?). by apply Hc.
  - intros (_ & _ & ?). by apply Hc.
  - intros (_ & ?). by apply Hc.
  - intros (_ & _ & Hs).
    destruct (restarting y) as [|[] [|]]; try done;
      first [ destruct Hs as (h & _ & Hl); apply subseteq_size in Hl;
              by rewrite size_singleton in Hl
            | destruct Hs as [-> _]; rewrite size_empty; lia
            | rewrite Hs, size_empty; lia ].
  - intros (_ & -> & _). rewrite size_empty. lia.
  - intros (_ & -> & _). rewrite size_empty. lia.
Qed.

(** The session handles messages in [Ready] only. *)
Lemma matches_ready p y : matches p y → isReady (this y) = true ↔ p = Ready.
Proof.
  destruct p as [n| | |[]|]; simpl; intros Hp; split; try done;
    destruct Hp as [Hb _]; by rewrite Hb.
Qed.

(** C11: the session manager implements the state machine of the
    specification.  A run of requests (events of the adapter, methods
    that go on, timers, stop and start requests) each of which the
    specification has a transition for, or does not see, takes a
    session that matches a phase to a session that matches the phase
    that the specification reaches: the fields isReady, qrRetries and
    client, the live adapter handles and the waiting methods are those
    of the phase. *)
Theorem lifecycle_refines qs p y y' ls p' :
  matches p y → exec qs y = Some (y', ls) → afterAll p ls = Some p' →
  matches p' y'.
Proof. apply exec_matches. Qed.


(** ** Where the session manager leaves the specification *)

(** C26: auth_failure is not a transition of the session manager.  The
    specification takes every phase to FAILED on a fatal credential
    failure; the handler of 'auth_failure' emits an error and changes
    nothing, so a session that is READY stays READY and goes on
    handling messages. *)
Theorem auth_failure_ignored h y :
  matches Ready y →
  transition Ready CredentialFailure = Some Failed ∧
  final (handle cfg (Adapter h EvAuthFailure)) y = y ∧
  ¬ matches Failed (final (handle cfg (Adapter h EvAuthFailure)) y).
Proof.
  intros [Hb _]. split; [done|].
  assert (final (handle cfg (Adapter h EvAuthFailure)) y = y) as ->
    by by destruct y as [[] ? ? ?].
  split; [done|]. intros [Hb' _]. by rewrite Hb in Hb'.
Qed.

(** C27: a restart gives up when destroy fails.  The restart policy of
    the specification ignores the errors of the teardown; restartClient
    catches the error of client.destroy() and returns: no restart is
    scheduled any more, no handle is live and no client is created, so
    the session stays disconnected until a start request. *)
Theorem restart_gives_up e y :
  matches (Disconnected true) y → RestartDestroying ∈ pending y →
  observe y (Wake RestartDestroying (Throw e)) = Diverges ∧
  matches (Disconnected false) (final (handle cfg (Wake RestartDestroying (Throw e))) y).
Proof.
  intros Hp Ht. split; [done|].
  destruct (waiting_restart RestartDestroying _ y Hp Ht eq_refl) as [_ Hr].
  destruct Hp as (Hb & Hs & Hp). rewrite Hr in Hp.
  destruct y as [[c b k mc ac e'] pd lv nx]. unfold restarting in *.
  simpl in *. subst. lifecycle_crunch. unfold restarting. simpl.
  by rewrite filter_remove1, Hr.
Qed.

(** C28: a start request during a stop loses the client.  stopClient
    sets this.client to null after it has awaited destroy(); a start
    request that arrives in between has stored a new client there, which
    the rest of stopClient overwrites: the new adapter handle is live
    and sends events, and the session has no client. *)
Theorem start_during_stop c c' p y y' ls :
  matches p y → transition p StopCommand = Some (Disconnected false) →
  exec [StopRequest c; StartRequest c' (Ok tt); Wake (StopDestroying c) (Ok tt)] y =
    Some (y', ls) →
  client (this y') = None ∧ live y' = {[nextClient y]} ∧
  ls = [Does StopCommand; Diverges; Silent].
Proof.
  intros Hp Hq.
  assert (connected y) as (h & Hc & Hl & [Hr Hs]%idle_true).
  { destruct p as [n| | |[]|]; try done.
    - by destruct Hp as (_ & _ & _ & ?).
    - by destruct Hp as (_ & _ & ?).
    - by destruct Hp as (_ & ?). }
  destruct y as [[? b k mc ac e] pd lv nx]. unfold restarting, stopping in *.
  simpl in *. subst. unfold exec, SessionLifecycle.exec. simpl.
  rewrite bool_decide_true by (right; by left). simpl.
  unfold idle, restarting, stopping. simpl. rewrite Hr. simpl.
  intros [= <- <-]. lifecycle_crunch. split; [done|]. split; [set_solver|done].
Qed.

(** A start request after a stop keeps the retry counter: the session
    that was stopped after [n] credential challenges starts again in
    [PendingCredential n], where a restart starts in
    [PendingCredential 0]. *)
Theorem start_keeps_counter c c' n y y' ls :
  matches (PendingCredential n) y →
  exec [StopRequest c; Wake (StopDestroying c) (Ok tt); StartRequest c' (Ok tt)] y =
    Some (y', ls) →
  matches (PendingCredential n) y' ∧
  (n ≠ 0 → ls = [Does StopCommand; Silent; Diverges]).
Proof.
  intros (Hb & Hk & Hn & h & Hc & Hl & [Hr Hs]%idle_true).
  destruct y as [[? b k mc ac e] pd lv nx]. unfold restarting, stopping in *.
  simpl in *. subst. unfold exec, SessionLifecycle.exec. simpl.
  rewrite bool_decide_true by by left. simpl.
  unfold idle, restarting, stopping. simpl. rewrite decide_True by done.
  rewrite Hr, Hs. simpl.
  intros [= <- <-]. lifecycle_crunch. rewrite decide_True by done. split.
  - unfold connected, idle, restarting, stopping. simpl. rewrite Hr, Hs.
    repeat split; [lia..|]. exists nx. repeat split. set_solver.
  - intros Hne. by destruct (Z.eqb_spec n 0).
Qed.

End refinement.

(** ** The restart policy *)

Section policy.
Import SessionManager SessionLifecycle.
Context {E : Type} `{ReplyEngine E}.
Context (cfg : SessionTyping.config).
Implicit Types (y : system (E:=E)) (p : phase).

(** The restart policy.  When the connection is lost the session
    reports it and arms a timer of 5 s; when the timer fires the
    client is torn down, the restart waits 3 s and then creates a
    client with a fresh handle and initialises it: these are the calls
    of the four steps, in this order, and the session is back in
    PENDING_CREDENTIAL with the counter 0. *)
Theorem restart_policy h reason r y y' ls :
  matches Ready y → h ∈ live y →
  exec cfg [Adapter h (EvDisconnected reason); Wake ReconnectTimer r;
            Wake RestartDestroying (Ok tt); Wake RestartSleeping (Ok tt)] y =
    Some (y', ls) →
  calls cfg [Adapter h (EvDisconnected reason); Wake ReconnectTimer r;
             Wake RestartDestroying (Ok tt); Wake RestartSleeping (Ok tt)] y =
    [IoEmit (IoDisconnected reason); SetTimeout restartDelay; Destroy h;
     Sleep (inject_Z settleDelay); NewClient (nextClient y);
     Initialize (nextClient y)] ∧
  matches (PendingCredential 0) y'.
Proof.
  intros Hp Hh Hx. split.
  - destruct Hp as (_ & h' & Hc & Hl & _). rewrite Hl in Hh.
    apply elem_of_singleton in Hh as ->.
    destruct y as [[? b k mc ac e] pd lv nx]. simpl in *. subst.
    unfold calls, trace. by lifecycle_crunch.
  - eapply exec_matches; [exact Hp | exact Hx |].
    repeat (apply exec_cons in Hx as (? & _ & Hx & ->)).
    by injection Hx as _ <-.
Qed.

End policy.

(** ** A session of the service

    The journey of a session with [GeminiAI] as its engine: started by a
    socket, a QR code, the scan, ready, a message, the connection lost
    and the restart. *)

Section lifecycle_examples.
Import SessionManager SessionLifecycle.
#[local] Existing Instance engine0.

Local Abbreviation session := (system (E:=GeminiEngine.state)).

Definition socket1 : caller := Socket (js "s1").

Definition journey : list request :=
  [StartRequest socket1 (Ok tt);
   Wake (StartInitializing socket1) (Ok tt);
   Adapter 0 (EvQr (js "2@abc") (Ok (js "data:image/png;base64,AAAA")));
   Adapter 0 EvAuthenticated;
   Adapter 0 (EvReady (Ok tt));
   Adapter 0 (EvMessage inbound0 message0);
   Adapter 0 (EvDisconnected (js "NAVIGATION"));
   Wake ReconnectTimer (Ok tt);
   Wake RestartDestroying (Ok tt);
   Wake RestartSleeping (Ok tt)].

Definition labels (qs : list request) (y : session) : option (list label) :=
  snd <$> exec cfg0 qs y.

Definition reached (p : phase) (qs : list request) (y : session) : option phase :=
  labels qs y ≫= afterAll p.

Example journey_labels :
  labels journey (init GeminiEngine.init) =
  Some [Does Restart; Silent; Does CredentialChallenge; Does CredentialExchanged;
        Does Operational; Silent; Does ConnectionLost; Silent; Silent;
        Does Restart].
Proof. vm_compute. reflexivity. Qed.

Example journey_reached :
  reached (Disconnected false) journey (init GeminiEngine.init) =
  Some (PendingCredential 0).
Proof. vm_compute. reflexivity. Qed.

Lemma lifecycle_refines_witness :
  match exec cfg0 journey (init GeminiEngine.init) with
  | Some (y', _) => matches (PendingCredential 0) y'
  | None => False
  end.
Proof.
  pose proof journey_reached as Hr. unfold reached, labels in Hr.
  destruct (exec cfg0 journey (init GeminiEngine.init)) as [[y' ls]|] eqn:Hx;
    [|done].
  apply (lifecycle_refines cfg0 journey (Disconnected false)
           (init GeminiEngine.init) y' ls); [done | exact Hx | exact Hr].
Defined.


(** The session that is ready. *)
Lemma ready0_matches : matches Ready ready0.
Proof. split; [done|]. by exists 0%nat. Qed.

Lemma auth_failure_ignored_witness :
  transition Ready CredentialFailure = Some Failed ∧
  final (handle cfg0 (Adapter 0 EvAuthFailure)) ready0 = ready0 ∧
  ¬ matches Failed (final (handle cfg0 (Adapter 0 EvAuthFailure)) ready0).
Proof. apply (auth_failure_ignored cfg0 0%nat ready0), ready0_matches. Defined.

(** The restart has called [destroy] and waits for it. *)
Definition destroying0 : session :=
  System (State (Some 0%nat) false 0 0 ∅ GeminiEngine.init) [RestartDestroying] ∅ 1.

Definition protocolError : error := Error (js "Protocol error: Target closed").

Lemma restart_gives_up_witness :
  observe destroying0 (Wake RestartDestroying (Throw protocolError)) = Diverges ∧
  matches (Disconnected false)
    (final (handle cfg0 (Wake RestartDestroying (Throw protocolError))) destroying0).
Proof.
  apply (restart_gives_up cfg0 protocolError destroying0); [done|].
  by apply list_elem_of_singleton.
Defined.

(** A stop request, a start request of another socket before the stop
    is over, and the rest of the stop. *)
Definition hastyStart : list request :=
  [StopRequest socket1; StartRequest (Socket (js "s2")) (Ok tt);
   Wake (StopDestroying socket1) (Ok tt)].

Example hastyStart_labels :
  labels hastyStart ready0 = Some [Does StopCommand; Diverges; Silent].
Proof. vm_compute. reflexivity. Qed.

Lemma start_during_stop_witness :
  match exec cfg0 hastyStart ready0 with
  | Some (y', ls) =>
    client (this y') = None ∧ live y' = {[nextClient ready0]} ∧
    ls = [Does StopCommand; Diverges; Silent]
  | None => False
  end.
Proof.
  pose proof hastyStart_labels as Hr. unfold labels in Hr.
  destruct (exec cfg0 hastyStart ready0) as [[y' ls]|] eqn:Hx; [|done].
  apply (start_during_stop cfg0 socket1 (Socket (js "s2")) Ready ready0 y' ls);
    [apply ready0_matches | done | exact Hx].
Defined.

(** The connection is lost and the session restarts. *)
Definition reconnect : list request :=
  [Adapter 0 (EvDisconnected (js "NAVIGATION")); Wake ReconnectTimer (Ok tt);
   Wake RestartDestroying (Ok tt); Wake RestartSleeping (Ok tt)].

Example reconnect_labels :
  labels reconnect ready0 = Some [Does ConnectionLost; Silent; Silent; Does Restart].
Proof. vm_compute. reflexivity. Qed.

Lemma restart_policy_witness :
  match exec cfg0 reconnect ready0 with
  | Some (y', _) =>
    calls cfg0 reconnect ready0 =
      [IoEmit (IoDisconnected (js "NAVIGATION")); SetTimeout restartDelay;
       Destroy 0; Sleep (inject_Z settleDelay); NewClient (nextClient ready0);
       Initialize (nextClient ready0)] ∧
    matches (PendingCredential 0) y'
  | None => False
  end.
Proof.
  pose proof reconnect_labels as Hr. unfold labels in Hr.
  destruct (exec cfg0 reconnect ready0) as [[y' ls]|] eqn:Hx; [|done].
  apply (restart_policy cfg0 0%nat (js "NAVIGATION") (Ok tt) ready0 y' ls);
    [apply ready0_matches | by apply elem_of_singleton | exact Hx].
Defined.

End lifecycle_examples.

(** ** The session manager takes every transition but one

    The other direction: from a session that matches a phase, every
    transition of the specification but the one of the credential
    failure is taken by some run of the session manager. *)

Section complete.
Import SessionManager SessionLifecycle.
Context {E : Type} `{ReplyEngine E}.
Context (cfg : SessionTyping.config).
Local Abbreviation exec := (exec cfg).
Implicit Types (y : system (E:=E)) (t : task) (p : phase) (q : request)
  (qs : list request) (ls : list label) (r : outcome error unit).

(** Some run takes the session from [p] to [p']. *)
Definition reaches p y p' : Prop :=
  ∃ qs y' ls, exec qs y = Some (y', ls) ∧ afterAll p ls = Some p' ∧ matches p' y'.

Lemma reaches_cons q p y p1 p' :
  possible q y = true → after p (observe y q) = Some p1 →
  reaches p1 (final (handle cfg q) y) p' → reaches p y p'.
Proof.
  intros Hy Hq (qs & y' & ls & Hx & Hls & Hp').
  exists (q :: qs), y', (observe y q :: ls). simpl.
  by rewrite Hy, Hx, Hq.
Qed.

Lemma reaches_step q p y p' :
  matches p y → possible q y = true → after p (observe y q) = Some p' →
  reaches p y p'.
Proof.
  intros Hp Hy Hq. apply (reaches_cons q p y p'); [done..|].
  exists [], (final (handle cfg q) y), []. repeat split.
  by apply (handle_matches cfg q p).
Qed.

(** An event of the client of a connected session. *)
Lemma reaches_event ev p y p' :
  matches p y → connected y →
  (∀ h, after p (observe y (Adapter h ev)) = Some p') → reaches p y p'.
Proof.
  intros Hp (h & _ & Hl & _) Hq. apply (reaches_step (Adapter h ev)); [done| |done].
  simpl. rewrite Hl. apply bool_decide_eq_true. set_solver.
Qed.

Lemma restarting_pending t y : restarting y = [t] → t ∈ pending y.
Proof.
  intros Hr. assert (t ∈ restarting y) as Ht by (rewrite Hr; by left).
  by apply list_elem_of_In, filter_In, proj1, list_elem_of_In in Ht.
Qed.

(** The outcome of the constructor that makes a restart succeed or be
    rejected. *)
Definition outcomeOf (t : trigger) : outcome error unit :=
  match t with
  | RestartRejected => Throw (Error (js "Failed to launch the browser process"))
  | _ => Ok tt
  end.

(** The restart sleeps. *)
Lemma sleeping_reaches tr p' y :
  matches (Disconnected true) y → restarting y = [RestartSleeping] →
  tr = Restart ∨ tr = RestartRejected →
  transition (Disconnected true) tr = Some p' →
  reaches (Disconnected true) y p'.
Proof.
  intros Hp Hr Htr Hq.
  apply (reaches_step (Wake RestartSleeping (outcomeOf tr))); [done| |].
  - by apply bool_decide_eq_true, restarting_pending.
  - by destruct Htr as [-> | ->].
Qed.

(** The restart waits for [destroy]. *)
Lemma destroying_reaches tr p' y :
  matches (Disconnected true) y → restarting y = [RestartDestroying] →
  tr = Restart ∨ tr = RestartRejected →
  transition (Disconnected true) tr = Some p' →
  reaches (Disconnected true) y p'.
Proof.
  intros Hp Hr Htr Hq. pose proof (restarting_pending _ _ Hr) as Ht.
  apply (reaches_cons (Wake RestartDestroying (Ok tt)) _ _ (Disconnected true));
    [by apply bool_decide_eq_true | done |].
  apply (sleeping_reaches tr); [|clear Hp|done..].
  - apply (handle_matches cfg (Wake RestartDestroying (Ok tt)) (Disconnected true));
      [done | by apply bool_decide_eq_true | done].
  - destruct y as [[c b k mc ac e] pd lv nx]. unfold restarting in *. simpl in *.
    lifecycle_crunch. by rewrite filter_remove1, Hr.
Qed.

(** The timer of ['disconnected'] runs. *)
Lemma timer_reaches tr p' y :
  matches (Disconnected true) y → restarting y = [ReconnectTimer] →
  tr = Restart ∨ tr = RestartRejected →
  transition (Disconnected true) tr = Some p' →
  reaches (Disconnected true) y p'.
Proof.
  intros Hp Hr Htr Hq. pose proof (restarting_pending _ _ Hr) as Ht.
  apply (reaches_cons (Wake ReconnectTimer (Ok tt)) _ _ (Disconnected true));
    [by apply bool_decide_eq_true | done |].
  apply (destroying_reaches tr); [| |done..].
  - apply (handle_matches cfg (Wake ReconnectTimer (Ok tt)) (Disconnected true));
      [done | by apply bool_decide_eq_true | done].
  - destruct Hp as (_ & _ & Hp). rewrite Hr in Hp. destruct Hp as (h & Hc & _).
    destruct y as [[c b k mc ac e] pd lv nx]. unfold restarting in *. simpl in *.
    subst c. lifecycle_crunch. by rewrite filter_remove1, Hr.
Qed.

(** A restart that is scheduled comes. *)
Lemma scheduled_reaches tr p' y :
  matches (Disconnected true) y → tr = Restart ∨ tr = RestartRejected →
  transition (Disconnected true) tr = Some p' →
  reaches (Disconnected true) y p'.
Proof.
  intros Hp Htr Hq. pose proof Hp as (_ & _ & Hs).
  destruct (restarting y) as [|[] [|]] eqn:Hr; try done.
  - by apply (destroying_reaches tr).
  - by apply (sleeping_reaches tr).
  - by apply (timer_reaches tr).
Qed.

(** The rest of a stop leaves the counter and is one stop less. *)
Lemma stop_resumed c r y :
  StopDestroying c ∈ pending y →
  qrRetries (this (final (resume (StopDestroying c) r) y)) = qrRetries (this y) ∧
  stopping (final (resume (StopDestroying c) r) y) =
    remove1 (StopDestroying c) (stopping y).
Proof.
  intros _. destruct y as [[? b k mc ac e] pd lv nx]. unfold stopping.
  destruct r as [[]|?]; lifecycle_crunch; by rewrite filter_remove1.
Qed.

(** The stops that are under way come to their end. *)
Lemma stopped_reaches n p' y :
  length (stopping y) = n →
  matches (Disconnected false) y → qrRetries (this y) = 0 →
  (∀ y1, matches (Disconnected false) y1 → qrRetries (this y1) = 0 →
         idle y1 = true → reaches (Disconnected false) y1 p') →
  reaches (Disconnected false) y p'.
Proof.
  intros Hn Hp Hk Hidle. revert y Hn Hp Hk.
  induction n as [|n IH]; intros y Hn Hp Hk.
  - apply Hidle; [done..|]. apply idle_true. split; [by destruct Hp as (_ & _ & ?)|].
    by apply nil_length_inv.
  - destruct (stopping y) as [|t ts] eqn:Hs; [done|].
    assert (t ∈ stopping y) as Ht by (rewrite Hs; by left).
    apply list_elem_of_In, filter_In in Ht as [Ht%list_elem_of_In Hst].
    destruct t as [| | |?|c| |]; try done.
    destruct (stop_resumed c (Ok tt) y Ht) as [Hk' Hs'].
    apply (reaches_cons (Wake (StopDestroying c) (Ok tt)) _ _ (Disconnected false));
      [by apply bool_decide_eq_true | done |].
    apply IH.
    + cbn [handle]. rewrite Hs', Hs. simpl. rewrite decide_True by done.
      by injection Hn.
    + by apply wake_stop.
    + cbn [handle]. by rewrite Hk'.
Qed.

(** A start request of a session that is stopped. *)
Lemma start_reaches tr p' y :
  matches (Disconnected false) y → qrRetries (this y) = 0 →
  tr = Restart ∨ tr = RestartRejected →
  transition (Disconnected false) tr = Some p' →
  reaches (Disconnected false) y p'.
Proof.
  intros Hp Hk Htr Hq. apply (stopped_reaches (length (stopping y))); [done..|].
  intros y1 Hp1 Hk1 Hi1.
  apply (reaches_step (StartRequest (Socket (js "socket")) (outcomeOf tr)));
    [done..|].
  simpl. rewrite Hi1, Hk1. simpl. by destruct Htr as [-> | ->].
Qed.

(** C12: the session manager takes every transition of the
    specification but the one of the credential failure.  From a
    session that matches a phase, for every trigger other than the
    fatal credential failure for which the specification has a
    transition, there is a run of events, timers and requests that the
    specification reads as this trigger, after steps it does not see,
    and the session matches the next phase.  A session that was
    stopped must have the retry counter 0: a start request does not
    reset it. *)
Theorem lifecycle_complete p tr p' y :
  matches p y → transition p tr = Some p' → tr ≠ CredentialFailure →
  (p = Disconnected false → qrRetries (this y) = 0) →
  reaches p y p'.
Proof.
  intros Hp Hq Htr Hk.
  destruct tr; try done; destruct p as [n| | |[]|]; try done.
  all: try (apply (scheduled_reaches Restart p' y); by auto).
  all: try (apply (scheduled_reaches RestartRejected p' y); by auto).
  all: try (apply (start_reaches Restart p' y); by auto).
  all: try (apply (start_reaches RestartRejected p' y); by auto).
  all: try (apply (reaches_step (StopRequest (Socket (js "socket")))); done).
  - apply (reaches_event (EvQr (js "qr") (Ok (js "data:image/png")))); [done| |done].
    by destruct Hp as (_ & _ & _ & ?).
  - apply (reaches_event EvAuthenticated); [done| |done].
    by destruct Hp as (_ & _ & _ & ?).
  - apply (reaches_event (EvReady (Ok tt))); [done| |done].
    by destruct Hp as (_ & _ & ?).
  - apply (reaches_event (EvDisconnected (js "NAVIGATION"))); [done| |done].
    by destruct Hp as (_ & ?).
Qed.

End complete.

Section complete_examples.
Import SessionManager SessionLifecycle.
#[local] Existing Instance engine0.

Lemma lifecycle_complete_witness :
  reaches cfg0 (Disconnected false) (init GeminiEngine.init) (PendingCredential 0).
Proof.
  apply (lifecycle_complete cfg0 (Disconnected false) Restart (PendingCredential 0)
           (init GeminiEngine.init)); done.
Defined.

End complete_examples.
