(* ===== verification/Interleaving.v ===== *)
(** * The message pipeline at the grain of its awaits

    [handleIncomingMessage] of [SessionManager] ([src/unnamed/part_000],
    lines 166-265) and [generateReply] of [GeminiAI]
    ([src/unnamed/part_001], lines 21-56) are [async] methods: at every
    [await] the method is suspended and the event loop may run another
    handler before it goes on.  [Session.v] runs the pipeline in one
    piece; this file cuts it at its awaits.

    - [AwaitingEngine] extends the interface of a reply engine by the two
      halves of [generateReply], before and after the call it awaits, with
      the law that the halves in sequence are the call in one piece.
      [GeminiAwait] gives the halves of [GeminiAI.generateReply].
    - [AsyncSession] has the [point]s at which a run of
      [handleIncomingMessage] is suspended, the code up to the first
      [await] ([handleIncomingMessageBefore]) and the code from one
      [await] to the next ([handleIncomingMessageAfter]), and the machine
      [step] whose state is the session with the runs in flight: an event
      of the client, a method that wakes up, a stop request, or the call
      that a run awaits settling.
    - The theorems: the pieces in sequence are the pipeline of
      [Session.v]; every schedule keeps the invariant of the session and
      replies only to messages that passed the filters; the runs in
      flight finish within a bound; a run that is suspended does not look
      at the session again, so it replies after a stop; two runs for one
      contact that overlap at the completion service are both answered,
      whatever the rate limit. *)

From Stdlib Require Import QArith.
From S2P Require Import Prelude Effects Language History RateLimit Typing Engine Session.
Local Close Scope Q_scope.
Local Open Scope handler_scope.

(** ** Engines whose call awaits *)

Class AwaitingEngine (E : Type) `{ReplyEngine E} : Type := {
  (** what a call holds while it awaits the completion *)
  engine_request : Type;
  (** up to the [await]: the value the call settles with when it does
      not get as far, or what it holds *)
  engine_before :
    engine_world → text → text → text →
    handler E engine_act error (option text + engine_request);
  (** from the [await] on *)
  engine_after :
    engine_world → engine_request → handler E engine_act error (option text);
  engine_split w m c n :
    engine_generateReply w m c n ≈
    (x ← engine_before w m c n;
     match x with inl r => ret r | inr q => engine_after w q end);
  engine_before_total w m c n s : ∃ x, result (engine_before w m c n) s = Ok x;
  engine_after_total w q s : ∃ r, result (engine_after w q) s = Ok r;
  engine_before_keeps w m c n s :
    engine_inv s → engine_inv (final (engine_before w m c n) s);
  engine_after_keeps w q s :
    engine_inv s → engine_inv (final (engine_after w q) s);
}.

(** ** The halves of [GeminiAI.generateReply] *)

Module GeminiAwait.
Import GeminiEngine.

(** The arguments that the rest of the call reads. *)
Record request : Type := Request {
  messageText : text;
  contactNumber : text;
}.

(** Lines 22-38, up to [await this.model.generateContent(prompt)]. *)
Definition generateReplyBefore (cfg : config) (w : world)
    (messageText contactNumber contactName : text) :
    handler state act error (option text + request) :=
  catch
    (s ← get;
     if negb (GeminiLimit.canReply (MAX_MESSAGES_PER_MINUTE cfg) (tCheck w)
                contactNumber (lastReplyTime s))
     then ret (inl None)
     else
       let detectedLanguage := GeminiLanguage.detectLanguage messageText in
       let history := GeminiHistory.getChatHistory contactNumber (chatHistory s) in
       let prompt := createPrompt messageText contactName detectedLanguage history in
       emit (GenerateContent prompt);;
       ret (inr (Request messageText contactNumber)))
    (λ _, ret (inl (getFallbackReply (rand w)))).

(** Lines 38-55, from the result of [generateContent] on. *)
Definition generateReplyAfter (w : world) (q : request) :
    handler state act error (option text) :=
  catch
    (raw ← await (completion w);
     let reply := trim raw in
     modify (setHistory (GeminiHistory.updateChatHistory
               (contactNumber q) (messageText q) reply (tUser w) (tBot w)));;
     modify (setLastReplyTime <[contactNumber q := tSet w]>);;
     ret (Some reply))
    (λ _, ret (getFallbackReply (rand w))).

End GeminiAwait.

(** ** The runs of [handleIncomingMessage] *)

Module AsyncSession.
Import SessionManager.

(** What [sendReplyWithTyping] and the rest of the handler hold. *)
Record draft : Type := Draft {
  contactName : text;
  messageText : text;
  reply : text;
}.

Section engine.
Context {E : Type} `{AwaitingEngine E}.

(** The [await] at which a run is suspended. *)
Inductive point : Type :=
| GetContactAwaited
| GenerateReplyAwaited (c : contact) (x : option text + engine_request)
| GetChatAwaited (d : draft)
| SendStateTypingAwaited (d : draft)
| SleepAwaited (d : draft)
| ClearStateAwaited (d : draft)
| ReplyAwaited (d : draft)
| FallbackReplyAwaited.

(** The awaits that a run at a point has before it, at most. *)
Definition rank (p : point) : nat :=
  match p with
  | GetContactAwaited => 8
  | GenerateReplyAwaited _ _ => 7
  | GetChatAwaited _ => 6
  | SendStateTypingAwaited _ => 5
  | SleepAwaited _ => 4
  | ClearStateAwaited _ => 3
  | ReplyAwaited _ => 2
  | FallbackReplyAwaited => 1
  end.

Local Abbreviation M := (handler (system (E:=E)) act error).

(** The [catch] of [handleIncomingMessage], lines 223-232, up to
    [await message.reply(..)]. *)
Definition apologise (m : message) : M (option point) :=
  emit (Reply m fallbackText);;
  ret (Some FallbackReplyAwaited).

(** A piece of the [try] block, lines 167-222. *)
Definition tried (m : message) (piece : M (option point)) : M (option point) :=
  catch piece (λ _, apologise m).

(** [if (aiReply)], lines 209-211, up to [await message.getChat()] of
    [sendReplyWithTyping]. *)
Definition withReply (m : message) (contactName messageText : text)
    (aiReply : option text) : M (option point) :=
  if truthyText aiReply then
    emit (GetChat m);;
    ret (Some (GetChatAwaited (Draft contactName messageText (default [] aiReply))))
  else ret None.

(** [this.geminiAI.generateReply(..)] up to its [await]. *)
Definition generateReplyBefore (w : inbound) (messageText number contactName : text) :
    M (option text + engine_request) :=
  zoom (λ y, geminiAI (this y)) (λ e, onThis (setEngine e)) EngineCall
    (engine_before (engineWorld w) messageText number contactName).

(** The rest of [this.geminiAI.generateReply(..)]. *)
Definition generateReplyAfter (w : inbound) (q : engine_request) : M (option text) :=
  zoom (λ y, geminiAI (this y)) (λ e, onThis (setEngine e)) EngineCall
    (engine_after (engineWorld w) q).

(** [handleIncomingMessage(message)] up to [await message.getContact()],
    lines 167-187. *)
Definition handleIncomingMessageBefore (w : inbound) (m : message) :
    M (option point) :=
  tried m
    (y ← get;
     if negb (isReady (this y)) || fromMe m then ret None else
     if includes (js "@g.us") (from m) then ret None else
     let messageTime := (timestamp m * 1000)%Z in
     let fiveMinutesAgo := (now w - 5 * 60 * 1000)%Z in
     if (messageTime <? fiveMinutesAgo)%Z then ret None else
     emit (GetContact m);;
     ret (Some GetContactAwaited)).

(** From the [await] of a point to the next one; [None] when the run is
    over. *)
Definition handleIncomingMessageAfter (cfg : SessionTyping.config) (w : inbound)
    (m : message) (p : point) : M (option point) :=
  match p with
  | GetContactAwaited =>
    tried m
      (contact ← await (contactResult w);
       let contactName := contactNameOf contact in
       let messageText := trim (body m) in
       if negb (nonEmpty messageText) || (length messageText <? 1) then ret None else
       modify (onThis (λ s, setActiveChats ({[number contact]} ∪ activeChats s) s));;
       x ← generateReplyBefore w messageText (number contact) contactName;
       ret (Some (GenerateReplyAwaited contact x)))
  | GenerateReplyAwaited contact x =>
    tried m
      (aiReply ← match x with
                 | inl r => ret r
                 | inr q => generateReplyAfter w q
                 end;
       withReply m (contactNameOf contact) (trim (body m)) aiReply)
  | GetChatAwaited d =>
    tried m
      (await (chatResult w);;
       emit (SendStateTyping m);;
       ret (Some (SendStateTypingAwaited d)))
  | SendStateTypingAwaited d =>
    tried m
      (await (typingResult w);;
       emit (Sleep (SessionTyping.totalDelay cfg (rand w) (reply d)));;
       ret (Some (SleepAwaited d)))
  | SleepAwaited d =>
    tried m
      (emit (ClearState m);;
       ret (Some (ClearStateAwaited d)))
  | ClearStateAwaited d =>
    tried m
      (await (clearResult w);;
       emit (Reply m (reply d));;
       ret (Some (ReplyAwaited d)))
  | ReplyAwaited d =>
    tried m
      (await (replyResult w);;
       modify (onThis (λ s, setMessageCount (messageCount s + 1) s));;
       emit (IoEmit (IoMessageReply (contactName d) (messageText d) (reply d)
                       (tReply w)));;
       ret None)
  | FallbackReplyAwaited =>
    catch (await (fallbackResult w);; ret None) (λ _, ret None)
  end.

(** The pieces one after the other, with nothing in between: at most
    [fuel] awaits. *)
Fixpoint continue (cfg : SessionTyping.config) (w : inbound) (m : message)
    (fuel : nat) (p : option point) : M unit :=
  match p, fuel with
  | Some p, S fuel =>
    p' ← handleIncomingMessageAfter cfg w m p;
    continue cfg w m fuel p'
  | _, _ => ret tt
  end.

Definition sequential (cfg : SessionTyping.config) (w : inbound) (m : message) :
    M unit :=
  p ← handleIncomingMessageBefore w m;
  continue cfg w m (rank GetContactAwaited) p.

(** *** The session with its runs in flight *)

(** A run of [handleIncomingMessage] that is suspended: the message, what
    the outside supplies to this run, and the [await] it is at. *)
Record flight : Type := Flight {
  flightInbound : inbound;
  flightMessage : message;
  flightPoint : point;
}.

Record pool : Type := Pool {
  session : system (E:=E);
  inflight : list flight;
}.

(** What the event loop runs next. *)
Inductive input : Type :=
| ClientEvent (ev : event)
| Settle (i : nat)
| Wake (t : task) (r : outcome error unit)
| StopClient (c : caller)
| Restart.

(** A handler of the session in the pool; what it throws goes to its
    caller. *)
Definition inSession (m : M unit) (p : pool) : pool * list act :=
  (Pool (final m (session p)) (inflight p), trace m (session p)).

(** The run at [i] went from one [await] to the next, or is over. *)
Definition land (i : nat) (w : inbound) (m : message)
    (r : outcome error (option point)) (l : list flight) : list flight :=
  match r with
  | Ok (Some p) => <[i := Flight w m p]> l
  | _ => delete i l
  end.

(** An event of a message starts a run. *)
Definition arrive (w : inbound) (m : message) (p : pool) : pool * list act :=
  let before := handleIncomingMessageBefore w m in
  (Pool (final before (session p))
        (inflight p ++ match result before (session p) with
                       | Ok (Some pt) => [Flight w m pt]
                       | _ => []
                       end),
   trace before (session p)).

Definition settle (cfg : SessionTyping.config) (i : nat) (p : pool) :
    pool * list act :=
  match inflight p !! i with
  | None => (p, [])
  | Some f =>
    let after := handleIncomingMessageAfter cfg (flightInbound f) (flightMessage f)
                   (flightPoint f) in
    (Pool (final after (session p))
          (land i (flightInbound f) (flightMessage f) (result after (session p))
             (inflight p)),
     trace after (session p))
  end.

Definition step (cfg : SessionTyping.config) (i : input) (p : pool) :
    pool * list act :=
  match i with
  | ClientEvent (EvMessageCreate w m) => arrive w m p
  | ClientEvent (EvMessage w m) => arrive w m p
  | ClientEvent ev => inSession (setupEventHandlers cfg ev) p
  | Settle i => settle cfg i p
  | Wake t r =>
    if bool_decide (t ∈ pending (session p)) then inSession (resume t r) p
    else (p, [])
  | StopClient c => inSession (stopClient c) p
  | Restart => inSession restartClient p
  end.

(** A schedule: the inputs in the order the event loop takes them. *)
Fixpoint exec (cfg : SessionTyping.config) (ins : list input) (p : pool) :
    pool * list act :=
  match ins with
  | [] => (p, [])
  | i :: ins =>
    let '(p1, t1) := step cfg i p in
    let '(p2, t2) := exec cfg ins p1 in
    (p2, t1 ++ t2)
  end.

(** The awaits that the runs in flight have before them, at most. *)
Definition work (p : pool) : nat :=
  sum_list_with (λ f, rank (flightPoint f)) (inflight p).

(** The messages that the filters let through. *)
Definition passes (m : message) : bool :=
  negb (fromMe m) && negb (includes (js "@g.us") (from m)).

End engine.

End AsyncSession.

(** ** [GeminiAI] is an engine whose call awaits *)

Section gemini_await.
Import GeminiEngine GeminiAwait.
Implicit Types (cfg : config) (w : world) (s : state) (m c n : text).
Implicit Types (q : request).

(** The first half reads the engine and writes nothing. *)
Lemma generateReplyBefore_run cfg w m c n s :
  run (generateReplyBefore cfg w m c n) s =
  if GeminiLimit.canReply (MAX_MESSAGES_PER_MINUTE cfg) (tCheck w) c (lastReplyTime s)
  then (Ok (inr (Request m c)), s,
        [GenerateContent (createPrompt m n (GeminiLanguage.detectLanguage m)
                            (GeminiHistory.getChatHistory c (chatHistory s)))])
  else (Ok (inl None), s, []).
Proof.
  unfold generateReplyBefore. handler_simpl.
  by destruct (GeminiLimit.canReply _ _ _ _).
Qed.

(** The second half does not look at [lastReplyTime]. *)
Lemma generateReplyAfter_run w q s :
  run (generateReplyAfter w q) s =
  match completion w with
  | Ok raw =>
    (Ok (Some (trim raw)),
     State (GeminiHistory.updateChatHistory (contactNumber q) (messageText q)
              (trim raw) (tUser w) (tBot w) (chatHistory s))
           (<[contactNumber q := tSet w]> (lastReplyTime s)),
     [])
  | Throw _ => (Ok (getFallbackReply (rand w)), s, [])
  end.
Proof. unfold generateReplyAfter. handler_simpl. by destruct (completion w). Qed.

Lemma generateReply_split cfg w m c n :
  generateReply cfg w m c n ≈
  (x ← generateReplyBefore cfg w m c n;
   match x with inl r => ret r | inr q => generateReplyAfter w q end).
Proof.
  intros s. rewrite generateReply_run. unfold path_of.
  pose proof (generateReplyBefore_run cfg w m c n s) as Hb.
  pose proof (generateReplyAfter_run w (Request m c) s) as Ha.
  unfold run, mbind, handler_bind, bind in *. rewrite Hb.
  destruct (GeminiLimit.canReply _ _ _ _); [|done].
  rewrite Ha. by destruct (completion w).
Qed.

Lemma generateReplyBefore_total cfg w m c n s :
  ∃ x, result (generateReplyBefore cfg w m c n) s = Ok x.
Proof.
  unfold result. rewrite generateReplyBefore_run.
  destruct (GeminiLimit.canReply _ _ _ _); simpl; eauto.
Qed.

Lemma generateReplyAfter_total w q s :
  ∃ r, result (generateReplyAfter w q) s = Ok r.
Proof.
  unfold result. rewrite generateReplyAfter_run.
  destruct (completion w); simpl; eauto.
Qed.

Lemma generateReplyBefore_final cfg w m c n s :
  final (generateReplyBefore cfg w m c n) s = s.
Proof.
  unfold final. rewrite generateReplyBefore_run.
  by destruct (GeminiLimit.canReply _ _ _ _).
Qed.

Lemma generateReplyBefore_inv cfg w m c n s :
  inv s → inv (final (generateReplyBefore cfg w m c n) s).
Proof. by rewrite generateReplyBefore_final. Qed.

Lemma generateReplyAfter_inv w q s :
  inv s → inv (final (generateReplyAfter w q) s).
Proof.
  intros Hs. unfold final. rewrite generateReplyAfter_run.
  destruct (completion w); simpl; [|done]. by apply updateChatHistory_wf.
Qed.

End gemini_await.

#[export] Instance gemini_awaiting (cfg : GeminiEngine.config) :
    @AwaitingEngine GeminiEngine.state (gemini_engine cfg) :=
  @Build_AwaitingEngine GeminiEngine.state (gemini_engine cfg)
    GeminiAwait.request (GeminiAwait.generateReplyBefore cfg)
    GeminiAwait.generateReplyAfter (generateReply_split cfg)
    (generateReplyBefore_total cfg) generateReplyAfter_total
    (generateReplyBefore_inv cfg) generateReplyAfter_inv.

(** ** The pieces of a run *)

#[export] Hint Unfold AsyncSession.handleIncomingMessageBefore
  AsyncSession.handleIncomingMessageAfter AsyncSession.tried
  AsyncSession.apologise AsyncSession.withReply
  AsyncSession.generateReplyBefore AsyncSession.generateReplyAfter : session.

Section engine_law.
Context {E : Type} `{AwaitingEngine E}.

(** The law of the interface on a state. *)
Lemma engine_split_run (w : engine_world) a b c (s : E) :
  engine_generateReply w a b c s =
  (x ← engine_before w a b c;
   match x with inl r => ret r | inr q => engine_after w q end) s.
Proof. apply (engine_split w a b c s). Qed.

End engine_law.

(** [pieces] runs the pieces of a run along their branches: the next
    test or result that the goal depends on is replaced by what it is
    known to be, or taken by cases, and the pieces are unfolded as far as
    they are determined. *)
Ltac piece_case x :=
  first [ match goal with H : x = _ |- _ => rewrite H end
        | destruct x eqn:? ].

Ltac piece_step :=
  lazymatch goal with
  | |- context [SessionManager.isReady ?y] =>
    piece_case (SessionManager.isReady y)
  | |- context [SessionManager.fromMe ?m] =>
    piece_case (SessionManager.fromMe m)
  | |- context [includes ?s (SessionManager.from ?m)] =>
    piece_case (includes s (SessionManager.from m))
  | |- context [(?a <? ?b)%Z] => piece_case (a <? b)%Z
  | |- context [SessionManager.contactResult ?w] =>
    piece_case (SessionManager.contactResult w)
  | |- context [nonEmpty (trim (SessionManager.body ?m))] =>
    piece_case (nonEmpty (trim (SessionManager.body m)))
  | |- context [length ?l <? 1] => piece_case (length l <? 1)
  | |- context [engine_before ?a ?b ?c ?d ?e] =>
    first [ match goal with H : engine_before a b c d e = _ |- _ => rewrite H end
          | destruct (engine_before a b c d e)
              as [[[[?r|?q]|?e'] ?e1] ?t1] eqn:? ]
  | |- context [engine_after ?a ?b ?c] =>
    first [ match goal with H : engine_after a b c = _ |- _ => rewrite H end
          | destruct (engine_after a b c) as [[[?r|?e'] ?e2] ?t2] eqn:? ]
  | |- context [SessionManager.truthyText ?r] =>
    piece_case (SessionManager.truthyText r)
  | |- context [SessionManager.chatResult ?w] =>
    piece_case (SessionManager.chatResult w)
  | |- context [SessionManager.typingResult ?w] =>
    piece_case (SessionManager.typingResult w)
  | |- context [SessionManager.clearResult ?w] =>
    piece_case (SessionManager.clearResult w)
  | |- context [SessionManager.replyResult ?w] =>
    piece_case (SessionManager.replyResult w)
  | |- context [SessionManager.fallbackResult ?w] =>
    piece_case (SessionManager.fallbackResult w)
  end;
  repeat match goal with u : () |- _ => destruct u end;
  simpl; try done.

Ltac pieces :=
  autounfold with session; handler_simpl;
  repeat first
    [ rewrite engine_split_run; handler_simpl; simpl
    | progress (cbn [AsyncSession.continue AsyncSession.rank];
                autounfold with session; handler_simpl; simpl)
    | piece_step ];
  rewrite ?fmap_app, ?app_nil_r, <-?app_assoc.

Section async_facts.
Import SessionManager AsyncSession.
Context {E : Type} `{AwaitingEngine E}.
Implicit Types (y : system (E:=E)) (w : inbound) (m : message).
Implicit Types (cfg : SessionTyping.config) (p : point) (f : flight) (l : pool).

(** Every piece leaves a run with fewer awaits before it. *)
Lemma handleIncomingMessageAfter_rank cfg w m p y p' :
  result (handleIncomingMessageAfter cfg w m p) y = Ok (Some p') →
  rank p' < rank p.
Proof.
  destruct p as [|c [r|q]| | | | | |]; pieces; intros; simplify_eq/=; lia.
Qed.

(** No piece throws: what the [try] block throws is caught. *)
Lemma handleIncomingMessageBefore_total w m : total (handleIncomingMessageBefore w m).
Proof. autounfold with session. handler_rules. Qed.

Lemma handleIncomingMessageAfter_total cfg w m p :
  total (handleIncomingMessageAfter cfg w m p).
Proof. destruct p; autounfold with session; handler_rules. Qed.

(** The pieces of a run with nothing in between are the handler of
    [Session.v]. *)
Lemma sequential_run cfg w m y :
  run (sequential cfg w m) y = run (handleIncomingMessage cfg w m) y.
Proof.
  unfold sequential, handleIncomingMessage, generateReply, sendReplyWithTyping.
  pieces; done.
Qed.

End async_facts.

(** ** Judgments that need no invariant *)

Section plain.
Context {S Act E : Type}.
Local Abbreviation M := (handler S Act E).

(** A handler that keeps an invariant and whose calls are good whatever
    the state guards the invariant. *)
Lemma guards_both (I : S → Prop) (P : Act → Prop) {A} (m : M A) :
  keeps I m → guards (λ _, True) P m → guards I P m.
Proof. intros Hk Hg s Hs. split; [by apply Hk | by apply Hg]. Qed.

Lemma guards_top {A} (m : M A) : guards (λ _, True) (λ _, True) m.
Proof. intros s _. split; [done|]. by apply Forall_forall. Qed.

(** The calls of a sequence whose first part returns. *)
Lemma trace_bind {A B} (m : M A) (f : A → M B) s a :
  result m s = Ok a → trace (m ≫= f) s = trace m s ++ trace (f a) (final m s).
Proof. apply trace_bind_ok. Qed.

(** A change of the measure, the call that accounts for it, and the
    rest. *)
Lemma balanced_modify_emit_then (g : S → Z) (f : Act → Z) (h : S → S) (a : Act)
    {B} (k : M B) :
  (∀ s, g (h s) = (g s + f a)%Z) → balanced g f k →
  balanced g f (modify h ;; emit a ;; k).
Proof.
  intros Hh Hk s. specialize (Hk (h s)). revert Hk. handler_simpl.
  destruct (k (h s)) as [[r s2] t2]. simpl. rewrite Hh. lia.
Qed.

End plain.

(** ** Every schedule *)

Section schedules.
Import SessionManager AsyncSession.
Context {E : Type} `{AwaitingEngine E}.
Implicit Types (y : system (E:=E)) (w : inbound) (m : message).
Implicit Types (cfg : SessionTyping.config) (p : point) (f : flight) (l : pool).
Implicit Types (i : input) (ins : list input).

(** The replies among the calls go to messages that the filters let
    through. *)
Definition answers (a : act) : Prop :=
  match a with
  | Reply m _ => passes m = true
  | _ => True
  end.

(** The runs in flight are runs for such messages. *)
Definition screened l : Prop :=
  Forall (λ f, passes (flightMessage f) = true) (inflight l).

(** *** The pieces *)

Lemma handleIncomingMessageBefore_run w m y :
  run (handleIncomingMessageBefore w m) y =
  if accepted w m y then (Ok (Some GetContactAwaited), y, [GetContact m])
  else (Ok None, y, []).
Proof.
  unfold accepted. autounfold with session. handler_simpl.
  by destruct (isReady (this y)), (fromMe m), (includes _ (from m)), (_ <? _)%Z.
Qed.

Lemma accepted_passes w m y : accepted w m y = true → passes m = true.
Proof.
  unfold accepted, passes.
  by destruct (isReady (this y)), (fromMe m), (includes _ (from m)).
Qed.

Lemma keeps_generateReplyBefore w a b c : keeps inv (generateReplyBefore w a b c).
Proof.
  apply (keeps_zoom _ _ _ inv engine_inv).
  - by intros y [].
  - by intros y e [] ?.
  - intros e. apply engine_before_keeps.
Qed.

Lemma keeps_generateReplyAfter w q : keeps inv (generateReplyAfter w q).
Proof.
  apply (keeps_zoom _ _ _ inv engine_inv).
  - by intros y [].
  - by intros y e [] ?.
  - intros e. apply engine_after_keeps.
Qed.

Lemma balanced_generateReplyBefore w a b c :
  balanced replies isMessageReply (generateReplyBefore w a b c).
Proof. by apply balanced_zoom. Qed.

Lemma balanced_generateReplyAfter w q :
  balanced replies isMessageReply (generateReplyAfter w q).
Proof. by apply balanced_zoom. Qed.

Lemma answers_zoom {A} (e : handler E engine_act error A) :
  guards (λ _, True) answers
    (zoom (λ y, geminiAI (this y)) (λ e, onThis (setEngine e)) EngineCall e).
Proof.
  apply (guards_zoom _ _ _ _ (λ _, True) _ (λ _, True)); [done..|].
  apply guards_top.
Qed.

(** The rest of a judgment on a piece or on a handler of the session. *)
Ltac piece_leaf :=
  first [ apply keeps_generateReplyBefore | apply keeps_generateReplyAfter
        | apply balanced_generateReplyBefore | apply balanced_generateReplyAfter
        | apply answers_zoom
        | apply keeps_modify; intros ? [? ? ? ? ?]; split; simpl; auto;
          first [done | lia]
        | apply balanced_modify_emit_then; [intros; unfold replies; simpl; lia|]
        | apply balanced_emit; reflexivity
        | apply balanced_call; reflexivity
        | apply balanced_modify; reflexivity
        | apply guards_emit; done
        | apply guards_call; done
        | apply guards_modify; done
        | unfold replies; simpl; lia ].

Ltac piece_rules :=
  unfold generateReply;
  autounfold with session;
  unfold suspend, resumed, SessionManager.destroy, newClient;
  handler_rules_with piece_leaf.

Lemma keeps_handleIncomingMessageAfter cfg w m p :
  keeps inv (handleIncomingMessageAfter cfg w m p).
Proof. destruct p as [|c [r|q]| | | | | |]; piece_rules. Qed.

Lemma balanced_handleIncomingMessageAfter cfg w m p :
  balanced replies isMessageReply (handleIncomingMessageAfter cfg w m p).
Proof. destruct p as [|c [r|q]| | | | | |]; piece_rules. Qed.

Lemma answers_handleIncomingMessageAfter cfg w m p :
  passes m = true →
  guards (λ _, True) answers (handleIncomingMessageAfter cfg w m p).
Proof. intros Hm. destruct p as [|c [r|q]| | | | | |]; piece_rules. Qed.

(** The handlers of the session that the machine runs in one piece send
    no reply. *)
Lemma answers_setupEventHandlers cfg ev :
  (∀ w m, ev ≠ EvMessageCreate w m) → (∀ w m, ev ≠ EvMessage w m) →
  guards (λ _, True) answers (setupEventHandlers cfg ev).
Proof.
  intros H1 H2.
  destruct ev as [| | |w m|w m| | |]; try (by destruct (H1 w m));
    try (by destruct (H2 w m)); piece_rules.
Qed.

Lemma answers_resume t r : guards (λ _, True) answers (resume t r).
Proof. destruct t; piece_rules. Qed.

Lemma answers_stopClient c : guards (λ _, True) answers (stopClient c).
Proof. piece_rules. Qed.

Lemma answers_restartClient : guards (λ _, True) answers restartClient.
Proof. piece_rules. Qed.

End schedules.

(** ** The machine *)

Section machine.
Import SessionManager AsyncSession.
Context {E : Type} `{AwaitingEngine E}.
Implicit Types (y : system (E:=E)) (w : inbound) (m : message).
Implicit Types (cfg : SessionTyping.config) (p : point) (f : flight) (l : pool).
Implicit Types (i : input) (ins : list input) (fs : list flight).

Local Abbreviation M := (handler (system (E:=E)) act error).

Lemma keeps_handleIncomingMessageBefore w m :
  keeps inv (handleIncomingMessageBefore w m).
Proof.
  intros y Hy. unfold final. rewrite handleIncomingMessageBefore_run.
  by destruct (accepted w m y).
Qed.

Lemma balanced_handleIncomingMessageBefore w m :
  balanced replies isMessageReply (handleIncomingMessageBefore w m).
Proof.
  intros y. unfold final, trace. rewrite handleIncomingMessageBefore_run.
  destruct (accepted w m y); simpl; lia.
Qed.

Lemma answers_handleIncomingMessageBefore w m :
  guards (λ _, True) answers (handleIncomingMessageBefore w m).
Proof.
  intros y _. unfold final, trace. rewrite handleIncomingMessageBefore_run.
  destruct (accepted w m y); simpl; split; by repeat constructor.
Qed.

(** What a step is: a handler on the session, and the runs in flight
    after it. *)
Record stepped cfg i l {A} (h : M A) fs : Prop := Stepped {
  stepped_step : step cfg i l = (Pool (final h (session l)) fs, trace h (session l));
  stepped_keeps : keeps inv h;
  stepped_balanced : balanced replies isMessageReply h;
  stepped_answers : screened l → guards (λ _, True) answers h;
  stepped_screened : screened l → Forall (λ f, passes (flightMessage f) = true) fs;
}.

Lemma stepped_inSession cfg i l (h : M unit) :
  step cfg i l = inSession h l → keeps inv h →
  balanced replies isMessageReply h → guards (λ _, True) answers h →
  stepped cfg i l h (inflight l).
Proof. by split. Qed.

Lemma stepped_idle cfg i l : step cfg i l = (l, []) → stepped cfg i l (ret tt) (inflight l).
Proof.
  intros Hi. split; [by destruct l | apply keeps_ret | apply balanced_ret | |done].
  intros _. apply guards_ret.
Qed.

Lemma stepped_arrive cfg i l w m :
  step cfg i l = arrive w m l →
  stepped cfg i l (handleIncomingMessageBefore w m)
    (inflight l ++ match result (handleIncomingMessageBefore w m) (session l) with
                   | Ok (Some pt) => [Flight w m pt]
                   | _ => []
                   end).
Proof.
  intros Hi. split; [done | apply keeps_handleIncomingMessageBefore
    | apply balanced_handleIncomingMessageBefore
    | intros _; apply answers_handleIncomingMessageBefore |].
  intros Hl. apply Forall_app. split; [done|]. unfold result.
  rewrite handleIncomingMessageBefore_run.
  destruct (accepted w m (session l)) eqn:Ha; [|done].
  repeat constructor. by apply (accepted_passes w m (session l)).
Qed.

Lemma stepped_settle cfg k l f :
  inflight l !! k = Some f →
  stepped cfg (Settle k) l
    (handleIncomingMessageAfter cfg (flightInbound f) (flightMessage f) (flightPoint f))
    (land k (flightInbound f) (flightMessage f)
       (result (handleIncomingMessageAfter cfg (flightInbound f) (flightMessage f)
                 (flightPoint f)) (session l))
       (inflight l)).
Proof.
  intros Hf.
  split; [by unfold step, settle; rewrite Hf
         | apply keeps_handleIncomingMessageAfter
         | apply balanced_handleIncomingMessageAfter | |].
  - intros Hl. apply answers_handleIncomingMessageAfter.
    apply (Forall_lookup_1 _ _ _ _ Hl Hf).
  - intros Hl. pose proof (Forall_lookup_1 _ _ _ _ Hl Hf) as Hm.
    unfold land. destruct (result _ _) as [[pt|]|];
      [by apply Forall_insert | by apply Forall_delete..].
Qed.

(** Every step is of this kind. *)
Lemma step_stepped cfg i l : ∃ A (h : M A) fs, stepped cfg i l h fs.
Proof.
  destruct i as [ev|k|t r|c|].
  - assert (∀ ev', ev' = ev → (∀ w m, ev ≠ EvMessageCreate w m) →
              (∀ w m, ev ≠ EvMessage w m) →
              step cfg (ClientEvent ev) l = inSession (setupEventHandlers cfg ev) l →
              ∃ A (h : M A) fs, stepped cfg (ClientEvent ev) l h fs) as Hev.
    { intros _ _ H1 H2 Hs. eexists _, _, _. apply stepped_inSession; [done|..].
      - apply keeps_setupEventHandlers.
      - apply balanced_setupEventHandlers.
      - by apply answers_setupEventHandlers. }
    destruct ev as [| | |w m|w m| | |];
      try (by apply (Hev _ eq_refl));
      eexists _, _, _; by apply (stepped_arrive _ _ _ w m).
  - destruct (inflight l !! k) as [f|] eqn:Hf.
    + eexists _, _, _. by apply stepped_settle.
    + eexists _, _, _. apply stepped_idle. unfold step, settle. by rewrite Hf.
  - simpl. destruct (bool_decide (t ∈ pending (session l))) eqn:Ht.
    + eexists _, _, _. apply stepped_inSession;
        [by simpl; rewrite Ht | apply keeps_resume | apply balanced_resume
        | apply answers_resume].
    + eexists _, _, _. apply stepped_idle. simpl. by rewrite Ht.
  - eexists _, _, _. apply stepped_inSession;
      [done | apply keeps_stopClient | apply balanced_stopClient
      | apply answers_stopClient].
  - eexists _, _, _. apply stepped_inSession;
      [done | apply keeps_restartClient | apply balanced_restartClient
      | apply answers_restartClient].
Qed.

(** *** Schedules *)

Lemma exec_app cfg ins1 ins2 l :
  exec cfg (ins1 ++ ins2) l =
  ((exec cfg ins2 (exec cfg ins1 l).1).1,
   (exec cfg ins1 l).2 ++ (exec cfg ins2 (exec cfg ins1 l).1).2).
Proof.
  revert l. induction ins1 as [|i ins1 IH]; intros l; simpl.
  - by destruct (exec cfg ins2 l).
  - destruct (step cfg i l) as [l1 t1]. rewrite IH.
    destruct (exec cfg ins1 l1) as [l2 t2]. simpl.
    destruct (exec cfg ins2 l2) as [l3 t3]. simpl. by rewrite app_assoc.
Qed.

(** A property of the pool and of the calls that every step carries on
    holds of every schedule. *)
Lemma exec_ind (I : pool → Prop) (P : act → Prop) cfg :
  (∀ i l, I l → I (step cfg i l).1 ∧ Forall P (step cfg i l).2) →
  ∀ ins l, I l → I (exec cfg ins l).1 ∧ Forall P (exec cfg ins l).2.
Proof.
  intros Hstep ins. induction ins as [|i ins IH]; intros l Hl; simpl; [done|].
  destruct (Hstep i l Hl) as [H1 Ht1]. destruct (step cfg i l) as [l1 t1].
  destruct (IH l1 H1) as [H2 Ht2]. destruct (exec cfg ins l1) as [l2 t2].
  split; [done | by apply Forall_app].
Qed.

Lemma step_inv cfg i l : inv (session l) → inv (session (step cfg i l).1).
Proof.
  intros Hl. destruct (step_stepped cfg i l) as (A & h & fs & [Hs Hk _ _ _]).
  rewrite Hs. by apply Hk.
Qed.

Lemma step_answers cfg i l :
  screened l → screened (step cfg i l).1 ∧ Forall answers (step cfg i l).2.
Proof.
  intros Hl. destruct (step_stepped cfg i l) as (A & h & fs & [Hs _ _ Ha Hf]).
  rewrite Hs. split; [by apply Hf | by apply (Ha Hl)].
Qed.

Lemma step_replies cfg i l :
  replies (session (step cfg i l).1) =
  (replies (session l) + weight isMessageReply (step cfg i l).2)%Z.
Proof.
  destruct (step_stepped cfg i l) as (A & h & fs & [Hs _ Hb _ _]).
  rewrite Hs. apply Hb.
Qed.

Lemma exec_inv_session cfg ins l : inv (session l) → inv (session (exec cfg ins l).1).
Proof.
  intros Hl.
  apply (exec_ind (λ l, inv (session l)) (λ _, True) cfg); [|done].
  intros i l' Hl'. split; [by apply step_inv | by apply Forall_forall].
Qed.

Lemma exec_answers cfg ins l :
  screened l → screened (exec cfg ins l).1 ∧ Forall answers (exec cfg ins l).2.
Proof. apply exec_ind. intros i l'. apply step_answers. Qed.

Lemma exec_replies cfg ins l :
  replies (session (exec cfg ins l).1) =
  (replies (session l) + weight isMessageReply (exec cfg ins l).2)%Z.
Proof.
  revert l. induction ins as [|i ins IH]; intros l; simpl; [lia|].
  pose proof (step_replies cfg i l) as Hi. destruct (step cfg i l) as [l1 t1].
  specialize (IH l1). destruct (exec cfg ins l1) as [l2 t2]. simpl in *.
  rewrite weight_app. lia.
Qed.

End machine.

(** ** The runs finish, and a run alone is the handler in one piece *)

Section finishing.
Import SessionManager AsyncSession.
Context {E : Type} `{AwaitingEngine E}.
Implicit Types (y : system (E:=E)) (w : inbound) (m : message).
Implicit Types (cfg : SessionTyping.config) (p : point) (f : flight) (l : pool).
Implicit Types (i : input) (ins : list input) (fs : list flight).

Lemma rank_pos p : 0 < rank p.
Proof. destruct p; simpl; lia. Qed.

Lemma rank_max p : rank p ≤ rank GetContactAwaited.
Proof. destruct p; simpl; lia. Qed.

Lemma work_bound l : work l ≤ rank GetContactAwaited * length (inflight l).
Proof.
  unfold work. induction (inflight l) as [|f fs IH]; [simpl; lia|].
  pose proof (rank_max (flightPoint f)). simpl in *. lia.
Qed.

Lemma work_nil l : work l = 0 → inflight l = [].
Proof.
  unfold work. destruct (inflight l) as [|f fs]; [done|]. simpl.
  pose proof (rank_pos (flightPoint f)). lia.
Qed.

(** The work that is left when the run at [k] has gone on. *)
Lemma land_work k w m p r fs :
  fs !! k = Some (Flight w m p) →
  (∀ p', r = Ok (Some p') → rank p' < rank p) →
  sum_list_with (λ f, rank (flightPoint f)) (land k w m r fs) <
  sum_list_with (λ f, rank (flightPoint f)) fs.
Proof.
  intros Hk Hr. rewrite <-(take_drop_middle fs k _ Hk) at 2.
  pose proof (rank_pos p).
  unfold land. destruct r as [[p'|]|].
  - rewrite insert_take_drop by by eapply lookup_lt_Some.
    rewrite !sum_list_with_app. simpl. specialize (Hr p' eq_refl). lia.
  - rewrite delete_take_drop, !sum_list_with_app. simpl. lia.
  - rewrite delete_take_drop, !sum_list_with_app. simpl. lia.
Qed.

Lemma settle_work cfg k l f :
  inflight l !! k = Some f → work (settle cfg k l).1 < work l.
Proof.
  destruct f as [w m p]. intros Hf. unfold settle, work. rewrite Hf.
  cbn [fst inflight flightInbound flightMessage flightPoint].
  apply (land_work k w m p); [done|].
  intros p'. apply handleIncomingMessageAfter_rank.
Qed.

Lemma settle_nil cfg k l : inflight l = [] → settle cfg k l = (l, []).
Proof. intros Hl. unfold settle. by rewrite Hl. Qed.

(** Settling the oldest run [n] times leaves no run when [n] is the work
    at least. *)
Lemma exec_drain cfg n l :
  work l ≤ n → inflight (exec cfg (replicate n (Settle 0)) l).1 = [].
Proof.
  revert l. induction n as [|n IH]; intros l Hn; simpl.
  - apply work_nil. lia.
  - destruct (inflight l) as [|f fs] eqn:Hl.
    + rewrite settle_nil by done. specialize (IH l).
      destruct (exec cfg (replicate n (Settle 0)) l) as [l2 t2]. simpl in *.
      apply IH. unfold work. rewrite Hl. simpl. lia.
    + pose proof (settle_work cfg 0 l f) as Hw. rewrite Hl in Hw.
      specialize (Hw eq_refl). destruct (settle cfg 0 l) as [l1 t1].
      specialize (IH l1). destruct (exec cfg (replicate n (Settle 0)) l1).
      simpl in *. apply IH. lia.
Qed.

Lemma exec_idle cfg n y :
  exec cfg (replicate n (Settle 0)) (Pool y []) = (Pool y [], []).
Proof. induction n as [|n IH]; simpl; [done|]. by rewrite IH. Qed.

(** One run in flight and nothing else on the event loop. *)
Lemma exec_continue cfg w m n p y :
  rank p ≤ n →
  exec cfg (replicate n (Settle 0)) (Pool y [Flight w m p]) =
  (Pool (final (continue cfg w m n (Some p)) y) [],
   trace (continue cfg w m n (Some p)) y).
Proof.
  revert p y. induction n as [|n IH]; intros p y Hn.
  { pose proof (rank_pos p). lia. }
  destruct (handleIncomingMessageAfter_total cfg w m p y) as [o Ho].
  pose proof (handleIncomingMessageAfter_rank cfg w m p y) as Hr.
  cbn [replicate exec step settle inflight session lookup list_lookup
       flightInbound flightMessage flightPoint continue].
  rewrite (final_bind _ _ _ _ Ho), (trace_bind _ _ _ _ Ho), Ho.
  destruct o as [p'|]; cbn [land].
  - cbn [insert list_insert]. rewrite IH by (specialize (Hr p' Ho); lia). done.
  - cbn [delete list_delete]. rewrite exec_idle. by destruct n.
Qed.

Lemma sequential_alone cfg w m y :
  exec cfg (ClientEvent (EvMessage w m) :: replicate (rank GetContactAwaited) (Settle 0))
       (Pool y []) =
  (Pool (final (sequential cfg w m) y) [], trace (sequential cfg w m) y).
Proof.
  pose proof (handleIncomingMessageBefore_run w m y) as Hb.
  assert (∃ o, result (handleIncomingMessageBefore w m) y = Ok o) as [o Ho]
    by apply handleIncomingMessageBefore_total.
  unfold sequential. rewrite (final_bind _ _ _ _ Ho), (trace_bind _ _ _ _ Ho).
  cbn [exec step arrive inflight session app]. rewrite Ho.
  destruct o as [p|].
  - rewrite exec_continue by apply rank_max. done.
  - by rewrite exec_idle.
Qed.

(** *** A run that is suspended does not look at the session again *)

(** The session with another client, another readiness and other
    counters of the lifecycle, other pending methods and other clients
    alive. *)
Definition severed (c : option nat) (b : bool) (q : Z) (pd : list task)
    (lv : gset nat) (nx : nat) y : system :=
  System (State c b q (messageCount (this y)) (activeChats (this y))
            (geminiAI (this y))) pd lv nx.

Lemma handleIncomingMessageAfter_severed cfg w m p c b q pd lv nx y :
  run (handleIncomingMessageAfter cfg w m p) (severed c b q pd lv nx y) =
  (result (handleIncomingMessageAfter cfg w m p) y,
   severed c b q pd lv nx (final (handleIncomingMessageAfter cfg w m p) y),
   trace (handleIncomingMessageAfter cfg w m p) y).
Proof.
  destruct p as [|c' [r|q']| | | | | |]; unfold severed;
    autounfold with session; handler_simpl; simpl; pieces; done.
Qed.

End finishing.

(** ** A stop request does not cancel the runs in flight *)

Section stopping.
Import SessionManager AsyncSession.
Context {E : Type} `{AwaitingEngine E}.
Implicit Types (y : system (E:=E)) (w : inbound) (m : message).
Implicit Types (cfg : SessionTyping.config) (p : point) (f : flight) (l : pool).
Implicit Types (i : input) (ins : list input) (fs : list flight).

Local Abbreviation M := (handler (system (E:=E)) act error).

(** What a suspended run reads of the session is as it was in [y0]. *)
Definition untouched y0 y : Prop :=
  messageCount (this y) = messageCount (this y0) ∧
  activeChats (this y) = activeChats (this y0) ∧
  geminiAI (this y) = geminiAI (this y0).

Lemma untouched_severed y0 y :
  untouched y0 y →
  y = severed (client (this y)) (isReady (this y)) (qrRetries (this y))
        (pending y) (live y) (nextClient y) y0.
Proof.
  destruct y as [[] ? ? ?]. unfold untouched, severed. simpl.
  by intros (-> & -> & ->).
Qed.

(** The methods of the lifecycle touch none of it. *)
Ltac lifecycle_rules :=
  autounfold with session;
  unfold suspend, resumed, SessionManager.destroy, newClient;
  handler_rules_with ltac:(apply keeps_modify; by intros [[] ? ? ?]).

Lemma untouched_stopClient y0 c : keeps (untouched y0) (stopClient c).
Proof. lifecycle_rules. Qed.

Lemma untouched_restartClient y0 : keeps (untouched y0) restartClient.
Proof. lifecycle_rules. Qed.

Lemma untouched_resume y0 t r :
  t ≠ StatsInterval → keeps (untouched y0) (resume t r).
Proof. destruct t; try done; intros _; lifecycle_rules. Qed.

(** The run at [k] goes on in the same way after a handler that touches
    none of what it reads. *)
Lemma settle_inSession cfg k l (h : M unit) f :
  keeps (untouched (session l)) h → inflight l !! k = Some f →
  (settle cfg k (inSession h l).1).2 = (settle cfg k l).2 ∧
  inflight (settle cfg k (inSession h l).1).1 = inflight (settle cfg k l).1.
Proof.
  intros Hh Hf. unfold settle, inSession. cbn [fst inflight session]. rewrite Hf.
  assert (untouched (session l) (final h (session l))) as Hu by by apply Hh.
  rewrite (untouched_severed _ _ Hu). cbn [fst snd inflight session].
  unfold result, final, trace. by rewrite handleIncomingMessageAfter_severed.
Qed.

End stopping.

(** ** Two calls of [GeminiAI.generateReply] that overlap *)

Section overlap.
Import GeminiEngine GeminiAwait.
Implicit Types (cfg : config) (w : world) (s : state) (m c n : text).

Local Abbreviation G := (handler state act error).

(** The rest of a call, whichever way its first half went. *)
Definition settled w (x : option text + request) : G (option text) :=
  match x with
  | inl r => ret r
  | inr q => generateReplyAfter w q
  end.

(** Two calls, the second after the first has returned. *)
Definition inTurn cfg w1 w2 m1 m2 c1 c2 n1 n2 : G (option text * option text) :=
  r1 ← generateReply cfg w1 m1 c1 n1;
  r2 ← generateReply cfg w2 m2 c2 n2;
  ret (r1, r2).

(** The second call starts while the first awaits the completion. *)
Definition overlapped cfg w1 w2 m1 m2 c1 c2 n1 n2 :
    G (option text * option text) :=
  x1 ← generateReplyBefore cfg w1 m1 c1 n1;
  x2 ← generateReplyBefore cfg w2 m2 c2 n2;
  r1 ← settled w1 x1;
  r2 ← settled w2 x2;
  ret (r1, r2).

(** The calls as far as the constructors of the monad go. *)
Ltac calls :=
  unfold inTurn, overlapped, settled, generateReply, generateReplyBefore,
    generateReplyAfter;
  handler_simpl; simpl.

Lemma inTurn_result cfg w1 w2 m1 m2 c n1 n2 s raw1 :
  GeminiLimit.canReply (MAX_MESSAGES_PER_MINUTE cfg) (tCheck w1) c
    (lastReplyTime s) = true →
  GeminiLimit.canReply (MAX_MESSAGES_PER_MINUTE cfg) (tCheck w2) c
    (<[c := tSet w1]> (lastReplyTime s)) = false →
  completion w1 = Ok raw1 →
  result (inTurn cfg w1 w2 m1 m2 c c n1 n2) s = Ok (Some (trim raw1), None).
Proof. intros H1 H2 Hc1. calls. by rewrite H1, Hc1; simpl; rewrite H2. Qed.

Lemma overlapped_result cfg w1 w2 m1 m2 c n1 n2 s raw1 raw2 :
  GeminiLimit.canReply (MAX_MESSAGES_PER_MINUTE cfg) (tCheck w1) c
    (lastReplyTime s) = true →
  GeminiLimit.canReply (MAX_MESSAGES_PER_MINUTE cfg) (tCheck w2) c
    (lastReplyTime s) = true →
  completion w1 = Ok raw1 → completion w2 = Ok raw2 →
  result (overlapped cfg w1 w2 m1 m2 c c n1 n2) s =
  Ok (Some (trim raw1), Some (trim raw2)).
Proof.
  intros H1 H2 Hc1 Hc2. calls.
  by repeat (first [rewrite H1 | rewrite H2 | rewrite Hc1 | rewrite Hc2]; simpl).
Qed.

Lemma canReply_insert_ne (e : env_int) (now t : Z) c c' (lrt : GeminiLimit.store) :
  c ≠ c' →
  GeminiLimit.canReply e now c' (<[c := t]> lrt) = GeminiLimit.canReply e now c' lrt.
Proof. intros Hc. unfold GeminiLimit.canReply. by rewrite lookup_insert_ne. Qed.

(** Calls for two contacts do not see each other. *)
Lemma overlapped_inTurn cfg w1 w2 m1 m2 c1 c2 n1 n2 s :
  c1 ≠ c2 →
  run (overlapped cfg w1 w2 m1 m2 c1 c2 n1 n2) s =
  run (inTurn cfg w1 w2 m1 m2 c1 c2 n1 n2) s.
Proof.
  intros Hc. calls.
  destruct (GeminiLimit.canReply _ (tCheck w1) _ _) eqn:H1; simpl;
    [destruct (completion w1); simpl|];
    rewrite ?canReply_insert_ne, ?get_updateChat_ne by done;
    destruct (GeminiLimit.canReply _ (tCheck w2) _ _) eqn:H2; simpl; try done;
    by destruct (completion w2).
Qed.

End overlap.

(** ** What the schedules of the event loop can and cannot do *)

Section interleaving.
Import SessionManager AsyncSession.
Context {E : Type} `{AwaitingEngine E}.
Implicit Types (y : system (E:=E)) (w : inbound) (m : message).
Implicit Types (cfg : SessionTyping.config) (p : point) (f : flight) (l : pool).
Implicit Types (i : input) (ins : list input) (fs : list flight).


(** C19: whatever the event loop runs and in whatever order (events of
    the client, runs of [handleIncomingMessage] that go on from one await
    to the next, methods that wake up, stop and restart requests), the
    invariant of the session holds afterwards, and [messageCount] has
    grown by the number of ['message_reply'] events. *)
Theorem schedule_keeps_inv cfg ins l :
  inv (session l) →
  inv (session (exec cfg ins l).1) ∧
  replies (session (exec cfg ins l).1) =
  (replies (session l) + weight isMessageReply (exec cfg ins l).2)%Z.
Proof. intros Hl. split; [by apply exec_inv_session | apply exec_replies]. Qed.

(** C20: in every schedule that starts with no run in flight, every
    [message.reply] goes to a message that is not the session's own and
    does not come from a group. *)
Theorem schedule_replies_screened cfg ins y m r :
  Reply m r ∈ (exec cfg ins (Pool y [])).2 →
  fromMe m = false ∧ includes (js "@g.us") (from m) = false.
Proof.
  intros Hin.
  destruct (exec_answers cfg ins (Pool y [])) as [_ Ha]; [by constructor|].
  rewrite Forall_forall in Ha. specialize (Ha _ Hin). simpl in Ha.
  unfold passes in Ha. by destruct (fromMe m), (includes _ (from m)).
Qed.


(** C17: a stop request does not cancel a run in flight.  After
    [stopClient] has set [isReady] to false and destroyed the client,
    the run at [k] makes the calls it would have made without the stop,
    [message.reply] included, and lands at the same await. *)
Theorem stop_does_not_cancel cfg k l f c :
  inflight l !! k = Some f →
  (settle cfg k (step cfg (StopClient c) l).1).2 = (settle cfg k l).2 ∧
  inflight (settle cfg k (step cfg (StopClient c) l).1).1 =
  inflight (settle cfg k l).1.
Proof. intros Hf. by eapply settle_inSession; [apply untouched_stopClient|]. Qed.

End interleaving.

Section racing.
Import GeminiEngine GeminiAwait.

(** C16: [canReply] is tested before [await generateContent] and
    [lastReplyTime] is set after it.  Two calls for one contact that
    both pass the test on the state [s] are both answered when the second
    starts while the first awaits the completion, although the second is
    refused when it starts after the first has returned. *)
Theorem overlapping_calls_both_answered cfg w1 w2 m1 m2 c n1 n2 s raw1 raw2 :
  GeminiLimit.canReply (MAX_MESSAGES_PER_MINUTE cfg) (tCheck w1) c
    (lastReplyTime s) = true →
  GeminiLimit.canReply (MAX_MESSAGES_PER_MINUTE cfg) (tCheck w2) c
    (lastReplyTime s) = true →
  GeminiLimit.canReply (MAX_MESSAGES_PER_MINUTE cfg) (tCheck w2) c
    (<[c := tSet w1]> (lastReplyTime s)) = false →
  completion w1 = Ok raw1 → completion w2 = Ok raw2 →
  result (inTurn cfg w1 w2 m1 m2 c c n1 n2) s = Ok (Some (trim raw1), None) ∧
  result (overlapped cfg w1 w2 m1 m2 c c n1 n2) s =
  Ok (Some (trim raw1), Some (trim raw2)).
Proof.
  intros H1 H2 H3 Hc1 Hc2.
  split; [by apply inTurn_result | by apply overlapped_result].
Qed.

(** The race is confined to one contact.  Two calls for different
    contacts return the same replies, leave the same histories and reply
    times and make the same calls of the completion service whether the
    second starts while the first awaits the completion or after the first
    has returned. *)
Theorem contacts_do_not_race cfg w1 w2 m1 m2 c1 c2 n1 n2 s :
  c1 ≠ c2 →
  run (overlapped cfg w1 w2 m1 m2 c1 c2 n1 n2) s =
  run (inTurn cfg w1 w2 m1 m2 c1 c2 n1 n2) s.
Proof. apply overlapped_inTurn. Qed.

End racing.

(** ** Schedules by evaluation

    The ready session of [Session.v] with [GeminiAI] as its engine.  The
    client emits ['message_create'] and ['message'] for one incoming
    message; the service answers both calls. *)

Section interleaving_examples.
Import SessionManager AsyncSession.

#[local] Existing Instance engine0.
#[local] Instance awaiting0 : AwaitingEngine GeminiEngine.state :=
  gemini_awaiting (GeminiEngine.Config None).

(** The second call of the engine, half a second after the first. *)
Definition againWorld : GeminiEngine.world :=
  GeminiEngine.World 1500 (Ok (js "Hello again")) 1501 1502 1503 (1 # 2).

(** What the handler of ['message'] gets for the message. *)
Definition inbound1 : inbound :=
  Inbound 1000510 (Ok contact0) againWorld (Ok tt) (Ok tt) (1 # 4) (Ok tt)
          (Ok tt) 1000700 (Ok tt).

(** Both handlers get as far as the completion service before either
    call returns. *)
Definition overlapping : list input :=
  [ClientEvent (EvMessageCreate inbound0 message0);
   ClientEvent (EvMessage inbound1 message0); Settle 0; Settle 1] ++
  replicate 6 (Settle 0) ++ replicate 6 (Settle 0).

(** The handlers one after the other, each in one piece. *)
Definition oneByOne : list input :=
  (ClientEvent (EvMessageCreate inbound0 message0) :: replicate 8 (Settle 0)) ++
  (ClientEvent (EvMessage inbound1 message0) :: replicate 8 (Settle 0)).


(** The session is stopped while a run awaits [getChat]. *)
Definition stopping : list input :=
  [ClientEvent (EvMessage inbound0 message0); Settle 0; Settle 0;
   StopClient (Socket (js "s1")); Wake (StopDestroying (Socket (js "s1"))) (Ok tt)] ++
  replicate 5 (Settle 0).

(** The clients destroyed and the replies sent, in the order of the
    calls. *)
Definition teardown (t : list act) : list (nat + text) :=
  omap (λ a, match a with
             | Destroy h => Some (inl h)
             | Reply _ r => Some (inr r)
             | _ => None
             end) t.

(** The reply goes out after the client was destroyed, from a session
    that is not ready and has no client. *)
Example reply_after_stop :
  teardown (exec cfg0 stopping (Pool ready0 [])).2 = [inl 0; inr (js "Hi Asha!")] ∧
  isReady (this (session (exec cfg0 stopping (Pool ready0 [])).1)) = false ∧
  client (this (session (exec cfg0 stopping (Pool ready0 [])).1)) = None.
Proof. repeat split; vm_compute; reflexivity. Qed.

Lemma ready0_inv : inv ready0.
Proof.
  split; simpl; [apply init_inv | | | done | done].
  - intros h ->%elem_of_singleton. lia.
  - intros h [= <-]. lia.
Qed.

Lemma schedule_keeps_inv_witness :
  inv (session (exec cfg0 overlapping (Pool ready0 [])).1) ∧
  replies (session (exec cfg0 overlapping (Pool ready0 [])).1) =
  (replies (session (Pool ready0 [])) +
   weight isMessageReply (exec cfg0 overlapping (Pool ready0 [])).2)%Z.
Proof.
  apply (schedule_keeps_inv cfg0 overlapping (Pool ready0 [])), ready0_inv.
Defined.

Lemma schedule_replies_screened_witness :
  fromMe message0 = false ∧ includes (js "@g.us") (from message0) = false.
Proof.
  apply (schedule_replies_screened cfg0 overlapping ready0 message0 (js "Hi Asha!")).
  apply (list_elem_of_lookup_2 _ 8). reflexivity.
Defined.

(** A run that awaits [message.reply(..)]. *)
Definition awaitingReply : pool :=
  Pool ready0 [Flight inbound0 message0
                 (ReplyAwaited (Draft (js "Asha") (js "hello") (js "Hi Asha!")))].

Lemma stop_does_not_cancel_witness :
  (settle cfg0 0 (step cfg0 (StopClient (Socket (js "s1"))) awaitingReply).1).2 =
  (settle cfg0 0 awaitingReply).2 ∧
  inflight (settle cfg0 0 (step cfg0 (StopClient (Socket (js "s1"))) awaitingReply).1).1 =
  inflight (settle cfg0 0 awaitingReply).1.
Proof.
  apply (stop_does_not_cancel cfg0 0 awaitingReply
           (Flight inbound0 message0
              (ReplyAwaited (Draft (js "Asha") (js "hello") (js "Hi Asha!"))))
           (Socket (js "s1"))).
  reflexivity.
Defined.

Lemma overlapping_calls_both_answered_witness :
  result (inTurn (GeminiEngine.Config None) answeringWorld againWorld
            (js "hello") (js "hello") (js "911234567890") (js "911234567890")
            (js "Asha") (js "Asha"))
         GeminiEngine.init = Ok (Some (trim (js " Hi Asha! ")), None) ∧
  result (overlapped (GeminiEngine.Config None) answeringWorld againWorld
            (js "hello") (js "hello") (js "911234567890") (js "911234567890")
            (js "Asha") (js "Asha"))
         GeminiEngine.init =
  Ok (Some (trim (js " Hi Asha! ")), Some (trim (js "Hello again"))).
Proof.
  apply (overlapping_calls_both_answered (GeminiEngine.Config None)
           answeringWorld againWorld (js "hello") (js "hello")
           (js "911234567890") (js "Asha") (js "Asha") GeminiEngine.init
           (js " Hi Asha! ") (js "Hello again")); reflexivity.
Defined.

Lemma contacts_do_not_race_witness :
  run (overlapped (GeminiEngine.Config None) answeringWorld againWorld
         (js "hello") (js "hi") (js "911234567890") (js "919876543210")
         (js "Asha") (js "Ravi")) GeminiEngine.init =
  run (inTurn (GeminiEngine.Config None) answeringWorld againWorld
         (js "hello") (js "hi") (js "911234567890") (js "919876543210")
         (js "Asha") (js "Ravi")) GeminiEngine.init.
Proof.
  apply (contacts_do_not_race (GeminiEngine.Config None) answeringWorld
           againWorld (js "hello") (js "hi") (js "911234567890")
           (js "919876543210") (js "Asha") (js "Ravi") GeminiEngine.init).
  discriminate.
Defined.

End interleaving_examples.
