(* ===== verification/Server.v ===== *)
(** * The server

    Class [WhatsAppBotServer] of [src/server.js]: the routes of
    [setupRoutes] (lines 99-215), the socket handlers of
    [setupSocketHandlers] (lines 217-297), the shutdown handler of
    [setupCleanupHandlers] (lines 299-353) and the hourly timer of
    [startServer] (lines 382-386), over the session manager of [Session]
    with [GeminiAI] as its reply engine.

    [this.geminiAI] and the [geminiAI] field of the session manager are
    one object: the engine lives in the session's state and the routes
    that clear or clean the history update it there.  [init] sets
    [this.geminiAI] and [this.sessionManager] one after the other with
    nothing in between, so the model has one field for both [null]
    tests.

    [step] runs one handler, or one part of a method that was cut at an
    [await]; [runs] are the runs of the server, where an event needs a
    live adapter handle and the rest of a method needs its pending task.
    The response of [POST /api/restart], which is sent when the whole
    restart has run, is not modelled. *)

From Stdlib Require Import QArith.
From S2P Require Import Prelude Effects History RateLimit Typing Engine Session.
Local Close Scope Q_scope.

Module BotServer.
Export SessionManager.

Abbreviation session := (system (E:=GeminiEngine.state)).

Section server.
Context (ecfg : GeminiEngine.config) (tcfg : SessionTyping.config).

#[local] Instance engine : ReplyEngine GeminiEngine.state := gemini_engine ecfg.

Abbreviation session_act := (SessionManager.act (E:=GeminiEngine.state)).

(** The events of [socket.emit]. *)
Inductive socket_event : Type :=
| ConnectionStatus (s : status)
| SocketReady
| SocketError (msg : text)
| MessageSent (r : send_result).

(** The bodies of [res.json]; [None] for [whatsapp] is
    [{ isReady: false }] in [GET /] and [null] in [GET /api/status]. *)
Inductive body : Type :=
| Health (whatsapp : option status) (connectedClients : nat)
| StatusReport (whatsapp : option status) (ai : option GeminiEngine.stats)
    (connectedClients : nat)
| SendResult (r : send_result)
| Success (message : text)
| Failure (error : text)
| NotFound.

(** The calls of the outside world. *)
Inductive act : Type :=
| SessionCall (a : session_act)
| SocketEmit (id : text) (e : socket_event)
| Respond (code : Z) (b : body)
| ServerClose
| IoClose
| Exit (code : Z).

Record server : Type := Server {
  sessionManager : option session;
  connectedClients : gset text;
  (** [process.exit] was called *)
  exited : bool;
}.

(** The server after [init()]. *)
Definition init : server :=
  Server (Some (SessionManager.init GeminiEngine.init)) ∅ false.

Abbreviation M := (handler server act error).

(** The session manager, read under a test that it is not [null]. *)
Definition sess (s : server) : session :=
  default (SessionManager.init GeminiEngine.init) (sessionManager s).

Definition setSession (y : session) (s : server) : server :=
  Server (Some y) (connectedClients s) (exited s).

Definition setConnected (f : gset text → gset text) (s : server) : server :=
  Server (sessionManager s) (f (connectedClients s)) (exited s).

(** A method of [this.sessionManager]. *)
Definition inSession {A} (m : handler session session_act error A) : M A :=
  zoom sess setSession SessionCall m.

(** A method of [this.geminiAI] that updates the engine. *)
Definition onEngine (f : GeminiEngine.state → GeminiEngine.state) : M unit :=
  modify (λ s, setSession (onThis (λ t, setEngine (f (geminiAI t)) t) (sess s)) s).

(** *** The routes, lines 99-215 *)

(** [GET /]. *)
Definition getRoot : M unit :=
  s ← get;
  emit (Respond 200 (Health (getStatus <$> sessionManager s)
                            (size (connectedClients s)))).

(** [GET /api/status]; [now] is the clock of [getStats]. *)
Definition getApiStatus (now : Z) : M unit :=
  catch
    (s ← get;
     let status := getStatus <$> sessionManager s in
     let aiStats :=
       (λ y, GeminiEngine.getStats now (geminiAI (this y))) <$> sessionManager s in
     emit (Respond 200 (StatusReport status aiStats (size (connectedClients s)))))
    (λ e, emit (Respond 500 (Failure (error_message e)))).

Definition notReady : text := js "WhatsApp client is not ready".

(** [POST /api/send-message]; [to] and [message] are the fields of the
    body, [None] when missing. *)
Definition postSendMessage (to message : option text) (r : outcome error unit) :
    M unit :=
  catch
    (if negb (truthyText to) || negb (truthyText message)
     then emit (Respond 400 (Failure (js "Missing required fields: to, message")))
     else
       s ← get;
       match sessionManager s with
       | Some y =>
         if negb (isReady (this y))
         then emit (Respond 503 (Failure notReady))
         else
           result ← inSession (sendMessage (default [] to) (default [] message) r);
           emit (Respond 200 (SendResult result))
       | None => emit (Respond 503 (Failure notReady))
       end)
    (λ e, emit (Respond 500 (Failure (error_message e)))).

(** [POST /api/clear-history/:contact]. *)
Definition postClearHistory (contact : text) : M unit :=
  catch
    (s ← get;
     match sessionManager s with
     | Some _ =>
       onEngine (GeminiEngine.clearChatHistory contact);;
       emit (Respond 200 (Success (js "Chat history cleared")))
     | None => emit (Respond 503 (Failure (js "AI not available")))
     end)
    (λ e, emit (Respond 500 (Failure (error_message e)))).

(** [POST /api/restart], up to the first [await] of [restartClient]. *)
Definition postRestart : M unit :=
  catch
    (s ← get;
     match sessionManager s with
     | Some _ => inSession restartClient
     | None => emit (Respond 503 (Failure (js "Session manager not available")))
     end)
    (λ e, emit (Respond 500 (Failure (error_message e)))).

(** Any other route. *)
Definition notFound : M unit := emit (Respond 404 NotFound).

(** *** The socket handlers, lines 217-297 *)

(** ['connection']. *)
Definition onConnection (id : text) : M unit :=
  modify (setConnected (λ c, {[id]} ∪ c));;
  s ← get;
  match sessionManager s with
  | Some y => emit (SocketEmit id (ConnectionStatus (getStatus y)))
  | None => ret tt
  end.

Definition startFailed (id : text) (e : error) : M unit :=
  emit (SocketEmit id (SocketError (js "Failed to start bot: " ++ error_message e))).

(** ['start_bot'], up to the [await] of [initializeClient]. *)
Definition onStartBot (id : text) (ctor : outcome error unit) : M unit :=
  catch
    (s ← get;
     match sessionManager s with
     | None => emit (SocketEmit id (SocketError (js "Session manager not initialized")))
     | Some y =>
       if isReady (this y) then emit (SocketEmit id SocketReady)
       else inSession (startClient (Socket id) ctor)
     end)
    (startFailed id).

(** ['stop_bot'], up to the [await] of [stopClient]. *)
Definition onStopBot (id : text) : M unit :=
  catch
    (s ← get;
     match sessionManager s with
     | Some _ => inSession (stopClient (Socket id))
     | None => ret tt
     end)
    (λ e, emit (SocketEmit id
                  (SocketError (js "Failed to stop bot: " ++ error_message e)))).

(** ['send_message']. *)
Definition onSendMessage (id to message : text) (r : outcome error unit) :
    M unit :=
  catch
    (s ← get;
     match sessionManager s with
     | Some y =>
       if negb (isReady (this y))
       then emit (SocketEmit id (SocketError notReady))
       else
         result ← inSession (sendMessage to message r);
         emit (SocketEmit id (MessageSent result))
     | None => emit (SocketEmit id (SocketError notReady))
     end)
    (λ e, emit (SocketEmit id (SocketError (error_message e)))).

(** ['disconnect']. *)
Definition onDisconnect (id : text) : M unit :=
  modify (setConnected (λ c, c ∖ {[id]})).

(** *** Shutdown and the hourly timer, lines 299-353 and 382-386 *)

Definition exit (code : Z) : M unit :=
  emit (Exit code);;
  modify (λ s, Server (sessionManager s) (connectedClients s) true).

(** [this.geminiAI.cleanup()] under its test. *)
Definition cleanupAI (now : Z) : M unit :=
  s ← get;
  match sessionManager s with
  | Some _ => onEngine (GeminiEngine.cleanup now)
  | None => ret tt
  end.

(** The shutdown handler after [await this.sessionManager.stopClient()]. *)
Definition cleanupAfterStop (now : Z) : M unit :=
  cleanupAI now;;
  exit 0.

(** [cleanup(signal)], up to the [await] of [stopClient]; when there is
    no client, [stopClient] does not wait and the handler runs on. *)
Definition cleanup (signal : text) (now : Z) : M unit :=
  catch
    (emit ServerClose;;
     emit IoClose;;
     s ← get;
     match sessionManager s with
     | Some y =>
       inSession (stopClient (Signal signal));;
       match client (this y) with
       | Some _ => ret tt
       | None => cleanupAfterStop now
       end
     | None => cleanupAfterStop now
     end)
    (λ _, exit 1).

(** The handler of ['error'] of the HTTP server, lines 389-396; [code]
    is [error.code]. *)
Definition onServerError (code : option text) : M unit :=
  if strictEq (default [] code) (js "EADDRINUSE") then exit 1 else ret tt.

(** *** The machine *)

(** What can happen: an event of the adapter handle [h], the rest of a
    suspended method with the result it awaited, a request of a socket or
    of the API, the hourly timer, a signal. *)
Inductive input : Type :=
| Event (h : nat) (ev : event)
| Resume (t : task) (r : outcome error unit) (now : Z)
| Connection (id : text)
| StartBot (id : text) (ctor : outcome error unit)
| StopBot (id : text)
| SendMessage (id to message : text) (r : outcome error unit)
| Disconnect (id : text)
| GetRoot
| GetApiStatus (now : Z)
| PostSendMessage (to message : option text) (r : outcome error unit)
| PostClearHistory (contact : text)
| PostRestart
| OtherRoute
| CleanupTimer (now : Z)
| ServerError (code : option text)
| Shutdown (signal : text) (now : Z).

(** The rest of a suspended method, and of the handler that awaits it. *)
Definition resumeTask (t : task) (r : outcome error unit) (now : Z) : M unit :=
  match t with
  | StartInitializing (Socket id) => catch (inSession (resume t r)) (startFailed id)
  | StartInitializing (Signal _) => catch (inSession (resume t r)) (λ _, ret tt)
  | StopDestroying (Signal _) =>
    catch (inSession (resume t r);; cleanupAfterStop now) (λ _, exit 1)
  | _ => inSession (resume t r)
  end.

Definition step (i : input) : M unit :=
  match i with
  | Event _ ev => inSession (setupEventHandlers tcfg ev)
  | Resume t r now => resumeTask t r now
  | Connection id => onConnection id
  | StartBot id ctor => onStartBot id ctor
  | StopBot id => onStopBot id
  | SendMessage id to message r => onSendMessage id to message r
  | Disconnect id => onDisconnect id
  | GetRoot => getRoot
  | GetApiStatus now => getApiStatus now
  | PostSendMessage to message r => postSendMessage to message r
  | PostClearHistory contact => postClearHistory contact
  | PostRestart => postRestart
  | OtherRoute => notFound
  | CleanupTimer now => cleanupAI now
  | ServerError code => onServerError code
  | Shutdown signal now => cleanup signal now
  end.

(** An input can happen while the process runs, when its handle is live
    or its task pending. *)
Definition enabled (i : input) (s : server) : bool :=
  negb (exited s) &&
  match i with
  | Event h _ => bool_decide (h ∈ live (sess s))
  | Resume t _ _ => bool_decide (t ∈ pending (sess s))
  | _ => true
  end.

(** The inputs one after the other: the final state and all the calls,
    or [None] when an input cannot happen. *)
Fixpoint exec (ins : list input) (s : server) : option (server * list act) :=
  match ins with
  | [] => Some (s, [])
  | i :: ins' =>
    if enabled i s then
      '(s', t') ← exec ins' (final (step i) s);
      Some (s', trace (step i) s ++ t')
    else None
  end.

(** The runs of the server. *)
Inductive runs : server → list act → server → Prop :=
| runs_nil s : runs s [] s
| runs_step s i t s' :
    enabled i s = true →
    runs (final (step i) s) t s' →
    runs s (trace (step i) s ++ t) s'.

(** The invariant of the server is that of its session. *)
Definition inv (s : server) : Prop := SessionManager.inv (sess s).

(** The ['message_reply'] events among the calls. *)
Definition messageReplies (a : act) : Z :=
  match a with
  | SessionCall a => isMessageReply a
  | _ => 0
  end.

(** [messageCount] of the session manager. *)
Definition messageCount (s : server) : Z := SessionManager.messageCount (this (sess s)).

End server.

End BotServer.

(** ** Every handler keeps the invariant, returns, and counts replies *)

Create HintDb server discriminated.
#[export] Hint Unfold BotServer.step BotServer.resumeTask BotServer.getRoot
  BotServer.getApiStatus BotServer.postSendMessage BotServer.postClearHistory
  BotServer.postRestart BotServer.notFound BotServer.onConnection
  BotServer.startFailed BotServer.onStartBot BotServer.onStopBot
  BotServer.onSendMessage BotServer.onDisconnect BotServer.exit
  BotServer.cleanupAI BotServer.cleanupAfterStop BotServer.cleanup
  BotServer.onServerError : server.

Section server_facts.
Import BotServer.
Context (ecfg : GeminiEngine.config) (tcfg : SessionTyping.config).
Implicit Types (s : server) (i : input ecfg).

#[local] Instance server_engine : ReplyEngine GeminiEngine.state := engine ecfg.

Abbreviation session_act := (SessionManager.act (E:=GeminiEngine.state)).
Abbreviation inv := (BotServer.inv ecfg).
Abbreviation step := (BotServer.step ecfg tcfg).

Lemma server_inv_init : inv init.
Proof. apply (inv_init (H:=server_engine)), init_inv. Qed.

Lemma keeps_inSession {A} (m : handler session session_act error A) :
  keeps SessionManager.inv m → keeps inv (inSession ecfg m).
Proof. by apply keeps_zoom. Qed.

Lemma total_inSession {A} (m : handler session session_act error A) :
  total m → total (inSession ecfg m).
Proof. apply total_zoom. Qed.

Lemma balanced_inSession {A} (m : handler session session_act error A) :
  balanced replies isMessageReply m →
  balanced messageCount (messageReplies ecfg) (inSession ecfg m).
Proof. by apply balanced_zoom_in. Qed.

Lemma keeps_onEngine f :
  (∀ e, GeminiEngine.inv e → GeminiEngine.inv (f e)) → keeps inv (onEngine ecfg f).
Proof.
  intros Hf. apply keeps_modify. intros s [He ? ? ? ?]. split; simpl; auto.
Qed.

Lemma balanced_onEngine f :
  balanced messageCount (messageReplies ecfg) (onEngine ecfg f).
Proof. by apply balanced_modify. Qed.

Local Hint Resolve keeps_inSession total_inSession balanced_inSession
  keeps_onEngine balanced_onEngine
  keeps_setupEventHandlers keeps_resume keeps_startClient keeps_restartClient
  keeps_stopClient keeps_sendMessage
  total_setupEventHandlers total_restartClient total_stopClient total_sendMessage
  balanced_setupEventHandlers balanced_resume balanced_startClient
  balanced_restartClient balanced_stopClient balanced_sendMessage
  clearChatHistory_inv cleanup_inv : bot.

(** The rest of a judgment on a handler of the server: a handler of the
    session manager or of the engine, or an update that leaves the
    session alone. *)
Ltac server_rules :=
  autounfold with server;
  handler_rules_with ltac:(solve [auto 3 with bot]);
  first [ by apply keeps_modify
        | by apply balanced_emit
        | by apply balanced_modify
        | unfold messageCount, sess; simpl; lia
        | apply total_inSession, total_resume; congruence ].

Lemma keeps_step i : keeps inv (step i).
Proof. destruct i as [| [| | |[]|[]| |] | | | | | | | | | | | | | |]; server_rules. Qed.

(** No handler of the server lets an exception escape: every
    event handler of the session, every rest of a suspended method, every
    socket handler, every route, the hourly timer and the shutdown
    handler return, in every state and whatever the calls of the adapter,
    of the completion service and of the socket answer. *)
Theorem total_step i : total (step i).
Proof. destruct i as [| [| | |[]|[]| |] | | | | | | | | | | | | | |]; server_rules. Qed.

Lemma balanced_step i : balanced messageCount (messageReplies ecfg) (step i).
Proof. destruct i as [| [| | |[]|[]| |] | | | | | | | | | | | | | |]; server_rules. Qed.

(** ** The runs of the server *)

Abbreviation runs := (BotServer.runs ecfg tcfg).
Abbreviation exec := (BotServer.exec ecfg tcfg).

(** A sequence of inputs that [exec] accepts is a run. *)
Lemma exec_runs ins s s' t : exec ins s = Some (s', t) → runs s t s'.
Proof.
  revert s s' t. induction ins as [|i ins IH]; intros s s' t; simpl.
  - intros [= <- <-]. constructor.
  - destruct (enabled ecfg i s) eqn:Hi; [|done].
    destruct (exec ins _) as [[s1 t1]|] eqn:He; simpl; [|done].
    intros [= <- <-]. constructor; auto.
Qed.

Lemma runs_inv s t s' : runs s t s' → inv s → inv s'.
Proof. induction 1 as [|s i t s' _ _ IH]; [done|]. intros Hs. by apply IH, keeps_step. Qed.

Lemma runs_balanced s t s' :
  runs s t s' → messageCount s' = (messageCount s + weight (messageReplies ecfg) t)%Z.
Proof.
  induction 1 as [|s i t s' _ _ IH]; [simpl; lia|].
  rewrite IH, weight_app, (balanced_step i s). lia.
Qed.

Lemma reachable_inv t s : runs init t s → inv s.
Proof. intros Hr. apply (runs_inv _ _ _ Hr), server_inv_init. Qed.

(** An error of the HTTP server ends the process, with code 1, exactly
    when the port is taken; any other error is logged and the server
    goes on as it is. *)
Lemma onServerError_run code s :
  run (step (ServerError ecfg code)) s =
  if bool_decide (code = Some (js "EADDRINUSE"))
  then run (exit ecfg 1) s else (Ok tt, s, []).
Proof.
  simpl. unfold onServerError, strictEq.
  destruct code as [c|]; simpl; [|done].
  destruct (decide (c = js "EADDRINUSE")) as [->|Hne]; [done|].
  rewrite !bool_decide_eq_false_2; [done | congruence | done].
Qed.

(** The history that the engine of the server keeps for a contact. *)
Definition historyOf (c : text) s : list GeminiHistory.entry :=
  GeminiHistory.getChatHistory c (GeminiEngine.chatHistory (geminiAI (this (sess s)))).

(** In every state that the server reaches, by any sequence of
    adapter events, resumed methods, socket requests, API requests, timer
    ticks and signals, the history that [GeminiAI] keeps for a contact
    has at most ten messages and is made of whole exchanges, a user
    message followed by the reply to it. *)
Theorem server_history_bounded t s c :
  runs init t s →
  length (historyOf c s) ≤ 10 ∧ GeminiHistory.paired (historyOf c s) = true.
Proof.
  intros Hr. destruct (reachable_inv t s Hr) as [He _ _ _ _].
  apply (wf_get _ c He).
Qed.

(** In every run of the server from its start, [messageCount] of
    the session manager is the number of ['message_reply'] events that
    were emitted: the counter moves only when a reply went out, once for
    each. *)
Theorem messageCount_counts t s :
  runs init t s → messageCount s = weight (messageReplies ecfg) t.
Proof. intros Hr. by rewrite (runs_balanced _ _ _ Hr). Qed.

(** ** The guards of the routes and of the socket handlers *)

(** [POST /api/send-message] without [to] or without [message]
    (missing or empty) answers 400 and touches nothing, whether the
    session is ready or not. *)
Theorem postSendMessage_missing to message r s :
  truthyText to = false ∨ truthyText message = false →
  run (postSendMessage ecfg to message r) s =
  (Ok tt, s, [Respond ecfg 400 (Failure (js "Missing required fields: to, message"))]).
Proof.
  unfold postSendMessage. handler_simpl.
  by intros [-> | ->]; rewrite ?orb_true_r.
Qed.

Lemma postSendMessage_notReady to message r s :
  truthyText to = true → truthyText message = true →
  isReady (this (sess s)) = false →
  run (postSendMessage ecfg to message r) s =
  (Ok tt, s, [Respond ecfg 503 (Failure notReady)]).
Proof.
  unfold postSendMessage, sess. handler_simpl. intros -> ->. simpl.
  destruct (sessionManager s) as [y|]; simpl; [|done]. by intros ->.
Qed.

Lemma onSendMessage_notReady id to message r s :
  isReady (this (sess s)) = false →
  run (onSendMessage ecfg id to message r) s =
  (Ok tt, s, [SocketEmit ecfg id (SocketError notReady)]).
Proof.
  unfold onSendMessage, sess. handler_simpl.
  destruct (sessionManager s) as [y|]; simpl; [|done]. by intros ->.
Qed.

(** Once the process has exited nothing happens. *)
Lemma exited_runs s t s' : exited s = true → runs s t s' → s' = s ∧ t = [].
Proof.
  intros Hx. destruct 1 as [|s i t s' Hi _]; [done|].
  unfold enabled in Hi. by rewrite Hx in Hi.
Qed.

End server_facts.

(** ** Scenarios

    Runs of the server with the environment's defaults, by evaluation. *)

Section scenarios.
Import BotServer.

Definition ecfg0 : GeminiEngine.config := GeminiEngine.Config None.
Definition tcfg0 : SessionTyping.config := SessionTyping.defaults.

(** Two sockets ask for a start before the client is ready. *)
Definition startTwice : list (input ecfg0) :=
  [ StartBot ecfg0 (js "s1") (Ok tt); StartBot ecfg0 (js "s2") (Ok tt) ].

(** The session disconnects, is stopped by hand within the five seconds
    of the reconnect timer, and the timer fires. *)
Definition stopThenTimer : list (input ecfg0) :=
  [ StartBot ecfg0 (js "s1") (Ok tt);
    Resume ecfg0 (StartInitializing (Socket (js "s1"))) (Ok tt) 0;
    Event ecfg0 0 (EvReady (Ok tt));
    Event ecfg0 0 (EvDisconnected (js "NAVIGATION"));
    StopBot ecfg0 (js "s1");
    Resume ecfg0 (StopDestroying (Socket (js "s1"))) (Ok tt) 0;
    Resume ecfg0 ReconnectTimer (Ok tt) 0;
    Resume ecfg0 RestartSleeping (Ok tt) 0 ].

(** Four QR codes are shown without a scan. *)
Definition fourQr : list (input ecfg0) :=
  StartBot ecfg0 (js "s1") (Ok tt) ::
  replicate 4 (Event ecfg0 0 (EvQr (js "qr") (Ok (js "data:image/png")))).

(** The clients created ([inl]) and destroyed ([inr]) among the calls. *)
Definition clientCalls (t : list (act ecfg0)) : list (nat + nat) :=
  omap (λ a, match a with
             | SessionCall _ (NewClient h) => Some (inl h)
             | SessionCall _ (Destroy h) => Some (inr h)
             | _ => None
             end) t.

(** What [exec] leaves of a scenario: the clients created and destroyed,
    [this.client], the number of live handles, and what is pending. *)
Definition outcomeOf (ins : list (input ecfg0)) :
    option (list (nat + nat) * option nat * nat * list task) :=
  '(s, t) ← exec ecfg0 tcfg0 ins init;
  Some (clientCalls t, client (this (sess s)), size (live (sess s)),
        pending (sess s)).

Lemma outcomeOf_runs ins calls c l p :
  outcomeOf ins = Some (calls, c, l, p) →
  ∃ t s, runs ecfg0 tcfg0 init t s ∧ clientCalls t = calls ∧
         client (this (sess s)) = c ∧ size (live (sess s)) = l ∧
         pending (sess s) = p.
Proof.
  unfold outcomeOf. destruct (exec _ _ _ _) as [[s t]|] eqn:He; [|done].
  simpl. intros [= <- <- <- <-]. exists t, s. split; [|done].
  by apply (exec_runs ecfg0 tcfg0 ins).
Qed.



(** Four QR codes without a scan start one restart: the first three
    only count, the fourth finds [qrRetries] above [maxQrRetries] and
    destroys the client, once; the client is no longer live and the
    restart waits for [destroy] to resolve. *)
Example four_qr_one_restart :
  ∃ t s, runs ecfg0 tcfg0 init t s ∧ clientCalls t = [inl 0; inr 0] ∧
         client (this (sess s)) = Some 0 ∧ size (live (sess s)) = 0 ∧
         pending (sess s) = [RestartDestroying; StartInitializing (Socket (js "s1"))].
Proof. apply (outcomeOf_runs fourQr). vm_compute. reflexivity. Qed.

(** A session that is started, becomes ready and answers one message. *)
Definition oneReply : list (input ecfg0) :=
  [ StartBot ecfg0 (js "s1") (Ok tt);
    Resume ecfg0 (StartInitializing (Socket (js "s1"))) (Ok tt) 0;
    Event ecfg0 0 (EvReady (Ok tt));
    Event ecfg0 0 (EvMessage inbound0 message0) ].

Definition replied : server * list (act ecfg0) :=
  default (init, []) (exec ecfg0 tcfg0 oneReply init).

Lemma replied_runs : runs ecfg0 tcfg0 init replied.2 replied.1.
Proof. by apply (exec_runs ecfg0 tcfg0 oneReply). Qed.

Lemma server_history_bounded_witness :
  length (historyOf (js "911234567890") replied.1) ≤ 10 ∧
  GeminiHistory.paired (historyOf (js "911234567890") replied.1) = true.
Proof.
  apply (server_history_bounded ecfg0 tcfg0 replied.2 replied.1), replied_runs.
Defined.

Lemma messageCount_counts_witness :
  messageCount replied.1 = weight (messageReplies ecfg0) replied.2.
Proof.
  apply (messageCount_counts ecfg0 tcfg0 replied.2 replied.1), replied_runs.
Defined.

Lemma postSendMessage_missing_witness :
  run (postSendMessage ecfg0 None (Some (js "hello")) (Ok tt)) init =
  (Ok tt, init,
   [Respond ecfg0 400 (Failure (js "Missing required fields: to, message"))]).
Proof.
  apply (postSendMessage_missing ecfg0 None (Some (js "hello")) (Ok tt) init).
  by left.
Defined.

End scenarios.

