(* ===== verification/Registry.v ===== *)
(** * The session registry

    Class [WhatsAppHandler] of [src/whatsapp-handler.js]: the map
    [clients] from session ids to adapter clients, bounded by
    [maxSessions].

    - [registry] holds [clients] and what the object does not hold but
      its behaviour depends on: the clients that were constructed and not
      destroyed, each with the session id that the closures of its event
      handlers captured ([handles]), and the next fresh handle.
    - [createClient], [destroySession], [restartSession],
      [cleanupAllSessions], [sendMessage], [sendMedia] and
      [getContactInfo] are run in one piece; the results of the calls
      they await are arguments.  [getQRCode] is given the event that
      settles its promise first.
    - [formatPhoneNumber], [isValidWhatsAppNumber] and
      [extractPhoneFromMessage] are functions on strings. *)

From S2P Require Import Prelude Effects Typing.

Module WhatsAppHandler.

(** The calls of the outside world. *)
Inductive act : Type :=
| NewClient (h : nat) (sessionId : text)
| Destroy (h : nat)
| RemoveSessionDir (sessionId : text)
| GetChatById (h : nat) (chatId : text)
| SendStateTyping (h : nat) (chatId : text)
| Sleep (ms : Z)
| ClientSendMessage (h : nat) (chatId message : text)
| GetState (h : nat)
| Access
| Mkdir
| FromFilePath (mediaPath : text)
| ClientSendMedia (h : nat) (chatId mediaPath caption : text)
| Initialize (h : nat)
| GetContactById (h : nat) (chatId : text)
| GetProfilePicUrl (h : nat) (chatId : text).

Record registry : Type := Registry {
  clients : gmap text nat;
  handles : gmap nat text;
  nextClient : nat;
}.

(** [parseInt(process.env.MAX_SESSIONS) || 10]. *)
Definition maxSessions (e : env_int) : Z := parseIntOr e 10.

(** The object after its constructor. *)
Definition init : registry := Registry ∅ ∅ 0.

Abbreviation M := (handler registry act error).

Definition setClients (f : gmap text nat → gmap text nat) (s : registry) : registry :=
  Registry (f (clients s)) (handles s) (nextClient s).

Definition notFound (sessionId : text) : error :=
  Error (js "Session " ++ sessionId ++ js " not found").

(** [new Client(..)] and the handlers it is given, which capture
    [sessionId]. *)
Definition newClient (sessionId : text) : M nat :=
  s ← get;
  let h := nextClient s in
  modify (λ s, Registry (clients s) (<[nextClient s := sessionId]> (handles s))
                        (S (nextClient s)));;
  emit (NewClient h sessionId);;
  ret h.

(** [createClient(sessionId)], lines 65-129; [ctor] is the result of
    [new Client(..)]. *)
Definition createClient (e : env_int) (sessionId : text)
    (ctor : outcome error unit) : M nat :=
  s ← get;
  match clients s !! sessionId with
  | Some client => ret client
  | None =>
    if (maxSessions e <=? Z.of_nat (size (clients s)))%Z
    then throw (Error (js "Maximum sessions limit reached (" ++
                       decimal (maxSessions e) ++ js ")"))
    else
      catch
        (await ctor;;
         client ← newClient sessionId;
         modify (setClients <[sessionId := client]>);;
         ret client)
        (λ error, throw error)
  end.

(** [cleanupSession(sessionId)], lines 279-295: the session's directory
    is removed if it is there; nothing is thrown. *)
Definition cleanupSession (sessionId : text) : M unit :=
  emit (RemoveSessionDir sessionId).

(** The handler of ['auth_failure'] of the client [h], lines 99-102. *)
Definition onAuthFailure (h : nat) : M unit :=
  s ← get;
  match handles s !! h with
  | Some sessionId => modify (setClients (delete sessionId))
  | None => ret tt
  end.

(** The handler of ['disconnected'] of the client [h], lines 114-118. *)
Definition onDisconnected (h : nat) : M unit :=
  s ← get;
  match handles s !! h with
  | Some sessionId =>
    modify (setClients (delete sessionId));;
    cleanupSession sessionId
  | None => ret tt
  end.

(** [client.destroy()]: the client emits no event from now on. *)
Definition destroy (h : nat) (r : outcome error unit) : M unit :=
  modify (λ s, Registry (clients s) (delete h (handles s)) (nextClient s));;
  call (Destroy h) r.

(** [destroySession(sessionId)], lines 253-277; [r] is the result of
    [client.destroy()]. *)
Definition destroySession (sessionId : text) (r : outcome error unit) : M bool :=
  s ← get;
  match clients s !! sessionId with
  | None => ret false
  | Some client =>
    catch
      (destroy client r;;
       modify (setClients (delete sessionId));;
       cleanupSession sessionId;;
       ret true)
      (λ _, modify (setClients (delete sessionId));; ret false)
  end.

(** [cleanupAllSessions()], lines 297-306: [destroySession] for the keys
    of [clients]; [rs] gives the result of [destroy] for each session. *)
Fixpoint destroyAll (rs : text → outcome error unit) (sessionIds : list text) :
    M unit :=
  match sessionIds with
  | [] => ret tt
  | sessionId :: rest =>
    destroySession sessionId (rs sessionId);; destroyAll rs rest
  end.

Definition cleanupAllSessions (rs : text → outcome error unit) : M unit :=
  s ← get;
  let sessionIds := (map_to_list (clients s)).*1 in
  destroyAll rs sessionIds.

(** [shutdown()], lines 432-436. *)
Definition shutdown (rs : text → outcome error unit) : M unit :=
  cleanupAllSessions rs.

(** [restartSession(sessionId)], lines 308-319. *)
Definition restartSession (e : env_int) (sessionId : text)
    (r ctor : outcome error unit) : M nat :=
  destroySession sessionId r;;
  emit (Sleep 2000);;
  createClient e sessionId ctor.

(** [formatPhoneNumber(number)], lines 200-215. *)
Definition formatPhoneNumber (number : text) : text :=
  let formatted := digitsOf number in
  let formatted :=
    if negb (startsWith (js "91") formatted) && (length formatted =? 10)
    then js "91" ++ formatted else formatted in
  if negb (includes (js "@c.us") formatted)
  then formatted ++ js "@c.us" else formatted.

(** [sendMessage(sessionId, to, message)], lines 144-174;
    [typingSimulation] is [process.env.TYPING_SIMULATION === 'true']. *)
Definition sendMessage (typingSimulation : bool) (sessionId to message : text)
    (rChat rTyping rSend : outcome error unit) : M unit :=
  s ← get;
  match clients s !! sessionId with
  | None => throw (notFound sessionId)
  | Some client =>
    catch
      (let formattedNumber := formatPhoneNumber to in
       when typingSimulation
         (call (GetChatById client formattedNumber) rChat;;
          call (SendStateTyping client formattedNumber) rTyping;;
          emit (Sleep (HandlerTyping.typingDelay message)));;
       call (ClientSendMessage client formattedNumber message) rSend)
      (λ error, throw error)
  end.

(** [ensureSessionDirectory()], lines 15-22: the directory is made when
    [fs.access] rejects; what [fs.mkdir] throws goes to the caller. *)
Definition ensureSessionDirectory (access mkdir : outcome error unit) : M unit :=
  catch (call Access access) (λ _, call Mkdir mkdir).

(** [sendMedia(sessionId, to, mediaPath, caption)], lines 176-198;
    [rMedia] is the result of [MessageMedia.fromFilePath]. *)
Definition sendMedia (sessionId to mediaPath caption : text)
    (rMedia rSend : outcome error unit) : M unit :=
  s ← get;
  match clients s !! sessionId with
  | None => throw (notFound sessionId)
  | Some client =>
    catch
      (call (FromFilePath mediaPath) rMedia;;
       let formattedNumber := formatPhoneNumber to in
       call (ClientSendMedia client formattedNumber mediaPath caption) rSend)
      (λ error, throw error)
  end.

(** What settles the promise of [getQRCode] first. *)
Inductive settled : Type :=
| QrArrives (qr : text)
| ReadyArrives
| AuthFailureArrives (msg : text)
| TimesOut
| InitializeRejects (error : error).

(** [getQRCode(sessionId)], lines 321-353; [hasBrowser] is
    [client.pupBrowser] as a boolean.  [initialize()] is called without
    a browser only, so that [InitializeRejects] comes first only then. *)
Definition getQRCode (sessionId : text) (hasBrowser : bool) (first : settled) :
    M text :=
  s ← get;
  match clients s !! sessionId with
  | None => throw (notFound sessionId)
  | Some client =>
    when (negb hasBrowser) (emit (Initialize client));;
    match first with
    | QrArrives qr => ret qr
    | ReadyArrives => throw (Error (js "Already authenticated"))
    | AuthFailureArrives msg => throw (Error (js "Authentication failed: " ++ msg))
    | TimesOut => throw (Error (js "QR code generation timeout"))
    | InitializeRejects error => throw error
    end
  end.

(** A contact of the adapter, as far as [getContactInfo] reads it. *)
Record contact : Type := Contact {
  contact_number : text;
  contact_name : option text;
  contact_pushname : option text;
  contact_isMyContact : bool;
}.

(** The object that [getContactInfo] returns. *)
Record contactInfo : Type := ContactInfo {
  number : text;
  name : option text;
  isMyContact : bool;
  profilePicUrl : option text;
}.

(** [getContactInfo(sessionId, number)], lines 377-397: [None] is
    [null]. *)
Definition getContactInfo (sessionId number : text)
    (rContact : outcome error contact) (rPic : outcome error text) :
    M (option contactInfo) :=
  s ← get;
  match clients s !! sessionId with
  | None => throw (notFound sessionId)
  | Some client =>
    catch
      (let formattedNumber := formatPhoneNumber number in
       contact ← call (GetContactById client formattedNumber) rContact;
       url ← catch (url ← call (GetProfilePicUrl client formattedNumber) rPic;
                    ret (Some url))
                   (λ _, ret None);
       ret (Some (ContactInfo (contact_number contact)
                    (if truthyOpt (contact_name contact) then contact_name contact
                     else contact_pushname contact)
                    (contact_isMyContact contact) url)))
      (λ _, ret None)
  end.

(** [isValidWhatsAppNumber(number)], lines 355-364. *)
Definition isValidWhatsAppNumber (number : text) : bool :=
  let formattedNumber := formatPhoneNumber number in
  includes (js "@c.us") formattedNumber && (12 <? length formattedNumber).

(** [s.replace(pattern, '')] with a string pattern: the first
    occurrence is removed. *)
Fixpoint removeFirst (pattern s : text) : text :=
  if startsWith pattern s then drop (length pattern) s
  else match s with
       | [] => []
       | c :: s' => c :: removeFirst pattern s'
       end.

(** [extractPhoneFromMessage(message)], lines 366-375; [from] is
    [message.from], [None] when it is missing. *)
Definition extractPhoneFromMessage (from : option text) : option text :=
  match from with
  | Some (c :: s) => Some (removeFirst (js "@c.us") (c :: s))
  | _ => None
  end.

(** What [getClientStatus] reads of a client: the result of [getState()],
    whether [client.info] is not [null], and
    [client.pupBrowser?.isConnected()]. *)
Record probe : Type := Probe {
  stateResult : outcome error (option text);
  hasInfo : bool;
  puppeteerConnected : bool;
}.

Record status : Type := Status {
  status_status : text;
  status_isReady : bool;
  status_puppeteerConnected : bool;
  status_error : option text;
}.

(** [getClientStatus(sessionId)], lines 217-238. *)
Definition getClientStatus (probes : nat → probe) (sessionId : text)
    (s : registry) : status :=
  match clients s !! sessionId with
  | None => Status (js "not_found") false false None
  | Some client =>
    match stateResult (probes client) with
    | Ok state =>
      Status (if nonEmpty (default [] state) then default [] state
              else js "unknown")
             (hasInfo (probes client)) (puppeteerConnected (probes client)) None
    | Throw error => Status (js "error") false false (Some (error_message error))
    end
  end.

(** [getAllSessions()], lines 240-251. *)
Definition getAllSessions (probes : nat → probe) (s : registry) :
    list (text * status) :=
  (λ '(sessionId, _), (sessionId, getClientStatus probes sessionId s))
    <$> map_to_list (clients s).

Record health : Type := Health {
  totalSessions : nat;
  activeSessions : nat;
  readySessions : nat;
  errorSessions : nat;
  sessions : list (text * status);
}.

(** One turn of the loop of [healthCheck]. *)
Definition healthStep (probes : nat → probe) (s : registry)
    (acc : health) (entry : text * nat) : health :=
  let status := getClientStatus probes entry.1 s in
  Health (totalSessions acc)
         (activeSessions acc + if puppeteerConnected (probes entry.2) then 1 else 0)
         (readySessions acc + if status_isReady status then 1 else 0)
         (errorSessions acc +
          if bool_decide (status_status status = js "error") then 1 else 0)
         (sessions acc ++ [(entry.1, status)]).

(** [healthCheck()], lines 400-429. *)
Definition healthCheck (probes : nat → probe) (s : registry) : health :=
  foldl (healthStep probes s) (Health (size (clients s)) 0 0 0 [])
        (map_to_list (clients s)).

(** *** The machine *)

Inductive input : Type :=
| Create (sessionId : text) (ctor : outcome error unit)
| DestroySession (sessionId : text) (r : outcome error unit)
| Restart (sessionId : text) (r ctor : outcome error unit)
| AuthFailure (h : nat)
| Disconnected (h : nat)
| Send (typingSimulation : bool) (sessionId to message : text)
    (rChat rTyping rSend : outcome error unit)
| Media (sessionId to mediaPath caption : text) (rMedia rSend : outcome error unit)
| QrCode (sessionId : text) (hasBrowser : bool) (first : settled)
| ContactInfoOf (sessionId number : text) (rContact : outcome error contact)
    (rPic : outcome error text)
| EnsureDirectory (access mkdir : outcome error unit)
| Shutdown (rs : text → outcome error unit).

Definition step (e : env_int) (i : input) : M unit :=
  match i with
  | Create sessionId ctor => createClient e sessionId ctor;; ret tt
  | DestroySession sessionId r => destroySession sessionId r;; ret tt
  | Restart sessionId r ctor => restartSession e sessionId r ctor;; ret tt
  | AuthFailure h => onAuthFailure h
  | Disconnected h => onDisconnected h
  | Send ts sessionId to message rChat rTyping rSend =>
    sendMessage ts sessionId to message rChat rTyping rSend
  | Media sessionId to mediaPath caption rMedia rSend =>
    sendMedia sessionId to mediaPath caption rMedia rSend
  | QrCode sessionId hasBrowser first => getQRCode sessionId hasBrowser first;; ret tt
  | ContactInfoOf sessionId number rContact rPic =>
    getContactInfo sessionId number rContact rPic;; ret tt
  | EnsureDirectory access mkdir => ensureSessionDirectory access mkdir
  | Shutdown rs => shutdown rs
  end.

(** The inputs one after the other; what a request throws goes to its
    caller and the registry goes on. *)
Definition exec (e : env_int) (ins : list input) (s : registry) : registry :=
  foldl (λ s i, final (step e i) s) s ins.

(** The registry holds at most [maxSessions] clients. *)
Definition inv (e : env_int) (s : registry) : Prop :=
  (Z.of_nat (size (clients s)) ≤ Z.max 0 (maxSessions e))%Z.

(** The clients that exist. *)
Definition liveClients (s : registry) : nat := size (handles s).

End WhatsAppHandler.

(** ** [createClient] and [destroySession] by cases *)

Section registry_facts.
Import WhatsAppHandler.
Implicit Types (s : registry) (e : env_int) (sessionId : text) (h : nat).
Implicit Types (r ctor : outcome error unit).

(** The registry after a client was made for [sessionId]. *)
Definition created sessionId s : registry :=
  Registry (<[sessionId := nextClient s]> (clients s))
           (<[nextClient s := sessionId]> (handles s)) (S (nextClient s)).

Lemma createClient_run e sessionId ctor s :
  run (createClient e sessionId ctor) s =
  match clients s !! sessionId with
  | Some client => (Ok client, s, [])
  | None =>
    if (maxSessions e <=? Z.of_nat (size (clients s)))%Z
    then (Throw (Error (js "Maximum sessions limit reached (" ++
                        decimal (maxSessions e) ++ js ")")), s, [])
    else match ctor with
         | Ok _ => (Ok (nextClient s), created sessionId s,
                    [NewClient (nextClient s) sessionId])
         | Throw error => (Throw error, s, [])
         end
  end.
Proof.
  unfold createClient, newClient. handler_simpl.
  destruct (clients s !! sessionId); [done|].
  destruct (_ <=? _)%Z; [done|]. by destruct ctor.
Qed.

(** The registry after [sessionId] was destroyed. *)
Definition destroyed sessionId h s : registry :=
  Registry (delete sessionId (clients s)) (delete h (handles s)) (nextClient s).

Lemma destroySession_run sessionId r s :
  run (destroySession sessionId r) s =
  match clients s !! sessionId with
  | None => (Ok false, s, [])
  | Some client =>
    match r with
    | Ok _ => (Ok true, destroyed sessionId client s,
               [Destroy client; RemoveSessionDir sessionId])
    | Throw _ => (Ok false, destroyed sessionId client s, [Destroy client])
    end
  end.
Proof.
  unfold destroySession, destroy, cleanupSession. handler_simpl.
  destruct (clients s !! sessionId); [|done]. by destruct r.
Qed.

Lemma destroySession_clients sessionId r s :
  clients (final (destroySession sessionId r) s) = delete sessionId (clients s).
Proof.
  unfold final. rewrite destroySession_run.
  destruct (clients s !! sessionId) eqn:Hc; [by destruct r|].
  simpl. by rewrite delete_id.
Qed.

Lemma destroySession_total sessionId r : total (destroySession sessionId r).
Proof.
  intros s. unfold result. rewrite destroySession_run.
  destruct (clients s !! sessionId); [destruct r|]; simpl; eauto.
Qed.

(** ** The capacity invariant *)

Lemma inv_delete e sessionId s :
  inv e s → inv e (setClients (delete sessionId) s).
Proof.
  unfold inv. simpl. intros Hs. rewrite map_size_delete.
  destruct (clients s !! sessionId); unfold id; lia.
Qed.

Lemma keeps_createClient e sessionId ctor : keeps (inv e) (createClient e sessionId ctor).
Proof.
  intros s Hs. unfold final. rewrite createClient_run.
  destruct (clients s !! sessionId) eqn:Hc; [done|].
  destruct (Z.leb_spec (maxSessions e) (Z.of_nat (size (clients s)))); [done|].
  destruct ctor; [|done]. unfold inv. simpl.
  rewrite map_size_insert_None by done. lia.
Qed.

Lemma keeps_destroySession e sessionId r : keeps (inv e) (destroySession sessionId r).
Proof.
  intros s Hs. unfold inv. rewrite destroySession_clients.
  by apply (inv_delete e sessionId s).
Qed.

Lemma keeps_destroyAll e rs l : keeps (inv e) (destroyAll rs l).
Proof.
  induction l as [|k l IH]; simpl; [apply keeps_ret|].
  apply keeps_bind; [apply keeps_destroySession | done].
Qed.

Lemma total_destroyAll rs l : total (destroyAll rs l).
Proof.
  induction l as [|k l IH]; simpl; [apply total_ret|].
  apply total_bind; [apply destroySession_total | done].
Qed.

Lemma keeps_registry_step e i : keeps (inv e) (step e i).
Proof.
  destruct i;
    unfold step, restartSession, shutdown, cleanupAllSessions, onAuthFailure,
      onDisconnected, cleanupSession, sendMessage, sendMedia, getQRCode,
      getContactInfo, ensureSessionDirectory;
    handler_rules_with
      ltac:(first [ apply keeps_createClient | apply keeps_destroySession
                  | apply keeps_destroyAll ]);
    apply keeps_modify; intros; by apply inv_delete.
Qed.

Lemma exec_inv e ins s : inv e s → inv e (exec e ins s).
Proof.
  unfold exec. revert s. induction ins as [|i ins IH]; intros s Hs; [done|].
  simpl. by apply IH, keeps_registry_step.
Qed.

(** ** Shutdown empties the registry *)

Lemma destroyAll_clients rs l s :
  clients (final (destroyAll rs l) s) = foldl (λ m k, delete k m) (clients s) l.
Proof.
  revert s. induction l as [|k l IH]; intros s; [done|]. simpl.
  destruct (destroySession_total k (rs k) s) as [b Hb].
  rewrite (final_bind _ _ _ _ Hb), IH. by rewrite destroySession_clients.
Qed.

Lemma lookup_foldl_delete (m : gmap text nat) l k :
  foldl (λ m k, delete k m) m l !! k = if decide (k ∈ l) then None else m !! k.
Proof.
  revert m. induction l as [|k' l IH]; intros m; simpl; [done|].
  rewrite IH. destruct (decide (k = k')) as [->|Hk].
  - rewrite lookup_delete_eq. by repeat case_decide; set_solver.
  - rewrite lookup_delete_ne by done. repeat case_decide; set_solver.
Qed.

Lemma cleanupAllSessions_clients rs s :
  clients (final (cleanupAllSessions rs) s) = ∅.
Proof.
  unfold cleanupAllSessions, final, run. handler_simpl.
  pose proof (destroyAll_clients rs (map_to_list (clients s)).*1 s) as Hd.
  unfold final, run in Hd.
  destruct (destroyAll rs _ s) as [[? s'] ?]. simpl in *. rewrite Hd.
  apply map_eq. intros k. rewrite lookup_foldl_delete, lookup_empty.
  case_decide as Hk; [done|]. destruct (clients s !! k) as [h|] eqn:Hc; [|done].
  destruct Hk. apply list_elem_of_fmap. exists (k, h).
  by rewrite elem_of_map_to_list.
Qed.

(** ** The requests that only read the registry *)

(** Media, QR codes and contacts go to the client of the session and
    leave the registry as it is, whatever the client answers. *)
Lemma sendMedia_final sessionId to mediaPath caption rMedia rSend s :
  final (sendMedia sessionId to mediaPath caption rMedia rSend) s = s.
Proof.
  unfold sendMedia, final. handler_simpl.
  destruct (clients s !! sessionId); [|done]. by destruct rMedia, rSend.
Qed.

Lemma getQRCode_final sessionId hasBrowser first s :
  final (getQRCode sessionId hasBrowser first) s = s.
Proof.
  unfold getQRCode, final. handler_simpl.
  destruct (clients s !! sessionId); [|done]. by destruct hasBrowser, first.
Qed.

Lemma getContactInfo_final sessionId number rContact rPic s :
  final (getContactInfo sessionId number rContact rPic) s = s.
Proof.
  unfold getContactInfo, final. handler_simpl.
  destruct (clients s !! sessionId); [|done]. by destruct rContact, rPic.
Qed.

(** [getContactInfo] throws for a session that is not there and for
    nothing else: a contact that cannot be read is [null], a picture
    that cannot be read is a [null] in the answer. *)
Lemma getContactInfo_result sessionId number rContact rPic s :
  result (getContactInfo sessionId number rContact rPic) s =
  match clients s !! sessionId, rContact with
  | None, _ => Throw (notFound sessionId)
  | Some _, Throw _ => Ok None
  | Some _, Ok contact =>
    Ok (Some (ContactInfo (contact_number contact)
                (if truthyOpt (contact_name contact) then contact_name contact
                 else contact_pushname contact)
                (contact_isMyContact contact)
                (match rPic with Ok url => Some url | Throw _ => None end)))
  end.
Proof.
  unfold getContactInfo, result. handler_simpl.
  destruct (clients s !! sessionId); [|done]. by destruct rContact, rPic.
Qed.

(** The promise of [getQRCode] resolves with the code when the code
    comes first, and is rejected in every other case; [initialize()] is
    called when the client has no browser. *)
Lemma getQRCode_run sessionId hasBrowser first s client :
  clients s !! sessionId = Some client →
  run (getQRCode sessionId hasBrowser first) s =
  (match first with
   | QrArrives qr => Ok qr
   | ReadyArrives => Throw (Error (js "Already authenticated"))
   | AuthFailureArrives msg => Throw (Error (js "Authentication failed: " ++ msg))
   | TimesOut => Throw (Error (js "QR code generation timeout"))
   | InitializeRejects error => Throw error
   end, s, if hasBrowser then [] else [Initialize client]).
Proof.
  intros Hc. unfold getQRCode. handler_simpl. rewrite Hc.
  by destruct hasBrowser, first.
Qed.

(** ** Phone numbers *)

(** The digits of a number with the country code that
    [formatPhoneNumber] adds. *)
Definition withCountryCode (digits : text) : text :=
  if negb (startsWith (js "91") digits) && (length digits =? 10)
  then js "91" ++ digits else digits.

Lemma withCountryCode_digits d :
  Forall (λ c, isDigit c = true) d →
  Forall (λ c, isDigit c = true) (withCountryCode d).
Proof.
  intros Hd. unfold withCountryCode. case_match; [|done].
  by repeat constructor.
Qed.

(** No string of digits contains ['@c.us']. *)
Lemma digits_no_suffix d :
  Forall (λ c, isDigit c = true) d → includes (js "@c.us") d = false.
Proof.
  intros Hd. destruct (includes _ d) eqn:Hi; [|done].
  apply (includes_elem _ _ 64%N) in Hi; [|set_solver].
  rewrite Forall_forall in Hd. by apply Hd in Hi.
Qed.

Lemma formatPhoneNumber_eq number :
  formatPhoneNumber number = withCountryCode (digitsOf number) ++ js "@c.us".
Proof.
  unfold formatPhoneNumber. fold (withCountryCode (digitsOf number)).
  by rewrite digits_no_suffix by apply withCountryCode_digits, digitsOf_digits.
Qed.

Lemma withCountryCode_idemp d : withCountryCode (withCountryCode d) = withCountryCode d.
Proof.
  unfold withCountryCode at 2 3.
  destruct (negb _ && _) eqn:Hc; unfold withCountryCode.
  - by rewrite startsWith_app.
  - by rewrite Hc.
Qed.

Lemma removeFirst_digits d :
  Forall (λ c, isDigit c = true) d →
  removeFirst (js "@c.us") (d ++ js "@c.us") = d.
Proof.
  induction 1 as [|c d Hc _ IH]; [done|].
  change (removeFirst (js "@c.us") ((c :: d) ++ js "@c.us")) with
    (if (64 =? c)%N && startsWith (js "c.us") (d ++ js "@c.us")
     then drop 5 ((c :: d) ++ js "@c.us")
     else c :: removeFirst (js "@c.us") (d ++ js "@c.us")).
  apply isDigit_true in Hc. destruct (N.eqb_spec 64 c); [lia|]. simpl. by rewrite IH.
Qed.

(** ** Main results *)

(** C4: the registry never holds more than [maxSessions] clients,
    whatever sequence of requests and adapter events it serves from its
    start: [createClient] adds a session only below the limit, and every
    other operation only removes sessions. *)
Theorem registry_capacity e ins :
  (Z.of_nat (size (clients (exec e ins init))) ≤ Z.max 0 (maxSessions e))%Z.
Proof. apply (exec_inv e ins init). unfold inv. simpl. rewrite map_size_empty. lia. Qed.

(** C5: [destroySession] removes the session from the registry whether
    [client.destroy()] succeeds or throws, and a second [destroySession]
    of the same id returns [false] and calls nothing. *)
Theorem destroySession_twice sessionId r r' s :
  clients (final (destroySession sessionId r) s) !! sessionId = None ∧
  result (destroySession sessionId r') (final (destroySession sessionId r) s)
  = Ok false ∧
  trace (destroySession sessionId r') (final (destroySession sessionId r) s) = [].
Proof.
  assert (clients (final (destroySession sessionId r) s) !! sessionId = None)
    as Hc by (by rewrite destroySession_clients, lookup_delete_eq).
  unfold result, trace. by rewrite destroySession_run, Hc.
Qed.

(** [cleanupAllSessions], and so [shutdown], leaves the registry
    empty whichever calls of [client.destroy()] fail. *)
Theorem shutdown_empties rs s : clients (final (shutdown rs) s) = ∅.
Proof. apply cleanupAllSessions_clients. Qed.

(** [createClient] is idempotent: after it returned a client for a
    session id, another call for the same id returns the same client,
    constructs nothing and leaves the registry as it is. *)
Theorem createClient_idempotent e sessionId ctor ctor' s client :
  result (createClient e sessionId ctor) s = Ok client →
  run (createClient e sessionId ctor') (final (createClient e sessionId ctor) s)
  = (Ok client, final (createClient e sessionId ctor) s, []).
Proof.
  unfold result, final. rewrite !createClient_run.
  destruct (clients s !! sessionId) as [h|] eqn:Hc; simpl.
  - intros [= <-]. by rewrite Hc.
  - destruct (_ <=? _)%Z; [done|]. destruct ctor; [|done]. simpl.
    intros [= <-]. by rewrite lookup_insert_eq.
Qed.

(** C38: [formatPhoneNumber] is idempotent: a formatted number is
    formatted to itself.  The digits are kept, ten digits that do not
    start with 91 get the country code, and ['@c.us'] is appended, always:
    the test [includes('@c.us')] is made on a string of digits. *)
Theorem formatPhoneNumber_idempotent number :
  formatPhoneNumber (formatPhoneNumber number) = formatPhoneNumber number.
Proof.
  rewrite !formatPhoneNumber_eq, digitsOf_app.
  rewrite (digitsOf_id (withCountryCode _))
    by apply withCountryCode_digits, digitsOf_digits.
  change (digitsOf (js "@c.us")) with (@nil N).
  by rewrite app_nil_r, withCountryCode_idemp.
Qed.

End registry_facts.

(** ** Scenarios, by evaluation *)

Section registry_examples.
Import WhatsAppHandler.

Lemma createClient_idempotent_witness :
  run (createClient None (js "a") (Throw (Error (js "again"))))
      (final (createClient None (js "a") (Ok tt)) init)
  = (Ok 0, final (createClient None (js "a") (Ok tt)) init, []).
Proof. by apply (createClient_idempotent None (js "a") (Ok tt)). Defined.

(** A ten-digit number that starts with 91 is taken to carry the
    country code. *)
Lemma formatPhoneNumber_91 :
  formatPhoneNumber (js "9123456789") = js "9123456789@c.us" ∧
  formatPhoneNumber (js "98765 43210") = js "919876543210@c.us".
Proof. split; reflexivity. Qed.

(** The client of a session fails to authenticate, the session is
    created again, and the first client disconnects. *)
Definition staleDisconnect : list input :=
  [ Create (js "a") (Ok tt); AuthFailure 0; Create (js "a") (Ok tt);
    Disconnected 0 ].


End registry_examples.
