(* ===== verification/RegistryAsync.v ===== *)
(** * The registry at its awaits

    [destroySession], [restartSession] and [cleanupAllSessions] of
    [src/whatsapp-handler.js] are [async] methods that change the map
    [clients] after an [await]: another request or an event of a client
    may be handled in between.  [Registry] runs them in one piece; here
    they are cut at their awaits (Module [AsyncRegistry]).

    - [task] is a method suspended at an await: [destroySession] at
      [await client.destroy()] and at [await this.cleanupSession(..)],
      [restartSession] at its timer of 2 s.  A [destroySession] carries
      its [caller], which goes on when it returns.
    - [pool] is the registry with the methods that wait; [step] runs a
      request up to its first await, an event of a client, or the rest
      of a method up to its next await ([Settle], with the result of the
      awaited call); [exec] runs a schedule.  [createClient] and the
      event handlers have no await before their last change and are run
      as in [Registry].  The methods that only read [clients] when they
      start ([sendMessage], [sendMedia], [getQRCode], [getContactInfo],
      the status queries) change nothing and are left to [Registry].
    - An [await] of a method that returns without waiting yields to
      promise callbacks only and is no point of the schedule.

    The facts:
    - alone, the pieces of a method are the method of [Registry]
      ([destroySession_pieces], [restartSession_pieces]);
    - every schedule keeps the capacity bound ([schedule_capacity]);
    - every method that waits finishes: settling the oldest one as often
      as there is work left empties the pool ([schedule_settles]);
    - after [cleanupAllSessions], when every [destroySession] it started
      has settled, in whatever order, the registry is empty
      ([cleanupAllSessions_settled]);
    - the races: two [restartSession] of one session that overlap leave
      two live clients for it, one of them outside the registry, while
      the session ids of [clients] are those of the calls in turn
      ([overlapping_restarts]); a [createClient] during a
      [destroySession] is given the client that is being destroyed
      ([create_during_destroy]); two [destroySession] that overlap call
      [destroy()] twice on one client ([overlapping_destroys]). *)

From S2P Require Import Prelude Effects Typing Registry.

Module AsyncRegistry.
Import WhatsAppHandler.

(** Who awaits a [destroySession]: a caller outside the class,
    [restartSession] (line 312) or [cleanupAllSessions] (line 301). *)
Inductive caller : Type :=
| Caller
| ByRestartSession
| ByCleanupAllSessions.

#[export] Instance caller_eq_dec : EqDecision caller.
Proof. solve_decision. Defined.

(** A method suspended at an await. *)
Inductive task : Type :=
| Destroying (sessionId : text) (k : caller)
| Cleaning (sessionId : text) (k : caller)
| Sleeping (sessionId : text).

#[export] Instance task_eq_dec : EqDecision task.
Proof. solve_decision. Defined.

(** The registry and the methods that wait, the youngest first. *)
Record pool : Type := Pool {
  this : registry;
  waiting : list task;
}.

Abbreviation P := (handler pool act error).

Definition setThis (r : registry) (p : pool) : pool := Pool r (waiting p).

(** A piece that has no await runs on the registry. *)
Definition inRegistry {A} (m : M A) : P A := zoom this setThis id m.

Definition suspend (t : task) : P unit :=
  modify (λ p, Pool (this p) (t :: waiting p)).

(** The first occurrence of a task no longer waits. *)
Fixpoint remove1 (t : task) (l : list task) : list task :=
  match l with
  | [] => []
  | t' :: l' => if decide (t = t') then l' else t' :: remove1 t l'
  end.

Definition resumed (t : task) : P unit :=
  modify (λ p, Pool (this p) (remove1 t (waiting p))).

(** [destroySession] has returned to its caller: [restartSession] goes
    on to its timer, lines 314-315; the other callers do nothing to the
    registry. *)
Definition returned (k : caller) (sessionId : text) : P unit :=
  match k with
  | ByRestartSession => emit (Sleep 2000);; suspend (Sleeping sessionId)
  | _ => ret tt
  end.

(** [destroySession(sessionId)] up to [await client.destroy()], lines
    253-263: the client emits no event from now on. *)
Definition destroySessionBefore (k : caller) (sessionId : text) : P unit :=
  p ← get;
  match clients (this p) !! sessionId with
  | None => returned k sessionId
  | Some client =>
    inRegistry
      (modify (λ s, Registry (clients s) (delete client (handles s)) (nextClient s)));;
    emit (Destroy client);;
    suspend (Destroying sessionId k)
  end.

(** After [await client.destroy()], up to
    [await this.cleanupSession(sessionId)], lines 263-267, or through
    the catch block, lines 272-276. *)
Definition destroySessionAfter (k : caller) (sessionId : text)
    (r : outcome error unit) : P unit :=
  match r with
  | Ok _ =>
    inRegistry (modify (setClients (delete sessionId)));;
    inRegistry (cleanupSession sessionId);;
    suspend (Cleaning sessionId k)
  | Throw _ =>
    inRegistry (modify (setClients (delete sessionId)));;
    returned k sessionId
  end.

(** After [await this.cleanupSession(sessionId)], lines 269-270. *)
Definition destroySessionCleaned (k : caller) (sessionId : text) : P unit :=
  returned k sessionId.

(** [restartSession] after its timer, line 318; what [createClient]
    throws goes to the caller of [restartSession]. *)
Definition restartSessionAfterSleep (e : env_int) (sessionId : text)
    (ctor : outcome error unit) : P unit :=
  inRegistry (createClient e sessionId ctor);; ret tt.

(** [sessionIds.map(sessionId => this.destroySession(sessionId))], line
    301: every [destroySession] runs up to its await before the next
    one starts. *)
Fixpoint destroyAllBefore (sessionIds : list text) : P unit :=
  match sessionIds with
  | [] => ret tt
  | sessionId :: rest =>
    destroySessionBefore ByCleanupAllSessions sessionId;; destroyAllBefore rest
  end.

(** [cleanupAllSessions()] up to [await Promise.allSettled(..)], lines
    297-303; nothing changes after it. *)
Definition cleanupAllSessions : P unit :=
  p ← get;
  destroyAllBefore (map_to_list (clients (this p))).*1.

(** The rest of a method, with the result of the call it awaited (the
    result of [new Client(..)] for the timer of [restartSession]). *)
Definition resume (e : env_int) (t : task) (r : outcome error unit) : P unit :=
  resumed t;;
  match t with
  | Destroying sessionId k => destroySessionAfter k sessionId r
  | Cleaning sessionId k => destroySessionCleaned k sessionId
  | Sleeping sessionId => restartSessionAfterSleep e sessionId r
  end.

(** What the event loop runs. *)
Inductive input : Type :=
| CreateClient (sessionId : text) (ctor : outcome error unit)
| DestroyRequest (sessionId : text)
| RestartRequest (sessionId : text)
| CleanupRequest
| ClientAuthFailure (h : nat)
| ClientDisconnected (h : nat)
| Settle (t : task) (r : outcome error unit).

Definition step (e : env_int) (i : input) : P unit :=
  match i with
  | CreateClient sessionId ctor => inRegistry (createClient e sessionId ctor);; ret tt
  | DestroyRequest sessionId => destroySessionBefore Caller sessionId
  | RestartRequest sessionId => destroySessionBefore ByRestartSession sessionId
  | CleanupRequest => cleanupAllSessions
  | ClientAuthFailure h => inRegistry (onAuthFailure h)
  | ClientDisconnected h => inRegistry (onDisconnected h)
  | Settle t r =>
    p ← get;
    if bool_decide (t ∈ waiting p) then resume e t r else ret tt
  end.

(** A schedule: the pool after it and the calls it made.  What a
    request throws goes to its caller and the event loop goes on. *)
Fixpoint exec (e : env_int) (ins : list input) (p : pool) : pool * list act :=
  match ins with
  | [] => (p, [])
  | i :: ins' =>
    let r := exec e ins' (final (step e i) p) in
    (r.1, trace (step e i) p ++ r.2)
  end.

(** The awaits that a method has before it. *)
Definition rank (t : task) : nat :=
  match t with
  | Destroying _ ByRestartSession => 3
  | Destroying _ _ => 2
  | Cleaning _ ByRestartSession => 2
  | Cleaning _ _ => 1
  | Sleeping _ => 1
  end.

Definition work (p : pool) : nat := sum_list_with rank (waiting p).

(** The oldest method that waits settles, with success, [n] times. *)
Fixpoint settleOldest (e : env_int) (n : nat) (p : pool) : list input :=
  match n with
  | 0 => []
  | S n' =>
    match last (waiting p) with
    | None => []
    | Some t =>
      Settle t (Ok tt) :: settleOldest e n' (final (step e (Settle t (Ok tt))) p)
    end
  end.

End AsyncRegistry.

(** ** The pieces, by cases *)

Create HintDb pieces discriminated.

#[export] Hint Unfold AsyncRegistry.step AsyncRegistry.resume
  AsyncRegistry.destroySessionBefore AsyncRegistry.destroySessionAfter
  AsyncRegistry.destroySessionCleaned AsyncRegistry.restartSessionAfterSleep
  AsyncRegistry.returned AsyncRegistry.cleanupAllSessions
  AsyncRegistry.inRegistry AsyncRegistry.suspend AsyncRegistry.resumed : pieces.

Section pieces.
Import WhatsAppHandler AsyncRegistry.
Implicit Types (s : registry) (p : pool) (e : env_int) (sessionId : text).
Implicit Types (k : caller) (t : task) (r ctor : outcome error unit).
Implicit Types (i : input) (ins : list input).

(** The registry while [client] is being destroyed. *)
Definition dying (client : nat) s : registry :=
  Registry (clients s) (delete client (handles s)) (nextClient s).

Lemma inRegistry_run {A} (m : M A) p :
  run (inRegistry m) p =
  (result m (this p), Pool (final m (this p)) (waiting p), trace m (this p)).
Proof. unfold inRegistry, run. rewrite zoom_run. by rewrite list_fmap_id. Qed.

Lemma returned_run k sessionId p :
  run (returned k sessionId) p =
  match k with
  | ByRestartSession =>
    (Ok tt, Pool (this p) (Sleeping sessionId :: waiting p), [Sleep 2000])
  | _ => (Ok tt, p, [])
  end.
Proof. by destruct k. Qed.

Lemma destroySessionBefore_run k sessionId p :
  run (destroySessionBefore k sessionId) p =
  match clients (this p) !! sessionId with
  | None => run (returned k sessionId) p
  | Some client =>
    (Ok tt, Pool (dying client (this p)) (Destroying sessionId k :: waiting p),
     [Destroy client])
  end.
Proof.
  unfold destroySessionBefore, inRegistry, suspend. handler_simpl.
  destruct (clients (this p) !! sessionId); [done | by destruct k].
Qed.

(** The pool when a method goes on. *)
Definition going t p : pool := Pool (this p) (remove1 t (waiting p)).

(** The pool after [clients.delete(sessionId)]. *)
Definition deleted sessionId p : pool :=
  Pool (setClients (delete sessionId) (this p)) (waiting p).

Lemma resume_Destroying e sessionId k r p :
  run (resume e (Destroying sessionId k) r) p =
  let p1 := deleted sessionId (going (Destroying sessionId k) p) in
  match r with
  | Ok _ =>
    (Ok tt, Pool (this p1) (Cleaning sessionId k :: waiting p1),
     [RemoveSessionDir sessionId])
  | Throw _ => run (returned k sessionId) p1
  end.
Proof.
  autounfold with pieces. unfold cleanupSession. handler_simpl.
  by destruct r, k.
Qed.

Lemma resume_Cleaning e sessionId k r p :
  run (resume e (Cleaning sessionId k) r) p =
  run (returned k sessionId) (going (Cleaning sessionId k) p).
Proof. autounfold with pieces. handler_simpl. by destruct k. Qed.

Lemma resume_Sleeping e sessionId ctor p :
  run (resume e (Sleeping sessionId) ctor) p =
  let p1 := going (Sleeping sessionId) p in
  (match result (createClient e sessionId ctor) (this p1) with
   | Ok _ => Ok tt
   | Throw x => Throw x
   end,
   Pool (final (createClient e sessionId ctor) (this p1)) (waiting p1),
   trace (createClient e sessionId ctor) (this p1)).
Proof.
  autounfold with pieces. handler_simpl. simpl.
  destruct (createClient e sessionId ctor _) as [[[c|x] s1] tr]; simpl;
    by rewrite ?list_fmap_id, ?app_nil_r.
Qed.

Lemma settle_waiting e t r p :
  t ∈ waiting p → run (step e (Settle t r)) p = run (resume e t r) p.
Proof.
  intros Ht. unfold step. handler_simpl. rewrite bool_decide_true by done.
  by destruct (resume e t r p) as [[o p1] tr].
Qed.

Lemma settle_idle e t r p :
  t ∉ waiting p → run (step e (Settle t r)) p = (Ok tt, p, []).
Proof.
  intros Ht. unfold step. handler_simpl. by rewrite bool_decide_false.
Qed.

(** One input of a schedule, by its run. *)
Lemma schedule_cons e i ins p :
  exec e (i :: ins) p =
  let '(_, p1, tr) := run (step e i) p in
  ((exec e ins p1).1, tr ++ (exec e ins p1).2).
Proof.
  simpl. unfold final, trace. by destruct (run (step e i) p) as [[o p1] tr].
Qed.

Lemma schedule_app e ins1 ins2 p :
  exec e (ins1 ++ ins2) p =
  ((exec e ins2 (exec e ins1 p).1).1,
   (exec e ins1 p).2 ++ (exec e ins2 (exec e ins1 p).1).2).
Proof.
  revert p. induction ins1 as [|i ins1 IH]; intros p; simpl.
  - by destruct (exec e ins2 p).
  - rewrite IH. simpl. by rewrite app_assoc.
Qed.

Lemma schedule_nil e p : exec e [] p = (p, []).
Proof. done. Qed.

End pieces.

#[global] Arguments AsyncRegistry.exec : simpl never.

(** ** A method that is alone

    [schedule_step] runs the first input of a schedule. *)

Ltac pool_simpl :=
  unfold going, deleted; cbn -[AsyncRegistry.exec];
  rewrite ?decide_True by done; cbn -[AsyncRegistry.exec].

Ltac schedule_step :=
  rewrite schedule_cons;
  first [ rewrite settle_waiting by (simpl; set_solver)
        | rewrite settle_idle by (simpl; set_solver)
        | idtac ];
  rewrite ?resume_Destroying, ?resume_Cleaning, ?resume_Sleeping;
  cbn [AsyncRegistry.step];
  rewrite ?destroySessionBefore_run, ?returned_run, ?schedule_nil;
  pool_simpl.

Section alone.
Import WhatsAppHandler AsyncRegistry.
Implicit Types (s : registry) (p : pool) (e : env_int) (sessionId : text).
Implicit Types (k : caller) (t : task) (r ctor : outcome error unit).

(** [destroySession] with nothing in between. *)
Definition destroyAlone sessionId r : list input :=
  [DestroyRequest sessionId; Settle (Destroying sessionId Caller) r;
   Settle (Cleaning sessionId Caller) (Ok tt)].

(** [restartSession] with nothing in between. *)
Definition restartAlone sessionId r ctor : list input :=
  [RestartRequest sessionId; Settle (Destroying sessionId ByRestartSession) r;
   Settle (Cleaning sessionId ByRestartSession) (Ok tt);
   Settle (Sleeping sessionId) ctor].

Lemma remove1_head t (l : list task) : remove1 t (t :: l) = l.
Proof. simpl. by rewrite decide_True. Qed.

Lemma destroyAlone_exec e sessionId r s :
  exec e (destroyAlone sessionId r) (Pool s []) =
  (Pool (final (destroySession sessionId r) s) [],
   trace (destroySession sessionId r) s).
Proof.
  unfold destroyAlone, final, trace. rewrite destroySession_run.
  schedule_step.
  destruct (clients s !! sessionId) as [c|] eqn:Hc, r as [[]|x]; pool_simpl;
    by repeat schedule_step.
Qed.

(** [restartSession] by cases. *)
Lemma restartSession_run e sessionId r ctor s :
  run (restartSession e sessionId r ctor) s =
  let s1 := final (destroySession sessionId r) s in
  (result (createClient e sessionId ctor) s1,
   final (createClient e sessionId ctor) s1,
   trace (destroySession sessionId r) s ++
   Sleep 2000 :: trace (createClient e sessionId ctor) s1).
Proof.
  unfold restartSession, final, trace, result. rewrite destroySession_run.
  handler_simpl. change (destroySession sessionId r s) with
    (run (destroySession sessionId r) s).
  rewrite destroySession_run.
  destruct (clients s !! sessionId) as [c|], r as [[]|x]; simpl;
    by destruct (createClient e sessionId ctor _) as [[[]] ?].
Qed.

Lemma restartAlone_exec e sessionId r ctor s :
  exec e (restartAlone sessionId r ctor) (Pool s []) =
  (Pool (final (restartSession e sessionId r ctor) s) [],
   trace (restartSession e sessionId r ctor) s).
Proof.
  unfold restartAlone, final, trace. rewrite restartSession_run.
  schedule_step.
  destruct (clients s !! sessionId) as [c|] eqn:Hc, r as [[]|x]; pool_simpl;
    repeat schedule_step;
    unfold final, trace; rewrite destroySession_run, Hc, app_nil_r; done.
Qed.

End alone.

(** ** Every schedule keeps the capacity bound *)

Section capacity.
Import WhatsAppHandler AsyncRegistry.
Context (e : env_int).
Implicit Types (s : registry) (p : pool) (sessionId : text).
Implicit Types (k : caller) (t : task) (r ctor : outcome error unit).
Implicit Types (i : input) (ins : list input).

(** The registry of the pool holds at most [maxSessions] clients. *)
Definition capped p : Prop := inv e (this p).

Lemma keeps_inRegistry {A} (m : M A) : keeps (inv e) m → keeps capped (inRegistry m).
Proof. intros Hm. by apply (keeps_zoom _ _ _ capped (inv e)). Qed.

(** [pool_leaf] proves that a piece without a change of [clients]
    keeps the bound. *)
Ltac pool_leaf :=
  first
    [ apply keeps_inRegistry
    | apply keeps_createClient
    | apply keeps_modify; intros; first [by apply inv_delete | done] ].

Lemma keeps_returned k sessionId : keeps capped (returned k sessionId).
Proof. destruct k; autounfold with pieces; handler_rules_with pool_leaf. Qed.

Lemma keeps_destroySessionBefore k sessionId :
  keeps capped (destroySessionBefore k sessionId).
Proof.
  unfold destroySessionBefore, suspend.
  handler_rules_with ltac:(first [apply keeps_returned | pool_leaf]).
Qed.

Lemma keeps_destroyAllBefore (l : list text) : keeps capped (destroyAllBefore l).
Proof.
  induction l as [|sessionId l IH]; simpl; [apply keeps_ret|].
  apply keeps_bind; [apply keeps_destroySessionBefore | done].
Qed.

Lemma keeps_pool_step i : keeps capped (step e i).
Proof.
  destruct i; unfold step, cleanupAllSessions, resume, resumed,
    destroySessionAfter, destroySessionCleaned, restartSessionAfterSleep,
    suspend, onAuthFailure, onDisconnected, cleanupSession;
    handler_rules_with
      ltac:(first [ apply keeps_destroySessionBefore | apply keeps_destroyAllBefore
                  | apply keeps_returned | pool_leaf ]).
Qed.

Lemma exec_capped ins p : capped p → capped (exec e ins p).1.
Proof.
  revert p. induction ins as [|i ins IH]; intros p Hp; [done|].
  rewrite schedule_cons. pose proof (keeps_pool_step i p Hp) as Hi.
  unfold final in Hi. destruct (run (step e i) p) as [[o p1] tr]. by apply IH.
Qed.

End capacity.

(** ** Every method that waits finishes *)

Section finishing.
Import WhatsAppHandler AsyncRegistry.
Context (e : env_int).
Implicit Types (s : registry) (p : pool) (sessionId : text).
Implicit Types (k : caller) (t : task) (r ctor : outcome error unit).
Implicit Types (l : list task).

Lemma task_rank_pos t : 0 < rank t.
Proof. destruct t as [? []|? []|?]; simpl; lia. Qed.

Lemma work_remove1 t l :
  t ∈ l → sum_list_with rank (remove1 t l) + rank t = sum_list_with rank l.
Proof.
  induction l as [|t' l IH]; [by intros ?%elem_of_nil|].
  intros Ht. simpl. case_decide as Heq; [subst; lia|].
  apply elem_of_cons in Ht as [?|Ht]; [done|]. simpl. specialize (IH Ht). lia.
Qed.

Lemma pool_work_nil p : work p = 0 → waiting p = [].
Proof.
  unfold work. destruct (waiting p) as [|t l]; [done|]. simpl.
  pose proof (task_rank_pos t). lia.
Qed.

(** A method that goes on has less before it. *)
Lemma pool_settle_work t r p :
  t ∈ waiting p → work (final (step e (Settle t r)) p) < work p.
Proof.
  intros Ht. unfold final. rewrite settle_waiting by done.
  pose proof (work_remove1 t _ Ht) as Hw. pose proof (task_rank_pos t) as Hr.
  unfold work.
  destruct t as [sessionId k|sessionId k|sessionId].
  - rewrite resume_Destroying. destruct r as [[]|x], k; simpl in *; lia.
  - rewrite resume_Cleaning, returned_run. destruct k; simpl in *; lia.
  - rewrite resume_Sleeping. simpl in *. lia.
Qed.

Lemma last_waiting p t : last (waiting p) = Some t → t ∈ waiting p.
Proof.
  intros Hl. apply last_Some in Hl as [l' ->]. set_solver.
Qed.

Lemma settleOldest_drains n p :
  work p ≤ n → waiting (exec e (settleOldest e n p) p).1 = [].
Proof.
  revert p. induction n as [|n IH]; intros p Hn.
  - simpl. apply pool_work_nil. lia.
  - cbn [settleOldest]. destruct (last (waiting p)) as [t|] eqn:Hl.
    + rewrite schedule_cons.
      pose proof (pool_settle_work t (Ok tt) p (last_waiting _ _ Hl)) as Hw.
      unfold final in *.
      destruct (run (step e (Settle t (Ok tt))) p) as [[o p1] tr]. simpl in *.
      apply IH. lia.
    + by apply last_None in Hl.
Qed.

End finishing.

(** ** [cleanupAllSessions] empties the registry *)

Section cleanup.
Import WhatsAppHandler AsyncRegistry.
Context (e : env_int).
Implicit Types (s : registry) (p : pool) (sessionId : text).
Implicit Types (k : caller) (t : task) (r ctor : outcome error unit).
Implicit Types (l : list task) (i : input) (ins : list input).

(** A method that does not end in [createClient]. *)
Definition noRestart (t : task) : bool :=
  match t with
  | Destroying _ ByRestartSession | Cleaning _ ByRestartSession | Sleeping _ => false
  | _ => true
  end.

(** Every session of the registry is being destroyed, and no restart
    is under way. *)
Record doomed p : Prop := Doomed {
  doomed_destroying sessionId :
    is_Some (clients (this p) !! sessionId) →
    ∃ k, Destroying sessionId k ∈ waiting p;
  doomed_noRestart : Forall (λ t, noRestart t = true) (waiting p);
}.

Definition isSettle (i : input) : bool :=
  match i with
  | Settle _ _ => true
  | _ => false
  end.

Lemma elem_of_remove1 t t' l : t' ≠ t → t' ∈ l → t' ∈ remove1 t l.
Proof.
  intros Hne. induction l as [|t0 l IH]; [done|]. simpl.
  intros [->|Hl]%elem_of_cons; case_decide; subst; try done.
  - by left.
  - right. by apply IH.
Qed.

Lemma Forall_remove1 (Q : task → Prop) t l : Forall Q l → Forall Q (remove1 t l).
Proof.
  induction 1 as [|t0 l H0 Hl IH]; [done|]. simpl.
  case_decide; [done|]. by constructor.
Qed.

(** The tasks that [cleanupAllSessions] leaves. *)
Lemma destroyAllBefore_final (ids : list text) p :
  let p' := final (destroyAllBefore ids) p in
  clients (this p') = clients (this p) ∧
  (∀ t, t ∈ waiting p → t ∈ waiting p') ∧
  (∀ sessionId, sessionId ∈ ids → is_Some (clients (this p) !! sessionId) →
     Destroying sessionId ByCleanupAllSessions ∈ waiting p') ∧
  (Forall (λ t, noRestart t = true) (waiting p) →
   Forall (λ t, noRestart t = true) (waiting p')).
Proof.
  revert p. induction ids as [|sessionId ids IH]; intros p; simpl.
  { repeat split; [done| |done]. by intros ? ?%elem_of_nil. }
  rewrite (final_bind _ _ _ tt); last first.
  { unfold result. rewrite destroySessionBefore_run.
    by destruct (clients (this p) !! sessionId). }
  set (p1 := final (destroySessionBefore ByCleanupAllSessions sessionId) p).
  assert (clients (this p1) = clients (this p) ∧
          (∀ t, t ∈ waiting p → t ∈ waiting p1) ∧
          (is_Some (clients (this p) !! sessionId) →
           Destroying sessionId ByCleanupAllSessions ∈ waiting p1) ∧
          (Forall (λ t, noRestart t = true) (waiting p) →
           Forall (λ t, noRestart t = true) (waiting p1)))
    as (Hc1 & Hw1 & Hd1 & Hf1).
  { unfold p1, final. rewrite destroySessionBefore_run.
    destruct (clients (this p) !! sessionId) as [c|]; simpl.
    - repeat split; [by right | by left | by constructor].
    - repeat split; [done | by intros [? [=]] | done]. }
  destruct (IH p1) as (Hc & Hw & Hd & Hf). rewrite Hc1 in Hc, Hd.
  repeat split; [done | by intros; apply Hw, Hw1 | | by intros; apply Hf, Hf1].
  intros id [->|Hid]%elem_of_cons Hsome; [by apply Hw, Hd1 | by apply Hd].
Qed.

Lemma cleanupAllSessions_doomed s :
  doomed (final (step e CleanupRequest) (Pool s [])).
Proof.
  unfold step, cleanupAllSessions. rewrite (final_bind _ _ _ (Pool s [])) by done.
  change (final get (Pool s [])) with (Pool s []). cbn beta. cbn [this].
  destruct (destroyAllBefore_final (map_to_list (clients s)).*1 (Pool s []))
    as (Hc & _ & Hd & Hf).
  split; [|by apply Hf]. intros sessionId Hsome. rewrite Hc in Hsome.
  exists ByCleanupAllSessions. apply Hd; [|done]. destruct Hsome as [c Hc'].
  apply list_elem_of_fmap. exists (sessionId, c). split; [done|].
  by apply elem_of_map_to_list.
Qed.

(** A method that goes on leaves every session being destroyed. *)
Lemma settle_doomed t r p : doomed p → doomed (final (step e (Settle t r)) p).
Proof.
  intros [Hd Hf]. destruct (decide (t ∈ waiting p)) as [Ht|Ht]; last first.
  { unfold final. by rewrite settle_idle. }
  unfold final. rewrite settle_waiting by done.
  pose proof (proj1 (Forall_forall _ _) Hf t Ht) as Hk.
  pose proof (Forall_remove1 _ t _ Hf) as Hf'.
  destruct t as [sessionId k|sessionId k|sessionId]; [| |done].
  - rewrite resume_Destroying.
    assert (∀ id, is_Some (delete sessionId (clients (this p)) !! id) →
              ∃ k', Destroying id k' ∈ remove1 (Destroying sessionId k) (waiting p))
      as Hd'.
    { intros id [c [Hne Hc]%lookup_delete_Some].
      destruct (Hd id) as [k' Hk']; [by exists c|]. exists k'.
      apply elem_of_remove1; [congruence | done]. }
    destruct r as [[]|x], k; try done; simpl; split; simpl;
      try done; try (by constructor).
    all: intros id Hid; destruct (Hd' id Hid) as [k' Hk']; exists k'; by right.
  - rewrite resume_Cleaning, returned_run. destruct k; try done; simpl.
    all: split; simpl; [|done].
    all: intros id Hid; destruct (Hd id Hid) as [k' Hk']; exists k';
      by apply elem_of_remove1.
Qed.

Lemma exec_doomed ins p :
  forallb isSettle ins = true → doomed p → doomed (exec e ins p).1.
Proof.
  revert p. induction ins as [|i ins IH]; intros p Hins Hp; [done|].
  simpl in Hins. apply andb_true_iff in Hins as [Hi Hins].
  destruct i; try done. rewrite schedule_cons.
  pose proof (settle_doomed t r p Hp) as Hp1. unfold final in Hp1.
  destruct (run (step e (Settle t r)) p) as [[o p1] tr]. by apply IH.
Qed.

(** A pool in which nothing waits and every session is being
    destroyed has no session. *)
Lemma doomed_empty p : doomed p → waiting p = [] → clients (this p) = ∅.
Proof.
  intros [Hd _] Hw. apply map_empty. intros sessionId.
  destruct (clients (this p) !! sessionId) as [c|] eqn:Hc; [|done].
  destruct (Hd sessionId) as [k Hk]; [by exists c|]. rewrite Hw in Hk.
  by apply elem_of_nil in Hk.
Qed.

End cleanup.

(** ** Methods that overlap *)

Section races.
Import WhatsAppHandler AsyncRegistry.
Context (e : env_int).
Implicit Types (s : registry) (p : pool) (sessionId : text) (c : nat).
Implicit Types (k : caller) (t : task) (r ctor : outcome error unit).

(** [createClient] of a session that is not there, below the limit. *)
Lemma createClient_fresh sessionId s :
  clients s !! sessionId = None →
  (Z.of_nat (size (clients s)) < maxSessions e)%Z →
  run (createClient e sessionId (Ok tt)) s =
  (Ok (nextClient s), created sessionId s, [NewClient (nextClient s) sessionId]).
Proof.
  intros Hc Hsize. rewrite createClient_run, Hc.
  by destruct (Z.leb_spec (maxSessions e) (Z.of_nat (size (clients s)))); [lia|].
Qed.

(** There is room again when a session has left a registry within the
    limit. *)
Lemma room_after_delete sessionId c (m : gmap text nat) :
  (Z.of_nat (size m) ≤ Z.max 0 (maxSessions e))%Z → m !! sessionId = Some c →
  (Z.of_nat (size (delete sessionId m)) < maxSessions e)%Z.
Proof.
  intros Hm Hc. rewrite map_size_delete, Hc.
  assert (size m ≠ 0) by (intros ?%map_size_empty_inv; by subst).
  simpl. lia.
Qed.

(** [restartSession] of a session that is there replaces its client. *)
Lemma restartSession_replaces sessionId c s :
  clients s !! sessionId = Some c → inv e s →
  final (restartSession e sessionId (Ok tt) (Ok tt)) s =
  created sessionId (destroyed sessionId c s).
Proof.
  intros Hc Hinv. unfold final. rewrite restartSession_run. cbn zeta.
  unfold final. rewrite destroySession_run, Hc. simpl.
  rewrite createClient_fresh;
    [done | apply lookup_delete_eq | by apply (room_after_delete _ _ _ Hinv Hc)].
Qed.

Lemma inv_replaced sessionId c s :
  clients s !! sessionId = Some c → inv e s →
  inv e (created sessionId (destroyed sessionId c s)).
Proof.
  unfold inv. simpl. intros Hc Hinv.
  by rewrite insert_delete_eq, map_size_insert_Some.
Qed.

(** Two [restartSession] of one session, the second before the
    [destroy()] of the first has returned; the [destroy()] of the second
    returns after the first has made its client. *)
Definition overlappingRestarts sessionId : list input :=
  [RestartRequest sessionId; RestartRequest sessionId;
   Settle (Destroying sessionId ByRestartSession) (Ok tt);
   Settle (Cleaning sessionId ByRestartSession) (Ok tt);
   Settle (Sleeping sessionId) (Ok tt);
   Settle (Destroying sessionId ByRestartSession) (Ok tt);
   Settle (Cleaning sessionId ByRestartSession) (Ok tt);
   Settle (Sleeping sessionId) (Ok tt)].

(** The same two, one after the other. *)
Definition restartsInTurn sessionId : list input :=
  restartAlone sessionId (Ok tt) (Ok tt) ++ restartAlone sessionId (Ok tt) (Ok tt).

(** [create_step] runs a [createClient] that makes a client. *)
Ltac create_step Hinv Hc :=
  unfold final, trace, result;
  rewrite createClient_fresh;
    [ pool_simpl
    | simpl; rewrite ?delete_insert_eq, ?delete_delete_eq; apply lookup_delete_eq
    | simpl; rewrite ?delete_insert_eq, ?delete_delete_eq;
      by apply (room_after_delete _ _ _ Hinv Hc) ].

Lemma overlappingRestarts_exec sessionId c s :
  clients s !! sessionId = Some c → inv e s →
  (exec e (overlappingRestarts sessionId) (Pool s [])).1 =
  Pool (Registry (<[sessionId := S (nextClient s)]> (clients s))
          (<[S (nextClient s) := sessionId]>
             (<[nextClient s := sessionId]> (delete c (handles s))))
          (S (S (nextClient s)))) [].
Proof.
  intros Hc Hinv. unfold overlappingRestarts.
  schedule_step. rewrite Hc. pool_simpl.
  schedule_step. rewrite Hc. pool_simpl.
  do 3 schedule_step. create_step Hinv Hc.
  do 3 schedule_step. create_step Hinv Hc.
  f_equal. unfold created, setClients, dying. simpl. f_equal.
  - by rewrite delete_insert_eq, delete_delete_eq, insert_delete_eq.
  - by rewrite delete_delete_eq.
Qed.

Lemma restartsInTurn_exec sessionId c s :
  clients s !! sessionId = Some c → inv e s →
  (exec e (restartsInTurn sessionId) (Pool s [])).1 =
  Pool (Registry (<[sessionId := S (nextClient s)]> (clients s))
          (<[S (nextClient s) := sessionId]>
             (delete (nextClient s) (delete c (handles s))))
          (S (S (nextClient s)))) [].
Proof.
  intros Hc Hinv. unfold restartsInTurn.
  rewrite schedule_app, restartAlone_exec. cbn [fst].
  rewrite restartAlone_exec. cbn [fst].
  rewrite (restartSession_replaces sessionId c s) by done.
  rewrite (restartSession_replaces sessionId (nextClient s));
    [|apply lookup_insert_eq|by apply (inv_replaced sessionId c)].
  unfold created, destroyed. simpl.
  by rewrite !delete_insert_eq, delete_delete_eq, insert_delete_eq.
Qed.

End races.

(** ** The registry under every schedule *)

Section async_registry.
Import WhatsAppHandler AsyncRegistry.
Implicit Types (e : env_int) (s : registry) (p : pool) (sessionId : text) (c : nat).
Implicit Types (k : caller) (t : task) (r ctor : outcome error unit).
Implicit Types (ins : list input).

Lemma settleOldest_length e n p : length (settleOldest e n p) ≤ n.
Proof.
  revert p. induction n as [|n IH]; intros p; [done|]. cbn [settleOldest].
  destruct (last (waiting p)) as [t|]; cbn [length]; [|lia].
  specialize (IH (final (step e (Settle t (Ok tt))) p)). lia.
Qed.

Lemma pool_work_bound p : work p ≤ 3 * length (waiting p).
Proof.
  unfold work. induction (waiting p) as [|t l IH]; simpl; [lia|].
  assert (rank t ≤ 3) by (destruct t as [? []|? []|?]; simpl; lia). lia.
Qed.

(** [destroySession] cut at its awaits, with nothing in between, is
    [destroySession] of [Registry]: the same registry and the same
    calls. *)
Theorem destroySession_pieces e sessionId r s :
  exec e (destroyAlone sessionId r) (Pool s []) =
  (Pool (final (destroySession sessionId r) s) [],
   trace (destroySession sessionId r) s).
Proof. apply destroyAlone_exec. Qed.


(** Whatever the event loop runs between the pieces of
    destroySession, restartSession and cleanupAllSessions, in whatever
    order, the registry holds at most maxSessions clients. *)
Theorem schedule_capacity e ins p :
  inv e (this p) → inv e (this (exec e ins p).1).
Proof. apply exec_capped. Qed.

(** The methods that wait finish: settling the oldest one, as
    often as there are awaits left, empties the pool, and that is at
    most three times for each method that waits. *)
Theorem schedule_settles e p :
  waiting (exec e (settleOldest e (work p) p) p).1 = [] ∧
  length (settleOldest e (work p) p) ≤ 3 * length (waiting p).
Proof.
  split; [by apply settleOldest_drains|].
  pose proof (settleOldest_length e (work p) p). pose proof (pool_work_bound p). lia.
Qed.

(** C25: cleanupAllSessions empties the registry in whatever order the
    destroy() calls return: when nothing but the methods it started has
    run and none of them waits any more, clients is empty. *)
Theorem cleanupAllSessions_settled e ins s :
  forallb isSettle ins = true →
  waiting (exec e (CleanupRequest :: ins) (Pool s [])).1 = [] →
  clients (this (exec e (CleanupRequest :: ins) (Pool s [])).1) = ∅.
Proof.
  intros Hins.
  change (exec e (CleanupRequest :: ins) (Pool s [])).1
    with (exec e ins (final (step e CleanupRequest) (Pool s []))).1.
  apply doomed_empty, exec_doomed; [done | apply cleanupAllSessions_doomed].
Qed.

(** C23: two restartSession of one session that overlap leave two live
    clients for it.  When the second starts before the destroy() of the
    first has returned and its own destroy() returns after the first has
    made its client, the second deletes the entry of that client and
    makes another: the first new client is live and outside the
    registry.  One after the other, the same two calls leave one. *)
Theorem overlapping_restarts e sessionId c s :
  clients s !! sessionId = Some c → inv e s →
  let p := (exec e (overlappingRestarts sessionId) (Pool s [])).1 in
  let q := (exec e (restartsInTurn sessionId) (Pool s [])).1 in
  waiting p = [] ∧ waiting q = [] ∧ clients (this p) = clients (this q) ∧
  clients (this p) !! sessionId = Some (S (nextClient s)) ∧
  handles (this q) !! nextClient s = None ∧
  handles (this p) !! nextClient s = Some sessionId ∧
  handles (this p) !! S (nextClient s) = Some sessionId.
Proof.
  intros Hc Hinv p q. unfold p, q.
  rewrite (overlappingRestarts_exec e sessionId c), (restartsInTurn_exec e sessionId c)
    by done.
  simpl. repeat split.
  - apply lookup_insert_eq.
  - rewrite lookup_insert_ne by lia. apply lookup_delete_eq.
  - rewrite lookup_insert_ne by lia. apply lookup_insert_eq.
  - apply lookup_insert_eq.
Qed.

(** A createClient during a destroySession is given the client
    that is being destroyed: the session is still in clients while
    destroy() is awaited, so createClient returns its client, which
    emits no event any more, and when destroy() returns the session is
    deleted. *)
Theorem create_during_destroy e sessionId c ctor r s :
  clients s !! sessionId = Some c →
  let p := final (step e (DestroyRequest sessionId)) (Pool s []) in
  result (createClient e sessionId ctor) (this p) = Ok c ∧
  handles (this p) !! c = None ∧
  clients (this (exec e [DestroyRequest sessionId; CreateClient sessionId ctor;
                         Settle (Destroying sessionId Caller) r] (Pool s [])).1)
    !! sessionId = None.
Proof.
  intros Hc p.
  assert (p = Pool (dying c s) [Destroying sessionId Caller]) as ->.
  { unfold p, final. cbn [step]. rewrite destroySessionBefore_run. cbn [this].
    by rewrite Hc. }
  split; [|split; [apply lookup_delete_eq|]].
  { unfold result. rewrite createClient_run. simpl. by rewrite Hc. }
  schedule_step. rewrite Hc. pool_simpl.
  rewrite schedule_cons. cbn [step].
  assert (run (inRegistry (createClient e sessionId ctor);; ret tt)
            (Pool (dying c s) [Destroying sessionId Caller]) =
          (Ok tt, Pool (dying c s) [Destroying sessionId Caller], [])) as ->.
  { unfold inRegistry. handler_simpl. simpl.
    change (createClient e sessionId ctor (dying c s))
      with (run (createClient e sessionId ctor) (dying c s)).
    rewrite createClient_run. simpl. by rewrite Hc. }
  schedule_step. destruct r as [[]|x]; pool_simpl; apply lookup_delete_eq.
Qed.

(** Two destroySession of one session that overlap call destroy()
    twice on its client; one after the other, the second finds no
    session and calls nothing. *)
Theorem overlapping_destroys e sessionId c s :
  clients s !! sessionId = Some c →
  (exec e [DestroyRequest sessionId; DestroyRequest sessionId] (Pool s [])).2 =
    [Destroy c; Destroy c] ∧
  (exec e (destroyAlone sessionId (Ok tt) ++ destroyAlone sessionId (Ok tt))
     (Pool s [])).2 = [Destroy c; RemoveSessionDir sessionId].
Proof.
  intros Hc. split.
  - schedule_step. rewrite Hc. pool_simpl. schedule_step. by rewrite Hc.
  - rewrite schedule_app, destroyAlone_exec. cbn [fst snd].
    rewrite destroyAlone_exec. cbn [fst snd].
    unfold trace, final. rewrite (destroySession_run _ _ s), Hc. cbn [fst snd].
    rewrite destroySession_run. simpl. by rewrite lookup_delete_eq.
Qed.

End async_registry.

(** ** Scenarios, by evaluation

    A registry with the default limit and one session. *)

Section async_registry_examples.
Import WhatsAppHandler AsyncRegistry.

Definition sessionOne : text := js "a".

Definition registered : registry :=
  Registry {[sessionOne := 0]} {[0 := sessionOne]} 1.

Lemma registered_created :
  registered = final (createClient None sessionOne (Ok tt)) init.
Proof. reflexivity. Qed.

Lemma registered_client : clients registered !! sessionOne = Some 0.
Proof. reflexivity. Qed.

Lemma registered_inv : inv None registered.
Proof. by vm_compute. Qed.

(** After two overlapping restarts two clients are live, after the
    same two in turn one. *)
Example overlapping_restarts_live :
  liveClients (this (exec None (overlappingRestarts sessionOne) (Pool registered [])).1) = 2 ∧
  liveClients (this (exec None (restartsInTurn sessionOne) (Pool registered [])).1) = 1.
Proof. by vm_compute. Qed.

Lemma schedule_capacity_witness :
  inv None (this (exec None (overlappingRestarts sessionOne) (Pool registered [])).1).
Proof.
  apply (schedule_capacity None (overlappingRestarts sessionOne) (Pool registered [])).
  apply registered_inv.
Defined.

(** The [destroy()] calls of [cleanupAllSessions] return. *)
Definition cleanupSettles : list input :=
  [Settle (Destroying sessionOne ByCleanupAllSessions) (Ok tt);
   Settle (Cleaning sessionOne ByCleanupAllSessions) (Ok tt)].

Lemma cleanupAllSessions_settled_witness :
  clients (this (exec None (CleanupRequest :: cleanupSettles) (Pool registered [])).1) = ∅.
Proof.
  apply (cleanupAllSessions_settled None cleanupSettles registered);
    by vm_compute.
Defined.

Lemma overlapping_restarts_witness :
  let p := (exec None (overlappingRestarts sessionOne) (Pool registered [])).1 in
  let q := (exec None (restartsInTurn sessionOne) (Pool registered [])).1 in
  waiting p = [] ∧ waiting q = [] ∧ clients (this p) = clients (this q) ∧
  clients (this p) !! sessionOne = Some 2 ∧
  handles (this q) !! 1 = None ∧
  handles (this p) !! 1 = Some sessionOne ∧
  handles (this p) !! 2 = Some sessionOne.
Proof.
  apply (overlapping_restarts None sessionOne 0 registered);
    [apply registered_client | apply registered_inv].
Defined.

Lemma create_during_destroy_witness :
  let p := final (step None (DestroyRequest sessionOne)) (Pool registered []) in
  result (createClient None sessionOne (Ok tt)) (this p) = Ok 0 ∧
  handles (this p) !! 0 = None ∧
  clients (this (exec None [DestroyRequest sessionOne; CreateClient sessionOne (Ok tt);
                            Settle (Destroying sessionOne Caller) (Ok tt)]
                   (Pool registered [])).1) !! sessionOne = None.
Proof.
  apply (create_during_destroy None sessionOne 0 (Ok tt) (Ok tt) registered),
    registered_client.
Defined.

Lemma overlapping_destroys_witness :
  (exec None [DestroyRequest sessionOne; DestroyRequest sessionOne] (Pool registered [])).2 =
    [Destroy 0; Destroy 0] ∧
  (exec None (destroyAlone sessionOne (Ok tt) ++ destroyAlone sessionOne (Ok tt))
     (Pool registered [])).2 = [Destroy 0; RemoveSessionDir sessionOne].
Proof.
  apply (overlapping_destroys None sessionOne 0 registered), registered_client.
Defined.

End async_registry_examples.
