(* ===== verification/Contract.v ===== *)
(** * The contract of the session registry

    The specification gives the registry a public contract on session
    ids: [create] is idempotent and bounded by the configured maximum,
    [destroy] always removes, [shutdown] destroys every session, a session
    whose adapter reports a terminal disconnect or an authentication
    failure is gone.  [SessionRegistry] writes this contract on the set of
    live session ids; it is modelled from the specification, not from
    code.

    The theorems show that class [WhatsAppHandler] of
    [src/whatsapp-handler.js] ([Registry.v]) implements the contract: the
    ids of [clients] after every method are the ids that the contract
    gives, and the result of [createClient] is the result the contract
    gives, for one request and for every sequence of requests.  The
    contract speaks of ids only; which client object stands behind an id
    is outside it. *)

From S2P Require Import Prelude Effects Registry.

(** ** The contract *)

Module SessionRegistry.

(** The live sessions. *)
Abbreviation registry := (gset text).

(** What [create] answers. *)
Inductive created : Type :=
| Session
| CapacityExceeded
| FatalInit.

#[export] Instance created_eq_dec : EqDecision created.
Proof. solve_decision. Defined.

(** [create(sessionId)]; [constructs] says whether the adapter can be
    constructed. *)
Definition create (max : Z) (sessionId : text) (constructs : bool)
    (r : registry) : created * registry :=
  if bool_decide (sessionId ∈ r) then (Session, r)
  else if (max <=? Z.of_nat (size r))%Z then (CapacityExceeded, r)
  else if constructs then (Session, {[sessionId]} ∪ r)
  else (FatalInit, r).

(** [get(sessionId)]: found or not. *)
Definition get (sessionId : text) (r : registry) : bool :=
  bool_decide (sessionId ∈ r).

(** [destroy(sessionId)]. *)
Definition destroy (sessionId : text) (r : registry) : registry :=
  r ∖ {[sessionId]}.

(** [shutdown()]. *)
Definition shutdown (r : registry) : registry := ∅.

(** The requests that change the registry; a restart is a [destroy]
    and a [create], a session that its adapter ends is removed. *)
Inductive request : Type :=
| Create (sessionId : text) (constructs : bool)
| Destroy (sessionId : text)
| Restart (sessionId : text) (constructs : bool)
| Ended (sessionId : text)
| Shutdown
| Read.

Definition step (max : Z) (q : request) (r : registry) : registry :=
  match q with
  | Create sessionId constructs => (create max sessionId constructs r).2
  | Destroy sessionId => destroy sessionId r
  | Restart sessionId constructs =>
    (create max sessionId constructs (destroy sessionId r)).2
  | Ended sessionId => destroy sessionId r
  | Shutdown => shutdown r
  | Read => r
  end.

Definition exec (max : Z) (qs : list request) (r : registry) : registry :=
  foldl (λ r q, step max q r) r qs.

End SessionRegistry.

(** ** The registry implements it *)

Section refinement.
Import WhatsAppHandler.
Implicit Types (s : registry) (e : env_int) (sessionId : text) (h : nat).
Implicit Types (r ctor : outcome error unit) (i : input) (ins : list input).

(** The session ids of the registry. *)
Definition ids s : gset text := dom (clients s).

(** Whether a call returned. *)
Definition returned {A} (o : outcome error A) : bool :=
  match o with Ok _ => true | Throw _ => false end.

(** The request of the contract that an input of the registry is.  An
    event of a client is the end of the session whose id its handlers
    captured; an event of a client that was destroyed is not delivered. *)
Definition request_of i s : SessionRegistry.request :=
  match i with
  | Create sessionId ctor => SessionRegistry.Create sessionId (returned ctor)
  | DestroySession sessionId _ => SessionRegistry.Destroy sessionId
  | Restart sessionId _ ctor => SessionRegistry.Restart sessionId (returned ctor)
  | AuthFailure h | Disconnected h =>
    match handles s !! h with
    | Some sessionId => SessionRegistry.Ended sessionId
    | None => SessionRegistry.Read
    end
  | Shutdown _ => SessionRegistry.Shutdown
  | _ => SessionRegistry.Read
  end.

(** The requests of a sequence of inputs, each read in the state the
    registry is in when the input arrives. *)
Fixpoint requests e ins s : list SessionRegistry.request :=
  match ins with
  | [] => []
  | i :: ins => request_of i s :: requests e ins (final (step e i) s)
  end.

Lemma ids_lookup s sessionId :
  bool_decide (sessionId ∈ ids s) = bool_decide (is_Some (clients s !! sessionId)).
Proof. unfold ids. apply bool_decide_ext, elem_of_dom. Qed.

Lemma ids_size s : size (ids s) = size (clients s).
Proof. apply size_dom. Qed.

Lemma ids_delete sessionId s :
  ids (setClients (delete sessionId) s) = SessionRegistry.destroy sessionId (ids s).
Proof. unfold ids, SessionRegistry.destroy. simpl. apply dom_delete_L. Qed.

(** [createClient] answers and leaves what the contract says. *)
Lemma createClient_create e sessionId ctor s :
  let answer := SessionRegistry.create (maxSessions e) sessionId (returned ctor) (ids s) in
  ids (final (createClient e sessionId ctor) s) = answer.2 ∧
  match answer.1 with
  | SessionRegistry.Session =>
    ∃ client, result (createClient e sessionId ctor) s = Ok client ∧
              clients (final (createClient e sessionId ctor) s) !! sessionId = Some client
  | SessionRegistry.CapacityExceeded =>
    result (createClient e sessionId ctor) s =
    Throw (Error (js "Maximum sessions limit reached (" ++
                  decimal (maxSessions e) ++ js ")"))
  | SessionRegistry.FatalInit =>
    ∃ error, ctor = Throw error ∧ result (createClient e sessionId ctor) s = Throw error
  end.
Proof.
  unfold SessionRegistry.create, result, final.
  rewrite createClient_run, ids_lookup, ids_size.
  destruct (clients s !! sessionId) as [client|] eqn:Hc.
  - rewrite bool_decide_eq_true_2 by eauto. simpl. eauto.
  - rewrite bool_decide_eq_false_2 by by intros [? ?].
    destruct (_ <=? _)%Z; [done|]. destruct ctor as [[]|error]; simpl.
    + split; [apply dom_insert_L|]. eexists. by rewrite lookup_insert_eq.
    + eauto.
Qed.

(** [destroySession] never throws and leaves what the contract says. *)
Lemma destroySession_destroy sessionId r s :
  ids (final (destroySession sessionId r) s) = SessionRegistry.destroy sessionId (ids s) ∧
  ∃ b, result (destroySession sessionId r) s = Ok b.
Proof.
  split; [|apply destroySession_total].
  unfold ids. rewrite destroySession_clients. apply dom_delete_L.
Qed.

Lemma final_seq_ret {A} (m : M A) s : final (m ;; ret tt) s = final m s.
Proof. unfold final. handler_simpl. by destruct (m s) as [[[a|e'] s1] t1]. Qed.

Lemma restartSession_final e sessionId r ctor s :
  final (restartSession e sessionId r ctor) s =
  final (createClient e sessionId ctor) (final (destroySession sessionId r) s).
Proof.
  unfold restartSession. destruct (destroySession_total sessionId r s) as [b Hb].
  rewrite (final_bind _ _ _ _ Hb). unfold final at 1. handler_simpl.
  by destruct (createClient e sessionId ctor _) as [[? ?] ?].
Qed.

(** The requests that read the registry leave it as it is. *)
Lemma sendMessage_final ts sessionId to message rChat rTyping rSend s :
  final (sendMessage ts sessionId to message rChat rTyping rSend) s = s.
Proof.
  unfold sendMessage, final. handler_simpl.
  destruct (clients s !! sessionId); [|done].
  by destruct ts, rChat, rTyping, rSend.
Qed.

Lemma ensureSessionDirectory_final access mkdir s :
  final (ensureSessionDirectory access mkdir) s = s.
Proof.
  unfold ensureSessionDirectory, final. handler_simpl. by destruct access, mkdir.
Qed.

(** One input is one request. *)
Lemma step_request e i s :
  ids (final (step e i) s) =
  SessionRegistry.step (maxSessions e) (request_of i s) (ids s).
Proof.
  destruct i; simpl; rewrite ?final_seq_ret.
  - apply createClient_create.
  - apply destroySession_destroy.
  - rewrite restartSession_final.
    destruct (createClient_create e sessionId ctor
                (final (destroySession sessionId r) s)) as [-> _].
    by destruct (destroySession_destroy sessionId r s) as [-> _].
  - unfold onAuthFailure, final. handler_simpl.
    destruct (handles s !! h); [apply ids_delete | done].
  - unfold onDisconnected, cleanupSession, final. handler_simpl.
    destruct (handles s !! h); [apply ids_delete | done].
  - by rewrite sendMessage_final.
  - by rewrite sendMedia_final.
  - by rewrite getQRCode_final.
  - by rewrite getContactInfo_final.
  - by rewrite ensureSessionDirectory_final.
  - unfold ids. by rewrite cleanupAllSessions_clients, dom_empty_L.
Qed.

Lemma exec_requests e ins s :
  ids (exec e ins s) =
  SessionRegistry.exec (maxSessions e) (requests e ins s) (ids s).
Proof.
  unfold exec, SessionRegistry.exec. revert s.
  induction ins as [|i ins IH]; intros s; simpl; [done|].
  by rewrite IH, step_request.
Qed.

(** The contract keeps the registry within the maximum. *)
Lemma contract_step_size (max : Z) (q : SessionRegistry.request) (r : gset text) :
  (Z.of_nat (size r) ≤ Z.max 0 max)%Z →
  (Z.of_nat (size (SessionRegistry.step max q r)) ≤ Z.max 0 max)%Z.
Proof.
  assert (∀ x, size (SessionRegistry.destroy x r) ≤ size r) as Hd.
  { intros x. apply subseteq_size. unfold SessionRegistry.destroy. set_solver. }
  assert (∀ x b (r' : gset text), (Z.of_nat (size r') ≤ Z.max 0 max)%Z →
            (Z.of_nat (size (SessionRegistry.create max x b r').2) ≤ Z.max 0 max)%Z)
    as Hc.
  { intros x b r' Hr'. unfold SessionRegistry.create.
    case_bool_decide as Hx; [done|].
    destruct (Z.leb_spec max (Z.of_nat (size r'))); [done|].
    destruct b; [|done]. simpl.
    rewrite size_union by set_solver. rewrite size_singleton. lia. }
  intros Hr. destruct q as [x b|x|x b|x| |];
    cbn [SessionRegistry.step]; auto.
  - specialize (Hd x). lia.
  - apply Hc. specialize (Hd x). lia.
  - specialize (Hd x). lia.
  - unfold SessionRegistry.shutdown. rewrite size_empty. lia.
Qed.

Lemma contract_exec_size (max : Z) (qs : list SessionRegistry.request)
    (r : gset text) :
  (Z.of_nat (size r) ≤ Z.max 0 max)%Z →
  (Z.of_nat (size (SessionRegistry.exec max qs r)) ≤ Z.max 0 max)%Z.
Proof.
  unfold SessionRegistry.exec. revert r.
  induction qs as [|q qs IH]; intros r Hr; [done|].
  simpl. by apply IH, contract_step_size.
Qed.

(** What a client of the registry may rely on follows from the contract
    alone: the bound on the live sessions, here for the registry from its
    constructor. *)
Lemma capacity_by_contract e ins :
  (Z.of_nat (size (clients (exec e ins init))) ≤ Z.max 0 (maxSessions e))%Z.
Proof.
  rewrite <-ids_size, exec_requests. apply contract_exec_size.
  unfold ids. simpl. rewrite dom_empty_L, size_empty. lia.
Qed.

(** [getClientStatus] reports a session that the contract does not have
    as not found. *)
Lemma getClientStatus_get probes sessionId s :
  SessionRegistry.get sessionId (ids s) = false →
  getClientStatus probes sessionId s = Status (js "not_found") false false None.
Proof.
  unfold SessionRegistry.get, getClientStatus. rewrite ids_lookup.
  destruct (clients s !! sessionId); [|done].
  by rewrite bool_decide_eq_true_2 by eauto.
Qed.

(** C21: the registry implements the contract of the specification.  For
    every sequence of requests and events, the session ids in [clients]
    are the ids that the contract gives for the corresponding requests:
    [createClient] adds an id when it is new, the registry is below
    [maxSessions] and the client can be constructed, [destroySession]
    and the events ['disconnected'] and ['auth_failure'] remove one,
    [restartSession] removes and adds, [shutdown] removes all and the
    other methods change nothing. *)
Theorem registry_refines e ins s :
  ids (exec e ins s) =
  SessionRegistry.exec (maxSessions e) (requests e ins s) (ids s).
Proof. apply exec_requests. Qed.

(** [createClient] answers as the contract's [create]: the client
    of the session, which is then in the registry, when the id is there
    already or can be added; the error of the limit when the registry
    holds [maxSessions] ids and the id is new; the error of the
    constructor otherwise, with the registry unchanged. *)
Theorem createClient_refines e sessionId ctor s :
  let answer := SessionRegistry.create (maxSessions e) sessionId (returned ctor) (ids s) in
  ids (final (createClient e sessionId ctor) s) = answer.2 ∧
  match answer.1 with
  | SessionRegistry.Session =>
    ∃ client, result (createClient e sessionId ctor) s = Ok client ∧
              clients (final (createClient e sessionId ctor) s) !! sessionId = Some client
  | SessionRegistry.CapacityExceeded =>
    result (createClient e sessionId ctor) s =
    Throw (Error (js "Maximum sessions limit reached (" ++
                  decimal (maxSessions e) ++ js ")"))
  | SessionRegistry.FatalInit =>
    ∃ error, ctor = Throw error ∧ result (createClient e sessionId ctor) s = Throw error
  end.
Proof. apply createClient_create. Qed.

End refinement.
