(* ===== verification/MultiServer.v ===== *)
(** * The multi-session server

    Class [WhatsAppBotServer] of [src/unnamed/part_002]: one WhatsApp
    client per browser socket that asks for a QR code, a map
    [activeSessions] from session ids to session objects, a MySQL pool
    that may be absent, two cron jobs and the shutdown.

    - [server] holds the fields of the object: the registry
      ([Registry.WhatsAppHandler]), the reply engine (any [ReplyEngine]),
      [activeSessions], [dbPool] as a boolean ([false] for [null]) and
      [rateLimits] ([RateLimit.ServerLimit]); and what the object does not
      hold but its behaviour depends on: the session objects ([heap],
      by location, since the closures of a client keep an object alive
      and writable after it has left [activeSessions]), the closures
      registered on each client ([listeners]) and the handlers that wait
      for a promise ([pending]).
    - A handler of a route, of a socket event, of a client event or of a
      cron job is a value of [M]; the results of the calls it awaits are
      arguments.  [generate_qr] is cut at [await client.initialize()]:
      its rest is the task [Initializing], which [resumeInitializing]
      runs.  [gracefulShutdown] is cut at the callback of
      [server.close].
    - An event of a client runs the handler that [createClient] of the
      registry registered, then the closures that
      [createWhatsAppSession] registered, in this order.
    - [step] runs one input; [runs] is the reachability relation.

    Uptime, memory and time stamps of the responses are left out of
    [stats] and [body].

    The facts, after the model:
    - [wf] is the invariant of the state and [reachable_wf] shows it of
      every reachable state;
    - [session_step_total]: no handler leaves a rejection;
      [offline_step]: no statement reaches a database that is not
      there;
    - [execs_resumes] bounds the runs of the waiting handlers by
      [pending]; [shutdown_exits]: the shutdown is always possible and
      ends the process with code 0;
    - [cleanup_active] is the specification of the hourly job and
      [cleanup_clients] what it forgets: the registry keeps the clients;
    - [handleIncomingMessage_replied] and the lemmas around it give the
      calls and the state of [handleIncomingMessage], path by path;
    - the examples run the machine with [GeminiAI] as the engine.

    The statements are calls here; [Database] runs them on the
    tables. *)

From Stdlib Require Import QArith.
From S2P Require Import Prelude Effects RateLimit Typing Engine Registry.
Local Close Scope Q_scope.

Module SessionServer.

(** ** Data *)

(** A message of the adapter, as far as the handlers read it. *)
Record message : Type := Message {
  mid : nat;
  body : text;
  fromMe : bool;
}.

#[export] Instance message_eq_dec : EqDecision message.
Proof. solve_decision. Defined.

Record contact : Type := Contact { number : text }.

(** The object that [createWhatsAppSession] builds. *)
Record session : Type := Session {
  id : text;
  client : option nat;
  socket : text;
  isReady : bool;
  messagesSent : Z;
  lastActivity : Z;
}.

(** The closures that [createWhatsAppSession] registers on a client:
    they capture the session object, [sessionId] and [socket]. *)
Record listener : Type := Listener {
  object : nat;
  sessionId : text;
  listenerSocket : text;
}.

(** The object that [getSystemStats] returns. *)
Record stats : Type := Stats {
  stats_activeSessions : nat;
  totalMessagesSent : Z;
}.

(** The statements given to [dbPool.execute]. *)
Inductive db_query : Type :=
| CreateTable (name : text)
| UpsertSession (sessionId status : text)
| InsertMessage (sessionId fromNumber messageText aiReply : text)
| IncrementSent (sessionId : text)
| SumSent
| UpsertAnalytics (date : text) (totalMessages : Z) (activeSessions : nat).

(** The events of [socket.emit]. *)
Inductive socket_event : Type :=
| Connected
| Qr (qrImage : text)
| Ready
| Disconnected (reason : text)
| Authenticated
| AuthFailure (message : text)
| MessageSent (from originalMessage reply : text) (timestamp : Z)
| SocketError (message error : text).

(** The arguments of the acknowledgement callbacks. *)
Inductive callback : Type :=
| QrSuccess (sessionId : text)
| QrFailure (error : text)
| StatsResult (s : stats).

(** The bodies of [res.json]. *)
Inductive response : Type :=
| Health (activeSessions : nat)
| Status (data : stats)
| Success (message : text)
| Failure (error : text).

(** The handlers that wait for a promise. *)
Inductive task : Type :=
| Initializing (l : nat) (sessionId socket : text) (hasCallback : bool)
| Closing.

#[export] Instance task_eq_dec : EqDecision task.
Proof. solve_decision. Defined.

(** [pending] without the first occurrence of a task. *)
Fixpoint remove1 (t : task) (ts : list task) : list task :=
  match ts with
  | [] => []
  | t' :: ts' => if decide (t = t') then ts' else t' :: remove1 t ts'
  end.

Section server.
Context {E : Type} {engine : ReplyEngine E}.

(** The environment: [MAX_SESSIONS], [SESSION_TIMEOUT] and
    [FALLBACK_REPLY]. *)
Context (MAX_SESSIONS SESSION_TIMEOUT : env_int) (FALLBACK_REPLY : option text).

(** The calls of the outside world. *)
Inductive act : Type :=
| HandlerCall (a : WhatsAppHandler.act)
| EngineCall (a : engine_act)
| Initialize (h : nat)
| ClientSendMessage (h : nat) (to message : text)
| GetContact (m : message)
| SendStateTyping (m : message)
| Sleep (ms : Q)
| Reply (m : message) (reply : text)
| ToDataURL (qr : text)
| SocketEmit (socket : text) (e : socket_event)
| Callback (socket : text) (c : callback)
| Respond (code : Z) (b : response)
| DbConnect
| DbExecute (q : db_query)
| DbEnd
| Listen
| ServerClose
| Exit (code : Z).

Record server : Type := Server {
  whatsappHandler : WhatsAppHandler.registry;
  aiReply : E;
  activeSessions : gmap text nat;
  dbPool : bool;
  rateLimits : ServerLimit.store;
  heap : gmap nat session;
  nextSession : nat;
  listeners : gmap nat (list listener);
  pending : list task;
  exited : option Z;
}.

(** The object after its constructor, given the engine that
    [new AIReply()] built. *)
Definition create (e : E) : server :=
  Server WhatsAppHandler.init e ∅ false None ∅ 0 ∅ [] None.

Abbreviation M := (handler server act error).

(** *** Field updates *)

Definition setHandler (r : WhatsAppHandler.registry) (s : server) : server :=
  Server r (aiReply s) (activeSessions s) (dbPool s) (rateLimits s) (heap s)
         (nextSession s) (listeners s) (pending s) (exited s).

Definition setAiReply (e : E) (s : server) : server :=
  Server (whatsappHandler s) e (activeSessions s) (dbPool s) (rateLimits s)
         (heap s) (nextSession s) (listeners s) (pending s) (exited s).

Definition setActive (f : gmap text nat → gmap text nat) (s : server) : server :=
  Server (whatsappHandler s) (aiReply s) (f (activeSessions s)) (dbPool s)
         (rateLimits s) (heap s) (nextSession s) (listeners s) (pending s)
         (exited s).

Definition setDbPool (b : bool) (s : server) : server :=
  Server (whatsappHandler s) (aiReply s) (activeSessions s) b (rateLimits s)
         (heap s) (nextSession s) (listeners s) (pending s) (exited s).

Definition setRateLimits (rl : ServerLimit.store) (s : server) : server :=
  Server (whatsappHandler s) (aiReply s) (activeSessions s) (dbPool s) rl
         (heap s) (nextSession s) (listeners s) (pending s) (exited s).

Definition setHeap (f : gmap nat session → gmap nat session) (s : server) : server :=
  Server (whatsappHandler s) (aiReply s) (activeSessions s) (dbPool s)
         (rateLimits s) (f (heap s)) (nextSession s) (listeners s) (pending s)
         (exited s).

Definition setPending (f : list task → list task) (s : server) : server :=
  Server (whatsappHandler s) (aiReply s) (activeSessions s) (dbPool s)
         (rateLimits s) (heap s) (nextSession s) (listeners s) (f (pending s))
         (exited s).

Definition setExited (code : Z) (s : server) : server :=
  Server (whatsappHandler s) (aiReply s) (activeSessions s) (dbPool s)
         (rateLimits s) (heap s) (nextSession s) (listeners s) (pending s)
         (Some code).

(** A new session object with the closures of its client. *)
Definition allocate (o : session) (h : nat) (s : server) : server :=
  let l := nextSession s in
  Server (whatsappHandler s) (aiReply s) (activeSessions s) (dbPool s)
         (rateLimits s) (<[l := o]> (heap s)) (S l)
         (<[h := default [] (listeners s !! h) ++ [Listener l (id o) (socket o)]]>
            (listeners s))
         (pending s) (exited s).

(** An assignment to fields of the session object at [l]. *)
Definition onSession (l : nat) (f : session → session) : M unit :=
  modify (setHeap (alter f l)).

Definition setIsReady (b : bool) (o : session) : session :=
  Session (id o) (client o) (socket o) b (messagesSent o) (lastActivity o).

Definition sent (now : Z) (o : session) : session :=
  Session (id o) (client o) (socket o) (isReady o) (messagesSent o + 1) now.

(** A method of [this.whatsappHandler]. *)
Definition inHandler {A} (m : handler WhatsAppHandler.registry WhatsAppHandler.act error A) :
    M A :=
  zoom whatsappHandler setHandler HandlerCall m.

(** [for (const x of xs) f(x)]. *)
Fixpoint forEach {A} (xs : list A) (f : A → M unit) : M unit :=
  match xs with
  | [] => ret tt
  | x :: xs' => f x;; forEach xs' f
  end.

(** ** Start, lines 37-132 *)

(** The three tables of [createTables], in the order of the object. *)
Definition tables : list text := [js "sessions"; js "messages"; js "analytics"].

(** [createTables()]; [rs] gives the result of each statement. *)
Definition createTables (rs : text → outcome error unit) : M unit :=
  s ← get;
  if negb (dbPool s) then ret tt else
  forEach tables (λ name,
    catch (call (DbExecute (CreateTable name)) (rs name)) (λ _, ret tt)).

(** [setupDatabase()]; [connect] is the result of [getConnection] and
    [ping]. *)
Definition setupDatabase (connect : outcome error unit)
    (rs : text → outcome error unit) : M unit :=
  catch
    (modify (setDbPool true);;
     call DbConnect connect;;
     createTables rs)
    (λ _, modify (setDbPool false)).

(** [init()]; the middleware, the routes, the socket handlers and the
    cron jobs are registered, and the server listens. *)
Definition init (connect : outcome error unit) (rs : text → outcome error unit) :
    M unit :=
  catch
    (setupDatabase connect rs;;
     emit Listen)
    (λ _, emit (Exit 1);; modify (setExited 1)).

(** ** Persistence, lines 437-499 *)

(** [saveSession(sessionId, status)]. *)
Definition saveSession (sessionId status : text) (r : outcome error unit) : M unit :=
  s ← get;
  if negb (dbPool s) then ret tt else
  catch (call (DbExecute (UpsertSession sessionId status)) r) (λ _, ret tt).

(** [saveMessage(sessionId, fromNumber, messageText, aiReply)]. *)
Definition saveMessage (sessionId fromNumber messageText aiReply : text)
    (rInsert rUpdate : outcome error unit) : M unit :=
  s ← get;
  if negb (dbPool s) then ret tt else
  catch
    (call (DbExecute (InsertMessage sessionId fromNumber messageText aiReply)) rInsert;;
     call (DbExecute (IncrementSent sessionId)) rUpdate)
    (λ _, ret tt).

(** The sum of the loop of [getSystemStats]. *)
Definition sessionTotal (s : server) : Z :=
  map_fold (λ _ l sum,
              (sum + match heap s !! l with
                     | Some session => messagesSent session
                     | None => 0
                     end)%Z) 0%Z (activeSessions s).

(** [getSystemStats()]; [total] is [rows[0].total] of the sum over the
    table, [None] when it is missing or [NULL]. *)
Definition getSystemStats (total : outcome error (option Z)) : M stats :=
  s ← get;
  let stats := Stats (size (activeSessions s)) (sessionTotal s) in
  if dbPool s then
    catch
      (total ← call (DbExecute SumSent) total;
       match total with
       | Some n => if (n =? 0)%Z then ret stats
                   else ret (Stats (stats_activeSessions stats) n)
       | None => ret stats
       end)
      (λ _, ret stats)
  else ret stats.

(** ** Routes, lines 171-249 *)

(** [GET /health]. *)
Definition getHealth : M unit :=
  s ← get;
  emit (Respond 200 (Health (size (activeSessions s)))).

(** [GET /api/status]. *)
Definition getApiStatus (total : outcome error (option Z)) : M unit :=
  catch
    (stats ← getSystemStats total;
     emit (Respond 200 (Status stats)))
    (λ error, emit (Respond 500 (Failure (error_message error)))).

(** Reading a property of [null]. *)
Definition typeError : error := Error (js "Cannot read properties of null").

(** [POST /api/send-message]; a field of the body is [None] when it is
    missing. *)
Definition postSendMessage (sessionId to message : option text)
    (rSend : outcome error unit) : M unit :=
  catch
    (if negb (truthyOpt sessionId) || negb (truthyOpt to) || negb (truthyOpt message)
     then emit (Respond 400 (Failure (js "Missing required parameters"))) else
     s ← get;
     match activeSessions s !! default [] sessionId ≫= (λ l, heap s !! l) with
     | Some session =>
       if negb (isReady session)
       then emit (Respond 400 (Failure (js "Session not ready"))) else
       match client session with
       | Some h =>
         call (ClientSendMessage h (default [] to) (default [] message)) rSend
       | None => throw typeError
       end;;
       emit (Respond 200 (Success (js "Message sent successfully")))
     | None => emit (Respond 400 (Failure (js "Session not ready")))
     end)
    (λ error, emit (Respond 500 (Failure (error_message error)))).

(** [GET *]. *)
Definition notFound : M unit := emit (Respond 404 (Failure (js "Route not found"))).

(** ** Sessions, lines 251-370 *)

(** The handler of ['connection']. *)
Definition onConnection (socket : text) : M unit :=
  emit (SocketEmit socket Connected).

(** [createWhatsAppSession(sessionId, socket)] up to
    [await session.client.initialize()]; [ctor] is the result of
    [new Client(..)] and [now] is [Date.now()]. *)
Definition createWhatsAppSession (sessionId socket : text) (hasCallback : bool)
    (ctor : outcome error unit) (now : Z) : M unit :=
  catch
    (client ← inHandler (WhatsAppHandler.createClient MAX_SESSIONS sessionId ctor);
     s ← get;
     let l := nextSession s in
     modify (allocate (Session sessionId (Some client) socket false 0 now) client);;
     emit (Initialize client);;
     modify (setPending (cons (Initializing l sessionId socket hasCallback))))
    (λ error, throw error).

(** The [catch] of the handler of ['generate_qr']. *)
Definition qrFailed (socket : text) (hasCallback : bool) (error : error) : M unit :=
  emit (SocketEmit socket
          (SocketError (js "Failed to generate QR code") (error_message error)));;
  when hasCallback (emit (Callback socket (QrFailure (error_message error)))).

(** The handler of ['generate_qr'], up to the [await] of
    [createWhatsAppSession]; [sessionId] is the result of [uuidv4()]. *)
Definition onGenerateQr (socket sessionId : text) (hasCallback : bool)
    (ctor : outcome error unit) (now : Z) : M unit :=
  catch (createWhatsAppSession sessionId socket hasCallback ctor now)
        (qrFailed socket hasCallback).

(** The rest of the handler once [initialize()] has settled with [r]. *)
Definition resumeInitializing (l : nat) (sessionId socket : text)
    (hasCallback : bool) (r : outcome error unit) : M unit :=
  catch
    (await r;;
     modify (setActive <[sessionId := l]>);;
     when hasCallback (emit (Callback socket (QrSuccess sessionId))))
    (qrFailed socket hasCallback).

(** The handler of ['get_status']. *)
Definition onGetStatus (socket : text) (hasCallback : bool)
    (total : outcome error (option Z)) : M unit :=
  stats ← getSystemStats total;
  when hasCallback (emit (Callback socket (StatsResult stats))).

(** ** Incoming messages, lines 372-435 *)

(** What the outside world supplies to one run of
    [handleIncomingMessage]. *)
Record inbound : Type := Inbound {
  contactResult : outcome error contact;
  now : Z;
  engineWorld : engine_world;
  typingResult : outcome error unit;
  rand : Q;
  replyResult : outcome error unit;
  tActivity : Z;
  tSent : Z;
  insertResult : outcome error unit;
  updateResult : outcome error unit;
  fallbackResult : outcome error unit;
}.

(** [process.env.FALLBACK_REPLY || '...']. *)
Definition fallbackReply : text :=
  envOr FALLBACK_REPLY (js "Sorry, I encountered an issue. Please try again.").

(** [this.aiReply.generateReply(messageText, fromNumber)]: the third
    argument of the interface is not given. *)
Definition generateReply (w : inbound) (messageText fromNumber : text) :
    M (option text) :=
  zoom aiReply setAiReply EngineCall
    (engine_generateReply (engineWorld w) messageText fromNumber []).

(** [handleIncomingMessage(message, session)], for the session object
    at [l]. *)
Definition handleIncomingMessage (w : inbound) (m : message) (l : nat) : M unit :=
  catch
    (contact ← call (GetContact m) (contactResult w);
     let fromNumber := number contact in
     let messageText := body m in
     s ← get;
     match ServerLimit.rateLimitGate (now w) fromNumber (rateLimits s) with
     | None => ret tt
     | Some rl =>
       modify (setRateLimits rl);;
       aiReply ← generateReply w messageText fromNumber;
       if truthyOpt aiReply then
         let reply := default [] aiReply in
         call (SendStateTyping m) (typingResult w);;
         emit (Sleep (ServerTyping.delay (rand w)));;
         call (Reply m reply) (replyResult w);;
         onSession l (sent (tActivity w));;
         s ← get;
         match heap s !! l with
         | Some session =>
           emit (SocketEmit (socket session)
                   (MessageSent fromNumber messageText reply (tSent w)));;
           saveMessage (id session) fromNumber messageText reply
             (insertResult w) (updateResult w)
         | None => throw typeError
         end
       else ret tt
     end)
    (λ _, catch (call (Reply m fallbackReply) (fallbackResult w)) (λ _, ret tt)).

(** ** The events of a client, lines 313-359 *)

Inductive client_event : Type :=
| QrEvent (qr : text) (qrImage : outcome error text)
| ReadyEvent (save : outcome error unit)
| MessageCreate (m : message) (w : inbound)
| DisconnectedEvent (reason : text)
| AuthenticatedEvent
| AuthFailureEvent (message : text).

(** The handler that [createClient] of the registry registered. *)
Definition registryHandler (h : nat) (e : client_event) : M unit :=
  match e with
  | AuthFailureEvent _ => inHandler (WhatsAppHandler.onAuthFailure h)
  | DisconnectedEvent _ => inHandler (WhatsAppHandler.onDisconnected h)
  | _ => ret tt
  end.

(** The closure that [createWhatsAppSession] registered; what an
    [async] closure throws is an unhandled rejection. *)
Definition sessionHandler (e : client_event) (li : listener) : M unit :=
  match e with
  | QrEvent qr qrImage =>
    catch (image ← call (ToDataURL qr) qrImage;
           emit (SocketEmit (listenerSocket li) (Qr image)))
          (λ _, ret tt)
  | ReadyEvent save =>
    onSession (object li) (setIsReady true);;
    emit (SocketEmit (listenerSocket li) Ready);;
    saveSession (sessionId li) (js "connected") save
  | MessageCreate m w =>
    if fromMe m then ret tt
    else catch (handleIncomingMessage w m (object li)) (λ _, ret tt)
  | DisconnectedEvent reason =>
    onSession (object li) (setIsReady false);;
    emit (SocketEmit (listenerSocket li) (Disconnected reason));;
    modify (setActive (delete (sessionId li)))
  | AuthenticatedEvent => emit (SocketEmit (listenerSocket li) Authenticated)
  | AuthFailureEvent message =>
    emit (SocketEmit (listenerSocket li) (AuthFailure message));;
    modify (setActive (delete (sessionId li)))
  end.

(** An event of the client [h]: a destroyed client emits none. *)
Definition onClientEvent (h : nat) (e : client_event) : M unit :=
  s ← get;
  match WhatsAppHandler.handles (whatsappHandler s) !! h with
  | None => ret tt
  | Some _ =>
    registryHandler h e;;
    forEach (default [] (listeners s !! h)) (sessionHandler e)
  end.

(** ** Cron jobs and shutdown, lines 501-602 *)

(** [session.client.destroy()] inside [try]: the promise is not awaited. *)
Definition destroyClient (session : session) : M unit :=
  match client session with
  | Some h => catch (inHandler (WhatsAppHandler.destroy h (Ok tt))) (λ _, ret tt)
  | None => ret tt
  end.

(** The body of the loop of [cleanupInactiveSessions]. *)
Definition cleanupEntry (now : Z) (entry : text * nat) : M unit :=
  s ← get;
  let timeout := parseIntOr SESSION_TIMEOUT 3600000 in
  match heap s !! entry.2 with
  | Some session =>
    if (timeout <? now - lastActivity session)%Z
    then destroyClient session;;
         modify (setActive (delete entry.1))
    else ret tt
  | None => ret tt
  end.

(** [cleanupInactiveSessions()]; [now] is [Date.now()]. *)
Definition cleanupInactiveSessions (now : Z) : M unit :=
  s ← get;
  forEach (map_to_list (activeSessions s)) (cleanupEntry now).

(** [updateDailyAnalytics()]; [today] is the date of
    [new Date().toISOString()]. *)
Definition updateDailyAnalytics (today : text) (total : outcome error (option Z))
    (r : outcome error unit) : M unit :=
  s ← get;
  if negb (dbPool s) then ret tt else
  catch
    (stats ← getSystemStats total;
     call (DbExecute (UpsertAnalytics today (totalMessagesSent stats)
                        (stats_activeSessions stats))) r)
    (λ _, ret tt).

(** [gracefulShutdown()] up to the callback of [server.close]. *)
Definition gracefulShutdown : M unit :=
  s ← get;
  forEach (map_to_list (activeSessions s)) (λ entry,
    match heap s !! entry.2 with
    | Some session => destroyClient session
    | None => ret tt
    end);;
  when (dbPool s) (emit DbEnd);;
  emit ServerClose;;
  modify (setPending (cons Closing)).

(** The callback of [server.close]. *)
Definition closed : M unit :=
  emit (Exit 0);; modify (setExited 0).

(** ** The server as a machine *)

Inductive input : Type :=
| Start (connect : outcome error unit) (rs : text → outcome error unit)
| GetHealth
| GetApiStatus (total : outcome error (option Z))
| PostSendMessage (sessionId to message : option text) (rSend : outcome error unit)
| GetOther
| Connection (socket : text)
| GenerateQr (socket sessionId : text) (hasCallback : bool)
    (ctor : outcome error unit) (now : Z)
| GetStatus (socket : text) (hasCallback : bool) (total : outcome error (option Z))
| SocketDisconnect (socket : text)
| ClientEvent (h : nat) (e : client_event)
| CleanupJob (now : Z)
| AnalyticsJob (today : text) (total : outcome error (option Z))
    (r : outcome error unit)
| Signal
| Resume (t : task) (r : outcome error unit).

(** The rest of a handler that waited. *)
Definition resumeTask (t : task) (r : outcome error unit) : M unit :=
  modify (setPending (remove1 t));;
  match t with
  | Initializing l sessionId socket hasCallback =>
    resumeInitializing l sessionId socket hasCallback r
  | Closing => closed
  end.

Definition step (i : input) : M unit :=
  match i with
  | Start connect rs => init connect rs
  | GetHealth => getHealth
  | GetApiStatus total => getApiStatus total
  | PostSendMessage sessionId to message rSend =>
    postSendMessage sessionId to message rSend
  | GetOther => notFound
  | Connection socket => onConnection socket
  | GenerateQr socket sessionId hasCallback ctor now =>
    onGenerateQr socket sessionId hasCallback ctor now
  | GetStatus socket hasCallback total => onGetStatus socket hasCallback total
  | SocketDisconnect _ => ret tt
  | ClientEvent h e => onClientEvent h e
  | CleanupJob now => cleanupInactiveSessions now
  | AnalyticsJob today total r => updateDailyAnalytics today total r
  | Signal => gracefulShutdown
  | Resume t r => resumeTask t r
  end.

(** An input can occur: the process runs, and a task is resumed only
    while it waits. *)
Definition enabled (i : input) (s : server) : bool :=
  match exited s with
  | Some _ => false
  | None =>
    match i with
    | Resume t _ => bool_decide (t ∈ pending s)
    | _ => true
    end
  end.

(** One input, when it can occur: the state after it and what was
    called. *)
Definition exec (i : input) (s : server) : option (server * list act) :=
  if enabled i s then Some (final (step i) s, trace (step i) s) else None.

(** The states that a sequence of inputs leads to, with the calls made. *)
Inductive runs : server → list act → server → Prop :=
| runs_nil s : runs s [] s
| runs_step s i s' t s'' t' :
    exec i s = Some (s', t) → runs s' t' s'' → runs s (t ++ t') s''.

(** A sequence of inputs, when each can occur in its turn. *)
Fixpoint execs (ins : list input) (s : server) : option (server * list act) :=
  match ins with
  | [] => Some (s, [])
  | i :: ins' =>
    '(s', t) ← exec i s;
    '(s'', t') ← execs ins' s';
    Some (s'', t ++ t')
  end.

End server.

End SessionServer.

(** ** The state is well formed *)

Create HintDb multi discriminated.
#[export] Hint Unfold SessionServer.step SessionServer.init SessionServer.setupDatabase
  SessionServer.createTables SessionServer.saveSession SessionServer.saveMessage
  SessionServer.getSystemStats SessionServer.getHealth SessionServer.getApiStatus
  SessionServer.postSendMessage SessionServer.notFound SessionServer.onConnection
  SessionServer.onGenerateQr SessionServer.createWhatsAppSession SessionServer.qrFailed
  SessionServer.resumeInitializing SessionServer.onGetStatus
  SessionServer.handleIncomingMessage SessionServer.onClientEvent
  SessionServer.registryHandler SessionServer.sessionHandler
  SessionServer.cleanupInactiveSessions SessionServer.cleanupEntry
  SessionServer.destroyClient SessionServer.updateDailyAnalytics
  SessionServer.gracefulShutdown SessionServer.closed SessionServer.resumeTask
  SessionServer.onSession : multi.

Section well_formed.
Import SessionServer.
Context {E : Type} {engine : ReplyEngine E}.
Context (MAX_SESSIONS SESSION_TIMEOUT : env_int) (FALLBACK_REPLY : option text).

Local Abbreviation server := (@server E).
Local Abbreviation step := (step MAX_SESSIONS SESSION_TIMEOUT FALLBACK_REPLY).
Local Abbreviation exec := (exec MAX_SESSIONS SESSION_TIMEOUT FALLBACK_REPLY).
Local Abbreviation runs := (runs MAX_SESSIONS SESSION_TIMEOUT FALLBACK_REPLY).
Implicit Types (s : server) (l h : nat) (o : session) (li : listener) (t : task).

(** A location holds the object of the session [sid]. *)
Definition holds s l (sid : text) : Prop := ∃ o, heap s !! l = Some o ∧ id o = sid.

(** The invariant of the server: the registry and the engine keep
    theirs; every object has a client and a count that is not negative;
    [activeSessions], the waiting handlers and the closures refer to
    objects of the heap, under the id of the object. *)
Record wf s : Prop := {
  wf_registry : WhatsAppHandler.inv MAX_SESSIONS (whatsappHandler s);
  wf_engine : engine_inv (aiReply s);
  wf_heap : ∀ l o, heap s !! l = Some o →
    l < nextSession s ∧ is_Some (client o) ∧ (0 ≤ messagesSent o)%Z;
  wf_active : ∀ sid l, activeSessions s !! sid = Some l → holds s l sid;
  wf_pending : ∀ l sid sock cb, Initializing l sid sock cb ∈ pending s → holds s l sid;
  wf_listeners : ∀ h lis li, listeners s !! h = Some lis → li ∈ lis →
    ∃ o, heap s !! object li = Some o ∧ id o = sessionId li ∧
         socket o = listenerSocket li;
}.

Lemma wf_create e : engine_inv e → wf (create e).
Proof.
  intros He. split; simpl; [|done|..]; try (by intros; simplify_map_eq).
  - unfold WhatsAppHandler.inv. simpl. rewrite map_size_empty. lia.
  - by intros ???? ?%elem_of_nil.
Qed.

(** *** Updates of the fields *)

Lemma wf_setDbPool b s : wf s → wf (setDbPool b s).
Proof. by intros []. Qed.

Lemma wf_setRateLimits rl s : wf s → wf (setRateLimits rl s).
Proof. by intros []. Qed.

Lemma wf_setExited code s : wf s → wf (setExited code s).
Proof. by intros []. Qed.

Lemma wf_setHandler r s : wf s → WhatsAppHandler.inv MAX_SESSIONS r → wf (setHandler r s).
Proof. by intros []. Qed.

Lemma wf_setAiReply e s : wf s → engine_inv e → wf (setAiReply e s).
Proof. by intros []. Qed.

Lemma wf_delete sid s : wf s → wf (setActive (delete sid) s).
Proof.
  intros []. split; try done. simpl. intros sid' l [_ Hl]%lookup_delete_Some.
  by apply wf_active0.
Qed.

Lemma wf_activate sid l s : wf s → holds s l sid → wf (setActive <[sid := l]> s).
Proof.
  intros [] Hl. split; try done. simpl.
  intros sid' l' [[<- <-]|[_ H]]%lookup_insert_Some; [done | by apply wf_active0].
Qed.

Lemma wf_remove1 t s : wf s → wf (setPending (remove1 t) s).
Proof.
  intros []. split; try done. simpl. intros l sid sock cb Hin.
  apply (wf_pending0 l sid sock cb). clear -Hin.
  induction (pending s) as [|t' ts IH]; [done|]. simpl in Hin.
  case_decide; set_solver.
Qed.

Lemma wf_Closing s : wf s → wf (setPending (cons Closing) s).
Proof.
  intros []. split; try done. simpl. intros l sid sock cb Hin.
  apply (wf_pending0 l sid sock cb). set_solver.
Qed.

(** An assignment to [isReady], [messagesSent] or [lastActivity]. *)
Lemma holds_alter l' (f : session → session) s l sid :
  (∀ o, id (f o) = id o) → holds s l sid → holds (setHeap (alter f l') s) l sid.
Proof.
  intros Hf (o & Ho & Hid). unfold holds. simpl.
  destruct (decide (l = l')) as [->|Hne].
  - exists (f o). by rewrite lookup_alter_eq, Ho, Hf.
  - exists o. by rewrite lookup_alter_ne.
Qed.

Lemma wf_alter l (f : session → session) s :
  (∀ o, id (f o) = id o ∧ client (f o) = client o ∧ socket (f o) = socket o ∧
        (0 ≤ messagesSent o → 0 ≤ messagesSent (f o))%Z) →
  wf s → wf (setHeap (alter f l) s).
Proof.
  intros Hf []. split; try done; simpl.
  - intros l' o'. destruct (decide (l' = l)) as [->|Hne].
    + rewrite lookup_alter_eq. destruct (heap s !! l) as [o|] eqn:Ho; [|done].
      intros [= <-]. destruct (wf_heap0 l o Ho) as (? & ? & ?).
      destruct (Hf o) as (_ & -> & _ & ?). auto.
    + rewrite lookup_alter_ne by done. apply wf_heap0.
  - intros sid l' H. apply holds_alter; [apply Hf | by apply wf_active0].
  - intros l' sid sock cb H. apply holds_alter; [apply Hf | by eapply wf_pending0].
  - intros h lis li Hlis Hli.
    destruct (wf_listeners0 h lis li Hlis Hli) as (o & Ho & Hid & Hsock).
    destruct (decide (l = object li)) as [->|Hne].
    + exists (f o). rewrite lookup_alter_eq, Ho. destruct (Hf o) as (-> & _ & -> & _).
      done.
    + exists o. by rewrite lookup_alter_ne.
Qed.

(** The object of a new session, its closures and the handler that waits
    for [initialize()]. *)
Lemma wf_started o h cb s :
  is_Some (client o) → (0 ≤ messagesSent o)%Z → wf s →
  wf (setPending (cons (Initializing (nextSession s) (id o) (socket o) cb))
        (allocate o h s)).
Proof.
  intros Hc Hm [].
  assert (∀ l o', heap s !! l = Some o' → <[nextSession s := o]> (heap s) !! l = Some o')
    as Hkeep.
  { intros l o' Hl. rewrite lookup_insert_ne; [done|].
    destruct (wf_heap0 l o' Hl). lia. }
  unfold holds in *.
  assert (∀ l sid, (∃ o', heap s !! l = Some o' ∧ id o' = sid) →
                   ∃ o', <[nextSession s := o]> (heap s) !! l = Some o' ∧ id o' = sid)
    as Hholds.
  { intros l sid (o' & Hl & Hid). exists o'. split; [by apply Hkeep | done]. }
  split; try done; unfold holds; simpl.
  - intros l o' [[<- <-]|[_ Hl]]%lookup_insert_Some; [split_and!; [lia|done..]|].
    destruct (wf_heap0 l o' Hl) as (? & ? & ?). split_and!; [lia|done..].
  - intros sid l Hl. by apply Hholds, wf_active0.
  - intros l sid sock cb' [[= -> -> -> ->]|Hin]%elem_of_cons.
    + exists o. by rewrite lookup_insert_eq.
    + apply Hholds. by eapply wf_pending0.
  - intros h' lis li Hlis Hli.
    assert (li = Listener (nextSession s) (id o) (socket o) ∨
            ∃ lis', listeners s !! h' = Some lis' ∧ li ∈ lis') as [->|(lis' & H1 & H2)].
    { apply lookup_insert_Some in Hlis as [[<- <-]|[_ Hlis]]; [|eauto].
      apply elem_of_app in Hli as [Hli|Hli]; [|set_solver].
      destruct (listeners s !! h) as [lis'|] eqn:Hl; [eauto | set_solver]. }
    + exists o. by rewrite lookup_insert_eq.
    + destruct (wf_listeners0 h' lis' li H1 H2) as (o' & Ho' & ?).
      exists o'. split; [by apply Hkeep | done].
Qed.

End well_formed.

(** ** Every handler keeps the state well formed *)

Section preservation.
Import SessionServer.
Context {E : Type} {engine : ReplyEngine E}.
Context (MAX_SESSIONS SESSION_TIMEOUT : env_int) (FALLBACK_REPLY : option text).

Local Abbreviation server := (@server E).
Local Abbreviation M := (handler server (@act E engine) error).
Local Abbreviation wf := (wf MAX_SESSIONS).
Local Abbreviation step := (step MAX_SESSIONS SESSION_TIMEOUT FALLBACK_REPLY).
Local Abbreviation exec := (exec MAX_SESSIONS SESSION_TIMEOUT FALLBACK_REPLY).
Local Abbreviation runs := (runs MAX_SESSIONS SESSION_TIMEOUT FALLBACK_REPLY).
Implicit Types (s : server) (l h : nat) (o : session) (li : listener) (t : task).

Lemma keeps_forEach {A} (I : server → Prop) (xs : list A) (f : A → M unit) :
  (∀ x, keeps I (f x)) → keeps I (forEach xs f).
Proof.
  intros Hf. induction xs as [|x xs IH]; simpl; [apply keeps_ret | by apply keeps_bind].
Qed.

Lemma guards_forEach {A} (I : server → Prop) P (xs : list A) (f : A → M unit) :
  (∀ x, guards I P (f x)) → guards I P (forEach xs f).
Proof.
  intros Hf. induction xs as [|x xs IH]; simpl; [apply guards_ret | by apply guards_bind].
Qed.

Lemma total_forEach {A} (xs : list A) (f : A → M unit) :
  (∀ x, total (f x)) → total (forEach xs f).
Proof.
  intros Hf. induction xs as [|x xs IH]; simpl; [apply total_ret | by apply total_bind].
Qed.

(** *** The registry and the engine inside the server *)

Lemma keeps_inHandler {A}
    (m : handler WhatsAppHandler.registry WhatsAppHandler.act error A) :
  keeps (WhatsAppHandler.inv MAX_SESSIONS) m → keeps wf (inHandler m).
Proof.
  intros Hm. apply (keeps_zoom _ _ _ wf (WhatsAppHandler.inv MAX_SESSIONS));
    [by intros s [] | intros; by apply wf_setHandler | done].
Qed.

(** A method of the registry changes the registry and nothing else. *)
Lemma guards_inHandler {A} (I : server → Prop) (P : act → Prop)
    (m : handler WhatsAppHandler.registry WhatsAppHandler.act error A) :
  (∀ r s, I s → I (setHandler r s)) → (∀ a, P (HandlerCall a)) →
  guards I P (inHandler m).
Proof.
  intros HI HP. apply (guards_zoom _ _ _ I (λ _, True) P (λ _, True)); [done|auto|done|].
  intros s _. split; [done|]. by apply Forall_forall.
Qed.

Lemma keeps_wf_generateReply w m c : keeps wf (generateReply w m c).
Proof.
  apply (keeps_zoom _ _ _ wf engine_inv);
    [by intros s [] | intros; by apply wf_setAiReply |].
  intros e. apply engine_inv_keeps.
Qed.

Lemma keeps_onAuthFailure e h :
  keeps (WhatsAppHandler.inv e) (WhatsAppHandler.onAuthFailure h).
Proof.
  unfold WhatsAppHandler.onAuthFailure.
  handler_rules_with ltac:(apply keeps_modify; intros; by apply inv_delete).
Qed.

Lemma keeps_onDisconnected e h :
  keeps (WhatsAppHandler.inv e) (WhatsAppHandler.onDisconnected h).
Proof.
  unfold WhatsAppHandler.onDisconnected, WhatsAppHandler.cleanupSession.
  handler_rules_with ltac:(apply keeps_modify; intros; by apply inv_delete).
Qed.

Lemma keeps_registry_destroy e h r : keeps (WhatsAppHandler.inv e) (WhatsAppHandler.destroy h r).
Proof. unfold WhatsAppHandler.destroy. handler_rules. by apply keeps_modify. Qed.

(** *** The handlers *)

(** The leaves of a handler of the server: a method of the registry or
    of the engine, or an update of a field. *)
Ltac wf_leaf :=
  first
    [ apply keeps_wf_generateReply
    | apply keeps_inHandler;
      first [ apply keeps_createClient | apply keeps_onAuthFailure
            | apply keeps_onDisconnected | apply keeps_registry_destroy ]
    | apply keeps_forEach
    | apply keeps_modify; intros;
      first [ by apply wf_setDbPool | by apply wf_setRateLimits
            | by apply wf_setExited | by apply wf_delete | by apply wf_Closing
            | by apply wf_remove1
            | apply wf_alter; [by intros []; simpl; split_and!; try done; lia | done] ] ].

Ltac wf_rules := autounfold with multi; handler_rules_with wf_leaf.

Lemma keeps_handleIncomingMessage w m l :
  keeps wf (handleIncomingMessage FALLBACK_REPLY w m l).
Proof. wf_rules. Qed.

Lemma keeps_sessionHandler e li : keeps wf (sessionHandler FALLBACK_REPLY e li).
Proof. destruct e; wf_rules. Qed.

Lemma keeps_onClientEvent h e : keeps wf (onClientEvent FALLBACK_REPLY h e).
Proof.
  unfold onClientEvent.
  handler_rules_with ltac:(first [apply keeps_forEach; intros; apply keeps_sessionHandler
                                 | destruct e; wf_rules ]).
Qed.

(** A new session: the object, its closures and the waiting handler. *)
Lemma keeps_createWhatsAppSession sid sock cb ctor now :
  keeps wf (createWhatsAppSession MAX_SESSIONS sid sock cb ctor now).
Proof.
  unfold createWhatsAppSession. apply keeps_catch; [|intros; apply keeps_throw].
  apply keeps_bind; [apply keeps_inHandler, keeps_createClient|]. intros client.
  apply keeps_get_bind. intros s Hs. unfold final. handler_simpl. simpl.
  by apply (wf_started MAX_SESSIONS (Session sid (Some client) sock false 0 now)).
Qed.

(** The rest of [generate_qr] runs on the object that the handler made. *)
Lemma keeps_resumeInitializing l sid sock cb r :
  keeps (λ s, wf s ∧ holds s l sid) (resumeInitializing l sid sock cb r).
Proof.
  unfold resumeInitializing, qrFailed.
  handler_rules_with ltac:(apply keeps_modify; intros ? [? ?];
                           split; [by apply wf_activate | done]).
Qed.

Lemma resumeTask_wf t r s : wf s → t ∈ pending s → wf (final (resumeTask t r) s).
Proof.
  intros Hs Ht. unfold resumeTask. rewrite (final_bind _ _ _ tt) by done.
  set (s1 := final _ s). assert (wf s1) as Hs1 by by apply wf_remove1.
  destruct t as [l sid sock cb|].
  - apply (keeps_resumeInitializing l sid sock cb r). split; [done|].
    by destruct (wf_pending _ _ Hs l sid sock cb Ht) as (o & ? & ?); exists o.
  - revert Hs1. generalize s1. change (keeps wf closed). wf_rules.
Qed.

Lemma keeps_wf_step i : (∀ t r, i ≠ Resume t r) → keeps wf (step i).
Proof.
  intros Hi. destruct i; try (by destruct (Hi t r)); simpl;
    first [ apply keeps_onClientEvent
          | apply keeps_catch; [apply keeps_createWhatsAppSession | intros; wf_rules]
          | wf_rules ].
Qed.

Lemma step_wf i s : wf s → enabled i s = true → wf (final (step i) s).
Proof.
  intros Hs Hen.
  assert ((∃ t r, i = Resume t r) ∨ ∀ t r, i ≠ Resume t r) as [(t & r & ->)|Hne]
    by (destruct i; eauto).
  - apply resumeTask_wf; [done|]. unfold enabled in Hen.
    destruct (exited s); [done|]. by apply bool_decide_eq_true in Hen.
  - by apply keeps_wf_step.
Qed.

Lemma runs_wf s tr s' : runs s tr s' → wf s → wf s'.
Proof.
  induction 1 as [|s i s' t s'' t' Hex _ IH]; [done|]. intros Hs. apply IH.
  unfold exec in Hex. destruct (enabled i s) eqn:Hen; [|done].
  injection Hex as <- _. by apply step_wf.
Qed.

(** C9: every state that the multi-session server reaches from the
    state after its constructor is well formed: the registry holds at
    most [MAX_SESSIONS] clients, the engine keeps its invariant, every
    session object has a client and a count of sent messages that is not
    negative, and [activeSessions], the handlers that wait for
    [initialize()] and the closures of the clients refer to session
    objects that exist, under the id of the object. *)
Theorem reachable_wf e tr s : engine_inv e → runs (create e) tr s → wf s.
Proof. intros He Hr. eapply runs_wf; [done | by apply wf_create]. Qed.

End preservation.

(** ** No handler leaves a rejection, and the pool is used only when it
    is there *)

Section outcomes.
Import SessionServer.
Context {E : Type} {engine : ReplyEngine E}.
Context (MAX_SESSIONS SESSION_TIMEOUT : env_int) (FALLBACK_REPLY : option text).

Local Abbreviation server := (@server E).
Local Abbreviation act := (@act E engine).
Local Abbreviation M := (handler server act error).
Local Abbreviation step := (step MAX_SESSIONS SESSION_TIMEOUT FALLBACK_REPLY).
Implicit Types (s : server) (l h : nat) (i : input).

Lemma total_engine_call w m c : total (generateReply w m c).
Proof. apply total_zoom. intros s. apply engine_total. Qed.

Lemma total_onAuthFailure h : total (inHandler (WhatsAppHandler.onAuthFailure h)).
Proof. apply total_zoom. unfold WhatsAppHandler.onAuthFailure. handler_rules. Qed.

Lemma total_onDisconnected h : total (inHandler (WhatsAppHandler.onDisconnected h)).
Proof.
  apply total_zoom.
  unfold WhatsAppHandler.onDisconnected, WhatsAppHandler.cleanupSession.
  handler_rules.
Qed.

Ltac total_rules :=
  autounfold with multi;
  handler_rules_with ltac:(first [ apply total_engine_call
                                 | apply total_onAuthFailure
                                 | apply total_onDisconnected
                                 | apply total_forEach ]).

(** No handler of the multi-session server leaves an unhandled
    rejection: whatever the database, the adapter, the engine and the
    socket answer, every route, socket event, client event, cron job and
    resumed handler returns. *)
Theorem session_step_total i : total (step i).
Proof. destruct i as [| | | | | | | | |? []| | | |[]]; total_rules. Qed.

(** *** The pool *)

(** The calls that need the pool. *)
Definition usesPool (a : act) : bool :=
  match a with
  | DbExecute _ | DbEnd => true
  | _ => false
  end.

Definition offline s : Prop := dbPool s = false.

Lemma guards_generateReply (P : act → Prop) w m c :
  (∀ a, P (EngineCall a)) → guards offline P (generateReply w m c).
Proof.
  intros HP. apply (guards_zoom _ _ _ offline (λ _, True) P (λ _, True)); try done.
  intros s _. split; [done|]. by apply Forall_forall.
Qed.

Ltac pool_leaf :=
  first
    [ apply guards_get_with; 
      let H := fresh in intros ? H; unfold offline in H; rewrite ?H; simpl
    | apply guards_generateReply; done
    | apply guards_inHandler; [by intros ? ? ? | done]
    | apply guards_forEach
    | apply guards_emit; done
    | apply guards_call; done
    | apply guards_modify; by intros ? ? ].
Ltac pool_rules := autounfold with multi; handler_rules_with pool_leaf.

Lemma guards_offline i :
  (∀ connect rs, i ≠ Start connect rs) → guards offline (λ a, usesPool a = false) (step i).
Proof.
  intros Hi. destruct i as [| | | | | | | | |? []| | | |[]];
    try (by destruct (Hi connect rs)); pool_rules.
Qed.

(** While [dbPool] is [null], no handler but [init] touches the
    database: no statement is executed, the pool is not ended, and
    [dbPool] is still [null] afterwards. *)
Theorem offline_step i s :
  (∀ connect rs, i ≠ Start connect rs) → dbPool s = false →
  dbPool (final (step i) s) = false ∧
  Forall (λ a, usesPool a = false) (trace (step i) s).
Proof. intros Hi Hs. by apply guards_offline. Qed.

End outcomes.

(** ** The machine: sequences, waiting handlers and the shutdown *)

Section machine.
Import SessionServer.
Context {E : Type} {engine : ReplyEngine E}.
Context (MAX_SESSIONS SESSION_TIMEOUT : env_int) (FALLBACK_REPLY : option text).

Local Abbreviation server := (@server E).
Local Abbreviation act := (@act E engine).
Local Abbreviation M := (handler server act error).
Local Abbreviation wf := (wf MAX_SESSIONS).
Local Abbreviation step := (step MAX_SESSIONS SESSION_TIMEOUT FALLBACK_REPLY).
Local Abbreviation exec := (exec MAX_SESSIONS SESSION_TIMEOUT FALLBACK_REPLY).
Local Abbreviation execs := (execs MAX_SESSIONS SESSION_TIMEOUT FALLBACK_REPLY).
Local Abbreviation runs := (runs MAX_SESSIONS SESSION_TIMEOUT FALLBACK_REPLY).
Implicit Types (s : server) (l h : nat) (i : input) (t : task) (tr : list act).

(** What the browsers were told through the acknowledgements of their
    requests, in order. *)
Definition acknowledged (tr : list act) : list callback :=
  omap (λ a, match a with Callback _ c => Some c | _ => None end) tr.

Lemma exec_Some i s s' tr :
  exec i s = Some (s', tr) ↔
  enabled i s = true ∧ s' = final (step i) s ∧ tr = trace (step i) s.
Proof. unfold exec. destruct (enabled i s); naive_solver. Qed.

Lemma execs_cons i ins s s'' tr'' :
  execs (i :: ins) s = Some (s'', tr'') ↔
  ∃ s' tr tr', exec i s = Some (s', tr) ∧ execs ins s' = Some (s'', tr') ∧
               tr'' = tr ++ tr'.
Proof.
  simpl. destruct (exec i s) as [[s' tr]|]; simpl;
    [|split; [done | by intros (? & ? & ? & ? & _)]].
  destruct (execs ins s') as [[s1 tr']|] eqn:Hins; simpl.
  - split; [intros [= <- <-]; eauto 10|].
    intros (? & ? & ? & [= <- <-] & Hs & ->). by simplify_eq.
  - split; [done|]. intros (? & ? & ? & [= <- <-] & Hs & _). by simplify_eq.
Qed.

(** [execs] computes [runs]. *)
Lemma execs_runs ins s s' tr : execs ins s = Some (s', tr) → runs s tr s'.
Proof.
  revert s s' tr. induction ins as [|i ins IH]; intros s s' tr.
  - intros [= <- <-]. constructor.
  - intros (s1 & tr1 & tr2 & Hi & His & ->)%execs_cons.
    eapply runs_step; eauto.
Qed.

Lemma runs_execs s tr s' : runs s tr s' → ∃ ins, execs ins s = Some (s', tr).
Proof.
  induction 1 as [|s i s' t s'' t' Hex _ [ins IH]]; [by exists []|].
  exists (i :: ins). apply execs_cons. eauto 10.
Qed.

(** What every handler guarantees holds along every run. *)
Lemma runs_guards (I : server → Prop) (P : act → Prop) s tr s' :
  (∀ i, guards I P (step i)) → runs s tr s' → I s → I s' ∧ Forall P tr.
Proof.
  intros Hstep. induction 1 as [|s i s' t s'' t' Hex _ IH]; [done|].
  intros Hs. apply exec_Some in Hex as (_ & -> & ->).
  destruct (Hstep i s Hs) as [Hs' Ht]. destruct (IH Hs') as [Hs'' Ht'].
  split; [done | by apply Forall_app].
Qed.

(** *** Nothing runs after [process.exit] *)

Lemma exec_exited i s code : exited s = Some code → exec i s = None.
Proof. intros Hs. unfold exec, enabled. by rewrite Hs. Qed.

Lemma runs_exited s tr s' code : exited s = Some code → runs s tr s' → s' = s ∧ tr = [].
Proof.
  intros Hs. destruct 1 as [|s i s' t s'' t' Hex _]; [done|].
  by rewrite (exec_exited i s code) in Hex.
Qed.

(** *** The handlers that wait *)

Lemma length_remove1 t ts : t ∈ ts → S (length (remove1 t ts)) = length ts.
Proof.
  induction ts as [|t' ts IH]; [by intros ?%elem_of_nil|].
  simpl. destruct (decide (t = t')) as [->|Hne]; [done|].
  intros [?|Ht]%elem_of_cons; [done|]. simpl. by rewrite IH.
Qed.

Lemma keeps_pending_resume (ts : list task) l sid sock cb r :
  keeps (λ s, pending s = ts) (resumeInitializing l sid sock cb r).
Proof. unfold resumeInitializing, qrFailed. handler_rules. by apply keeps_modify. Qed.

Lemma keeps_pending_closed (ts : list task) : keeps (λ s, pending s = ts) closed.
Proof. unfold closed. handler_rules. by apply keeps_modify. Qed.

(** A handler that is resumed does not wait again. *)
Lemma pending_resumeTask t r s :
  pending (final (resumeTask t r) s) = remove1 t (pending s).
Proof.
  unfold resumeTask. rewrite (final_bind _ _ _ tt) by done.
  destruct t; [by apply keeps_pending_resume | by apply keeps_pending_closed].
Qed.

Definition resumes (rs : list (task * outcome error unit)) : list input :=
  map (λ p, Resume p.1 p.2) rs.

(** The handlers that wait terminate: a run that only resumes
    waiting handlers has as many steps as handlers it takes out of
    [pending], so no such run is longer than [pending]. *)
Theorem execs_resumes rs s s' tr :
  execs (resumes rs) s = Some (s', tr) →
  length rs + length (pending s') = length (pending s).
Proof.
  revert s tr. induction rs as [|[t r] rs IH]; intros s tr.
  - by intros [= <- <-].
  - intros (s1 & tr1 & tr2 & (Hen & -> & _)%exec_Some & His & _)%execs_cons.
    apply IH in His. simpl in *. rewrite pending_resumeTask in His.
    unfold enabled in Hen. destruct (exited s); [done|].
    apply bool_decide_eq_true, length_remove1 in Hen. lia.
Qed.

End machine.

(** ** The shutdown and the cron job *)

Section jobs.
Import SessionServer.
Context {E : Type} {engine : ReplyEngine E}.
Context (MAX_SESSIONS SESSION_TIMEOUT : env_int) (FALLBACK_REPLY : option text).

Local Abbreviation server := (@server E).
Local Abbreviation act := (@act E engine).
Local Abbreviation M := (handler server act error).
Local Abbreviation wf := (wf MAX_SESSIONS).
Local Abbreviation step := (step MAX_SESSIONS SESSION_TIMEOUT FALLBACK_REPLY).
Local Abbreviation exec := (exec MAX_SESSIONS SESSION_TIMEOUT FALLBACK_REPLY).
Local Abbreviation execs := (execs MAX_SESSIONS SESSION_TIMEOUT FALLBACK_REPLY).
Local Abbreviation cleanupEntry := (cleanupEntry SESSION_TIMEOUT).
Local Abbreviation cleanupInactiveSessions := (cleanupInactiveSessions SESSION_TIMEOUT).
Implicit Types (s : server) (l h : nat) (i : input) (t : task) (tr : list act)
  (o : session).

(** What [client.destroy()] leaves as it is: everything but the
    registry. *)
Definition sessionsOf s : gmap text nat * gmap nat session * list task * option Z :=
  (activeSessions s, heap s, pending s, exited s).

Lemma keeps_sessionsOf_inHandler {A} x
    (m : handler WhatsAppHandler.registry WhatsAppHandler.act error A) :
  keeps (λ s, sessionsOf s = x) (inHandler m).
Proof. intros s Hs. unfold inHandler, final, run. by rewrite zoom_run. Qed.

Lemma keeps_sessionsOf_destroyClient x o :
  keeps (λ s, sessionsOf s = x) (destroyClient o).
Proof.
  unfold destroyClient.
  handler_rules_with ltac:(apply keeps_sessionsOf_inHandler).
Qed.

Lemma total_destroyClient o : total (@destroyClient E engine o).
Proof. unfold destroyClient. handler_rules. Qed.

(** *** The registry keeps the clients that the server destroys *)

Lemma keeps_clients_destroyClient c o :
  keeps (λ s, WhatsAppHandler.clients (whatsappHandler s) = c) (destroyClient o).
Proof.
  unfold destroyClient.
  handler_rules_with
    ltac:(apply (keeps_zoom _ _ _ _ (λ r, WhatsAppHandler.clients r = c));
          [done | done | unfold WhatsAppHandler.destroy]).
  by apply keeps_modify.
Qed.

Lemma keeps_clients_cleanup c now :
  keeps (λ s, WhatsAppHandler.clients (whatsappHandler s) = c)
        (cleanupInactiveSessions now).
Proof.
  unfold SessionServer.cleanupInactiveSessions, SessionServer.cleanupEntry.
  handler_rules_with ltac:(first [ apply keeps_forEach
                                 | apply keeps_clients_destroyClient
                                 | by apply keeps_modify ]).
Qed.

(** [cleanupInactiveSessions] destroys the clients of the sessions
    it removes without telling the registry: [clients] of
    [WhatsAppHandler] is the same map after the job, so the removed
    sessions still count against [MAX_SESSIONS]. *)
Theorem cleanup_clients now s :
  WhatsAppHandler.clients (whatsappHandler (final (cleanupInactiveSessions now) s)) =
  WhatsAppHandler.clients (whatsappHandler s).
Proof. by apply keeps_clients_cleanup. Qed.

Lemma keeps_clients_shutdown c :
  keeps (λ s, WhatsAppHandler.clients (whatsappHandler s) = c) gracefulShutdown.
Proof.
  unfold gracefulShutdown.
  handler_rules_with ltac:(first [ apply keeps_forEach
                                 | apply keeps_clients_destroyClient
                                 | by apply keeps_modify ]).
Qed.

(** *** The shutdown *)

Lemma gracefulShutdown_final s :
  ∃ s1, final gracefulShutdown s = setPending (cons Closing) s1 ∧
        exited s1 = exited s.
Proof.
  unfold gracefulShutdown. rewrite (final_bind _ _ _ s) by done.
  change (final get s) with s. set (body := forEach _ _).
  assert (total body) as Hbody.
  { apply total_forEach. intros e. case_match; [apply total_destroyClient | apply total_ret]. }
  assert (keeps (λ s', sessionsOf s' = sessionsOf s) body) as Hkeeps.
  { apply keeps_forEach. intros e.
    case_match; [apply keeps_sessionsOf_destroyClient | apply keeps_ret]. }
  exists (final body s). split.
  - rewrite final_seq by done. by destruct (dbPool s).
  - specialize (Hkeeps s eq_refl). by injection Hkeeps.
Qed.

(** C35: from any state of a running server, the signal and the
    callback of [server.close] end the process: both steps can occur,
    the last call is [process.exit(0)] and the exit code is 0. *)
Theorem shutdown_exits s r :
  exited s = None →
  ∃ s' tr, execs [Signal; Resume Closing r] s = Some (s', tr) ∧
           exited s' = Some 0%Z ∧ last tr = Some (Exit 0).
Proof.
  intros Hs. destruct (gracefulShutdown_final s) as (s1 & Hfin & Hex).
  assert (enabled Signal s = true) as Hen1 by (unfold enabled; by rewrite Hs).
  assert (enabled (Resume Closing r) (final (step Signal) s) = true) as Hen2.
  { unfold enabled. simpl. rewrite Hfin. simpl. by rewrite Hex, Hs. }
  exists (final (step (Resume Closing r)) (final (step Signal) s)),
    (trace (step Signal) s ++ trace (step (Resume Closing r)) (final (step Signal) s) ++ []).
  split; [|split; [done|]].
  - apply execs_cons.
    exists (final (step Signal) s), (trace (step Signal) s),
      (trace (step (Resume Closing r)) (final (step Signal) s) ++ []).
    split; [by apply exec_Some|].
    split; [|done]. apply execs_cons.
    exists (final (step (Resume Closing r)) (final (step Signal) s)),
      (trace (step (Resume Closing r)) (final (step Signal) s)), [].
    split; [by apply exec_Some | done].
  - rewrite app_nil_r. apply last_snoc.
Qed.

(** *** The cron job *)

(** The test of the loop of [cleanupInactiveSessions] on the object at
    [l]. *)
Definition expired (now : Z) (hp : gmap nat session) l : bool :=
  match hp !! l with
  | Some o => (parseIntOr SESSION_TIMEOUT 3600000 <? now - lastActivity o)%Z
  | None => false
  end.

Definition sweep (now : Z) (hp : gmap nat session) (m : gmap text nat)
    (e : text * nat) : gmap text nat :=
  if expired now hp e.2 then delete e.1 m else m.

Lemma total_cleanupEntry now e : total (cleanupEntry now e).
Proof.
  unfold SessionServer.cleanupEntry.
  handler_rules_with ltac:(apply total_destroyClient).
Qed.

Lemma cleanupEntry_final now e s :
  heap (final (cleanupEntry now e) s) = heap s ∧
  activeSessions (final (cleanupEntry now e) s) =
    sweep now (heap s) (activeSessions s) e.
Proof.
  unfold SessionServer.cleanupEntry, sweep, expired.
  rewrite (final_bind _ _ _ s) by done. change (final get s) with s.
  destruct (heap s !! e.2) as [o|]; [|done]. case_match; [|done].
  rewrite final_seq by apply total_destroyClient.
  pose proof (keeps_sessionsOf_destroyClient _ o s eq_refl) as [= Ha Hh _ _].
  simpl. by rewrite Ha, Hh.
Qed.

Lemma forEach_cleanup now es s :
  heap (final (forEach es (cleanupEntry now)) s) = heap s ∧
  activeSessions (final (forEach es (cleanupEntry now)) s) =
    foldl (sweep now (heap s)) (activeSessions s) es.
Proof.
  revert s. induction es as [|e es IH]; intros s; [done|].
  simpl. rewrite final_seq by apply total_cleanupEntry.
  destruct (cleanupEntry_final now e s) as [Hh Ha].
  destruct (IH (final (cleanupEntry now e) s)) as [IHh IHa].
  by rewrite IHh, IHa, Hh, Ha.
Qed.

Lemma lookup_sweep now hp es m k l :
  foldl (sweep now hp) m es !! k = Some l ↔
  m !! k = Some l ∧ ∀ l', (k, l') ∈ es → expired now hp l' = false.
Proof.
  revert m. induction es as [|[k' l'] es IH]; intros m; simpl.
  - split; [intros ?; split; [done | by intros ? ?%elem_of_nil] | by intros []].
  - rewrite IH. unfold sweep. simpl.
    destruct (expired now hp l') eqn:Hl'.
    + rewrite lookup_delete_Some. split.
      * intros [[Hk Hm] Hes]. split; [done|].
        intros l'' [[= ? ?]|?]%elem_of_cons; [done | by apply Hes].
      * intros [Hm Hes]. split; [split; [|done] | intros; apply Hes; by right].
        intros ->. specialize (Hes l' ltac:(left)). congruence.
    + split; intros [Hm Hes]; (split; [done|]).
      * intros l'' [[= ? ->]|?]%elem_of_cons; [done | by apply Hes].
      * intros; apply Hes; by right.
Qed.

(** C10: [cleanupInactiveSessions] removes from [activeSessions] the
    sessions whose last activity is more than [SESSION_TIMEOUT]
    milliseconds (one hour by default) before [now], and no other. *)
Theorem cleanup_active now s :
  activeSessions (final (cleanupInactiveSessions now) s) =
    filter (λ e, expired now (heap s) e.2 = false) (activeSessions s).
Proof.
  unfold SessionServer.cleanupInactiveSessions.
  rewrite (final_bind _ _ _ s) by done. change (final get s) with s.
  destruct (forEach_cleanup now (map_to_list (activeSessions s)) s) as [_ ->].
  apply map_eq. intros k. apply option_eq. intros l.
  rewrite lookup_sweep, map_lookup_filter_Some. simpl. split.
  - intros [Hm Hes]. split; [done|]. apply Hes. by apply elem_of_map_to_list.
  - intros [Hm Hl]. split; [done|]. intros l' Hl'%elem_of_map_to_list. by simplify_eq.
Qed.

End jobs.

(** ** A message that arrives *)

Section replies.
Import SessionServer.
Context {E : Type} {engine : ReplyEngine E}.
Context (MAX_SESSIONS SESSION_TIMEOUT : env_int) (FALLBACK_REPLY : option text).

Local Abbreviation server := (@server E).
Local Abbreviation act := (@act E engine).
Local Abbreviation M := (handler server act error).
Local Abbreviation handleIncomingMessage := (handleIncomingMessage FALLBACK_REPLY).
Local Abbreviation fallbackReply := (fallbackReply FALLBACK_REPLY).
Implicit Types (s : server) (l h : nat) (m : message) (w : inbound) (o : session)
  (c : contact) (reply : text).

(** The call of the engine that [handleIncomingMessage] makes. *)
Definition asked w m c : handler E engine_act error (option text) :=
  engine_generateReply (engineWorld w) (body m) (number c) [].

(** The statements of [saveMessage], as far as they are sent. *)
Definition saved w m c reply o s : list act :=
  if dbPool s then
    DbExecute (InsertMessage (id o) (number c) (body m) reply) ::
    match insertResult w with
    | Ok _ => [DbExecute (IncrementSent (id o))]
    | Throw _ => []
    end
  else [].

Lemma engine_call_run w m c s :
  run (generateReply w (body m) (number c)) s =
    (result (asked w m c) (aiReply s), setAiReply (final (asked w m c) (aiReply s)) s,
     EngineCall <$> trace (asked w m c) (aiReply s)).
Proof. apply zoom_run. Qed.

Ltac incoming Hc :=
  unfold SessionServer.handleIncomingMessage; rewrite Hc;
  unfold run, catch, mbind, handler_bind, bind, call, get; simpl.

Ltac asking w m c rl s :=
  let Hg := fresh in
  pose proof (engine_call_run w m c (setRateLimits rl s)) as Hg;
  unfold run in Hg; rewrite Hg; clear Hg; simpl.

(** [getContact()] fails: the fallback reply is sent, whether it arrives
    or not, and nothing is recorded. *)
Lemma handleIncomingMessage_fallback w m l s e :
  contactResult w = Throw e →
  run (handleIncomingMessage w m l) s = (Ok tt, s, [GetContact m; Reply m fallbackReply]).
Proof. intros Hc. incoming Hc. by destruct (fallbackResult w) as [[]|]. Qed.

(** A second message of a number within thirty seconds is dropped. *)
Lemma handleIncomingMessage_limited w m l s c :
  contactResult w = Ok c →
  ServerLimit.rateLimitGate (now w) (number c) (rateLimits s) = None →
  run (handleIncomingMessage w m l) s = (Ok tt, s, [GetContact m]).
Proof. intros Hc Hrl. incoming Hc. by rewrite Hrl. Qed.

(** The engine has no answer: nothing is sent. *)
Lemma handleIncomingMessage_unanswered w m l s c rl r :
  contactResult w = Ok c →
  ServerLimit.rateLimitGate (now w) (number c) (rateLimits s) = Some rl →
  result (asked w m c) (aiReply s) = Ok r → truthyOpt r = false →
  run (handleIncomingMessage w m l) s =
    (Ok tt, setAiReply (final (asked w m c) (aiReply s)) (setRateLimits rl s),
     [GetContact m] ++ (EngineCall <$> trace (asked w m c) (aiReply s))).
Proof.
  intros Hc Hrl Hr Hne. incoming Hc. rewrite Hrl. asking w m c rl s.
  rewrite Hr, Hne. simpl. by rewrite app_nil_r.
Qed.

(** When [message.reply] throws, [handleIncomingMessage] of the
    multi-session server sends the fallback reply after it; the rate
    limit and the engine have recorded the message, the session object
    has not counted it, and nothing is emitted or saved. *)
Theorem handleIncomingMessage_undelivered w m l s c rl reply e :
  contactResult w = Ok c →
  ServerLimit.rateLimitGate (now w) (number c) (rateLimits s) = Some rl →
  result (asked w m c) (aiReply s) = Ok (Some reply) → nonEmpty reply = true →
  typingResult w = Ok tt → replyResult w = Throw e →
  run (handleIncomingMessage w m l) s =
    (Ok tt, setAiReply (final (asked w m c) (aiReply s)) (setRateLimits rl s),
     [GetContact m] ++ (EngineCall <$> trace (asked w m c) (aiReply s)) ++
     [SendStateTyping m; Sleep (ServerTyping.delay (rand w)); Reply m reply;
      Reply m fallbackReply]).
Proof.
  intros Hc Hrl Hr Hne Hty Hrep. incoming Hc. rewrite Hrl. asking w m c rl s.
  rewrite Hr. unfold truthyOpt. simpl. rewrite Hne, Hty, Hrep. simpl.
  destruct (fallbackResult w) as [[]|]; simpl; by rewrite <-app_assoc.
Qed.

(** When the contact is not rate limited, the engine answers and
    the adapter delivers, [handleIncomingMessage] of the multi-session
    server makes these calls in this order: the contact, the calls of the
    engine, the typing state, the pause, the reply, [message_sent] on the
    socket of the session and, with a database, the two statements of
    [saveMessage]; the session object at [l] counts one more message. *)
Theorem handleIncomingMessage_replied w m l s c rl reply o :
  contactResult w = Ok c →
  ServerLimit.rateLimitGate (now w) (number c) (rateLimits s) = Some rl →
  result (asked w m c) (aiReply s) = Ok (Some reply) → nonEmpty reply = true →
  typingResult w = Ok tt → replyResult w = Ok tt →
  heap s !! l = Some o →
  run (handleIncomingMessage w m l) s =
    (Ok tt,
     setHeap (alter (sent (tActivity w)) l)
       (setAiReply (final (asked w m c) (aiReply s)) (setRateLimits rl s)),
     [GetContact m] ++ (EngineCall <$> trace (asked w m c) (aiReply s)) ++
     [SendStateTyping m; Sleep (ServerTyping.delay (rand w)); Reply m reply;
      SocketEmit (socket o) (MessageSent (number c) (body m) reply (tSent w))] ++
     saved w m c reply o s).
Proof.
  intros Hc Hrl Hr Hne Hty Hrep Ho. incoming Hc. rewrite Hrl. asking w m c rl s.
  rewrite Hr.
  unfold truthyOpt. simpl. rewrite Hne, Hty, Hrep. simpl.
  rewrite lookup_alter, Ho. simpl. rewrite decide_True by done.
  unfold saveMessage, saved, mbind, handler_bind, bind, get, catch, call, ret. simpl.
  destruct (dbPool s); simpl; [|done].
  by destruct (insertResult w) as [[]|], (updateResult w) as [[]|].
Qed.

End replies.

(** ** Examples

    A server whose engine is [GeminiAI] with the default limit, one
    browser and one contact. *)

Section examples.
Import SessionServer.

Definition cfgG : GeminiEngine.config := GeminiEngine.Config None.
Local Instance engineG : ReplyEngine GeminiEngine.state := gemini_engine cfgG.

Local Abbreviation server := (@server GeminiEngine.state).
Local Abbreviation step := (step None None None).
Local Abbreviation execs := (execs None None None).
Local Abbreviation runs := (runs None None None).
Local Abbreviation handleIncomingMessage := (handleIncomingMessage None).

Definition created : server := create GeminiEngine.init.

Definition browser : text := js "socket-1".
Definition sessionA : text := js "5f0c2d9e".

Definition generateQrA : input := GenerateQr browser sessionA true (Ok tt) 1000.
Definition initializedA : input := Resume (Initializing 0 sessionA browser true) (Ok tt).

(** The session object of the browser, as [createWhatsAppSession]
    allocates it. *)
Definition sessionObject : session := Session sessionA (Some 0) browser false 0 1000.
Definition serving : server := allocate sessionObject 0 created.

Definition hello : message := Message 7 (js "hello") false.
Definition asha : contact := Contact (js "911234567890").

(** Every call succeeds and the service answers. *)
Definition delivered : inbound :=
  Inbound (Ok asha) 1000500 answeringWorld (Ok tt) (1 # 4) (Ok tt) 1000600 1000700
          (Ok tt) (Ok tt) (Ok tt).

(** [message.reply] fails. *)
Definition undelivered : inbound :=
  Inbound (Ok asha) 1000500 answeringWorld (Ok tt) (1 # 4)
          (Throw (Error (js "Evaluation failed"))) 1000600 1000700
          (Ok tt) (Ok tt) (Ok tt).

Definition gateA : ServerLimit.store :=
  Some (<[ServerLimit.rateLimitKey (number asha) := 1000500%Z]> ∅).

Lemma reachable_wf_witness : wf None (final (step generateQrA) created).
Proof.
  apply (reachable_wf None None None GeminiEngine.init
           (trace (step generateQrA) created ++ [])).
  - apply init_inv.
  - eapply (runs_step None None None created generateQrA); [reflexivity | constructor].
Defined.

Lemma offline_step_witness :
  dbPool (final (step generateQrA) created) = false ∧
  Forall (λ a, usesPool a = false) (trace (step generateQrA) created).
Proof.
  apply (offline_step None None None generateQrA created); [discriminate | reflexivity].
Defined.

Definition waitingA : list (task * outcome error unit) :=
  [(Initializing 0 sessionA browser true, Ok tt)].

Lemma execs_resumes_witness :
  length waitingA +
  length (pending (final (step initializedA) (final (step generateQrA) created))) =
  length (pending (final (step generateQrA) created)).
Proof.
  apply (execs_resumes None None None waitingA
           (final (step generateQrA) created) _
           (trace (step initializedA) (final (step generateQrA) created) ++ [])).
  reflexivity.
Defined.

Lemma shutdown_exits_witness :
  ∃ s' tr, execs [Signal; Resume Closing (Ok tt)] created = Some (s', tr) ∧
           exited s' = Some 0%Z ∧ last tr = Some (Exit 0).
Proof. apply (shutdown_exits None None None created (Ok tt)). reflexivity. Defined.

Lemma handleIncomingMessage_replied_witness :
  run (handleIncomingMessage delivered hello 0) serving =
    (Ok tt,
     setHeap (alter (sent 1000600) 0)
       (setAiReply (final (asked delivered hello asha) GeminiEngine.init)
          (setRateLimits gateA serving)),
     [GetContact hello] ++
     (EngineCall <$> trace (asked delivered hello asha) GeminiEngine.init) ++
     [SendStateTyping hello; Sleep (ServerTyping.delay (1 # 4));
      Reply hello (js "Hi Asha!");
      SocketEmit browser
        (MessageSent (number asha) (js "hello") (js "Hi Asha!") 1000700)] ++ []).
Proof.
  apply (handleIncomingMessage_replied None delivered hello 0 serving asha gateA
           (js "Hi Asha!") sessionObject); vm_compute; reflexivity.
Defined.

Lemma handleIncomingMessage_undelivered_witness :
  run (handleIncomingMessage undelivered hello 0) serving =
    (Ok tt,
     setAiReply (final (asked undelivered hello asha) GeminiEngine.init)
       (setRateLimits gateA serving),
     [GetContact hello] ++
     (EngineCall <$> trace (asked undelivered hello asha) GeminiEngine.init) ++
     [SendStateTyping hello; Sleep (ServerTyping.delay (1 # 4));
      Reply hello (js "Hi Asha!");
      Reply hello (fallbackReply None)]).
Proof.
  apply (handleIncomingMessage_undelivered None undelivered hello 0 serving asha
           gateA (js "Hi Asha!") (Error (js "Evaluation failed")));
    vm_compute; reflexivity.
Defined.

(** *** Two scenarios *)

Definition sessionB : text := js "a41b77c0".

(** One slot: a session is created, is idle for more than an hour and
    is removed by the cron job; the next browser is refused. *)
Definition idle : list input :=
  [generateQrA; initializedA; CleanupJob 3700000;
   GenerateQr browser sessionB true (Ok tt) 3700001].


(** The authentication fails while [initialize()] is awaited, and
    [initialize()] resolves: the session is active and the registry does
    not know it. *)
Definition failing : list input :=
  [generateQrA; ClientEvent 0 (AuthFailureEvent (js "auth")); initializedA].

Lemma auth_failure_leaves_session :
  (λ r, (bool_decide (is_Some (activeSessions r.1 !! sessionA)),
         bool_decide (is_Some (WhatsAppHandler.clients (whatsappHandler r.1) !! sessionA)),
         acknowledged r.2)) <$> execs failing created =
  Some (true, false, [QrSuccess sessionA]).
Proof. vm_compute. reflexivity. Qed.

End examples.
