(* ===== verification/Database.v ===== *)
(** * The tables of the multi-session server

    The MySQL schema that [createTables] of [src/unnamed/part_002]
    declares (lines 86-122) and the six statements that the server
    gives to [dbPool.execute], as a store with one function per
    statement, and the server of [MultiServer] run against it.

    - [tables] holds the three tables; a table is [None] until its
      [CREATE TABLE IF NOT EXISTS] has run.  A row holds the columns
      that a statement of the program writes or reads: the columns
      that no statement names ([phone_number], [session_data],
      [to_number], [language], [total_replies]) keep their defaults
      for ever, and the time stamps and the [AUTO_INCREMENT] keys are
      never read; they are left out.
    - [execute] is the statement on the store with the answer of the
      database: the primary key and the unique key as the keys of a
      map, the foreign key of [whatsapp_messages] as a test on
      [whatsapp_sessions], [ENUM], [VARCHAR], [TEXT] and [INT] as the
      tests that a server in strict mode (the default) makes, with
      [utf8mb4] as the character set.  The driver is taken to give
      numbers as numbers.
    - [supplied] reads the answers that an input of the server carries
      and [commit] runs the statements of the calls of a handler on the
      store: the run is possible when the database gives every answer
      [Ok] that the handler was given; a statement that the handler saw
      fail (refused by the database, or lost with the connection) left
      the store as it was.
    - [world] is the server with its database, [exec] one input.

    The facts:
    - [stores] is the judgment that the statements of a handler keep a
      property of the store, with one rule per constructor of the
      monad;
    - [wf]: every message row refers to a session row, the counter
      [messages_sent] of a session is within [INT] and never above the
      number of its message rows, and the only status ever written is
      ['connected']; [database_wf] shows it of every run;
    - [saveMessage_stored] is what [saveMessage] stores when the
      database accepts; [unsaved_session_not_stored]: a session whose
      [saveSession] failed has none of its messages stored;
      [missing_table_stays_missing]: a table that [createTables] did
      not create is never created; [teardown_not_recorded]: the end of
      a session is not written;
    - the examples run the server with [GeminiAI] as the engine:
      [status_counts_past_sessions] is the report of [GET /api/status]
      after the session of the run is gone. *)

From Stdlib Require Import QArith.
From S2P Require Import Prelude Effects RateLimit Typing Engine Registry MultiServer.
Local Close Scope Q_scope.

Module Database.
Import SessionServer.

(** ** The schema, lines 86-122 *)

(** A row of [whatsapp_sessions], by its key [id]. *)
Record session_row : Type := SessionRow {
  status : text;
  messages_sent : Z;
}.

(** A row of [whatsapp_messages]. *)
Record message_row : Type := MessageRow {
  session_id : text;
  from_number : text;
  message_text : text;
  ai_reply : text;
}.

(** A row of [bot_analytics], by its unique key [date]. *)
Record analytics_row : Type := AnalyticsRow {
  total_messages : Z;
  active_sessions : Z;
}.

#[export] Instance session_row_eq_dec : EqDecision session_row.
Proof. solve_decision. Defined.

#[export] Instance message_row_eq_dec : EqDecision message_row.
Proof. solve_decision. Defined.

#[export] Instance analytics_row_eq_dec : EqDecision analytics_row.
Proof. solve_decision. Defined.

Record tables : Type := Tables {
  whatsapp_sessions : option (gmap text session_row);
  whatsapp_messages : option (list message_row);
  bot_analytics : option (gmap text analytics_row);
}.

(** A database without tables. *)
Definition empty : tables := Tables None None None.

(** *** Column types *)

(** [INT]: 32 bits, signed. *)
Definition intMax : Z := 2147483647.

Definition isInt (n : Z) : bool := (- intMax - 1 <=? n)%Z && (n <=? intMax)%Z.

Definition isHighSurrogate (u : N) : bool := in_range 0xD800 0xDBFF u.
Definition isLowSurrogate (u : N) : bool := in_range 0xDC00 0xDFFF u.

(** The characters of a string: a surrogate pair is one. *)
Fixpoint characters (s : text) : nat :=
  match s with
  | [] => 0
  | u :: s' =>
    match s' with
    | v :: s'' =>
      if isHighSurrogate u && isLowSurrogate v then S (characters s'')
      else S (characters s')
    | [] => 1
    end
  end.

(** The bytes of a string in UTF-8; a surrogate without its pair is
    sent as U+FFFD. *)
Fixpoint utf8Length (s : text) : nat :=
  match s with
  | [] => 0
  | u :: s' =>
    match s' with
    | v :: s'' =>
      if isHighSurrogate u && isLowSurrogate v then 4 + utf8Length s''
      else (if (u <? 0x80)%N then 1 else if (u <? 0x800)%N then 2 else 3)
           + utf8Length s'
    | [] => if (u <? 0x80)%N then 1 else if (u <? 0x800)%N then 2 else 3
    end
  end.

(** [VARCHAR(n)]. *)
Definition isVarchar (n : nat) (s : text) : bool := bool_decide (characters s ≤ n).

(** [TEXT]: at most 65535 bytes. *)
Definition isText (s : text) : bool := (Z.of_nat (utf8Length s) <=? 65535)%Z.

(** [ENUM('connecting', 'connected', 'disconnected')]. *)
Definition statuses : list text :=
  [js "connecting"; js "connected"; js "disconnected"].

Definition isStatus (s : text) : bool := bool_decide (s ∈ statuses).

(** ** The statements *)

(** What a statement answers: nothing that the program reads, or the
    column [total] of the one row of the sum, [None] for [NULL]. *)
Inductive answer : Type :=
| Done
| Total (total : option Z).

#[export] Instance answer_eq_dec : EqDecision answer.
Proof. solve_decision. Defined.

Abbreviation answered := (outcome error answer * tables)%type.

(** The database refuses a statement: the store is as it was. *)
Definition refuse (reason : text) (d : tables) : answered :=
  (Throw (Error reason), d).

Definition noTable : text := js "Table doesn't exist".

(** [CREATE TABLE IF NOT EXISTS], for the entry [name] of the object
    [tables]: [whatsapp_messages] refers to [whatsapp_sessions]. *)
Definition createTable (name : text) (d : tables) : answered :=
  if decide (name = js "sessions") then
    (Ok Done, Tables (Some (default ∅ (whatsapp_sessions d)))
                     (whatsapp_messages d) (bot_analytics d))
  else if decide (name = js "messages") then
    match whatsapp_sessions d with
    | Some _ =>
      (Ok Done, Tables (whatsapp_sessions d)
                       (Some (default [] (whatsapp_messages d))) (bot_analytics d))
    | None => refuse (js "Failed to open the referenced table") d
    end
  else if decide (name = js "analytics") then
    (Ok Done, Tables (whatsapp_sessions d) (whatsapp_messages d)
                     (Some (default ∅ (bot_analytics d))))
  else refuse (js "Query was empty") d.

(** [INSERT INTO whatsapp_sessions (id, status) VALUES (?, ?)
    ON DUPLICATE KEY UPDATE status = ?, last_active = NOW()]. *)
Definition upsertSession (sessionId status : text) (d : tables) : answered :=
  match whatsapp_sessions d with
  | None => refuse noTable d
  | Some sessions =>
    if negb (isVarchar 255 sessionId) then refuse (js "Data too long") d else
    if negb (isStatus status) then refuse (js "Data truncated") d else
    let row := match sessions !! sessionId with
               | Some row => SessionRow status (messages_sent row)
               | None => SessionRow status 0
               end in
    (Ok Done, Tables (Some (<[sessionId := row]> sessions))
                     (whatsapp_messages d) (bot_analytics d))
  end.

(** [INSERT INTO whatsapp_messages (session_id, from_number,
    message_text, ai_reply) VALUES (?, ?, ?, ?)]. *)
Definition insertMessage (sessionId fromNumber messageText aiReply : text)
    (d : tables) : answered :=
  match whatsapp_messages d, whatsapp_sessions d with
  | Some messages, Some sessions =>
    if negb (isVarchar 255 sessionId && isVarchar 50 fromNumber
             && isText messageText && isText aiReply)
    then refuse (js "Data too long") d else
    match sessions !! sessionId with
    | None => refuse (js "Cannot add or update a child row") d
    | Some _ =>
      (Ok Done, Tables (whatsapp_sessions d)
                       (Some (messages ++
                              [MessageRow sessionId fromNumber messageText aiReply]))
                       (bot_analytics d))
    end
  | _, _ => refuse noTable d
  end.

(** [UPDATE whatsapp_sessions SET messages_sent = messages_sent + 1
    WHERE id = ?]; no row is no error. *)
Definition incrementSent (sessionId : text) (d : tables) : answered :=
  match whatsapp_sessions d with
  | None => refuse noTable d
  | Some sessions =>
    match sessions !! sessionId with
    | None => (Ok Done, d)
    | Some row =>
      if isInt (messages_sent row + 1) then
        (Ok Done,
         Tables (Some (<[sessionId := SessionRow (status row) (messages_sent row + 1)]>
                         sessions))
                (whatsapp_messages d) (bot_analytics d))
      else refuse (js "Out of range value") d
    end
  end.

(** [SUM(messages_sent)] over a table. *)
Definition sumOfSent (sessions : gmap text session_row) : Z :=
  map_fold (λ _ row sum, (messages_sent row + sum)%Z) 0%Z sessions.

(** [SELECT SUM(messages_sent) as total FROM whatsapp_sessions]: one
    row, with [NULL] for a table without rows. *)
Definition sumSent (d : tables) : answered :=
  match whatsapp_sessions d with
  | None => refuse noTable d
  | Some sessions =>
    (Ok (Total (if decide (sessions = ∅) then None else Some (sumOfSent sessions))), d)
  end.

(** [INSERT INTO bot_analytics (date, total_messages, active_sessions)
    VALUES (?, ?, ?) ON DUPLICATE KEY UPDATE total_messages = ?,
    active_sessions = ?]. *)
Definition upsertAnalytics (date : text) (totalMessages : Z) (activeSessions : nat)
    (d : tables) : answered :=
  match bot_analytics d with
  | None => refuse noTable d
  | Some analytics =>
    if isInt totalMessages && isInt (Z.of_nat activeSessions) then
      (Ok Done,
       Tables (whatsapp_sessions d) (whatsapp_messages d)
              (Some (<[date := AnalyticsRow totalMessages (Z.of_nat activeSessions)]>
                       analytics)))
    else refuse (js "Out of range value") d
  end.

(** [dbPool.execute(query, params)]. *)
Definition execute (q : db_query) (d : tables) : answered :=
  match q with
  | CreateTable name => createTable name d
  | UpsertSession sessionId status => upsertSession sessionId status d
  | InsertMessage sessionId fromNumber messageText aiReply =>
    insertMessage sessionId fromNumber messageText aiReply d
  | IncrementSent sessionId => incrementSent sessionId d
  | SumSent => sumSent d
  | UpsertAnalytics date totalMessages activeSessions =>
    upsertAnalytics date totalMessages activeSessions d
  end.

(** The rows of [whatsapp_messages]. *)
Definition rows (d : tables) : list message_row := default [] (whatsapp_messages d).

(** The message rows of a session. *)
Definition stored (sessionId : text) (d : tables) : list message_row :=
  filter (λ row, session_id row = sessionId) (rows d).

(** The session row of an id. *)
Definition saved (sessionId : text) (d : tables) : option session_row :=
  whatsapp_sessions d ≫= (.!! sessionId).

(** The store is consistent: every message row refers to a session
    row; the counter of a session is an [INT] that is not negative and
    not above the number of its message rows; the status of every
    session row is ['connected']. *)
Record consistent (d : tables) : Prop := Consistent {
  consistent_references :
    Forall (λ row, is_Some (saved (session_id row) d)) (rows d);
  consistent_counted : ∀ sessionId row,
    saved sessionId d = Some row →
    (0 ≤ messages_sent row ≤ intMax)%Z ∧
    (messages_sent row ≤ Z.of_nat (length (stored sessionId d)))%Z;
  consistent_status : ∀ sessionId row,
    saved sessionId d = Some row → status row = js "connected";
}.

(** ** The server on its database *)

(** What the handler of a statement was given when the database
    answers [r]. *)
Definition done (r : outcome error unit) : outcome error answer :=
  match r with Ok _ => Ok Done | Throw e => Throw e end.

Definition totalled (r : outcome error (option Z)) : outcome error answer :=
  match r with Ok total => Ok (Total total) | Throw e => Throw e end.

(** The handler saw the statement fail. *)
Definition failed (r : outcome error answer) : bool :=
  match r with Ok _ => false | Throw _ => true end.

(** One statement with the answer [r] that the handler was given: an
    answer that is not an error is the answer of the database. *)
Definition serve (r : outcome error answer) (q : db_query) (d : tables) :
    option tables :=
  match r with
  | Throw _ => Some d
  | Ok a =>
    match execute q d with
    | (Ok a', d') => if decide (a' = a) then Some d' else None
    | (Throw _, _) => None
    end
  end.

Section server.
Context {E : Type} {engine : ReplyEngine E}.
Context (MAX_SESSIONS SESSION_TIMEOUT : env_int) (FALLBACK_REPLY : option text).

(** The answer that an input carries for a statement. *)
Definition supplied (i : input) (q : db_query) : outcome error answer :=
  match i, q with
  | Start _ rs, CreateTable name => done (rs name)
  | GetApiStatus total, SumSent => totalled total
  | GetStatus _ _ total, SumSent => totalled total
  | ClientEvent _ (ReadyEvent save), UpsertSession _ _ => done save
  | ClientEvent _ (MessageCreate _ w), InsertMessage _ _ _ _ => done (insertResult w)
  | ClientEvent _ (MessageCreate _ w), IncrementSent _ => done (updateResult w)
  | AnalyticsJob _ total _, SumSent => totalled total
  | AnalyticsJob _ _ r, UpsertAnalytics _ _ _ => done r
  | _, _ => Throw (Error [])
  end.

(** The statements among the calls of a handler, on the store. *)
Fixpoint commit (sup : db_query → outcome error answer) (t : list act)
    (d : tables) : option tables :=
  match t with
  | [] => Some d
  | DbExecute q :: t' => d' ← serve (sup q) q d; commit sup t' d'
  | _ :: t' => commit sup t' d
  end.

(** A call that is no statement. *)
Definition quiet (a : act) : bool :=
  match a with
  | DbExecute _ => false
  | _ => true
  end.

(** [stores sup J m]: the statements that the handler [m] gives to the
    database, answered as [sup] says, keep the property [J] of the
    store. *)
Definition stores (sup : db_query → outcome error answer) (J : tables → Prop)
    {A} (m : handler (@SessionServer.server E) act error A) : Prop :=
  ∀ s d d', J d → commit sup (trace m s) d = Some d' → J d'.

(** The server and its database. *)
Record world : Type := World {
  server : @SessionServer.server E;
  database : tables;
}.

(** One input, when it can occur with the answers it carries. *)
Definition exec (i : input) (w : world) : option (world * list act) :=
  '(s, t) ← SessionServer.exec MAX_SESSIONS SESSION_TIMEOUT FALLBACK_REPLY i (server w);
  d ← commit (supplied i) t (database w);
  Some (World s d, t).

(** A sequence of inputs. *)
Fixpoint execs (ins : list input) (w : world) : option (world * list act) :=
  match ins with
  | [] => Some (w, [])
  | i :: ins' =>
    '(w', t) ← exec i w;
    '(w'', t') ← execs ins' w';
    Some (w'', t ++ t')
  end.

End server.

End Database.

(** ** The statements of a handler *)

Section stores.
Import SessionServer Database.
Context {E : Type} {engine : ReplyEngine E}.
Local Abbreviation act := (@act E engine).
Local Abbreviation M := (handler (@SessionServer.server E) act error).
Implicit Types (d : tables) (q : db_query) (sup : db_query → outcome error answer)
  (J : tables → Prop) (t : list act) (a : act).

Lemma commit_app sup t1 t2 d :
  commit sup (t1 ++ t2) d = commit sup t1 d ≫= commit sup t2.
Proof.
  revert d. induction t1 as [|a t1 IH]; intros d; [done|].
  destruct a; simpl; try apply IH.
  destruct (serve _ _ _); simpl; [apply IH | done].
Qed.

Lemma commit_quiet sup t d : Forall (λ a, quiet a = true) t → commit sup t d = Some d.
Proof.
  induction 1 as [|a t Ha _ IH]; [done|]. by destruct a.
Qed.

Lemma commit_cons sup q t d :
  commit sup (DbExecute q :: t) d = serve (sup q) q d ≫= commit sup t.
Proof. done. Qed.

Lemma commit_statement sup q d : commit sup [DbExecute q] d = serve (sup q) q d.
Proof. simpl. by destruct (serve _ _ _). Qed.

(** A statement that the handler saw fail left the store as it was. *)
Lemma serve_failed r q d : failed r = true → serve r q d = Some d.
Proof. by destruct r. Qed.

(** A statement that went through is the statement on the store. *)
Lemma serve_Ok r q d d' :
  serve r q d = Some d' →
  failed r = true ∧ d' = d ∨ ∃ x, r = Ok x ∧ execute q d = (Ok x, d').
Proof.
  destruct r as [x|e]; simpl; [|intros [= <-]; by left].
  destruct (execute q d) as [[x'|e] d1] eqn:Hq; [|done].
  case_decide; [|done]. intros [= <-]. right. exists x. by subst.
Qed.

Lemma stores_silent sup J {A} (m : M A) : (∀ s, trace m s = []) → stores sup J m.
Proof. intros Hm s d d' Hd. rewrite Hm. by intros [= <-]. Qed.

Lemma stores_ret sup J {A} (x : A) : stores sup J (ret x).
Proof. by apply stores_silent. Qed.

Lemma stores_throw sup J {A} (e : error) : stores sup J (@throw _ _ _ A e).
Proof. by apply stores_silent. Qed.

Lemma stores_get sup J : stores sup J get.
Proof. by apply stores_silent. Qed.

Lemma stores_await sup J {A} (r : outcome error A) : stores sup J (await r).
Proof. by apply stores_silent. Qed.

Lemma stores_modify sup J (f : SessionServer.server → SessionServer.server) :
  stores sup J (modify f).
Proof. by apply stores_silent. Qed.

Lemma stores_emit sup J a : quiet a = true → stores sup J (emit a).
Proof.
  intros Ha s d d' Hd. change (trace (emit a) s) with [a].
  rewrite commit_quiet by by constructor. by intros [= <-].
Qed.

Lemma stores_call sup J {A} a (r : outcome error A) :
  quiet a = true → stores sup J (call a r).
Proof.
  intros Ha s d d' Hd. change (trace (call a r) s) with [a].
  rewrite commit_quiet by by constructor. by intros [= <-].
Qed.

(** The rule of a statement: the statement keeps the property when the
    database accepts it. *)
Lemma stores_statement sup J {A} q (r : outcome error A) :
  (∀ d d' x, J d → sup q = Ok x → execute q d = (Ok x, d') → J d') →
  stores sup J (call (DbExecute q) r).
Proof.
  intros Hq s d d' Hd. change (trace (call (DbExecute q) r) s) with [DbExecute q].
  rewrite commit_statement. intros [[_ ->]|(x & Hx & Hd')]%serve_Ok; [done|].
  by eapply Hq.
Qed.

Lemma stores_bind sup J {A B} (m : M A) (k : A → M B) :
  stores sup J m → (∀ x, stores sup J (k x)) → stores sup J (m ≫= k).
Proof.
  intros Hm Hk s d d' Hd. specialize (Hm s d).
  unfold stores, trace, run, mbind, handler_bind, bind in *.
  destruct (m s) as [[[x|e] s1] t1]; simpl in *; [|by apply Hm].
  specialize (Hk x s1). destruct (k x s1) as [[r s2] t2]. simpl in *.
  rewrite commit_app. destruct (commit sup t1 d) as [d1|] eqn:H1; [|done].
  simpl. apply Hk. by apply Hm.
Qed.

Lemma stores_catch sup J {A} (m : M A) (h : error → M A) :
  stores sup J m → (∀ e, stores sup J (h e)) → stores sup J (catch m h).
Proof.
  intros Hm Hh s d d' Hd. specialize (Hm s d).
  unfold stores, trace, run, catch in *.
  destruct (m s) as [[[x|e] s1] t1]; simpl in *; [by apply Hm|].
  specialize (Hh e s1). destruct (h e s1) as [[r s2] t2]. simpl in *.
  rewrite commit_app. destruct (commit sup t1 d) as [d1|] eqn:H1; [|done].
  simpl. apply Hh. by apply Hm.
Qed.

Lemma stores_when sup J (c : bool) (m : M unit) :
  stores sup J m → stores sup J (when c m).
Proof. destruct c; [done | intros _; apply stores_ret]. Qed.

Lemma stores_forEach sup J {A} (xs : list A) (f : A → M unit) :
  (∀ x, stores sup J (f x)) → stores sup J (forEach xs f).
Proof.
  intros Hf. induction xs as [|x xs IH]; [apply stores_ret|].
  apply stores_bind; [apply Hf | done].
Qed.

(** The handlers of the registry and of the engine give no statement. *)
Lemma stores_zoom sup J {T Act' A} (proj : SessionServer.server → T)
    (inj : T → SessionServer.server → SessionServer.server) (emb : Act' → act)
    (m : handler T Act' error A) :
  (∀ x : Act', quiet (emb x) = true) → stores sup J (zoom proj inj emb m).
Proof.
  intros Hq s d d' Hd. unfold trace, run. rewrite zoom_run. simpl.
  rewrite commit_quiet; [by intros [= <-]|]. apply Forall_fmap, Forall_true. apply Hq.
Qed.

(** A property of the store that every handler keeps for the answers
    of its input is kept by the machine. *)
Lemma stores_commit sup J {A} (m : M A) s d d' :
  stores sup J m → J d → commit sup (trace m s) d = Some d' → J d'.
Proof. intros Hm. apply Hm. Qed.

End stores.

(** [stores_rules_with leaf] takes a [stores] judgment apart along the
    handler and leaves what [leaf] does not solve. *)
Ltac stores_rules_with leaf :=
  repeat first
    [ lazymatch goal with |- ∀ _, _ => intro end
    | leaf
    | apply stores_ret | apply stores_throw | apply stores_get
    | apply stores_await | apply stores_modify
    | apply stores_emit; reflexivity | apply stores_call; reflexivity
    | apply stores_zoom; reflexivity
    | apply stores_when | apply stores_forEach
    | apply stores_catch | apply stores_bind
    | lazymatch goal with
      | |- Database.stores _ _ (match _ with _ => _ end) => case_match
      | |- Database.stores _ _ (if _ then _ else _) => case_match
      end ].

(** ** The statements on the store *)

Section statements.
Import SessionServer Database.
Implicit Types (d : tables) (q : db_query) (id sid st : text) (x y : answer).

(** What a statement changes, read through [saved] and [rows]. *)
Definition effect q d d' : Prop :=
  match q with
  | UpsertSession sid st =>
    isStatus st = true ∧ rows d' = rows d ∧
    ∀ id, saved id d' =
          if decide (sid = id)
          then Some (SessionRow st (default 0%Z (messages_sent <$> saved sid d)))
          else saved id d
  | InsertMessage sid fromNumber messageText aiReply =>
    is_Some (saved sid d) ∧
    rows d' = rows d ++ [MessageRow sid fromNumber messageText aiReply] ∧
    ∀ id, saved id d' = saved id d
  | IncrementSent sid =>
    rows d' = rows d ∧
    (∀ row, saved sid d = Some row → isInt (messages_sent row + 1) = true) ∧
    ∀ id, saved id d' =
          if decide (sid = id)
          then (λ row, SessionRow (status row) (messages_sent row + 1)) <$> saved sid d
          else saved id d
  | _ => rows d' = rows d ∧ ∀ id, saved id d' = saved id d
  end.

Lemma execute_effect q d x d' : execute q d = (Ok x, d') → effect q d d'.
Proof.
  destruct d as [sessions messages analytics].
  destruct q; simpl;
    unfold createTable, upsertSession, insertMessage, incrementSent, sumSent,
           upsertAnalytics, refuse, rows, saved; simpl; intros Hq;
    repeat (case_match; simplify_eq/=); try done;
    repeat split; intros; rewrite ?lookup_insert;
    repeat case_decide; simplify_eq/=; try done.
  - by destruct sessions.
  - by apply negb_false_iff.
  - by apply negb_false_iff.
Qed.

(** A statement that is refused leaves the store as it was. *)
Lemma execute_refused q d e d' : execute q d = (Throw e, d') → d' = d.
Proof.
  destruct q; simpl;
    unfold createTable, upsertSession, insertMessage, incrementSent, sumSent,
           upsertAnalytics, refuse; intros Hq;
    repeat (case_match; simplify_eq/=); done.
Qed.

(** [consistent] reads the store through [saved] and [rows]. *)
Lemma consistent_ext d d' :
  (∀ id, saved id d' = saved id d) → rows d' = rows d → consistent d → consistent d'.
Proof.
  intros Hs Hr [H1 H2 H3]. split.
  - rewrite Hr. eapply Forall_impl; [done|]. intros row. by rewrite Hs.
  - intros id row. rewrite Hs. unfold stored. rewrite Hr. apply H2.
  - intros id row. rewrite Hs. apply H3.
Qed.

Lemma consistent_empty : consistent empty.
Proof. split; [by constructor | done..]. Qed.

Lemma stored_same id d d' : rows d' = rows d → stored id d' = stored id d.
Proof. unfold stored. by intros ->. Qed.

Lemma stored_app id d d' row :
  rows d' = rows d ++ [row] →
  length (stored id d') =
  length (stored id d) + (if decide (session_id row = id) then 1 else 0).
Proof.
  intros Hr. unfold stored. rewrite Hr, filter_app, length_app. f_equal.
  case_decide; [by rewrite filter_cons_True | by rewrite filter_cons_False].
Qed.

(** Every statement but the increment keeps the store consistent, when
    the status it writes is ['connected']. *)
Lemma execute_consistent q d x d' :
  execute q d = (Ok x, d') →
  (∀ sid st, q = UpsertSession sid st → st = js "connected") →
  (∀ sid, q ≠ IncrementSent sid) →
  consistent d → consistent d'.
Proof.
  intros Hq%execute_effect Hst Hinc [H1 H2 H3].
  destruct q as [name|sid st|sid fromNumber messageText aiReply|sid| |date n k];
    simpl in Hq; try (destruct Hq as [Hr Hs]; by apply (consistent_ext d)).
  - destruct Hq as (_ & Hr & Hs). split.
    + rewrite Hr. eapply Forall_impl; [done|]. intros row. rewrite Hs.
      by case_decide.
    + intros id row. rewrite Hs, (stored_same id d d' Hr).
      case_decide as Hid; [|apply H2]. subst id. intros [= <-]. simpl.
      destruct (saved sid d) as [row|] eqn:Hrow; simpl; [by apply H2|].
      unfold intMax. lia.
    + intros id row. rewrite Hs. case_decide; [|apply H3]. intros [= <-].
      by apply (Hst sid).
  - destruct Hq as (Hsaved & Hr & Hs). split.
    + rewrite Hr. apply Forall_app. split.
      * eapply Forall_impl; [done|]. intros row. by rewrite Hs.
      * constructor; [|done]. by rewrite Hs.
    + intros id row. rewrite Hs, (stored_app id d d' _ Hr). intros Hrow.
      destruct (H2 id row Hrow). split; [done|]. lia.
    + intros id row. rewrite Hs. apply H3.
  - by destruct (Hinc sid).
Qed.

(** The increment after the insertion of a row of the same session. *)
Lemma increment_consistent sid fromNumber messageText aiReply d x d1 y d2 :
  execute (InsertMessage sid fromNumber messageText aiReply) d = (Ok x, d1) →
  execute (IncrementSent sid) d1 = (Ok y, d2) →
  consistent d → consistent d2.
Proof.
  intros (Hsaved & Hr1 & Hs1)%execute_effect (Hr2 & Hint & Hs2)%execute_effect
    [H1 H2 H3].
  simpl in *. rewrite Hs1 in Hint. split.
  - rewrite Hr2, Hr1. apply Forall_app. split.
    + eapply Forall_impl; [done|]. intros row. rewrite Hs2, !Hs1.
      case_decide; [|done]. subst. intros [? ->]. by eexists.
    + constructor; [|done]. simpl. rewrite Hs2, decide_True, Hs1 by done.
      destruct Hsaved as [row0 ->]. by eexists.
  - intros id row. rewrite Hs2, !Hs1, (stored_same id d1 d2 Hr2),
      (stored_app id d d1 _ Hr1). simpl.
    case_decide as Hid.
    + subst id. destruct (saved sid d) as [row0|] eqn:Hrow; [|done].
      intros [= <-]. simpl. destruct (H2 sid row0 Hrow).
      specialize (Hint row0 eq_refl). unfold isInt, intMax in *. lia.
    + intros Hrow. destruct (H2 id row Hrow). lia.
  - intros id row. rewrite Hs2, !Hs1. case_decide; [|apply H3].
    destruct (saved sid d) as [row0|] eqn:Hrow; [|done]. intros [= <-]. simpl.
    by apply (H3 sid).
Qed.

End statements.

(** ** Every run keeps the store consistent *)

Create HintDb persistence discriminated.
#[export] Hint Unfold SessionServer.step SessionServer.init SessionServer.setupDatabase
  SessionServer.createTables SessionServer.saveSession
  SessionServer.getSystemStats SessionServer.getHealth SessionServer.getApiStatus
  SessionServer.postSendMessage SessionServer.notFound SessionServer.onConnection
  SessionServer.onGenerateQr SessionServer.createWhatsAppSession SessionServer.qrFailed
  SessionServer.resumeInitializing SessionServer.onGetStatus
  SessionServer.handleIncomingMessage SessionServer.onClientEvent
  SessionServer.registryHandler SessionServer.sessionHandler
  SessionServer.cleanupInactiveSessions SessionServer.cleanupEntry
  SessionServer.destroyClient SessionServer.updateDailyAnalytics
  SessionServer.gracefulShutdown SessionServer.closed SessionServer.resumeTask
  SessionServer.onSession SessionServer.generateReply SessionServer.inHandler
  : persistence.

Section saveMessage.
Import SessionServer Database.
Context {E : Type} {engine : ReplyEngine E}.
Implicit Types (d : tables) (sup : db_query → outcome error answer)
  (s : @SessionServer.server E) (sid : text).

(** The statements of [saveMessage], for the answers [r1] and [r2]. *)
Lemma saveMessage_trace sid fromNumber messageText aiReply r1 r2 s :
  trace (saveMessage sid fromNumber messageText aiReply r1 r2) s =
  if negb (dbPool s) then [] else
  DbExecute (InsertMessage sid fromNumber messageText aiReply) ::
  match r1 with
  | Ok _ => [DbExecute (IncrementSent sid)]
  | Throw _ => []
  end.
Proof.
  unfold saveMessage. handler_simpl.
  by destruct (dbPool s), r1 as [[]|?], r2 as [[]|?].
Qed.

(** [saveMessage] keeps the store consistent: the counter grows after
    the row is there. *)
Lemma stores_saveMessage sup sid fromNumber messageText aiReply r1 r2 :
  (∀ a b c e, sup (InsertMessage a b c e) = done r1) →
  (∀ a, sup (IncrementSent a) = done r2) →
  stores sup consistent (saveMessage sid fromNumber messageText aiReply r1 r2).
Proof.
  intros H1 H2 s d d' Hd. rewrite saveMessage_trace.
  destruct (dbPool s); cbn [negb]; [|by intros [= <-]].
  destruct r1 as [[]|e1].
  - rewrite commit_cons. intros (d1 & Hq1 & Hq2)%bind_Some.
    rewrite commit_statement in Hq2.
    apply serve_Ok in Hq1 as [[Hf _]|(x & _ & Hq1)]; [by rewrite H1 in Hf|].
    apply serve_Ok in Hq2 as [[_ ->]|(y & _ & Hq2)].
    + eapply execute_consistent; [done| |done..]; by intros.
    + by eapply increment_consistent.
  - rewrite commit_statement, H1. by intros [= <-].
Qed.

End saveMessage.

(** The statements of the handlers, for [consistent]. *)
Ltac consistent_leaf :=
  first
    [ apply stores_saveMessage; intros; reflexivity
    | apply stores_statement;
      let Hd := fresh in let Hq := fresh in
      intros ? ? ? Hd _ Hq;
      apply (execute_consistent _ _ _ _ Hq); [by intros ? ? [= _ <-] | done | done] ].

Section runs.
Import SessionServer Database.
Context {E : Type} {engine : ReplyEngine E}.
Context (MAX_SESSIONS SESSION_TIMEOUT : env_int) (FALLBACK_REPLY : option text).
Local Abbreviation step := (step MAX_SESSIONS SESSION_TIMEOUT FALLBACK_REPLY).
Local Abbreviation exec := (exec MAX_SESSIONS SESSION_TIMEOUT FALLBACK_REPLY).
Local Abbreviation execs := (execs MAX_SESSIONS SESSION_TIMEOUT FALLBACK_REPLY).
Implicit Types (i : input) (w : @world E) (J : tables → Prop).

Lemma step_consistent i : stores (supplied i) consistent (step i).
Proof.
  destruct i as [| | | | | | | | |h e| | | |]; try destruct e;
    simpl; autounfold with persistence; stores_rules_with consistent_leaf.
Qed.

End runs.

(** ** The machine *)

Section machine.
Import SessionServer Database.
Context {E : Type} {engine : ReplyEngine E}.
Context (MAX_SESSIONS SESSION_TIMEOUT : env_int) (FALLBACK_REPLY : option text).
Local Abbreviation step := (step MAX_SESSIONS SESSION_TIMEOUT FALLBACK_REPLY).
Local Abbreviation exec := (exec MAX_SESSIONS SESSION_TIMEOUT FALLBACK_REPLY).
Local Abbreviation execs := (execs MAX_SESSIONS SESSION_TIMEOUT FALLBACK_REPLY).
Implicit Types (i : input) (w : @world E) (J : tables → Prop) (d : tables)
  (id sid : text) (t : list (@act E engine)).

(** One input of the machine is a step of the server and the commit of
    its statements. *)
Lemma world_exec_Some i w w' t :
  exec i w = Some (w', t) →
  t = trace (step i) (server w) ∧ server w' = final (step i) (server w) ∧
  commit (supplied i) t (database w) = Some (database w').
Proof.
  unfold exec, SessionServer.exec. destruct (enabled i (server w)); [|done].
  simpl. destruct (commit _ _ _) as [d|] eqn:Hd; [|done]. by intros [= <- <-].
Qed.

Lemma exec_stores J i w w' t :
  stores (supplied i) J (step i) →
  exec i w = Some (w', t) → J (database w) → J (database w').
Proof. intros Hi (-> & _ & Hd)%world_exec_Some Hw. by eapply Hi. Qed.

Lemma world_execs_cons i ins w w'' t'' :
  execs (i :: ins) w = Some (w'', t'') →
  ∃ w' t t', exec i w = Some (w', t) ∧ execs ins w' = Some (w'', t') ∧ t'' = t ++ t'.
Proof.
  simpl. destruct (exec i w) as [[w' t]|]; [|done]. simpl.
  destruct (execs ins w') as [[w2 t']|] eqn:H2; [|done]. intros [= <- <-].
  by exists w', t, t'.
Qed.

Lemma execs_stores J ins w w' t :
  (∀ i, stores (supplied i) J (step i)) →
  execs ins w = Some (w', t) → J (database w) → J (database w').
Proof.
  intros Hi. revert w t. induction ins as [|i ins IH]; intros w t.
  - by intros [= <- <-].
  - intros (w1 & t1 & t2 & H1 & H2 & _)%world_execs_cons Hw.
    eapply IH; [done|]. by eapply exec_stores.
Qed.

(** A session without a row has no message rows. *)
Lemma consistent_unsaved d id : consistent d → saved id d = None → stored id d = [].
Proof.
  intros [H1 _ _] Hid. unfold stored.
  induction H1 as [|row rs [x Hrow] _ IH]; [done|].
  rewrite filter_cons_False; [done|]. intros <-. by rewrite Hid in Hrow.
Qed.

(** Only an accepted [INSERT INTO whatsapp_sessions] of an id gives the
    id a row. *)
Lemma commit_unsaved sup t d d' id :
  commit sup t d = Some d' → saved id d = None →
  (∀ st, DbExecute (UpsertSession id st) ∈ t →
         failed (sup (UpsertSession id st)) = true) →
  saved id d' = None.
Proof.
  revert d. induction t as [|a t IH]; intros d; [by intros [= <-]|].
  destruct a;
    try (intros Ht Hd Hup; apply (IH d Ht Hd); intros; apply Hup; by right).
  rewrite commit_cons. intros (d1 & Hq & Ht)%bind_Some Hd Hup.
  apply (IH d1 Ht); [|intros; apply Hup; by right].
  apply serve_Ok in Hq as [[_ ->]|(x & Hx & Hq%execute_effect)]; [done|].
  destruct q as [name|sid st|sid fromNumber messageText aiReply|sid| |date n k];
    simpl in Hq; try (destruct Hq as [_ Hs]; by rewrite Hs).
  - destruct Hq as (_ & _ & Hs). rewrite Hs. case_decide as Hid; [|done].
    subst sid. assert (failed (sup (UpsertSession id st)) = true) as Hf
      by (apply Hup; by left).
    by rewrite Hx in Hf.
  - destruct Hq as (_ & _ & Hs). by rewrite Hs.
  - destruct Hq as (_ & _ & Hs). rewrite Hs. case_decide; [|done]. subst sid.
    by rewrite Hd.
Qed.

(** The handlers that end a session give no statement. *)
Definition tearsDown i : bool :=
  match i with
  | ClientEvent _ (DisconnectedEvent _) | ClientEvent _ (AuthFailureEvent _)
  | CleanupJob _ | Signal | Resume _ _ | SocketDisconnect _ => true
  | _ => false
  end.

Lemma step_teardown i d : tearsDown i = true → stores (supplied i) (eq d) (step i).
Proof.
  destruct i as [| | | | | | | | |h e| | | |]; try destruct e; try done; intros _;
    simpl; autounfold with persistence; stores_rules_with fail.
Qed.

(** Only [createTables] creates a table. *)
Definition starts i : bool :=
  match i with
  | Start _ _ => true
  | _ => false
  end.

(** Without the table of the sessions, no statement of a handler stores
    a session or a message. *)
Definition unstored (messages : option (list message_row)) d : Prop :=
  whatsapp_sessions d = None ∧ whatsapp_messages d = messages.

Lemma execute_unstored q d x d' messages :
  (∀ name, q ≠ CreateTable name) →
  execute q d = (Ok x, d') → unstored messages d → unstored messages d'.
Proof.
  intros Hq Hx [Hs Hm]. destruct d as [sessions ms analytics]. simpl in *. subst.
  destruct q as [name|sid st|sid fromNumber messageText aiReply|sid| |date n k];
    simpl in Hx;
    unfold upsertSession, insertMessage, incrementSent, sumSent, upsertAnalytics,
           refuse in Hx; simpl in Hx;
    repeat (case_match; simplify_eq/=); try done.
  by destruct (Hq name).
Qed.

Lemma step_unstored i messages :
  starts i = false → stores (supplied i) (unstored messages) (step i).
Proof.
  destruct i as [| | | | | | | | |h e| | | |]; try destruct e; try done; intros _;
    simpl; autounfold with persistence; unfold saveMessage;
    stores_rules_with
      ltac:(apply stores_statement;
            let Hd := fresh in let Hq := fresh in
            intros ? ? ? Hd _ Hq;
            eapply execute_unstored; [|exact Hq|exact Hd]; done).
Qed.

End machine.

(** ** What the runs store *)

Section stored.
Import SessionServer Database.
Context {E : Type} {engine : ReplyEngine E}.
Context (MAX_SESSIONS SESSION_TIMEOUT : env_int) (FALLBACK_REPLY : option text).
Local Abbreviation step := (step MAX_SESSIONS SESSION_TIMEOUT FALLBACK_REPLY).
Local Abbreviation exec := (exec MAX_SESSIONS SESSION_TIMEOUT FALLBACK_REPLY).
Local Abbreviation execs := (execs MAX_SESSIONS SESSION_TIMEOUT FALLBACK_REPLY).
Implicit Types (i : input) (w : @world E) (d : tables) (id sid : text)
  (s : @SessionServer.server E) (t : list (@act E engine))
  (sup : db_query → outcome error answer).

(** C29: the store stays consistent.  Whatever the inputs of the server
    and the answers of the database, a run that starts with a
    consistent store ends with one: every row of whatsapp_messages
    refers to a row of whatsapp_sessions, the counter messages_sent of
    a session is between 0 and the largest INT and is not above the
    number of the message rows of the session, and the status of every
    session row is the one status that the program writes,
    'connected'. *)
Theorem database_consistent ins w w' t :
  execs ins w = Some (w', t) → consistent (database w) → consistent (database w').
Proof. apply execs_stores. intros i. apply step_consistent. Qed.


(** C32: the end of a session is not recorded.  The handlers of
    'disconnected' and 'auth_failure', the job that removes inactive
    sessions, the shutdown and the handlers that resume give no
    statement to the database: the store is as it was, and the row of
    the session keeps the status 'connected'. *)
Theorem teardown_not_recorded i w w' t :
  tearsDown i = true → exec i w = Some (w', t) → database w' = database w.
Proof.
  intros Hi Hx. symmetry.
  eapply (exec_stores _ _ _ (eq (database w))); [by apply step_teardown | done..].
Qed.

(** What saveMessage stores.  With a pool, a row for the session,
    the table of the messages, values that fit their columns and a
    counter below the largest INT, the database accepts both statements
    of saveMessage: the row is appended to whatsapp_messages, the
    counter of the session is one more, and the other session rows and
    the analytics are as they were. *)
Theorem saveMessage_stored sup sid fromNumber messageText aiReply s d row messages :
  dbPool s = true →
  (∀ a b c e, sup (InsertMessage a b c e) = Ok Done) →
  (∀ a, sup (IncrementSent a) = Ok Done) →
  whatsapp_messages d = Some messages → saved sid d = Some row →
  isVarchar 255 sid && isVarchar 50 fromNumber
    && isText messageText && isText aiReply = true →
  isInt (messages_sent row + 1) = true →
  ∃ d', commit sup (trace (saveMessage sid fromNumber messageText aiReply
                             (Ok tt) (Ok tt)) s) d = Some d' ∧
        whatsapp_messages d' =
          Some (messages ++ [MessageRow sid fromNumber messageText aiReply]) ∧
        saved sid d' = Some (SessionRow (status row) (messages_sent row + 1)) ∧
        (∀ id, id ≠ sid → saved id d' = saved id d) ∧
        bot_analytics d' = bot_analytics d.
Proof.
  intros Hpool H1 H2 Hm Hrow Hfit Hint. rewrite saveMessage_trace, Hpool.
  destruct d as [[sessions|] ? analytics]; simpl in *; [|done]. subst.
  rewrite H1, H2. simpl. unfold insertMessage, incrementSent, saved in *. simpl in *.
  rewrite Hfit, Hrow. simpl. rewrite Hrow, Hint. simpl.
  eexists. split; [done|]. simpl. split; [done|].
  split; [by rewrite lookup_insert_eq|]. split; [|done].
  intros id Hid. by rewrite lookup_insert_ne.
Qed.

(** C31: a table that createTables did not create is never created.
    createTables logs the failure of a CREATE TABLE and goes on, the
    pool stays, and no other handler creates a table: when the table of
    the sessions is missing, every input but the start leaves it
    missing and leaves the table of the messages as it is, so no
    session and no message is stored for the rest of the run. *)
Theorem missing_table_stays_missing i w w' t :
  starts i = false → exec i w = Some (w', t) →
  whatsapp_sessions (database w) = None →
  whatsapp_sessions (database w') = None ∧
  whatsapp_messages (database w') = whatsapp_messages (database w).
Proof.
  intros Hi Hx Hw.
  by eapply (exec_stores _ _ _ (unstored (whatsapp_messages (database w))));
    [by apply step_unstored | done |].
Qed.

(** At the largest [INT] the increment is refused. *)
Lemma incrementSent_refused sid d row :
  saved sid d = Some row → messages_sent row = intMax →
  ∃ e, execute (IncrementSent sid) d = (Throw e, d).
Proof.
  destruct d as [[sessions|] ? ?]; [|done]. unfold saved. simpl. intros Hrow Hmax.
  unfold incrementSent. simpl. rewrite Hrow, Hmax. by eexists.
Qed.

End stored.

(** ** Examples *)

Section database_examples.
Import SessionServer Database.

#[local] Existing Instance engineG.

Local Abbreviation exec := (exec None None None).
Local Abbreviation execs := (execs None None None).
Local Abbreviation step := (step None None None).
Local Abbreviation ran :=
  (option (@world GeminiEngine.state * list (@act GeminiEngine.state engineG))).

(** The server of the examples of [MultiServer] on a database without
    tables. *)
Definition installed : world := World created empty.

(** The pool connects and the three tables are created. *)
Definition start : input := Start (Ok tt) (λ _, Ok tt).

Definition readyA (save : outcome error unit) : input :=
  ClientEvent 0 (ReadyEvent save).

Definition helloA (w : inbound) : input := ClientEvent 0 (MessageCreate hello w).

(** The database refuses the row of the message. *)
Definition refused : inbound :=
  Inbound (Ok asha) 1000500 answeringWorld (Ok tt) (1 # 4) (Ok tt) 1000600 1000700
          (Throw (Error (js "Cannot add or update a child row"))) (Ok tt) (Ok tt).

(** A browser gets a session, the session is saved when it is ready,
    and a message is answered. *)
Definition online : list input :=
  [start; generateQrA; initializedA; readyA (Ok tt); helloA delivered].

(** The same, but the database was not reachable when the session got
    ready. *)
Definition unsaved : list input :=
  [start; generateQrA; initializedA; readyA (Throw (Error (js "ETIMEDOUT")))].

Definition rowA : session_row := SessionRow (js "connected") 1.

Definition exchange : message_row :=
  MessageRow sessionA (number asha) (js "hello") (js "Hi Asha!").

(** The store of a run. *)
Definition storeOf (r : ran) : option tables :=
  (λ x, database (fst x)) <$> r.

(** The bodies that a run responds with. *)
Definition responded (r : ran) : list response :=
  omap (λ a, match a with Respond _ b => Some b | _ => None end)
       (default [] (snd <$> r)).

(** The run stores the session and the exchange. *)
Example online_stored :
  storeOf (execs online installed) =
  Some (Tables (Some {[sessionA := rowA]}) (Some [exchange]) (Some ∅)).
Proof. vm_compute. reflexivity. Qed.

(** The session has no row: a run in which the exchange is stored does
    not exist, and the run in which the database refuses it stores
    nothing, although the reply was sent. *)
Example unsaved_not_stored :
  storeOf (execs (unsaved ++ [helloA delivered]) installed) = None ∧
  storeOf (execs (unsaved ++ [helloA refused]) installed) =
    Some (Tables (Some ∅) (Some []) (Some ∅)).
Proof. split; vm_compute; reflexivity. Qed.

(** The status counts the messages of sessions that are gone.  The
    session of the run is removed by the job for inactive sessions;
    GET /api/status then reports no active session and one message
    sent, the sum of the table, and the row of the session still says
    'connected'. *)
Example status_counts_past_sessions :
  let r := execs (online ++ [CleanupJob 9000000; GetApiStatus (Ok (Some 1%Z))])
                 installed in
  responded r = [Status (Stats 0 1)] ∧
  (storeOf r ≫= whatsapp_sessions) = Some {[sessionA := rowA]}.
Proof. split; vm_compute; reflexivity. Qed.

End database_examples.

(** ** The theorems on the runs of the examples *)

Section database_witnesses.
Import SessionServer Database.

#[local] Existing Instance engineG.

Local Abbreviation exec := (exec None None None).
Local Abbreviation execs := (execs None None None).
Local Abbreviation ran :=
  (option (@world GeminiEngine.state * list (@act GeminiEngine.state engineG))).

(** The run exists. *)
Definition ranOk (r : ran) : bool :=
  match r with
  | Some _ => true
  | None => false
  end.

(** One more input after a run. *)
Definition next (i : input) (r : ran) : ran := r ≫= (λ x, exec i (fst x)).

Example unsaved_store :
  storeOf (execs unsaved installed) = Some (Tables (Some ∅) (Some []) (Some ∅)).
Proof. vm_compute. reflexivity. Qed.

Example unsaved_refused : ranOk (next (helloA refused) (execs unsaved installed)) = true.
Proof. vm_compute. reflexivity. Qed.

Example online_cleanup : ranOk (next (CleanupJob 9000000) (execs online installed)) = true.
Proof. vm_compute. reflexivity. Qed.

Lemma database_consistent_witness :
  match execs online installed with
  | Some (w, _) => consistent (database w)
  | None => False
  end.
Proof.
  pose proof online_stored as Hs.
  destruct (execs online installed) as [[w t]|] eqn:Hx; [|done].
  apply (database_consistent None None None online installed w t Hx).
  apply consistent_empty.
Defined.


Lemma teardown_not_recorded_witness :
  match execs online installed with
  | Some (w, _) =>
    match exec (CleanupJob 9000000) w with
    | Some (w', _) => database w' = database w
    | None => False
    end
  | None => False
  end.
Proof.
  pose proof online_cleanup as Hr.
  destruct (execs online installed) as [[w t]|] eqn:H0; [|done].
  unfold next in Hr. cbn [mbind option_bind fst] in Hr.
  destruct (exec (CleanupJob 9000000) w) as [[w' t']|] eqn:Hx; [|done].
  apply (teardown_not_recorded None None None (CleanupJob 9000000) w w' t' eq_refl Hx).
Defined.

(** The database creates the table of the analytics only. *)
Definition halfStart : input :=
  Start (Ok tt)
    (λ name, if decide (name = js "analytics") then Ok tt
             else Throw (Error (js "ER_LOCK_DEADLOCK"))).

Definition halfInstalled : list input :=
  [halfStart; generateQrA; initializedA].

Definition timedOut : input := readyA (Throw (Error (js "Table doesn't exist"))).

Example half_store :
  storeOf (execs halfInstalled installed) = Some (Tables None None (Some ∅)).
Proof. vm_compute. reflexivity. Qed.

Example half_ready : ranOk (next timedOut (execs halfInstalled installed)) = true.
Proof. vm_compute. reflexivity. Qed.

Lemma missing_table_stays_missing_witness :
  match execs halfInstalled installed with
  | Some (w, _) =>
    match exec timedOut w with
    | Some (w', _) =>
      whatsapp_sessions (database w') = None ∧
      whatsapp_messages (database w') = whatsapp_messages (database w)
    | None => False
    end
  | None => False
  end.
Proof.
  pose proof half_store as Hs. pose proof half_ready as Hr.
  destruct (execs halfInstalled installed) as [[w t]|] eqn:H0; [|done].
  injection Hs as Hs. unfold next in Hr. cbn [mbind option_bind fst] in Hr, Hs.
  destruct (exec timedOut w) as [[w' t']|] eqn:Hx; [|done].
  apply (missing_table_stays_missing None None None timedOut w w' t' eq_refl Hx).
  by rewrite Hs.
Defined.

(** The store before the exchange of the run. *)
Definition savedA : tables :=
  Tables (Some {[sessionA := SessionRow (js "connected") 0]}) (Some []) (Some ∅).

Lemma saveMessage_stored_witness :
  ∃ d', commit (supplied (helloA delivered))
          (trace (saveMessage sessionA (number asha) (js "hello") (js "Hi Asha!")
                    (Ok tt) (Ok tt)) (setDbPool true created)) savedA = Some d' ∧
        whatsapp_messages d' = Some ([] ++ [exchange]) ∧
        saved sessionA d' = Some (SessionRow (js "connected") (0 + 1)) ∧
        (∀ id, id ≠ sessionA → saved id d' = saved id savedA) ∧
        bot_analytics d' = bot_analytics savedA.
Proof.
  apply (saveMessage_stored (supplied (helloA delivered)) sessionA (number asha)
           (js "hello") (js "Hi Asha!") (setDbPool true created) savedA
           (SessionRow (js "connected") 0) []);
    try reflexivity; intros; reflexivity.
Defined.

End database_witnesses.
