(* ===== verification/Deployment.v ===== *)
(** * The multi-session server with its engine

    [src/unnamed/part_002] builds its reply engine with [new AIReply()],
    the class of [src/unnamed/part_000].  [Bot] is [SessionServer] of
    [MultiServer] over the instance [aireply_engine] of [AIReplyEngine]:
    the composition that runs.

    [AIReply.generateReply] returns [null] for every message (the guard of
    its rate limiter never lets one through), so the server that is
    deployed answers nothing: a message is looked up, counted by the rate
    limit of the server and dropped, and only a failure of
    [message.getContact()] makes the server send anything, the fallback
    reply.  [bot_never_answers] states it over every run. *)

From Stdlib Require Import QArith.
From S2P Require Import Prelude Effects RateLimit Engine AIReplyEngine.
From S2P Require Import Registry MultiServer.
Local Close Scope Q_scope.

Module Bot.

Abbreviation server := (@SessionServer.server AIReply.state).

Section bot.
Context (cfg : AIReply.config).
Context (MAX_SESSIONS SESSION_TIMEOUT : env_int) (FALLBACK_REPLY : option text).

#[local] Instance engine : ReplyEngine AIReply.state := aireply_engine cfg.

Local Abbreviation act := (@SessionServer.act AIReply.state engine).

(** [new WhatsAppBotServer()], lines 17-35, up to the call of [init()]:
    [new AIReply()] throws without an API key, and so does the
    constructor. *)
Definition newServer : outcome error server :=
  match AIReply.create cfg with
  | Ok aiReply => Ok (SessionServer.create aiReply)
  | Throw e => Throw e
  end.

Definition step : SessionServer.input → handler server act error unit :=
  SessionServer.step MAX_SESSIONS SESSION_TIMEOUT FALLBACK_REPLY.

Definition runs : server → list act → server → Prop :=
  SessionServer.runs MAX_SESSIONS SESSION_TIMEOUT FALLBACK_REPLY.

(** The calls of a server that answers no message: no call of the
    engine, no typing state, no pause, no reply but the fallback reply,
    no [message_sent] and no statement of [saveMessage]. *)
Definition silent (a : act) : bool :=
  match a with
  | SessionServer.EngineCall _ | SessionServer.SendStateTyping _
  | SessionServer.Sleep _ => false
  | SessionServer.Reply _ reply =>
    bool_decide (reply = SessionServer.fallbackReply FALLBACK_REPLY)
  | SessionServer.SocketEmit _ (SessionServer.MessageSent _ _ _ _) => false
  | SessionServer.DbExecute (SessionServer.InsertMessage _ _ _ _)
  | SessionServer.DbExecute (SessionServer.IncrementSent _) => false
  | _ => true
  end.

(** The replies among the calls. *)
Definition replies (tr : list act) : list text :=
  omap (λ a, match a with SessionServer.Reply _ reply => Some reply | _ => None end) tr.

End bot.

End Bot.

(** ** The engine never leaves its first state and no session counts a
    message *)

Section mute.
Import SessionServer Bot.
Context (cfg : AIReply.config).
Context (MAX_SESSIONS SESSION_TIMEOUT : env_int) (FALLBACK_REPLY : option text).

Local Instance engine_cfg : ReplyEngine AIReply.state := Bot.engine cfg.
Local Abbreviation step := (Bot.step cfg MAX_SESSIONS SESSION_TIMEOUT FALLBACK_REPLY).
Local Abbreviation runs := (Bot.runs cfg MAX_SESSIONS SESSION_TIMEOUT FALLBACK_REPLY).
Local Abbreviation silent := (Bot.silent cfg FALLBACK_REPLY).
Local Abbreviation act := (@SessionServer.act AIReply.state (Bot.engine cfg)).
Implicit Types (s : server) (l h : nat) (o : session)
  (i : @input AIReply.state engine_cfg).

Definition mute s : Prop :=
  aiReply s = AIReply.init ∧ ∀ l o, heap s !! l = Some o → messagesSent o = 0%Z.

Definition quiet (a : act) : Prop := silent a = true.

Lemma newServer_Ok s : newServer cfg = Ok s → s = create AIReply.init.
Proof.
  unfold newServer, AIReply.create. by destruct (nonEmpty _); intros [= <-].
Qed.

(** Without [GEMINI_API_KEY] there is no server. *)
Lemma newServer_keyless :
  truthyOpt (AIReply.GEMINI_API_KEY cfg) = false →
  newServer cfg = Throw (Error (js "Gemini API key is required")).
Proof. unfold newServer, AIReply.create, truthyOpt. by intros ->. Qed.

Lemma mute_create : mute (create AIReply.init).
Proof. split; [done|]. intros l o. simpl. by rewrite lookup_empty. Qed.

Lemma mute_allocate o h s : messagesSent o = 0%Z → mute s → mute (allocate o h s).
Proof.
  intros Ho [He Hh]. split; [done|]. simpl. intros l o'.
  intros [[_ <-]|[_ ?]]%lookup_insert_Some; [done | by eapply Hh].
Qed.

Lemma mute_alter l (f : session → session) s :
  (∀ o, messagesSent (f o) = messagesSent o) → mute s → mute (setHeap (alter f l) s).
Proof.
  intros Hf [He Hh]. split; [done|]. simpl. intros l' o'.
  destruct (decide (l' = l)) as [->|Hne].
  - rewrite lookup_alter_eq. destruct (heap s !! l) as [o|] eqn:Ho; [|done].
    intros [= <-]. rewrite Hf. by eapply Hh.
  - rewrite lookup_alter_ne by done. apply Hh.
Qed.

(** A message: the contact is asked for, and the fallback reply is sent
    when that fails. *)
Lemma guards_message w m l :
  guards mute quiet (handleIncomingMessage FALLBACK_REPLY w m l).
Proof.
  intros s [He Hh]. unfold final, trace.
  destruct (contactResult w) as [c|e] eqn:Hc.
  - destruct (ServerLimit.rateLimitGate (now w) (number c) (rateLimits s))
      as [rl|] eqn:Hrl.
    + assert (run (asked w m c) (aiReply s) = (Ok None, AIReply.init, [])) as Hrun
        by (rewrite He; apply generateReply_run_init).
      rewrite (handleIncomingMessage_unanswered FALLBACK_REPLY w m l s c rl None)
        by (unfold result; by rewrite ?Hrun).
      unfold final, trace. rewrite Hrun. simpl.
      split; [by split | by apply Forall_singleton].
    + rewrite (handleIncomingMessage_limited FALLBACK_REPLY w m l s c) by done.
      split; [by split | by apply Forall_singleton].
  - rewrite (handleIncomingMessage_fallback FALLBACK_REPLY w m l s e) by done.
    split; [by split|]. repeat constructor. unfold quiet. simpl.
    by apply bool_decide_eq_true.
Qed.

Ltac mute_leaf :=
  first
    [ apply guards_message
    | apply guards_inHandler; [by intros ? ? [? ?] | done]
    | apply guards_forEach
    | apply guards_emit; done
    | apply guards_call; done
    | apply guards_modify; intros ? ?;
      first [ by apply mute_allocate
            | by apply mute_alter
            | by match goal with H : mute _ |- _ => destruct H end ] ].

Lemma guards_sessionHandler e li : guards mute quiet (sessionHandler FALLBACK_REPLY e li).
Proof.
  destruct e; simpl; handler_rules_with mute_leaf.
Qed.

Lemma guards_onClientEvent h e : guards mute quiet (onClientEvent FALLBACK_REPLY h e).
Proof.
  unfold onClientEvent, registryHandler.
  handler_rules_with ltac:(first [ apply guards_forEach; intros; apply guards_sessionHandler
                                 | mute_leaf ]).
Qed.

Lemma guards_step i : guards mute quiet (step i).
Proof.
  destruct i; unfold Bot.step; simpl;
    first [ apply guards_onClientEvent
          | autounfold with multi; handler_rules_with mute_leaf ].
Qed.

(** C14: the server of [part_002] with the engine it is built with
    answers no message.  In every run from the state after the
    constructor the engine is never asked to complete anything, no typing
    state and no reply other than the fallback reply is sent, no
    [message_sent] reaches a browser and no message is saved; the engine
    is in its first state and every session has sent 0 messages. *)
Theorem bot_never_answers s0 tr s :
  newServer cfg = Ok s0 → runs s0 tr s →
  Forall (λ a, silent a = true) tr ∧ aiReply s = AIReply.init ∧
  ∀ l o, heap s !! l = Some o → messagesSent o = 0%Z.
Proof.
  intros ->%newServer_Ok Hr.
  destruct (runs_guards MAX_SESSIONS SESSION_TIMEOUT FALLBACK_REPLY mute quiet
              _ tr s guards_step Hr mute_create) as [[He Hh] Htr].
  done.
Qed.

End mute.

(** ** Examples *)

Section examples.
Import SessionServer Bot.

Local Instance bot_engine0 : ReplyEngine AIReply.state := Bot.engine cfg0.
Local Abbreviation step := (Bot.step cfg0 None None None).
Local Abbreviation runs := (Bot.runs cfg0 None None None).
Local Abbreviation execs := (SessionServer.execs None None None).

(** A contact writes to a session that is ready, and the service would
    answer. *)
Definition greeted : inbound :=
  Inbound (Ok asha) 1000500 answering (Ok tt) (1 # 4) (Ok tt) 1000600 1000700
          (Ok tt) (Ok tt) (Ok tt).

(** [getContact()] fails. *)
Definition unknown : inbound :=
  Inbound (Throw (Error (js "Evaluation failed"))) 1000500 answering (Ok tt) (1 # 4)
          (Ok tt) 1000600 1000700 (Ok tt) (Ok tt) (Ok tt).

Definition visit (w : inbound) : list input :=
  [GenerateQr browser sessionA true (Ok tt) 1000;
   Resume (Initializing 0 sessionA browser true) (Ok tt);
   ClientEvent 0 (ReadyEvent (Ok tt));
   ClientEvent 0 (MessageCreate hello w)].

Definition fresh : server := create AIReply.init.

Definition ready : server :=
  final (step (GenerateQr browser sessionA true (Ok tt) 1000)) fresh.

Lemma bot_never_answers_witness :
  Forall (λ a, silent cfg0 None a = true)
    (trace (step (GenerateQr browser sessionA true (Ok tt) 1000)) fresh ++ []) ∧
  aiReply ready = AIReply.init ∧
  ∀ l o, heap ready !! l = Some o → messagesSent o = 0%Z.
Proof.
  apply (bot_never_answers cfg0 None None None fresh); [reflexivity|].
  eapply (runs_step None None None fresh
            (GenerateQr browser sessionA true (Ok tt) 1000));
    [reflexivity | constructor].
Defined.

(** The message of the contact is dropped: no reply, and the session is
    ready with no message sent. *)
Lemma bot_drops_message :
  (λ r, (replies cfg0 r.2, acknowledged r.2,
         (λ o, (isReady o, messagesSent o)) <$> heap r.1 !! 0)) <$>
    execs (visit greeted) fresh =
  Some ([], [QrSuccess sessionA], Some (true, 0%Z)).
Proof. vm_compute. reflexivity. Qed.

(** The only reply the server ever sends. *)
Lemma bot_apologises :
  (λ r, replies cfg0 r.2) <$> execs (visit unknown) fresh =
  Some [js "Sorry, I encountered an issue. Please try again."].
Proof. vm_compute. reflexivity. Qed.

End examples.
